(* ===== verification/_CoqProject ===== *)
-Q . S2P
Prelude.v
Memory.v
Queue.v
QueueFamilies.v
QueueProofs.v
QueueInstances.v
Mmu.v
Cstring.v
Console.v
Terminal.v
Map.v
AllocProofs.v
Walk.v
MapWf.v
LookupProofs.v
InsertProofs.v
KmapProofs.v
Gdt.v
Context.v
Task.v
SchedProofs.v
DestroyProofs.v
TaskProofs.v
Syscall.v
ForkProofs.v
Thread.v
Monitor.v
Interrupt.v
FaultProofs.v
IsolationProofs.v
TrapProofs.v
LoadProofs.v
CreateProofs.v
ThreadProofs.v
MonitorProofs.v
SystemProofs.v
InitProofs.v
Demo.v
Ata.v
AtaTheorems.v
Boot.v
BootTheorems.v
BootEntry.v
Loader.v
LoaderProofs.v
LoaderTheorems.v
Kernel.v
KernelTheorems.v
TakeoverProofs.v
QueueTheorems.v
LibTheorems.v
ScreenTheorems.v
TermTypes.v
MemTheorems.v
TaskTheorems.v
ProcTheorems.v
SystemTheorems.v
LoadDemo.v
HandedDemo.v
StartTheorems.v
MainTheorems.v
User.v
Process.v
ProgramProofs.v
Session.v
UserTheorems.v
