(* ===== verification/Prelude.v ===== *)
(** * Ann: a verification development

    Ann is a small operating system for AMD64 (src/src/): a boot sector, a
    second-stage loader, a kernel with demand copying of forked address spaces,
    round-robin scheduling, interrupts, a VGA console with a command monitor,
    a C library shared with user programs, and a set of test programs.  This
    library models the C code as executable functions and proves it correct,
    from the list macros up to a refinement theorem: user programs on the
    kernel behave as processes with private memories.

    ** The program and its model

    The boot sector (kernel/boot/boot.S, main.c) collects the memory map of the
    BIOS and reads the loader from disk with the ATA driver
    (kernel/lib/disk/ata.c); the loader (kernel/loader/loader.c) reads the
    kernel, builds its page tables and page array and enters long mode; the
    kernel (kernel/kernel.c) takes these over, initialises its components and
    schedules tasks.  From then on code runs only in interrupt handlers
    (kernel/interrupt/interrupt.c), which call the task manager (kernel/task.c),
    the system calls (kernel/syscall.c), the page manager
    (kernel/lib/memory/map.c) and, for the keyboard, the monitor
    (kernel/monitor.c).

    A C function is a computation of the state and error monad [M] below: it
    returns its value and the new state, or [EPanic] (an assertion or [panic]),
    [EUndef] (a NULL pointer or an index outside an array) or [EFuel] (the bound
    of a loop on hardware or user data was reached).  [wp] is total correctness,
    [wpe] a result or an error with a stated cause.  Integers are [Z] with the
    wrap-around of their width written out ([u8] .. [u64], [i8] .. [i64]); memory
    is a function from physical addresses to bytes (Memory.v), and page tables
    are bytes in it.

    The files, in dependency order, with the code each one models:
    - Prelude: the monad, machine widths, loops, [wp], automation, hint database;
      Memory: byte memory, little-endian access, block fill and move.
    - Queue: the LIST macros of stdlib/queue.h on links as the code has them,
      and [lrep], the list they represent; QueueFamilies: the other families of
      queue.h, with QueueProofs, QueueInstances (one interface of operations
      and laws, an instance per family) and QueueTheorems.
    - Mmu: mmu.h, layout.h, util.h.  Cstring: stdlib/string.c, stdlib/stdlib.c.
    - Console: the interface [Console]/[ConsoleLaws] through which the kernel
      prints, and the text [format] a printf call stands for; Terminal:
      terminal.c, which implements it.
    - Map: map.c.  Walk: the processor's translation [translate], which is the
      specification of map.c.  MapWf: the invariant [wf] of page tables and
      counters, over ghost labels of the tables.  AllocProofs, LookupProofs,
      InsertProofs, KmapProofs: every operation of map.c preserves it and does
      what it should to [translate].
    - Gdt: misc/gdt.h and the processor's reading of descriptors.  Context:
      interrupt_entry.S and the restoring code of [task_run], as instructions of
      a small machine.
    - Task: task.c; SchedProofs (schedule), DestroyProofs (the four loops of
      task_destroy), TaskProofs (the invariant [kwf] of the task table).
    - Syscall: syscall.c; ForkProofs.  Thread: thread.c.  Monitor: monitor.c.
    - Interrupt: interrupt.c, timer.c, keyboard.c; FaultProofs (copy on write).
    - IsolationProofs: what a task can observe of the kernel's state (its bytes,
      rights, registers) and that the operations keep it for other tasks.
    - TrapProofs, MonitorProofs: the invariant [kinv] of the running system and
      that every handler keeps it, with its effect on every task.
    - LoadProofs, CreateProofs, ThreadProofs: loading ELF segments, creating
      tasks and threads.  InitProofs: [interrupt_init] and the state [booted]
      after [kernel_init_mmap].
    - SystemProofs: [interrupt_handler] as a whole, the steps of the machine
      (interrupts and stores of user programs) and the reachable states.
    - Demo, LoadDemo: a small concrete machine and a program image in it, used
      to instantiate the theorems.
    - Ata: ata.c against the class [AtaDevice]/[AtaLaws] of drives, with a
      concrete drive in AtaTheorems.  Boot: boot/main.c.  BootEntry: boot.S as
      instructions of a small machine, and the whole boot sector.  Loader:
      loader.c; LoaderProofs.  Kernel: kernel.c, cpu.c.
    - TakeoverProofs: the memory the loader hands over ([handed]) and that
      [kernel_init_mmap] turns it into [booted]; HandedDemo: such a memory.
    - TermTypes: the types and bounds of the terminal's state.
    - User: the programs of user/ as interaction trees whose events are the
      instruction [int], loads and stores.  Process: a world of processes with
      private memories, without a kernel.  ProgramProofs: what a program prints
      as a process, one rule per event.  Session: the machine with a program in
      every task, and the simulation of its steps by the world of Process.
    - the files ending in Theorems hold the theorems and their instances.

    ** What the theorems show

    - UserTheorems: every run of user programs on the kernel is a run of the
      world of processes; what a program prints there it prints on the kernel,
      under any schedule; what each test program prints and how it ends.
    - SystemTheorems: in every state reachable by interrupts and user stores the
      invariant holds; a store of one task is seen by no other; an interrupt
      leaves memory and registers of the tasks as they were, except as the
      system call, fault or command asks; every interrupt resumes a task or
      stops for one of the listed reasons.
    - MainTheorems: kernel_init_mmap takes over the loader's page tables,
      configuration and page array; kernel_main, from its first instruction,
      leads into the states of SystemTheorems or panics.
    - StartTheorems: task_create, thread_create, interrupt_init, and the rest of
      kernel_main after kernel_init_mmap; a kernel thread whose function returns
      stops the machine.
    - ProcTheorems, TaskTheorems: fork gives a copy-on-write image or undoes
      everything; a write fault gives a private copy; task_destroy returns the
      whole address space and nothing else; schedule picks the first READY task
      in cyclic order and passes over a READY task at most 1023 times.
    - MemTheorems: insert, remove, lookup and the reference counters against the
      processor's translation.
    - Context: the entry stubs save exactly the interrupted state and task_run
      restores it.  Gdt: descriptors are read as they were built.  TermTypes:
      every operation of the terminal keeps its types and stays in the buffer.
    - ScreenTheorems, LibTheorems: the screen shows the last rows of the printed
      text, output never touches the command line; the list macros implement
      lists; string functions; address layout.
    - AtaTheorems, BootTheorems, LoaderTheorems, KernelTheorems: polling ends
      with the drive's first decisive status; reads copy the right sectors; the
      boot sector, from its first instruction (BootEntry), stores the memory map,
      enters protected mode and loads the loader; the loader finds the memory, lists the
      available pages, maps its sections, builds the descriptors and sets the
      control registers; the kernel widens the page array in place.

    ** Bounds and fuel

    Loops over arrays and tables are loops over their index lists, so they need
    no fuel.  The number of digits of a printed number is at most 64
    ([show_u_value] shows that is enough).  Polling the drive has a fuel argument
    that the laws of the drive bound; segment loads use [segment_fuel], which is
    the number of sectors.  Program headers are at most 65536 since the count is
    16 bits wide.  The string of the puts system call is read up to 65536
    characters; a longer one is reported as [EFuel].  The memory map of the BIOS
    has at most [record_max] records, more than the 16-bit offset can address;
    the keyboard controller is polled [poll_max] times, which the theorem bounds.

    ** Assumptions

    Translation caches are coherent with the tables except as the code flushes
    them (map.c's invlpg calls are logged); the processor's accessed and dirty
    bits are not modelled; one processor, interrupts disabled inside handlers, as
    the code sets them up.  Addresses chosen by the linker, the result of cpuid,
    the BIOS and the contents of the disk are parameters.

    ** Not modelled

    - loader/entry.S and loader/long_mode.S, which set the stack and the segment
      registers and jump; the GDT register that kernel_init_mmap reloads.
    - The step from loader_main to [handed].  The loader's mappings, page list
      and descriptors are verified one by one (LoaderTheorems), but the run as a
      whole has no defined result to start from: with less than 4 GB of memory
      it accesses the page array out of bounds for the APIC page
      ([map_section_out_of_bounds]), with more than 2 GB its page2pa gives wrong
      addresses ([page2pa_sign_extends]).  So [handed] is the hypothesis of the
      theorems about kernel_main.
    - The stack of a kernel thread while it runs; the values user programs keep
      in registers across interrupts are the saved contexts (Context, and the
      isolation theorems), not part of the programs of User.
    - rdmsr, wrmsr, rrsp of asm.h and the constants of device headers that no
      code uses. *)

From Stdlib Require Export ZArith Lia.
From stdpp Require Export base list functions strings numbers sets gmap.

(** Unbounded integers are [Z]; every machine integer of the C code is a [Z]
    together with the wrap-around of its width, written out where the code
    stores or converts it. *)
Global Open Scope Z_scope.

(** ** Machine widths *)

Definition u8 (z : Z) : Z := z mod 2 ^ 8.
Definition u16 (z : Z) : Z := z mod 2 ^ 16.
Definition u32 (z : Z) : Z := z mod 2 ^ 32.
Definition u64 (z : Z) : Z := z mod 2 ^ 64.

(** Two's complement reading of the low [w] bits. *)
Definition sext (w z : Z) : Z :=
  let r := z mod 2 ^ w in if r <? 2 ^ (w - 1) then r else r - 2 ^ w.

Definition i8 (z : Z) : Z := sext 8 z.
Definition i32 (z : Z) : Z := sext 32 z.
Definition i64 (z : Z) : Z := sext 64 z.

(** A C condition [x & mask] tested against zero. *)
Definition has_flag (x mask : Z) : bool := negb (Z.land x mask =? 0).

(** ** Outcomes and the state/error monad *)

(** [EPanic]: the code called [panic] (directly or through [assert]) and spins.
    [EUndef]: the code dereferenced NULL or indexed outside an array.
    [EFuel]: the bound given to a polling loop was reached. *)
Inductive err := EPanic | EUndef | EFuel.

Inductive res (A : Type) :=
| Ok (a : A)
| Err (e : err).
Arguments Ok {A} _.
Arguments Err {A} _.

#[global] Instance err_eq_dec : EqDecision err.
Proof. solve_decision. Defined.

(** A computation over a state [S]: the C function's return value and the new
    state, or the way it failed. *)
Definition M (S A : Type) : Type := S → res (A * S).

#[global] Instance M_ret {S} : MRet (M S) := λ A a s, Ok (a, s).
#[global] Instance M_bind {S} : MBind (M S) := λ A B f m s,
  match m s with
  | Ok (a, s') => f a s'
  | Err e => Err e
  end.

Definition fail {S A} (e : err) : M S A := λ _, Err e.
Definition get {S} : M S S := λ s, Ok (s, s).
Definition put {S} (s : S) : M S () := λ _, Ok ((), s).
Definition modify {S} (f : S → S) : M S () := λ s, Ok ((), f s).
Definition gets {S A} (f : S → A) : M S A := λ s, Ok (f s, s).
Definition massert {S} (b : bool) : M S () := if b then mret () else fail EPanic.

(** Dereference of a possibly NULL pointer. *)
Definition deref {S A} (o : option A) : M S A :=
  match o with Some a => mret a | None => fail EUndef end.

(** A C [for] loop over the given indices, in order. *)
Fixpoint mfor {S A} (l : list A) (body : A → M S ()) : M S () :=
  match l with
  | [] => mret ()
  | a :: l' => body a ;; mfor l' body
  end.

(** A C [for] loop whose body may [return]: [Some r] leaves the loop with [r]. *)
Fixpoint mfor_ret {S A R} (l : list A) (body : A → M S (option R)) : M S (option R) :=
  match l with
  | [] => mret None
  | a :: l' => r ← body a; match r with Some _ => mret r | None => mfor_ret l' body end
  end.

(** Indices [a, a+1, ..., a+n-1] as integers. *)
Fixpoint zseq (a : Z) (n : nat) : list Z :=
  match n with
  | O => []
  | S n' => a :: zseq (a + 1) n'
  end.

(** Run a computation of a component inside a larger state. *)
Definition zoom {S T A} (view : S → T) (upd : T → S → S) (m : M T A) : M S A := λ s,
  match m (view s) with
  | Ok (a, t) => Ok (a, upd t s)
  | Err e => Err e
  end.

(** ** Total-correctness triples *)

(** [wp m Q s]: started in [s], [m] returns (no panic, no undefined
    behaviour, no exhausted bound) and its result satisfies [Q]. *)
Definition wp {S A} (m : M S A) (Q : A → S → Prop) (s : S) : Prop :=
  match m s with
  | Ok (a, s') => Q a s'
  | Err _ => False
  end.

Section wp_rules.
Context {S A B : Type}.
Implicit Types (s : S).

Lemma wp_ret (a : A) Q s : Q a s → wp (mret a) Q s.
Proof. done. Qed.

Lemma wp_bind (m : M S A) (f : A → M S B) Q s :
  wp m (λ a, wp (f a) Q) s → wp (m ≫= f) Q s.
Proof. unfold wp, mbind, M_bind. by destruct (m s) as [[a s']|e]. Qed.

Lemma wp_mono (m : M S A) (Q R : A → S → Prop) s :
  wp m Q s → (∀ a s', Q a s' → R a s') → wp m R s.
Proof. unfold wp. destruct (m s) as [[a s']|e]; auto. Qed.

Lemma wp_get (Q : S → S → Prop) s : Q s s → wp get Q s.
Proof. done. Qed.

Lemma wp_gets (f : S → A) (Q : A → S → Prop) s : Q (f s) s → wp (gets f) Q s.
Proof. done. Qed.

Lemma wp_modify (f : S → S) (Q : () → S → Prop) s : Q () (f s) → wp (modify f) Q s.
Proof. done. Qed.

Lemma wp_massert b (Q : () → S → Prop) s : b = true → Q () s → wp (massert b) Q s.
Proof. by intros ->. Qed.

Lemma wp_deref (o : option A) a (Q : A → S → Prop) s :
  o = Some a → Q a s → wp (deref o) Q s.
Proof. by intros ->. Qed.

Lemma wp_ok (m : M S A) (Q : A → S → Prop) s :
  wp m Q s ↔ ∃ a s', m s = Ok (a, s') ∧ Q a s'.
Proof.
  unfold wp. destruct (m s) as [[a s']|e]; split; try done.
  - eauto.
  - by intros (? & ? & [= <- <-] & ?).
  - by intros (? & ? & ? & ?).
Qed.

Lemma wp_eq (m : M S A) (Q : A → S → Prop) s a s' :
  m s = Ok (a, s') → Q a s' → wp m Q s.
Proof. unfold wp. by intros ->. Qed.
End wp_rules.

Lemma wp_zoom {S T A} (view : S → T) (upd : T → S → S) (m : M T A) Q s :
  wp m (λ a t, Q a (upd t s)) (view s) → wp (zoom view upd m) Q s.
Proof. unfold wp, zoom. by destruct (m (view s)) as [[a t]|e]. Qed.

(** [wpe m Q E s]: [m] returns a result that satisfies [Q] or stops with an
    error that satisfies [E]. *)
Definition wpe {S A} (m : M S A) (Q : A → S → Prop) (E : err → Prop) (s : S) : Prop :=
  match m s with
  | Ok (a, s') => Q a s'
  | Err e => E e
  end.

Section wpe_rules.
Context {S A B : Type} (E : err → Prop).
Implicit Types (s : S).

Lemma wpe_wp (m : M S A) Q s : wp m Q s → wpe m Q E s.
Proof. unfold wp, wpe. by destruct (m s) as [[a s']|e]. Qed.

Lemma wpe_bind (m : M S A) (f : A → M S B) Q s : wpe m (λ a, wpe (f a) Q E) E s → wpe (m ≫= f) Q E s.
Proof. unfold wpe, mbind, M_bind. by destruct (m s) as [[a s']|e]. Qed.

(** A first step that cannot fail. *)
Lemma wpe_step (m : M S A) (f : A → M S B) Q s : wp m (λ a, wpe (f a) Q E) s → wpe (m ≫= f) Q E s.
Proof. intros H. by apply wpe_bind, wpe_wp. Qed.

Lemma wpe_mono (m : M S A) (Q R : A → S → Prop) (F : err → Prop) s :
  wpe m Q F s → (∀ a s', Q a s' → R a s') → (∀ e, F e → E e) → wpe m R E s.
Proof. unfold wpe. destruct (m s) as [[a s']|e]; auto. Qed.
End wpe_rules.

Lemma wpe_elim {S A} (m : M S A) Q E s :
  wpe m Q E s → match m s with Ok (a, s') => Q a s' | Err e => E e end.
Proof. done. Qed.

Lemma wpe_zoom {S T A} (view : S → T) (upd : T → S → S) (m : M T A) Q E s :
  wpe m (λ a t, Q a (upd t s)) E (view s) → wpe (zoom view upd m) Q E s.
Proof. unfold wpe, zoom. by destruct (m (view s)) as [[a t]|e]. Qed.

(** Loop rule: an invariant indexed by the elements already processed. *)
Lemma wp_mfor {S A} (l : list A) (body : A → M S ()) (I : list A → S → Prop)
    (Q : () → S → Prop) s :
  I [] s →
  (∀ done a rest s', l = done ++ a :: rest → I done s' →
     wp (body a) (λ _ s'', I (done ++ [a]) s'') s') →
  (∀ s', I l s' → Q () s') →
  wp (mfor l body) Q s.
Proof.
  intros H0 Hstep HQ.
  assert (∀ rest dn s', l = dn ++ rest → I dn s' → wp (mfor rest body) Q s') as Hgen.
  { induction rest as [|a rest IH]; intros dn s' Hl HI; simpl.
    - apply wp_ret, HQ. by rewrite Hl, app_nil_r.
    - apply wp_bind. eapply wp_mono; [by eapply Hstep|].
      intros [] s'' HI'. apply (IH (dn ++ [a])); [|done].
      by rewrite <- app_assoc. }
  by apply (Hgen l []).
Qed.

(** The same for a loop whose body may return from the function. *)
Lemma wp_mfor_ret {S A R} (l : list A) (body : A → M S (option R)) (I : list A → S → Prop)
    (Q : option R → S → Prop) s :
  I [] s →
  (∀ done a rest s', l = done ++ a :: rest → I done s' →
     wp (body a) (λ r s'', match r with None => I (done ++ [a]) s'' | Some v => Q (Some v) s'' end) s') →
  (∀ s', I l s' → Q None s') →
  wp (mfor_ret l body) Q s.
Proof.
  intros H0 Hstep HQ.
  assert (∀ rest dn s', l = dn ++ rest → I dn s' → wp (mfor_ret rest body) Q s') as Hgen.
  { induction rest as [|a rest IH]; intros dn s' Hl HI; simpl.
    - apply wp_ret, HQ. by rewrite Hl, app_nil_r.
    - apply wp_bind. eapply wp_mono; [by eapply Hstep|].
      intros [v|] s'' HI'; [done|]. apply (IH (dn ++ [a])); [|done].
      by rewrite <- app_assoc. }
  by apply (Hgen l []).
Qed.

(** [wp_step] peels the outermost construct of a monadic body. *)
Ltac wp_step :=
  match goal with
  | |- wp (mbind _ _) _ _ => apply wp_bind
  | |- wp (mret _) _ _ => apply wp_ret
  | |- wp get _ _ => apply wp_get
  | |- wp (gets _) _ _ => apply wp_gets; simpl
  | |- wp (modify _) _ _ => apply wp_modify; simpl
  | |- wp (massert _) _ _ => apply wp_massert
  end.

Ltac wp_auto := repeat (wp_step; try done).

(** ** Generic integer lemmas *)

Lemma u64_small z : 0 ≤ z < 2 ^ 64 → u64 z = z.
Proof. apply Z.mod_small. Qed.

Lemma u32_small z : 0 ≤ z < 2 ^ 32 → u32 z = z.
Proof. apply Z.mod_small. Qed.

Lemma u8_small z : 0 ≤ z < 2 ^ 8 → u8 z = z.
Proof. apply Z.mod_small. Qed.

Lemma u64_range z : 0 ≤ u64 z < 2 ^ 64.
Proof. apply Z.mod_pos_bound. lia. Qed.

Lemma u32_range z : 0 ≤ u32 z < 2 ^ 32.
Proof. apply Z.mod_pos_bound. lia. Qed.

Lemma u8_range z : 0 ≤ u8 z < 2 ^ 8.
Proof. apply Z.mod_pos_bound. lia. Qed.

Lemma sext_small w z : 0 < w → 0 ≤ z < 2 ^ (w - 1) → sext w z = z.
Proof.
  intros Hw Hz. unfold sext.
  assert (2 ^ w = 2 * 2 ^ (w - 1)) as E.
  { rewrite <- Z.pow_succ_r by lia. f_equal. lia. }
  rewrite Z.mod_small by lia. destruct (Z.ltb_spec z (2 ^ (w - 1))); lia.
Qed.

(** Reading two's complement and truncating back to the width loses nothing. *)
Lemma sext_mod w z : 0 < w → sext w z mod 2 ^ w = z mod 2 ^ w.
Proof.
  intros Hw. unfold sext.
  assert (0 < 2 ^ w) by (apply Z.pow_pos_nonneg; lia).
  destruct (_ <? _).
  - by rewrite Z.mod_mod by lia.
  - rewrite Zminus_mod, Z_mod_same_full, Z.sub_0_r, !Z.mod_mod by lia. done.
Qed.

(** A number below [2^n] has no bit at or above [n]. *)
Lemma testbit_small z n i : 0 ≤ z < 2 ^ n → n ≤ i → Z.testbit z i = false.
Proof.
  intros [Hz Hlt] Hi.
  destruct (decide (z = 0)) as [->|]; [apply Z.bits_0|].
  apply Z.bits_above_log2; [lia|].
  assert (Z.log2 z < n); [|lia]. apply Z.log2_lt_pow2; lia.
Qed.

(** Disjoint bit ranges: or is addition. *)
Lemma lor_add_disjoint hi lo n :
  0 ≤ n → 0 ≤ lo < 2 ^ n → Z.lor (Z.shiftl hi n) lo = hi * 2 ^ n + lo.
Proof.
  intros Hn Hlo.
  assert (Z.land (Z.shiftl hi n) lo = 0) as Hd.
  { apply Z.bits_inj'. intros i Hi. rewrite Z.land_spec, Z.bits_0.
    destruct (Z.lt_ge_cases i n).
    - by rewrite Z.shiftl_spec_low.
    - by rewrite (testbit_small lo n i), andb_false_r. }
  rewrite <- Z.lxor_lor by done. rewrite <- Z.add_nocarry_lxor by done.
  by rewrite Z.shiftl_mul_pow2.
Qed.

Lemma lor_bound a b n : 0 ≤ n → 0 ≤ a < 2 ^ n → 0 ≤ b < 2 ^ n → 0 ≤ Z.lor a b < 2 ^ n.
Proof.
  intros Hn Ha Hb. split; [apply Z.lor_nonneg; lia|].
  destruct (decide (Z.lor a b = 0)) as [->|Hne]; [apply Z.pow_pos_nonneg; lia|].
  assert (0 ≤ Z.lor a b) by (apply Z.lor_nonneg; lia).
  apply Z.log2_lt_pow2; [lia|]. rewrite Z.log2_lor by lia.
  assert (∀ x, 0 ≤ x < 2 ^ n → Z.log2 x < n ∨ x = 0) as Hl.
  { intros x Hx. destruct (decide (x = 0)); [by right|left]. apply Z.log2_lt_pow2; lia. }
  pose proof (Z.log2_nonneg a). pose proof (Z.log2_nonneg b).
  destruct (Hl a Ha) as [?| ->], (Hl b Hb) as [?| ->]; cbn [Z.log2]; try lia;
    rewrite ?Z.lor_0_l, ?Z.lor_0_r in Hne; try lia.
Qed.

(** Clearing the low [n] bits is rounding down to a multiple of [2^n]. *)
Lemma land_bound a b n : 0 ≤ n → 0 ≤ a < 2 ^ n → 0 ≤ Z.land a b < 2 ^ n.
Proof.
  intros Hn Ha. assert (Z.land a b = Z.land a b mod 2 ^ n) as ->; [|apply Z.mod_pos_bound; lia].
  rewrite <- Z.land_ones by done. rewrite <- Z.land_assoc, (Z.land_comm b), Z.land_assoc.
  by rewrite (Z.land_ones a n Hn), (Z.mod_small a) by lia.
Qed.

Lemma land_lnot_ones z n : 0 ≤ n → Z.land z (Z.lnot (Z.ones n)) = z / 2 ^ n * 2 ^ n.
Proof.
  intros Hn. rewrite <- Z.ldiff_land, Z.ldiff_ones_r by done.
  by rewrite Z.shiftl_mul_pow2, Z.shiftr_div_pow2.
Qed.

(** The low bit of a word decides a test of a mask of one bit. *)
Lemma has_flag_bit x n : 0 ≤ n → has_flag x (2 ^ n) = Z.testbit x n.
Proof.
  intros Hn. unfold has_flag.
  assert (Z.land x (2 ^ n) = if Z.testbit x n then 2 ^ n else 0) as ->.
  { apply Z.bits_inj'. intros i Hi. rewrite Z.land_spec.
    rewrite Z.pow2_bits_eqb by done. destruct (Z.eqb_spec n i) as [->|Hne].
    - rewrite andb_true_r. destruct (Z.testbit x i) eqn:E; [|by rewrite Z.bits_0].
      by rewrite Z.pow2_bits_true.
    - rewrite andb_false_r. destruct (Z.testbit x n); [|by rewrite Z.bits_0].
      by rewrite Z.pow2_bits_false. }
  destruct (Z.testbit x n); [|done].
  destruct (Z.eqb_spec (2 ^ n) 0); [|done].
  assert (0 < 2 ^ n) by (apply Z.pow_pos_nonneg; lia). lia.
Qed.

(** Quotient and remainder of a number written in base [b]. *)
Lemma div_add_small a b r : 0 < b → 0 ≤ r < b → (a * b + r) / b = a.
Proof. intros Hb Hr. rewrite Z.div_add_l, (Z.div_small r b) by lia. lia. Qed.

Lemma mod_add_small a b r : 0 < b → 0 ≤ r < b → (a * b + r) mod b = r.
Proof. intros Hb Hr. rewrite Z.add_comm, Z.mod_add, Z.mod_small by lia. done. Qed.

(** ** Index sequences *)

Lemma zseq_elem a n i : i ∈ zseq a n ↔ a ≤ i < a + Z.of_nat n.
Proof.
  revert a. induction n as [|n IH]; intros a; simpl.
  - rewrite elem_of_nil. lia.
  - rewrite elem_of_cons, IH. lia.
Qed.

Lemma zseq_length a n : length (zseq a n) = n.
Proof. revert a. induction n; intros; simpl; auto. Qed.

Lemma zseq_NoDup a n : NoDup (zseq a n).
Proof.
  revert a. induction n as [|n IH]; intros a; simpl; constructor; [|done].
  rewrite zseq_elem. lia.
Qed.

Lemma zseq_app a n m : zseq a (n + m) = zseq a n ++ zseq (a + Z.of_nat n) m.
Proof.
  revert a. induction n as [|n IH]; intros a; cbn [zseq Nat.add app].
  - f_equal. lia.
  - rewrite IH. do 2 f_equal. f_equal. lia.
Qed.

Lemma zseq_split a n l1 i l2 :
  zseq a n = l1 ++ i :: l2 → i = a + Z.of_nat (length l1) ∧ (length l1 < n)%nat.
Proof.
  revert a l1. induction n as [|n IH]; intros a l1; cbn [zseq]; [by destruct l1|].
  destruct l1 as [|x l1]; cbn [app length].
  - intros [= -> _]. lia.
  - intros [= -> H]. apply IH in H. lia.
Qed.

(** ** Sums of integers over a list *)

Definition zsum {A} (g : A → Z) (l : list A) : Z := foldr (λ a acc, g a + acc) 0 l.

Lemma zsum_cons {A} (g : A → Z) a l : zsum g (a :: l) = g a + zsum g l.
Proof. done. Qed.

Lemma zsum_ext {A} (g h : A → Z) l : (∀ a, a ∈ l → g a = h a) → zsum g l = zsum h l.
Proof.
  induction l as [|a l IH]; rewrite ?zsum_cons; intros H; [done|].
  rewrite (H a) by set_solver. rewrite IH; [done|]. set_solver.
Qed.

Lemma zsum_nonneg {A} (g : A → Z) l : (∀ a, a ∈ l → 0 ≤ g a) → 0 ≤ zsum g l.
Proof.
  induction l as [|a l IH]; rewrite ?zsum_cons; intros H; [done|].
  pose proof (H a ltac:(set_solver)). assert (0 ≤ zsum g l); [|lia]. apply IH. set_solver.
Qed.

Lemma zsum_ge {A} (g : A → Z) l a :
  (∀ b, b ∈ l → 0 ≤ g b) → a ∈ l → g a ≤ zsum g l.
Proof.
  induction l as [|b l IH]; rewrite ?zsum_cons; intros H Ha; [by apply elem_of_nil in Ha|].
  pose proof (H b ltac:(set_solver)). assert (0 ≤ zsum g l) by (apply zsum_nonneg; set_solver).
  apply elem_of_cons in Ha as [->|Ha]; [lia|]. assert (g a ≤ zsum g l); [|lia]. apply IH; set_solver.
Qed.

Lemma zsum_zero {A} (g : A → Z) l : (∀ a, a ∈ l → g a = 0) → zsum g l = 0.
Proof.
  induction l as [|a l IH]; rewrite ?zsum_cons; intros H; [done|]. rewrite (H a), IH by set_solver. done.
Qed.

(** Changing the summand at one element changes the sum by the difference. *)
Lemma zsum_update {A} (g h : A → Z) l a :
  NoDup l → a ∈ l → (∀ b, b ∈ l → b ≠ a → g b = h b) → zsum h l = zsum g l + (h a - g a).
Proof.
  induction l as [|b l IH]; rewrite ?zsum_cons; intros Hnd Ha H; [by apply elem_of_nil in Ha|].
  apply NoDup_cons in Hnd as [Hb Hnd]. apply elem_of_cons in Ha as [->|Ha].
  - rewrite (zsum_ext h g); [lia|]. intros c Hc. symmetry. apply H; [set_solver|by intros ->].
  - rewrite (H b), IH; [lia|done|done| |set_solver|by intros ->]. intros c Hc. apply H. set_solver.
Qed.

(** ** Function update *)

Lemma fn_insert_dec {A T} `{EqDecision A} (f : A → T) a b t :
  <[a := t]> f b = if decide (a = b) then t else f b.
Proof. done. Qed.

(** Case analysis on every function update in sight. *)
Ltac fn_cases :=
  repeat match goal with
  | |- context [ <[?a := ?t]> ?f ?b ] =>
      rewrite (fn_insert_dec f a b t); destruct (decide (a = b)); simplify_eq
  | H : context [ <[?a := ?t]> ?f ?b ] |- _ =>
      rewrite (fn_insert_dec f a b t) in H; destruct (decide (a = b)); simplify_eq
  end.

(** Split the boolean comparisons of the code into their propositions. *)
Ltac bools :=
  repeat match goal with
  | H : _ && _ = true |- _ => apply andb_prop in H as [? ?]
  | H : _ && _ = false |- _ => apply andb_false_iff in H as [H|H]
  | H : negb _ = true |- _ => apply negb_true_iff in H
  | H : negb _ = false |- _ => apply negb_false_iff in H
  | H : (_ <? _) = true |- _ => apply Z.ltb_lt in H
  | H : (_ <? _) = false |- _ => apply Z.ltb_ge in H
  | H : (_ <=? _) = true |- _ => apply Z.leb_le in H
  | H : (_ <=? _) = false |- _ => apply Z.leb_gt in H
  | H : (_ =? _) = true |- _ => apply Z.eqb_eq in H
  | H : (_ =? _) = false |- _ => apply Z.eqb_neq in H
  end.

(** [lia] with division and remainder by constants. *)
Ltac dlia := Z.to_euclidean_division_equations; lia.

Create HintDb ann.
#[export] Hint Resolve u8_range u32_range u64_range zseq_NoDup : ann.
