(* ===== verification/Memory.v ===== *)
(** Flat byte memory: the address spaces the C code reads and writes.

    A memory is a function from addresses to bytes; nothing is assumed of the
    initial contents.  64-bit loads and stores are little-endian, as on AMD64.
    [mem_fill] and [mem_move] are the closed forms of the byte loops of
    [memset] and [memcpy]; [Cstring] proves the loops equal to them. *)

From Stdlib Require Strings.Byte.
From coqutil Require Byte Word.LittleEndianList.
From S2P Require Import Prelude.

Abbreviation byte := Init.Byte.byte.

#[global] Instance byte_eq_dec : EqDecision byte := Stdlib.Strings.Byte.byte_eq_dec.

Abbreviation b2z := Byte.byte.unsigned.
Abbreviation z2b := Byte.byte.of_Z.
Abbreviation mem := (Z → byte).

Definition addrs (a : Z) (n : nat) : list Z := zseq a n.

Definition load_bytes (m : mem) (a : Z) (n : nat) : list byte := m <$> zseq a n.

Definition store_bytes (m : mem) (a : Z) (bs : list byte) : mem := λ x,
  if (a <=? x) && (x <? a + Z.of_nat (length bs))
  then nth (Z.to_nat (x - a)) bs Byte.x00 else m x.

(** 64-bit little-endian access. *)
Definition rd64 (m : mem) (a : Z) : Z := LittleEndianList.le_combine (load_bytes m a 8).
Definition wr64 (m : mem) (a v : Z) : mem := store_bytes m a (LittleEndianList.le_split 8 v).

Definition mem_fill (m : mem) (a : Z) (b : byte) (n : Z) : mem := λ x,
  if (a <=? x) && (x <? a + n) then b else m x.

Definition mem_move (m : mem) (dst src n : Z) : mem := λ x,
  if (dst <=? x) && (x <? dst + n) then m (src + (x - dst)) else m x.

(** ** Bytes *)

Lemma b2z_range b : 0 ≤ b2z b < 256.
Proof. apply Byte.byte.unsigned_range. Qed.

Lemma b2z_z2b z : b2z (z2b z) = z mod 256.
Proof. apply Byte.byte.unsigned_of_Z. Qed.

Lemma z2b_b2z b : z2b (b2z b) = b.
Proof. apply Byte.byte.of_Z_unsigned. Qed.

Lemma b2z_inj b c : b2z b = b2z c → b = c.
Proof. apply Byte.byte.unsigned_inj. Qed.

(** ** Loads and stores *)

Lemma load_bytes_length m a n : length (load_bytes m a n) = n.
Proof. unfold load_bytes. by rewrite length_fmap, zseq_length. Qed.

Lemma load_bytes_ext m m' a n :
  (∀ x, a ≤ x < a + Z.of_nat n → m x = m' x) → load_bytes m a n = load_bytes m' a n.
Proof.
  intros H. apply list_fmap_ext. intros i x Hx.
  apply H. apply zseq_elem. by eapply list_elem_of_lookup_2.
Qed.

Lemma store_bytes_out m a bs x :
  x < a ∨ a + Z.of_nat (length bs) ≤ x → store_bytes m a bs x = m x.
Proof.
  intros H. unfold store_bytes.
  destruct ((a <=? x) && _) eqn:E; [|done]; bools; lia.
Qed.

Lemma store_bytes_nil m a x : store_bytes m a [] x = m x.
Proof. apply store_bytes_out. simpl. lia. Qed.

Lemma store_bytes_cons m a b bs x :
  store_bytes m a (b :: bs) x = if decide (x = a) then b else store_bytes m (a + 1) bs x.
Proof.
  unfold store_bytes. cbn [length].
  destruct (decide (x = a)) as [->|Hne].
  - rewrite Z.sub_diag.
    destruct (_ && _) eqn:E; [done|]; bools; lia.
  - destruct ((a <=? x) && _) eqn:E1, ((a + 1 <=? x) && _) eqn:E2; bools; try lia; try done.
    replace (Z.to_nat (x - a)) with (S (Z.to_nat (x - (a + 1)))) by lia. done.
Qed.

Lemma load_store_same m a bs : load_bytes (store_bytes m a bs) a (length bs) = bs.
Proof.
  revert m a. induction bs as [|b bs IH]; intros m a; [done|].
  unfold load_bytes. cbn [length zseq fmap list_fmap]. f_equal.
  - rewrite store_bytes_cons. by destruct (decide (a = a)).
  - etransitivity; [|exact (IH m (a + 1))].
    apply (load_bytes_ext (store_bytes m a (b :: bs))). intros x Hx.
    rewrite store_bytes_cons. destruct (decide (x = a)); [lia|done].
Qed.

Lemma rd64_ext m m' a : (∀ x, a ≤ x < a + 8 → m x = m' x) → rd64 m a = rd64 m' a.
Proof. intros H. unfold rd64. f_equal. apply load_bytes_ext. auto. Qed.

Lemma rd64_wr64_eq m a v : rd64 (wr64 m a v) a = u64 v.
Proof.
  unfold rd64, wr64.
  rewrite <- (LittleEndianList.length_le_split 8 v) at 2.
  rewrite load_store_same, LittleEndianList.le_combine_split. done.
Qed.

Lemma wr64_out m a v x : x < a ∨ a + 8 ≤ x → wr64 m a v x = m x.
Proof. intros H. apply store_bytes_out. by rewrite LittleEndianList.length_le_split. Qed.

Lemma rd64_wr64_ne m a b v : b + 8 ≤ a ∨ a + 8 ≤ b → rd64 (wr64 m a v) b = rd64 m b.
Proof. intros H. apply rd64_ext. intros x Hx. apply wr64_out. lia. Qed.

Lemma rd64_range m a : 0 ≤ rd64 m a < 2 ^ 64.
Proof.
  unfold rd64. pose proof (LittleEndianList.le_combine_bound (load_bytes m a 8)) as H.
  rewrite load_bytes_length in H. exact H.
Qed.

Lemma mem_fill_out m a b n x : x < a ∨ a + n ≤ x → mem_fill m a b n x = m x.
Proof. intros H. unfold mem_fill. destruct (_ && _) eqn:E; bools; lia || done. Qed.

Lemma mem_fill_in m a b n x : a ≤ x < a + n → mem_fill m a b n x = b.
Proof. intros H. unfold mem_fill. destruct (_ && _) eqn:E; bools; lia || done. Qed.

Lemma mem_move_out m d s n x : x < d ∨ d + n ≤ x → mem_move m d s n x = m x.
Proof. intros H. unfold mem_move. destruct (_ && _) eqn:E; bools; lia || done. Qed.

Lemma mem_move_in m d s n x : d ≤ x < d + n → mem_move m d s n x = m (s + (x - d)).
Proof. intros H. unfold mem_move. destruct (_ && _) eqn:E; bools; lia || done. Qed.

Lemma rd64_fill_out m a b n x : x + 8 ≤ a ∨ a + n ≤ x → rd64 (mem_fill m a b n) x = rd64 m x.
Proof. intros H. apply rd64_ext. intros y Hy. apply mem_fill_out. lia. Qed.

Lemma rd64_fill_zero m a n x : a ≤ x → x + 8 ≤ a + n → rd64 (mem_fill m a Byte.x00 n) x = 0.
Proof.
  intros H1 H2. rewrite (rd64_ext _ (λ _, Byte.x00)); [done|].
  intros y Hy. apply mem_fill_in. lia.
Qed.

Lemma rd64_move_out m d s n x : x + 8 ≤ d ∨ d + n ≤ x → rd64 (mem_move m d s n) x = rd64 m x.
Proof. intros H. apply rd64_ext. intros y Hy. apply mem_move_out. lia. Qed.

Lemma load_bytes_shift m m' a b n :
  (∀ x, 0 ≤ x < Z.of_nat n → m (a + x) = m' (b + x)) →
  load_bytes m a n = load_bytes m' b n.
Proof.
  revert a b. induction n as [|n IH]; intros a b H; [done|].
  unfold load_bytes in *. cbn [zseq fmap list_fmap]. f_equal.
  - specialize (H 0). rewrite !Z.add_0_r in H. apply H. lia.
  - apply IH. intros x Hx. rewrite <- !Z.add_assoc. apply H. lia.
Qed.

Lemma rd64_move_in m d s n x :
  d ≤ x → x + 8 ≤ d + n → rd64 (mem_move m d s n) x = rd64 m (s + (x - d)).
Proof.
  intros H1 H2. unfold rd64. f_equal. apply load_bytes_shift. intros y Hy.
  rewrite mem_move_in by lia. f_equal. lia.
Qed.

#[export] Hint Resolve rd64_range b2z_range : ann.

(** ** Little-endian access of any width *)

Definition rdn (n : nat) (m : mem) (a : Z) : Z := LittleEndianList.le_combine (load_bytes m a n).
Definition wrn (n : nat) (m : mem) (a v : Z) : mem := store_bytes m a (LittleEndianList.le_split n v).

Abbreviation rd32 := (rdn 4).
Abbreviation wr32 := (wrn 4).
Abbreviation wr16 := (wrn 2).

Lemma rdn_ext n m m' a : (∀ x, a ≤ x < a + Z.of_nat n → m x = m' x) → rdn n m a = rdn n m' a.
Proof. intros H. unfold rdn. f_equal. by apply load_bytes_ext. Qed.

Lemma wrn_out n m a v x : x < a ∨ a + Z.of_nat n ≤ x → wrn n m a v x = m x.
Proof. intros H. apply store_bytes_out. by rewrite LittleEndianList.length_le_split. Qed.

Lemma rdn_wrn_eq n m a v : rdn n (wrn n m a v) a = v mod 2 ^ (8 * Z.of_nat n).
Proof.
  unfold rdn, wrn. rewrite <- (LittleEndianList.length_le_split n v) at 2.
  rewrite load_store_same, Z.mul_comm. apply LittleEndianList.le_combine_split.
Qed.

Lemma rdn_wrn_ne n n' m a b v : b + Z.of_nat n ≤ a ∨ a + Z.of_nat n' ≤ b → rdn n (wrn n' m a v) b = rdn n m b.
Proof. intros H. apply rdn_ext. intros x Hx. apply wrn_out. lia. Qed.

Lemma rdn_range n m a : 0 ≤ rdn n m a < 2 ^ (8 * Z.of_nat n).
Proof.
  unfold rdn. pose proof (LittleEndianList.le_combine_bound (load_bytes m a n)) as H.
  by rewrite load_bytes_length in H.
Qed.

(** The two bytes of a 16-bit store. *)
Lemma wr16_byte m a v x :
  wr16 m a v x = if decide (x = a) then z2b v else if decide (x = a + 1) then z2b (Z.shiftr v 8) else m x.
Proof.
  unfold wrn. change (LittleEndianList.le_split 2 v) with [z2b v; z2b (Z.shiftr v 8)].
  by rewrite !store_bytes_cons, store_bytes_nil.
Qed.

#[export] Hint Resolve rdn_range : ann.
