(* ===== verification/Queue.v ===== *)
(** The intrusive doubly linked list of stdlib/queue.h ([LIST_*] macros).

    Elements are named by their index in the array they live in ([Z]); a
    pointer to an element is [option Z], with [None] for NULL.  [le_prev] is,
    as in the header, the address of the previous element's [le_next] field or
    of the list head, so it is a [slot].  The macros are the header's
    assignments, in order; the theorems show that they implement operations on
    a mathematical list of elements ([lrep]). *)

From S2P Require Import Prelude.

(** [ins f y l]: replace the element [y] of [l] by the elements [f y]. *)
Fixpoint ins (f : Z → list Z) (y : Z) (l : list Z) : option (list Z) :=
  match l with
  | [] => None
  | z :: l' => if decide (z = y) then Some (f y ++ l') else (λ r, z :: r) <$> ins f y l'
  end.

Lemma ins_split f y l l' :
  ins f y l = Some l' → ∃ l1 l2, l = l1 ++ y :: l2 ∧ l' = l1 ++ f y ++ l2.
Proof.
  revert l'. induction l as [|z l IH]; intros l'; cbn [ins]; [done|].
  destruct (decide (z = y)) as [->|].
  - intros [= <-]. by exists [], l.
  - intros (r & Hr & ->)%fmap_Some. destruct (IH r Hr) as (l1 & l2 & -> & ->). by exists (z :: l1), l2.
Qed.

Module Lst.

(** Where a [le_prev] pointer points to. *)
Inductive slot :=
| Head              (* &head->lh_first *)
| Next (i : Z).     (* &elm_i->field.le_next *)

#[global] Instance slot_eq_dec : EqDecision slot.
Proof. solve_decision. Defined.

(** [LIST_ENTRY]. *)
Record entry := Entry { le_next : option Z; le_prev : option slot }.

Definition null_entry : entry := Entry None None.

(** [LIST_HEAD] together with the entries of all elements. *)
Record queue := Queue { lh_first : option Z; ent : Z → entry }.

Definition set_first (p : option Z) (q : queue) : queue := Queue p (ent q).
Definition set_entry (i : Z) (e : entry) (q : queue) : queue :=
  Queue (lh_first q) (<[i := e]> (ent q)).
Definition set_next (i : Z) (p : option Z) (q : queue) : queue :=
  set_entry i (Entry p (le_prev (ent q i))) q.
Definition set_prev (i : Z) (sl : option slot) (q : queue) : queue :=
  set_entry i (Entry (le_next (ent q i)) sl) q.

(** [*slot = p]. *)
Definition write_slot (sl : slot) (p : option Z) (q : queue) : queue :=
  match sl with Head => set_first p q | Next i => set_next i p q end.

Definition LIST_INIT (q : queue) : queue := set_first None q.

Definition LIST_EMPTY (q : queue) : bool := bool_decide (lh_first q = None).
Definition LIST_FIRST (q : queue) : option Z := lh_first q.
Definition LIST_NEXT (elm : Z) (q : queue) : option Z := le_next (ent q elm).

Definition LIST_INSERT_HEAD (elm : Z) (q : queue) : queue :=
  let q1 := set_next elm (lh_first q) q in
  let q2 := match le_next (ent q1 elm) with
            | Some f => set_prev f (Some (Next elm)) q1
            | None => q1
            end in
  set_prev elm (Some Head) (set_first (Some elm) q2).

Definition LIST_INSERT_AFTER (listelm elm : Z) (q : queue) : queue :=
  let q1 := set_next elm (le_next (ent q listelm)) q in
  let q2 := match le_next (ent q1 elm) with
            | Some n => set_prev n (Some (Next elm)) q1
            | None => q1
            end in
  set_prev elm (Some (Next listelm)) (set_next listelm (Some elm) q2).

(** [None]: the macro dereferences a NULL [le_prev]. *)
Definition LIST_INSERT_BEFORE (listelm elm : Z) (q : queue) : option queue :=
  let q1 := set_prev elm (le_prev (ent q listelm)) q in
  let q2 := set_next elm (Some listelm) q1 in
  match le_prev (ent q2 listelm) with
  | Some sl => Some (set_prev listelm (Some (Next elm)) (write_slot sl (Some elm) q2))
  | None => None
  end.

Definition LIST_REMOVE (elm : Z) (q : queue) : option queue :=
  let q1 := match le_next (ent q elm) with
            | Some n => set_prev n (le_prev (ent q elm)) q
            | None => q
            end in
  match le_prev (ent q1 elm) with
  | Some sl => Some (write_slot sl (le_next (ent q1 elm)) q1)
  | None => None
  end.

(** [LIST_FOREACH]: the elements visited, at most [n] of them. *)
Fixpoint foreach_from (n : nat) (p : option Z) (q : queue) : list Z :=
  match n, p with
  | S n', Some x => x :: foreach_from n' (LIST_NEXT x q) q
  | _, _ => []
  end.

Definition LIST_FOREACH (n : nat) (q : queue) : list Z := foreach_from n (LIST_FIRST q) q.

(** ** The list a queue stands for *)

(** A chain of elements starting in the slot [sl0] that holds [p0] and ending
    in the slot [sl1] that holds [p1]. *)
Fixpoint lseg (e : Z → entry) (sl0 : slot) (p0 : option Z) (l : list Z)
    (sl1 : slot) (p1 : option Z) : Prop :=
  match l with
  | [] => sl0 = sl1 ∧ p0 = p1
  | x :: l' => p0 = Some x ∧ le_prev (e x) = Some sl0 ∧
               lseg e (Next x) (le_next (e x)) l' sl1 p1
  end.

Definition lrep (q : queue) (l : list Z) : Prop :=
  NoDup l ∧ ∃ sl, lseg (ent q) Head (lh_first q) l sl None.

Lemma lseg_app e s0 p0 l1 l2 s1 p1 :
  lseg e s0 p0 (l1 ++ l2) s1 p1 ↔
  ∃ s p, lseg e s0 p0 l1 s p ∧ lseg e s p l2 s1 p1.
Proof.
  revert s0 p0. induction l1 as [|x l1 IH]; intros s0 p0; simpl.
  - split; [intros H; by exists s0, p0|]. by intros (s & p & [<- <-] & H).
  - setoid_rewrite IH. split; [intros (? & ? & s & p & ? & ?)|intros (s & p & (? & ? & ?) & ?)]; eauto 10.
Qed.

Lemma lseg_ext e e' s0 p0 l s1 p1 :
  (∀ x, x ∈ l → e x = e' x) → lseg e s0 p0 l s1 p1 → lseg e' s0 p0 l s1 p1.
Proof.
  revert s0 p0. induction l as [|x l IH]; intros s0 p0 He; simpl; [done|].
  rewrite <- (He x) by set_solver. intros (? & ? & H). split_and!; try done.
  apply IH; [|done]. intros y Hy. apply He. set_solver.
Qed.

Lemma lseg_nil_end e s0 l s1 p1 : lseg e s0 None l s1 p1 → l = [].
Proof. by destruct l as [|x l]; [|intros [? _]]. Qed.

(** A chain that starts in the head ends in the head or in one of its elements. *)
Lemma lseg_end_elem e p0 l i p1 : lseg e Head p0 l (Next i) p1 → i ∈ l.
Proof.
  destruct l as [|z l _] using rev_ind; [by intros [? _]|].
  rewrite lseg_app. intros (? & ? & _ & _ & _ & [= ->] & _). set_solver.
Qed.

(** Writing the slot a chain ends in redirects its end pointer. *)
Lemma lseg_write_end q l s p p' :
  NoDup l → lseg (ent q) Head (lh_first q) l s p →
  lseg (ent (write_slot s p' q)) Head (lh_first (write_slot s p' q)) l s p'.
Proof.
  intros Hnd. destruct l as [|y l _] using rev_ind; simpl.
  - by intros [<- _].
  - apply NoDup_app in Hnd as (_ & Hd & _).
    rewrite !lseg_app. intros (s0 & p0 & H1 & Hp0 & Hprev & <- & _).
    exists s0, p0. split.
    + eapply lseg_ext; [|exact H1]. intros x Hx. simpl.
      rewrite fn_lookup_insert_ne; [done|]. specialize (Hd x Hx). set_solver.
    + simpl. rewrite fn_lookup_insert. done.
Qed.

(** Changing the [le_prev] of the first element of a chain moves its start slot. *)
Lemma lseg_set_prev q s0 s0' p0 l s1 p1 :
  NoDup l → l ≠ [] → lseg (ent q) s0 p0 l s1 p1 →
  ∃ x l', l = x :: l' ∧ p0 = Some x ∧
    lseg (ent (set_prev x (Some s0') q)) s0' p0 l s1 p1.
Proof.
  destruct l as [|x l]; [done|]. intros [Hx Hnd]%NoDup_cons _ (-> & Hp & H). simpl.
  exists x, l. rewrite fn_lookup_insert. split_and!; try done. simpl.
  eapply lseg_ext; [|exact H]. intros y Hy. rewrite fn_lookup_insert_ne by set_solver. done.
Qed.

Lemma lrep_init q : lrep (LIST_INIT q) [].
Proof. split; [constructor|]. exists Head. done. Qed.

Lemma lrep_first q l : lrep q l → LIST_FIRST q = head l.
Proof. intros (_ & s & H). unfold LIST_FIRST. destruct l; simpl in H; by destruct H as [? ?]. Qed.

Lemma lrep_nodup q l : lrep q l → NoDup l.
Proof. by intros [? _]. Qed.

Lemma lseg_unique e s0 p0 l1 l2 s1 s2 :
  lseg e s0 p0 l1 s1 None → lseg e s0 p0 l2 s2 None → l1 = l2.
Proof.
  revert s0 p0 l2. induction l1 as [|x l1 IH]; intros s0 p0 l2; simpl.
  - intros [_ ->] H. by apply lseg_nil_end in H.
  - intros (-> & _ & H1). destruct l2 as [|y l2]; simpl; [by intros [_ ?]|].
    intros ([= ->] & _ & H2). f_equal. by eapply IH.
Qed.

Lemma lrep_unique q l1 l2 : lrep q l1 → lrep q l2 → l1 = l2.
Proof. intros (_ & s1 & H1) (_ & s2 & H2). by eapply lseg_unique. Qed.

(** A NULL [le_prev] marks an element that is on no list. *)
Lemma lrep_prev q l x : lrep q l → x ∈ l → le_prev (ent q x) ≠ None.
Proof.
  intros (_ & s & H) Hx. apply list_elem_of_split in Hx as (l1 & l2 & ->).
  apply lseg_app in H as (? & ? & _ & _ & -> & _). done.
Qed.

(** ** The macros implement list operations *)

Lemma insert_head_ent x q y :
  y ≠ x → lh_first q ≠ Some y → ent (LIST_INSERT_HEAD x q) y = ent q y.
Proof.
  intros H1 H2. unfold LIST_INSERT_HEAD. cbn. rewrite fn_lookup_insert. cbn.
  destruct (lh_first q) as [f|]; cbn; fn_cases; done.
Qed.

Lemma insert_head_rep x q l :
  lrep q l → x ∉ l → lrep (LIST_INSERT_HEAD x q) (x :: l).
Proof.
  intros (Hnd & s & H) Hx. split; [by constructor|].
  unfold LIST_INSERT_HEAD. cbn. rewrite fn_lookup_insert. cbn.
  destruct l as [|f l]; cbn in H.
  - destruct H as [_ ->]. exists (Next x). cbn. rewrite fn_lookup_insert. cbn.
    rewrite fn_lookup_insert. done.
  - destruct H as (-> & _ & H). exists s. cbn.
    apply NoDup_cons in Hnd as [Hf Hnd]. apply not_elem_of_cons in Hx as [Hxf Hxl].
    rewrite fn_lookup_insert. cbn. fn_cases; try done. cbn. split_and!; try done.
    eapply lseg_ext; [|exact H]. intros y Hy. fn_cases; done.
Qed.

(** Only the removed element's neighbours change, and its own entry keeps its pointers. *)
Lemma remove_ent x q q' y :
  LIST_REMOVE x q = Some q' →
  le_next (ent q x) ≠ Some y → le_prev (ent q x) ≠ Some (Next y) → le_next (ent q x) ≠ Some x →
  ent q' y = ent q y.
Proof.
  unfold LIST_REMOVE. intros H Hn Hp Hx.
  destruct (le_next (ent q x)) as [n|] eqn:E; cbn in H; fn_cases;
    destruct (le_prev (ent q x)) as [[|i]|]; simplify_eq; cbn; fn_cases; done.
Qed.

Lemma remove_rep x q l1 l2 :
  lrep q (l1 ++ x :: l2) → ∃ q', LIST_REMOVE x q = Some q' ∧ lrep q' (l1 ++ l2).
Proof.
  intros (Hnd & s & H). apply lseg_app in H as (s0 & p0 & H1 & -> & Hprev & H2).
  apply NoDup_app in Hnd as (Hnd1 & Hd & [Hx Hnd2]%NoDup_cons).
  assert (NoDup (l1 ++ l2)) as Hnd.
  { apply NoDup_app. split_and!; try done. intros y Hy. specialize (Hd y Hy). set_solver. }
  assert (x ∉ l1) as Hx1 by (intros Hx1; specialize (Hd x Hx1); set_solver).
  unfold LIST_REMOVE. destruct l2 as [|n l2].
  - destruct H2 as [_ Hnext]. rewrite Hnext, Hprev. eexists. split; [done|].
    split; [done|]. rewrite app_nil_r. exists s0. rewrite Hnext. by eapply lseg_write_end.
  - destruct (lseg_set_prev q (Next x) s0 _ _ _ _ Hnd2 (ltac:(done)) H2)
      as (n' & l' & [= <- <-] & Hnext & H2'). rewrite Hnext, Hprev.
    assert (x ≠ n) by set_solver.
    assert (n ∉ l1) as Hn1 by (intros Hn1; specialize (Hd n Hn1); set_solver).
    assert (ent (set_prev n (Some s0) q) x = ent q x) as Ex by (cbn; fn_cases; done).
    rewrite Ex, Hprev, Hnext. eexists. split; [done|]. split; [done|].
    exists s. apply lseg_app. exists s0, (Some n). split.
    + apply lseg_write_end with (p := Some x); [done|]. eapply lseg_ext; [|exact H1].
      intros y Hy. cbn. fn_cases; done.
    + eapply lseg_ext; [|rewrite <- Hnext; exact H2']. intros y Hy.
      destruct s0 as [|i]; [done|].
      assert (i ∈ l1) as Hi by (by eapply lseg_end_elem).
      assert (i ≠ y) by (intros ->; specialize (Hd y Hi); set_solver).
      cbn. rewrite (fn_lookup_insert_ne _ i) by done. done.
Qed.

Lemma insert_after_rep y x q l1 l2 :
  lrep q (l1 ++ y :: l2) → x ∉ l1 ++ y :: l2 →
  lrep (LIST_INSERT_AFTER y x q) (l1 ++ y :: x :: l2).
Proof.
  intros (Hnd & s & H) Hx. apply lseg_app in H as (s0 & p0 & H1 & -> & Hprev & H2).
  apply NoDup_app in Hnd as (Hnd1 & Hd & [Hy Hnd2]%NoDup_cons).
  assert (x ≠ y ∧ x ∉ l1 ∧ x ∉ l2) as (Hxy & Hx1 & Hx2) by set_solver.
  assert (y ∉ l1) as Hy1 by (intros Hy1; specialize (Hd y Hy1); set_solver).
  split.
  { apply NoDup_app. split_and!; [done| |].
    - intros z Hz. specialize (Hd z Hz). set_solver.
    - repeat constructor; [set_solver|done|done]. }
  unfold LIST_INSERT_AFTER. cbn. rewrite fn_lookup_insert. cbn.
  destruct l2 as [|n l2].
  - destruct H2 as [_ Hnext]. rewrite Hnext. exists (Next x). apply lseg_app. exists s0, (Some y). split.
    + eapply lseg_ext; [|exact H1]. intros z Hz. cbn. fn_cases; done.
    + cbn. fn_cases; done.
  - destruct H2 as (Hnext & Hnprev & H2). rewrite Hnext. exists s. apply lseg_app.
    exists s0, (Some y).
    assert (n ≠ x ∧ n ≠ y ∧ n ∉ l1) as (? & ? & ?).
    { split_and!; [set_solver..|]. intros Hn. specialize (Hd n Hn). set_solver. }
    apply NoDup_cons in Hnd2 as [? ?]. split.
    + eapply lseg_ext; [|exact H1]. intros z Hz. cbn. fn_cases; done.
    + cbn. fn_cases; try done. cbn. split_and!; try done.
      eapply lseg_ext; [|exact H2]. intros z Hz. fn_cases; set_solver.
Qed.

Lemma insert_before_rep y x q l1 l2 :
  lrep q (l1 ++ y :: l2) → x ∉ l1 ++ y :: l2 →
  ∃ q', LIST_INSERT_BEFORE y x q = Some q' ∧ lrep q' (l1 ++ x :: y :: l2).
Proof.
  intros (Hnd & s & H) Hx. apply lseg_app in H as (s0 & p0 & H1 & -> & Hprev & H2).
  apply NoDup_app in Hnd as (Hnd1 & Hd & [Hy Hnd2]%NoDup_cons).
  assert (x ≠ y ∧ x ∉ l1 ∧ x ∉ l2) as (Hxy & Hx1 & Hx2) by set_solver.
  assert (y ∉ l1) as Hy1 by (intros Hy1; specialize (Hd y Hy1); set_solver).
  assert (∀ z, s0 = Next z → z ∈ l1) as Hs0 by (intros z ->; by eapply lseg_end_elem).
  unfold LIST_INSERT_BEFORE. set (q2 := set_next x _ _).
  assert (∀ z, z ≠ x → ent q2 z = ent q z) as E2 by (intros z Hz; cbn; fn_cases; done).
  assert (ent q2 x = Entry (Some y) (Some s0)) as Ex by (cbn; fn_cases; cbn; by rewrite Hprev).
  rewrite (E2 y), Hprev by done. eexists. split; [done|]. split.
  { apply NoDup_app. split_and!; [done| |].
    - intros z Hz. specialize (Hd z Hz). set_solver.
    - repeat constructor; [set_solver..|done]. }
  exists s. apply lseg_app. exists s0, (Some x).
  assert (∀ z, z ∉ l1 → ent (write_slot s0 (Some x) q2) z = ent q2 z) as Ew.
  { intros z Hz. destruct s0 as [|i]; [done|]. cbn. rewrite fn_lookup_insert_ne; [done|].
    intros ->. by apply Hz, Hs0. }
  split; [|cbn [lseg]; split_and!; try done].
  - eapply lseg_ext; [|apply lseg_write_end with (p := Some y); [exact Hnd1|]].
    { intros z Hz. cbn. rewrite (fn_lookup_insert_ne _ y) by set_solver. done. }
    eapply lseg_ext; [|exact H1]. intros z Hz. symmetry. apply E2. set_solver.
  - cbn. rewrite fn_lookup_insert_ne by done. rewrite Ew, Ex by done. done.
  - cbn. rewrite fn_lookup_insert_ne by done. rewrite Ew, Ex by done. done.
  - cbn. by rewrite fn_lookup_insert.
  - cbn. rewrite fn_lookup_insert, Ew, E2 by done. cbn. eapply lseg_ext; [|exact H2].
    intros z Hz. assert (z ∉ l1) by (intros Hz1; specialize (Hd z Hz1); set_solver).
    rewrite fn_lookup_insert_ne, Ew, E2 by set_solver. done.
Qed.

Lemma foreach_lseg q l n p s0 s1 :
  lseg (ent q) s0 p l s1 None → (length l < n)%nat → foreach_from n p q = l.
Proof.
  revert n p s0. induction l as [|x l IH]; intros [|n] p s0; cbn; try lia.
  - by intros [_ ->].
  - intros (-> & _ & H) Hn. f_equal. eapply IH; [exact H|lia].
Qed.

(** Enough iterations visit the whole list, in order, and stop. *)
Lemma foreach_rep q l n : lrep q l → (length l < n)%nat → LIST_FOREACH n q = l.
Proof. intros (_ & s & H) Hn. by eapply foreach_lseg. Qed.

End Lst.
