(* ===== verification/QueueFamilies.v ===== *)
(** The other families of stdlib/queue.h: [SLIST], [STAILQ], [SIMPLEQ],
    [TAILQ] and [CIRCLEQ].

    A head and an entry are structures of at most two words, and the macros
    rely on that: [TAILQ_LAST] and [TAILQ_PREV] read an entry through a pointer
    to a head.  So the memory is a map from [node]s (the head number [h], the
    entry of the element [x]) to cells of two words:
<<
                 word0                        word1
      SLIST      slh_first / sle_next         -
      STAILQ     stqh_first / stqe_next       stqh_last / -
      SIMPLEQ    sqh_first / sqe_next         sqh_last / -
      TAILQ      tqh_first / tqe_next         tqh_last / tqe_prev
      CIRCLEQ    cqh_first / cqe_next         cqh_last / cqe_prev
>>
    A pointer is NULL or the address of a node.  The address of an element, of
    its entry's first word ([&elm->field.tqe_next]) and, in [CIRCLEQ], a head
    cast to [void *] are all the address of the node.  Several heads live in
    one memory, which [STAILQ_CONCAT] and [TAILQ_CONCAT] need.  The macros are
    the header's assignments in order; [None] is a dereference of NULL (or of
    a head where an element is meant), or a walk longer than its bound. *)

From S2P Require Import Prelude.

Inductive node := Hd (h : Z) | El (x : Z).

#[global] Instance node_eq_dec : EqDecision node.
Proof. solve_decision. Defined.

Abbreviation ptr := (option node).

Record cell := Cell { word0 : ptr; word1 : ptr }.

Abbreviation store := (node → cell).

(** [p->word0 = v], [p->word1 = v]. *)
Definition set0 (n : node) (p : ptr) (s : store) : store := <[n := Cell p (word1 (s n))]> s.
Definition set1 (n : node) (p : ptr) (s : store) : store := <[n := Cell (word0 (s n)) p]> s.

(** The loop of the [FOREACH] macros, for at most [n] tests: it ends at the
    pointer [stop], and [next] is the word that is followed. *)
Fixpoint walk (stop : ptr) (next : cell → ptr) (n : nat) (var : ptr) (s : store) : option (list Z) :=
  match n with
  | O => None
  | S n' =>
      if decide (var = stop) then Some [] else
      match var with
      | Some (El x) => l ← walk stop next n' (next (s (El x))) s; Some (x :: l)
      | _ => None
      end
  end.

(** [while (curelm->field.next != elm) curelm = curelm->field.next]. *)
Fixpoint find_before (n : nat) (curelm : ptr) (elm : Z) (s : store) : option node :=
  match n, curelm with
  | S n', Some c =>
      if decide (word0 (s c) = Some (El elm)) then Some c else find_before n' (word0 (s c)) elm s
  | _, _ => None
  end.

(** ** Singly linked lists *)

Definition SLIST_INIT (head : Z) (s : store) : store := set0 (Hd head) None s.

Definition SLIST_INSERT_AFTER (slistelm elm : Z) (s : store) : store :=
  let s1 := set0 (El elm) (word0 (s (El slistelm))) s in
  set0 (El slistelm) (Some (El elm)) s1.

Definition SLIST_INSERT_HEAD (head elm : Z) (s : store) : store :=
  let s1 := set0 (El elm) (word0 (s (Hd head))) s in
  set0 (Hd head) (Some (El elm)) s1.

Definition SLIST_REMOVE_HEAD (head : Z) (s : store) : option store :=
  f ← word0 (s (Hd head));
  Some (set0 (Hd head) (word0 (s f)) s).

Definition SLIST_REMOVE (n : nat) (head elm : Z) (s : store) : option store :=
  if decide (word0 (s (Hd head)) = Some (El elm)) then SLIST_REMOVE_HEAD head s
  else
    c ← find_before n (word0 (s (Hd head))) elm s;
    nx ← word0 (s c);
    Some (set0 c (word0 (s nx)) s).

Definition SLIST_FOREACH (n : nat) (head : Z) (s : store) : option (list Z) :=
  walk None word0 n (word0 (s (Hd head))) s.

Definition SLIST_EMPTY (head : Z) (s : store) : bool := bool_decide (word0 (s (Hd head)) = None).
Definition SLIST_FIRST (head : Z) (s : store) : ptr := word0 (s (Hd head)).
Definition SLIST_NEXT (elm : Z) (s : store) : ptr := word0 (s (El elm)).

(** ** Singly linked tail queues *)

Definition STAILQ_INIT (head : Z) (s : store) : store :=
  set1 (Hd head) (Some (Hd head)) (set0 (Hd head) None s).

Definition STAILQ_INSERT_HEAD (head elm : Z) (s : store) : store :=
  let s1 := set0 (El elm) (word0 (s (Hd head))) s in
  let s2 := match word0 (s1 (El elm)) with
            | None => set1 (Hd head) (Some (El elm)) s1
            | Some _ => s1
            end in
  set0 (Hd head) (Some (El elm)) s2.

Definition STAILQ_INSERT_TAIL (head elm : Z) (s : store) : option store :=
  let s1 := set0 (El elm) None s in
  l ← word1 (s1 (Hd head));
  let s2 := set0 l (Some (El elm)) s1 in
  Some (set1 (Hd head) (Some (El elm)) s2).

Definition STAILQ_INSERT_AFTER (head listelm elm : Z) (s : store) : store :=
  let s1 := set0 (El elm) (word0 (s (El listelm))) s in
  let s2 := match word0 (s1 (El elm)) with
            | None => set1 (Hd head) (Some (El elm)) s1
            | Some _ => s1
            end in
  set0 (El listelm) (Some (El elm)) s2.

Definition STAILQ_REMOVE_HEAD (head : Z) (s : store) : option store :=
  f ← word0 (s (Hd head));
  let s1 := set0 (Hd head) (word0 (s f)) s in
  Some (match word0 (s1 (Hd head)) with
        | None => set1 (Hd head) (Some (Hd head)) s1
        | Some _ => s1
        end).

Definition STAILQ_REMOVE (n : nat) (head elm : Z) (s : store) : option store :=
  if decide (word0 (s (Hd head)) = Some (El elm)) then STAILQ_REMOVE_HEAD head s
  else
    c ← find_before n (word0 (s (Hd head))) elm s;
    nx ← word0 (s c);
    let s1 := set0 c (word0 (s nx)) s in
    Some (match word0 (s1 c) with
          | None => set1 (Hd head) (Some c) s1
          | Some _ => s1
          end).

Definition STAILQ_FOREACH (n : nat) (head : Z) (s : store) : option (list Z) :=
  walk None word0 n (word0 (s (Hd head))) s.

Definition STAILQ_EMPTY (head : Z) (s : store) : bool := bool_decide (word0 (s (Hd head)) = None).
Definition STAILQ_FIRST (head : Z) (s : store) : ptr := word0 (s (Hd head)).
Definition STAILQ_NEXT (elm : Z) (s : store) : ptr := word0 (s (El elm)).

Definition STAILQ_CONCAT (head1 head2 : Z) (s : store) : option store :=
  if negb (STAILQ_EMPTY head2 s) then
    l ← word1 (s (Hd head1));
    let s1 := set0 l (word0 (s (Hd head2))) s in
    let s2 := set1 (Hd head1) (word1 (s1 (Hd head2))) s1 in
    Some (STAILQ_INIT head2 s2)
  else Some s.

(** ** Simple queues: the same structures and assignments under other names,
    without [CONCAT] *)

Definition SIMPLEQ_INIT (head : Z) (s : store) : store :=
  set1 (Hd head) (Some (Hd head)) (set0 (Hd head) None s).

Definition SIMPLEQ_INSERT_HEAD (head elm : Z) (s : store) : store :=
  let s1 := set0 (El elm) (word0 (s (Hd head))) s in
  let s2 := match word0 (s1 (El elm)) with
            | None => set1 (Hd head) (Some (El elm)) s1
            | Some _ => s1
            end in
  set0 (Hd head) (Some (El elm)) s2.

Definition SIMPLEQ_INSERT_TAIL (head elm : Z) (s : store) : option store :=
  let s1 := set0 (El elm) None s in
  l ← word1 (s1 (Hd head));
  let s2 := set0 l (Some (El elm)) s1 in
  Some (set1 (Hd head) (Some (El elm)) s2).

Definition SIMPLEQ_INSERT_AFTER (head listelm elm : Z) (s : store) : store :=
  let s1 := set0 (El elm) (word0 (s (El listelm))) s in
  let s2 := match word0 (s1 (El elm)) with
            | None => set1 (Hd head) (Some (El elm)) s1
            | Some _ => s1
            end in
  set0 (El listelm) (Some (El elm)) s2.

Definition SIMPLEQ_REMOVE_HEAD (head : Z) (s : store) : option store :=
  f ← word0 (s (Hd head));
  let s1 := set0 (Hd head) (word0 (s f)) s in
  Some (match word0 (s1 (Hd head)) with
        | None => set1 (Hd head) (Some (Hd head)) s1
        | Some _ => s1
        end).

Definition SIMPLEQ_REMOVE (n : nat) (head elm : Z) (s : store) : option store :=
  if decide (word0 (s (Hd head)) = Some (El elm)) then SIMPLEQ_REMOVE_HEAD head s
  else
    c ← find_before n (word0 (s (Hd head))) elm s;
    nx ← word0 (s c);
    let s1 := set0 c (word0 (s nx)) s in
    Some (match word0 (s1 c) with
          | None => set1 (Hd head) (Some c) s1
          | Some _ => s1
          end).

Definition SIMPLEQ_FOREACH (n : nat) (head : Z) (s : store) : option (list Z) :=
  walk None word0 n (word0 (s (Hd head))) s.

Definition SIMPLEQ_EMPTY (head : Z) (s : store) : bool := bool_decide (word0 (s (Hd head)) = None).
Definition SIMPLEQ_FIRST (head : Z) (s : store) : ptr := word0 (s (Hd head)).
Definition SIMPLEQ_NEXT (elm : Z) (s : store) : ptr := word0 (s (El elm)).

(** ** Tail queues *)

Definition TAILQ_INIT (head : Z) (s : store) : store :=
  set1 (Hd head) (Some (Hd head)) (set0 (Hd head) None s).

Definition TAILQ_INSERT_HEAD (head elm : Z) (s : store) : store :=
  let s1 := set0 (El elm) (word0 (s (Hd head))) s in
  let s2 := match word0 (s1 (El elm)) with
            | Some f => set1 f (Some (El elm)) s1
            | None => set1 (Hd head) (Some (El elm)) s1
            end in
  let s3 := set0 (Hd head) (Some (El elm)) s2 in
  set1 (El elm) (Some (Hd head)) s3.

Definition TAILQ_INSERT_TAIL (head elm : Z) (s : store) : option store :=
  let s1 := set0 (El elm) None s in
  let s2 := set1 (El elm) (word1 (s1 (Hd head))) s1 in
  l ← word1 (s2 (Hd head));
  let s3 := set0 l (Some (El elm)) s2 in
  Some (set1 (Hd head) (Some (El elm)) s3).

Definition TAILQ_INSERT_AFTER (head listelm elm : Z) (s : store) : store :=
  let s1 := set0 (El elm) (word0 (s (El listelm))) s in
  let s2 := match word0 (s1 (El elm)) with
            | Some nx => set1 nx (Some (El elm)) s1
            | None => set1 (Hd head) (Some (El elm)) s1
            end in
  let s3 := set0 (El listelm) (Some (El elm)) s2 in
  set1 (El elm) (Some (El listelm)) s3.

Definition TAILQ_INSERT_BEFORE (listelm elm : Z) (s : store) : option store :=
  let s1 := set1 (El elm) (word1 (s (El listelm))) s in
  let s2 := set0 (El elm) (Some (El listelm)) s1 in
  pv ← word1 (s2 (El listelm));
  let s3 := set0 pv (Some (El elm)) s2 in
  Some (set1 (El listelm) (Some (El elm)) s3).

Definition TAILQ_REMOVE (head elm : Z) (s : store) : option store :=
  let s1 := match word0 (s (El elm)) with
            | Some nx => set1 nx (word1 (s (El elm))) s
            | None => set1 (Hd head) (word1 (s (El elm))) s
            end in
  pv ← word1 (s1 (El elm));
  Some (set0 pv (word0 (s1 (El elm))) s1).

Definition TAILQ_FOREACH (n : nat) (head : Z) (s : store) : option (list Z) :=
  walk None word0 n (word0 (s (Hd head))) s.

(** [*(((struct headname * )p)->tqh_last)] for a pointer [p] to a word0: the
    second word of the structure [p] points into, then the word it points to. *)
Definition headname_last (p : ptr) (s : store) : option ptr :=
  n ← p;
  l ← word1 (s n);
  Some (word0 (s l)).

Definition TAILQ_LAST (head : Z) (s : store) : option ptr := headname_last (word1 (s (Hd head))) s.
Definition TAILQ_PREV (elm : Z) (s : store) : option ptr := headname_last (word1 (s (El elm))) s.

Fixpoint tailq_reverse_from (n : nat) (var : ptr) (s : store) : option (list Z) :=
  match n, var with
  | S n', Some (El x) =>
      var' ← TAILQ_PREV x s;
      l ← tailq_reverse_from n' var' s;
      Some (x :: l)
  | S _, None => Some []
  | _, _ => None
  end.

Definition TAILQ_FOREACH_REVERSE (n : nat) (head : Z) (s : store) : option (list Z) :=
  var ← TAILQ_LAST head s;
  tailq_reverse_from n var s.

Definition TAILQ_EMPTY (head : Z) (s : store) : bool := bool_decide (word0 (s (Hd head)) = None).
Definition TAILQ_FIRST (head : Z) (s : store) : ptr := word0 (s (Hd head)).
Definition TAILQ_NEXT (elm : Z) (s : store) : ptr := word0 (s (El elm)).

Definition TAILQ_CONCAT (head1 head2 : Z) (s : store) : option store :=
  if negb (TAILQ_EMPTY head2 s) then
    l ← word1 (s (Hd head1));
    let s1 := set0 l (word0 (s (Hd head2))) s in
    f ← word0 (s1 (Hd head2));
    let s2 := set1 f (word1 (s1 (Hd head1))) s1 in
    let s3 := set1 (Hd head1) (word1 (s2 (Hd head2))) s2 in
    Some (TAILQ_INIT head2 s3)
  else Some s.

(** ** Circular queues *)

(** [p->field.cqe_next = v] and [p->field.cqe_prev = v] where [p] must point to
    an element (an entry is not at the same offset as a head). *)
Definition elem_next (p : ptr) (v : ptr) (s : store) : option store :=
  match p with Some (El x) => Some (set0 (El x) v s) | _ => None end.
Definition elem_prev (p : ptr) (v : ptr) (s : store) : option store :=
  match p with Some (El x) => Some (set1 (El x) v s) | _ => None end.

Definition CIRCLEQ_INIT (head : Z) (s : store) : store :=
  set1 (Hd head) (Some (Hd head)) (set0 (Hd head) (Some (Hd head)) s).

Definition CIRCLEQ_INSERT_AFTER (head listelm elm : Z) (s : store) : option store :=
  let s1 := set0 (El elm) (word0 (s (El listelm))) s in
  let s2 := set1 (El elm) (Some (El listelm)) s1 in
  s3 ← (if decide (word0 (s2 (El listelm)) = Some (Hd head)) then Some (set1 (Hd head) (Some (El elm)) s2)
        else elem_prev (word0 (s2 (El listelm))) (Some (El elm)) s2);
  Some (set0 (El listelm) (Some (El elm)) s3).

Definition CIRCLEQ_INSERT_BEFORE (head listelm elm : Z) (s : store) : option store :=
  let s1 := set0 (El elm) (Some (El listelm)) s in
  let s2 := set1 (El elm) (word1 (s1 (El listelm))) s1 in
  s3 ← (if decide (word1 (s2 (El listelm)) = Some (Hd head)) then Some (set0 (Hd head) (Some (El elm)) s2)
        else elem_next (word1 (s2 (El listelm))) (Some (El elm)) s2);
  Some (set1 (El listelm) (Some (El elm)) s3).

Definition CIRCLEQ_INSERT_HEAD (head elm : Z) (s : store) : option store :=
  let s1 := set0 (El elm) (word0 (s (Hd head))) s in
  let s2 := set1 (El elm) (Some (Hd head)) s1 in
  s3 ← (if decide (word1 (s2 (Hd head)) = Some (Hd head)) then Some (set1 (Hd head) (Some (El elm)) s2)
        else elem_prev (word0 (s2 (Hd head))) (Some (El elm)) s2);
  Some (set0 (Hd head) (Some (El elm)) s3).

Definition CIRCLEQ_INSERT_TAIL (head elm : Z) (s : store) : option store :=
  let s1 := set0 (El elm) (Some (Hd head)) s in
  let s2 := set1 (El elm) (word1 (s1 (Hd head))) s1 in
  s3 ← (if decide (word0 (s2 (Hd head)) = Some (Hd head)) then Some (set0 (Hd head) (Some (El elm)) s2)
        else elem_next (word1 (s2 (Hd head))) (Some (El elm)) s2);
  Some (set1 (Hd head) (Some (El elm)) s3).

Definition CIRCLEQ_REMOVE (head elm : Z) (s : store) : option store :=
  s1 ← (if decide (word0 (s (El elm)) = Some (Hd head)) then Some (set1 (Hd head) (word1 (s (El elm))) s)
        else elem_prev (word0 (s (El elm))) (word1 (s (El elm))) s);
  if decide (word1 (s1 (El elm)) = Some (Hd head)) then Some (set0 (Hd head) (word0 (s1 (El elm))) s1)
  else elem_next (word1 (s1 (El elm))) (word0 (s1 (El elm))) s1.

Definition CIRCLEQ_FOREACH (n : nat) (head : Z) (s : store) : option (list Z) :=
  walk (Some (Hd head)) word0 n (word0 (s (Hd head))) s.
Definition CIRCLEQ_FOREACH_REVERSE (n : nat) (head : Z) (s : store) : option (list Z) :=
  walk (Some (Hd head)) word1 n (word1 (s (Hd head))) s.

Definition CIRCLEQ_EMPTY (head : Z) (s : store) : bool :=
  bool_decide (word0 (s (Hd head)) = Some (Hd head)).
Definition CIRCLEQ_FIRST (head : Z) (s : store) : ptr := word0 (s (Hd head)).
Definition CIRCLEQ_LAST (head : Z) (s : store) : ptr := word1 (s (Hd head)).
Definition CIRCLEQ_NEXT (elm : Z) (s : store) : ptr := word0 (s (El elm)).
Definition CIRCLEQ_PREV (elm : Z) (s : store) : ptr := word1 (s (El elm)).

Definition CIRCLEQ_LOOP_NEXT (head elm : Z) (s : store) : ptr :=
  if decide (word0 (s (El elm)) = Some (Hd head)) then word0 (s (Hd head)) else word0 (s (El elm)).
Definition CIRCLEQ_LOOP_PREV (head elm : Z) (s : store) : ptr :=
  if decide (word1 (s (El elm)) = Some (Hd head)) then word1 (s (Hd head)) else word1 (s (El elm)).
