(* ===== verification/QueueProofs.v ===== *)
(** The list families of stdlib/queue.h implement sequences of elements.

    [seg] says that following one word of the cells from a node visits a list
    of elements; all families are instances of it: [SLIST], [STAILQ] and
    [SIMPLEQ] have a forward chain, [TAILQ] and [CIRCLEQ] also a backward one
    that runs through the reversed list back to the head.  [Family] is the
    interface between the macros of a family and the programs that use them:
    it states what one operation does to the list of its head and that it
    leaves every other cell alone. *)

From S2P Require Import Prelude Queue QueueFamilies.

(** ** Chains *)

(** From the node [n], the function [f] leads through the elements [l]; the
    last node holds [p]. *)
Fixpoint seg (f : node → ptr) (n : node) (l : list Z) (p : ptr) : Prop :=
  match l with
  | [] => f n = p
  | x :: l' => f n = Some (El x) ∧ seg f (El x) l' p
  end.

(** The last node of a chain, the pointer its first node holds, its nodes. *)
Fixpoint lastn (n : node) (l : list Z) : node :=
  match l with [] => n | x :: l' => lastn (El x) l' end.

Definition firstp (l : list Z) (p : ptr) : ptr :=
  match l with [] => p | x :: _ => Some (El x) end.

Definition nodes (n : node) (l : list Z) : list node := n :: (El <$> l).

Lemma lastn_app n l1 l2 : lastn n (l1 ++ l2) = lastn (lastn n l1) l2.
Proof. revert n. induction l1; intros n; cbn; auto. Qed.

Lemma lastn_snoc n l x : lastn n (l ++ [x]) = El x.
Proof. by rewrite lastn_app. Qed.

Lemma lastn_in n l : lastn n l ∈ nodes n l.
Proof.
  destruct l as [|x l _] using rev_ind; [by left|].
  rewrite lastn_snoc. unfold nodes. rewrite fmap_app. set_solver.
Qed.

Lemma firstp_rev n l : firstp (rev l) (Some n) = Some (lastn n l).
Proof.
  destruct l as [|x l _] using rev_ind; [done|]. by rewrite rev_app_distr, lastn_snoc.
Qed.

Lemma elem_nodes x n l : El x ∈ nodes n l ↔ El x = n ∨ x ∈ l.
Proof. unfold nodes. rewrite elem_of_cons, list_elem_of_fmap. naive_solver. Qed.

Lemma head_nodes h n l : Hd h ∈ nodes n l ↔ Hd h = n.
Proof. unfold nodes. rewrite elem_of_cons, list_elem_of_fmap. naive_solver. Qed.

Lemma nodes_rev n l m : m ∈ nodes n (rev l) ↔ m ∈ nodes n l.
Proof. destruct m; [by rewrite !head_nodes|]. by rewrite !elem_nodes, !list_elem_of_In, <- in_rev. Qed.

Lemma nodes_nodup h l : NoDup l → NoDup (nodes (Hd h) l).
Proof.
  intros. apply NoDup_cons. split; [|by apply NoDup_fmap_2; [intros ?? [=]|]].
  rewrite list_elem_of_fmap. naive_solver.
Qed.

Lemma seg_first f n l p : seg f n l p → f n = firstp l p.
Proof. destruct l; [done|]. by intros [? _]. Qed.

Lemma seg_ext f f' n l p : (∀ m, m ∈ nodes n l → f m = f' m) → seg f n l p → seg f' n l p.
Proof.
  revert n. induction l as [|x l IH]; intros n He; cbn.
  - intros <-. symmetry. apply He. by left.
  - rewrite (He n) by (by left). intros [? H]. split; [done|]. apply IH; [|done].
    intros m Hm. apply He. by right.
Qed.

Lemma seg_app f n l1 l2 p :
  seg f n (l1 ++ l2) p ↔ seg f n l1 (firstp l2 p) ∧ seg f (lastn n l1) l2 p.
Proof.
  revert n. induction l1 as [|x l1 IH]; intros n; cbn.
  - split; [intros H; split; [by apply seg_first|done]|by intros [_ ?]].
  - rewrite IH. tauto.
Qed.

(** The same elements from another first node. *)
Lemma seg_restart f f' n n' l p :
  seg f n l p → (∀ y, y ∈ l → f' (El y) = f (El y)) → f' n' = firstp l p → seg f' n' l p.
Proof.
  destruct l as [|x l]; cbn; [done|]. intros [_ H] He ->. split; [done|].
  eapply seg_ext; [|exact H]. intros m Hm. symmetry.
  unfold nodes in Hm. apply elem_of_cons in Hm as [->|(y & -> & Hy)%list_elem_of_fmap]; apply He; set_solver.
Qed.

(** The same elements, the last node pointing elsewhere. *)
Lemma seg_redirect f f' n l p p' :
  NoDup (nodes n l) → seg f n l p → f' (lastn n l) = p' →
  (∀ m, m ∈ nodes n l → m ≠ lastn n l → f' m = f m) → seg f' n l p'.
Proof.
  revert n. induction l as [|x l IH]; intros n; cbn; [done|].
  intros [Hn Hnd]%NoDup_cons [Hf H] Hl He. split.
  - rewrite He; [done|by left|]. intros ->. apply Hn. apply (lastn_in (El x) l).
  - apply IH; try done. intros m Hm. apply He. by right.
Qed.

Section splice.

Context (f f' : node → ptr) (h : Z) (l1 l2 : list Z) (x : Z) (p : ptr).

Lemma lastn_not_later : NoDup (l1 ++ l2) → ∀ y, y ∈ l2 → El y ≠ lastn (Hd h) l1.
Proof.
  intros (_ & Hdj & _)%NoDup_app y Hy E. pose proof (lastn_in (Hd h) l1) as Hin.
  rewrite <- E, elem_nodes in Hin. destruct Hin as [?|Hin]; [done|]. by apply (Hdj y).
Qed.

(** Insertion: the last node before the place points to the new element, and
    the new element to what followed. *)
Lemma seg_insert :
  NoDup (l1 ++ l2) → x ∉ l1 ++ l2 → seg f (Hd h) (l1 ++ l2) p →
  f' (lastn (Hd h) l1) = Some (El x) → f' (El x) = firstp l2 p →
  (∀ m, m ∈ nodes (Hd h) (l1 ++ l2) → m ≠ lastn (Hd h) l1 → f' m = f m) →
  seg f' (Hd h) (l1 ++ x :: l2) p.
Proof.
  intros Hnd Hx [H1 H2]%seg_app Hl Hfx He. apply seg_app. split.
  - eapply seg_redirect; [apply nodes_nodup; by apply NoDup_app in Hnd as (? & _)|exact H1|done|].
    intros m Hm. apply He. unfold nodes in *. rewrite fmap_app. set_solver.
  - split; [done|]. eapply seg_restart; [exact H2| |done]. intros y Hy.
    apply He; [|by apply lastn_not_later]. apply elem_nodes. set_solver.
Qed.

(** Removal: the last node before the element points to what followed it. *)
Lemma seg_remove :
  NoDup (l1 ++ l2) → seg f (Hd h) (l1 ++ x :: l2) p →
  f' (lastn (Hd h) l1) = firstp l2 p →
  (∀ m, m ∈ nodes (Hd h) (l1 ++ l2) → m ≠ lastn (Hd h) l1 → f' m = f m) →
  seg f' (Hd h) (l1 ++ l2) p.
Proof.
  intros Hnd [H1 [_ H2]]%seg_app Hl He. apply seg_app. split.
  - eapply seg_redirect; [apply nodes_nodup; by apply NoDup_app in Hnd as (? & _)|exact H1|done|].
    intros m Hm. apply He. unfold nodes in *. rewrite fmap_app. set_solver.
  - eapply seg_restart; [exact H2| |done]. intros y Hy.
    apply He; [|by apply lastn_not_later]. apply elem_nodes. set_solver.
Qed.

End splice.

(** The [FOREACH] walk over a chain ends after visiting exactly its elements. *)
Lemma walk_seg stop w s n l k :
  seg (λ m, w (s m)) n l stop → (∀ x, Some (El x) ≠ stop) → (length l < k)%nat →
  walk stop w k (w (s n)) s = Some l.
Proof.
  intros H Hs. revert n k H. induction l as [|x l IH]; intros n [|k]; cbn; try lia.
  - intros -> _. by rewrite decide_True.
  - intros [-> H] Hk. rewrite decide_False by done. rewrite (IH (El x)) by (done || lia). done.
Qed.

(** The search for the predecessor of [x] stops at the element before it. *)
Lemma find_before_seg s n l1 x l2 p k :
  NoDup (l1 ++ x :: l2) → seg (λ m, word0 (s m)) n (l1 ++ x :: l2) p → l1 ≠ [] → (length l1 < k)%nat →
  find_before k (word0 (s n)) x s = Some (lastn n l1).
Proof.
  revert n k. induction l1 as [|y l1 IH]; intros n [|k] Hnd; cbn; try done; try lia.
  intros [Hn H] _ Hk. rewrite Hn. cbn. apply NoDup_cons in Hnd as [Hy Hnd]. destruct l1 as [|z l1].
  - cbn in H. destruct H as [Hz _]. by rewrite decide_True.
  - assert (z ≠ x) by (apply NoDup_cons in Hnd; set_solver).
    pose proof H as [Hz _]. cbn in Hz. rewrite decide_False by (rewrite Hz; congruence).
    apply IH; try done. cbn in *; lia.
Qed.

(** ** Abstract queues and the interface of a family *)

(** An operation on the list of one head. *)
Inductive lop :=
| InsHead (x : Z) | InsTail (x : Z) | InsAfter (y x : Z) | InsBefore (y x : Z) | RemHead | Rem (x : Z).

Definition loc_op (o : lop) (l : list Z) : option (list Z) :=
  match o with
  | InsHead x => Some (x :: l)
  | InsTail x => Some (l ++ [x])
  | InsAfter y x => ins (λ y, [y; x]) y l
  | InsBefore y x => ins (λ y, [x; y]) y l
  | RemHead => match l with [] => None | _ :: l' => Some l' end
  | Rem x => ins (λ _, []) x l
  end.

(** The element an operation adds. *)
Definition lop_new (o : lop) : list Z :=
  match o with
  | InsHead x | InsTail x | InsAfter _ x | InsBefore _ x => [x]
  | RemHead | Rem _ => []
  end.

(** An operation on the heads of a memory. *)
Inductive qop := OInit (h : Z) | OLoc (h : Z) (o : lop) | OConcat (h1 h2 : Z).

(** Several lists, by head.  An element is on one list at most. *)
Abbreviation lists := (gmap Z (list Z)).

Definition fresh (x : Z) (L : lists) : Prop := map_Forall (λ _ l, x ∉ l) L.

Definition abs_qop (o : qop) (L : lists) : option lists :=
  match o with
  | OInit h => Some (<[h := []]> L)
  | OLoc h o =>
      if decide (Forall (λ x, fresh x L) (lop_new o)) then
        l ← L !! h; l' ← loc_op o l; Some (<[h := l']> L)
      else None
  | OConcat h1 h2 =>
      if decide (h1 = h2) then None else
      l1 ← L !! h1; l2 ← L !! h2; Some (<[h2 := []]> (<[h1 := l1 ++ l2]> L))
  end.

Definition disjoint_lists (L : lists) : Prop :=
  ∀ h1 h2 l1 l2 x, L !! h1 = Some l1 → L !! h2 = Some l2 → x ∈ l1 → x ∈ l2 → h1 = h2.

(** What a family promises: [rep s h l] says that the head [h] has the list
    [l] ([stop h] is the pointer that ends it); it depends on the cells of that list only, and the operations the
    family has change that list as specified and no other cell. *)
Class Family := {
  supports : qop → bool;
  exec : nat → qop → store → option store;
  each : nat → Z → store → option (list Z);
  empty : Z → store → bool;
  first : Z → store → ptr;
  next : Z → store → ptr;
  stop : Z → ptr;
  rep : store → Z → list Z → Prop;
  rep_ext s s' h l : (∀ m, m ∈ nodes (Hd h) l → s' m = s m) → rep s h l → rep s' h l;
  exec_init k h s :
    supports (OInit h) = true →
    ∃ s', exec k (OInit h) s = Some s' ∧ rep s' h [] ∧ ∀ m, m ≠ Hd h → s' m = s m;
  exec_loc k h o s l l' :
    supports (OLoc h o) = true → NoDup l → (∀ x, x ∈ lop_new o → x ∉ l) → loc_op o l = Some l' →
    rep s h l → (length l < k)%nat →
    ∃ s', exec k (OLoc h o) s = Some s' ∧ rep s' h l' ∧
      ∀ m, m ∉ nodes (Hd h) (lop_new o ++ l) → s' m = s m;
  exec_concat k h1 h2 s l1 l2 :
    supports (OConcat h1 h2) = true → h1 ≠ h2 → NoDup (l1 ++ l2) → rep s h1 l1 → rep s h2 l2 →
    ∃ s', exec k (OConcat h1 h2) s = Some s' ∧ rep s' h1 (l1 ++ l2) ∧ rep s' h2 [] ∧
      ∀ m, m ∉ nodes (Hd h1) l1 → m ∉ nodes (Hd h2) l2 → s' m = s m;
  each_rep k h s l : rep s h l → (length l < k)%nat → each k h s = Some l;
  first_rep h s l : rep s h l → first h s = firstp l (stop h);
  next_rep h s l1 x l2 : rep s h (l1 ++ x :: l2) → next x s = firstp l2 (stop h);
  empty_rep h s l : rep s h l → empty h s = bool_decide (l = [])
}.

Fixpoint run_qops {A} (f : qop → A → option A) (os : list qop) (a : A) : option A :=
  match os with
  | [] => Some a
  | o :: os' => f o a ≫= run_qops f os'
  end.

Lemma loc_op_elems o l l' : loc_op o l = Some l' → ∀ x, x ∈ l' → x ∈ lop_new o ++ l.
Proof.
  destruct o; cbn [loc_op lop_new]; intros H z Hz.
  3,4,6: apply ins_split in H as (l1 & l2 & -> & ->); set_solver.
  all: destruct l; simplify_eq; set_solver.
Qed.

Lemma loc_op_nodup o l l' :
  NoDup l → (∀ x, x ∈ lop_new o → x ∉ l) → loc_op o l = Some l' → NoDup l'.
Proof.
  intros Hnd Hx. destruct o; cbn [loc_op lop_new] in *; intros H.
  3,4,6: apply ins_split in H as (l1 & l2 & -> & ->).
  all: try (destruct l; [done|]); simplify_eq.
  all: repeat match goal with H : ∀ x, x ∈ [?y] → _ |- _ => specialize (H y ltac:(set_solver)) end.
  all: rewrite ?NoDup_app, ?NoDup_cons in *; pose proof (NoDup_nil_2 (A := Z)); set_solver.
Qed.

Section client.

Context `{F : Family}.

(** The memory holds exactly these lists. *)
Definition reps (s : store) (L : lists) : Prop :=
  (∀ h l, L !! h = Some l → NoDup l ∧ rep s h l) ∧ disjoint_lists L.

Lemma reps_change s s' L L' :
  reps s L → disjoint_lists L' →
  (∀ h l, L' !! h = Some l → (NoDup l ∧ rep s' h l) ∨
     (L !! h = Some l ∧ ∀ m, m ∈ nodes (Hd h) l → s' m = s m)) → reps s' L'.
Proof.
  intros [H _] Hd Hc. split; [|done]. intros h l Hl.
  destruct (Hc h l Hl) as [?|[Hl' He]]; [done|].
  destruct (H h l Hl') as [? ?]. split; [done|]. by eapply rep_ext.
Qed.

Lemma disjoint_insert L h l' :
  disjoint_lists L → (∀ x, x ∈ l' → ∀ h' l, L !! h' = Some l → x ∈ l → h' = h) →
  disjoint_lists (<[h := l']> L).
Proof.
  intros Hd Hx h1 h2 l1 l2 x [[-> ->]|[? H1]]%lookup_insert_Some [[-> ->]|[? H2]]%lookup_insert_Some Hx1 Hx2;
    [done|symmetry; by eapply Hx|by eapply Hx|by eapply Hd].
Qed.

Lemma step_init k s L h :
  supports (OInit h) = true → reps s L →
  ∃ s', exec k (OInit h) s = Some s' ∧ reps s' (<[h := []]> L).
Proof.
  intros Hs HL. destruct (exec_init k h s Hs) as (s' & E & Hr & He). exists s'. split; [done|].
  eapply reps_change; [exact HL|apply disjoint_insert; [apply HL|set_solver]|].
  intros h' l [[<- <-]|[Hn Hl]]%lookup_insert_Some; [left; split; [constructor|done]|].
  right. split; [done|]. intros m Hm. apply He. intros ->. apply head_nodes in Hm. naive_solver.
Qed.

Lemma step_loc k s L L' h o :
  supports (OLoc h o) = true → reps s L → (∀ h l, L !! h = Some l → (length l < k)%nat) →
  abs_qop (OLoc h o) L = Some L' → ∃ s', exec k (OLoc h o) s = Some s' ∧ reps s' L'.
Proof.
  intros Hs HL Hk. cbn. case_decide as Hf; [|done].
  intros (l & Hl & (l' & Hl' & [= <-])%bind_Some)%bind_Some. rewrite Forall_forall in Hf.
  pose proof HL as [HP Hd]. destruct (HP h l Hl) as [Hnd Hr].
  assert (∀ x, x ∈ lop_new o → x ∉ l) as Hx by (intros x Hx; exact (Hf x Hx h l Hl)).
  destruct (exec_loc k h o s l l' Hs Hnd Hx Hl' Hr (Hk h l Hl)) as (s' & E & Hr' & He).
  exists s'. split; [done|]. pose proof (loc_op_elems o l l' Hl') as Hel.
  eapply reps_change; [exact HL|apply disjoint_insert; [done|]|].
  - intros x Hxl h' l0 Hl0 Hx0. apply Hel, elem_of_app in Hxl as [Hxn|Hxl]; [|by eapply Hd].
    by destruct (Hf x Hxn h' l0 Hl0).
  - intros h' l0 [[<- <-]|[Hn Hl0]]%lookup_insert_Some; [left; split; [by eapply loc_op_nodup|done]|].
    right. split; [done|]. intros m Hm. apply He. intros Hm'. destruct m as [h''|x].
    + rewrite head_nodes in Hm, Hm'. naive_solver.
    + rewrite elem_nodes in Hm, Hm'. destruct Hm as [|Hm], Hm' as [|[Hxn|Hxl]%elem_of_app]; try done.
      * by destruct (Hf x Hxn h' l0 Hl0).
      * apply Hn. by eapply Hd.
Qed.

Lemma step_concat k s L L' h1 h2 :
  supports (OConcat h1 h2) = true → reps s L →
  abs_qop (OConcat h1 h2) L = Some L' → ∃ s', exec k (OConcat h1 h2) s = Some s' ∧ reps s' L'.
Proof.
  intros Hs HL. cbn. case_decide as Hh; [done|].
  intros (l1 & Hl1 & (l2 & Hl2 & [= <-])%bind_Some)%bind_Some. pose proof HL as [HP Hd].
  destruct (HP h1 l1 Hl1) as [Hnd1 Hr1], (HP h2 l2 Hl2) as [Hnd2 Hr2].
  assert (NoDup (l1 ++ l2)) as Hnd.
  { apply NoDup_app. split_and!; [done| |done]. intros x Hx1 Hx2. apply Hh. by eapply Hd. }
  destruct (exec_concat k h1 h2 s l1 l2 Hs Hh Hnd Hr1 Hr2) as (s' & E & Hr1' & Hr2' & He).
  exists s'. split; [done|]. eapply reps_change; [exact HL| |].
  - intros h h' l l' x [[<- <-]|[? [[<- <-]|[? H1]]%lookup_insert_Some]]%lookup_insert_Some
      [[<- <-]|[? [[<- <-]|[? H2]]%lookup_insert_Some]]%lookup_insert_Some; try set_solver; intros Hx Hx';
      try by eapply Hd.
  - intros h l [[<- <-]|[? [[<- <-]|[? H1]]%lookup_insert_Some]]%lookup_insert_Some.
    + left. split; [constructor|done].
    + by left.
    + right. split; [done|]. intros [h''|x] Hm; apply He; rewrite ?head_nodes, ?elem_nodes in *; naive_solver.
Qed.

(** The elements of a program bound the length of its lists, and so the walks. *)
Definition qop_elems (o : qop) : list Z := match o with OLoc _ o => lop_new o | _ => [] end.

Lemma abs_qop_elems o L L' (E : list Z) :
  abs_qop o L = Some L' → qop_elems o ⊆ E → (∀ h l, L !! h = Some l → l ⊆ E) →
  ∀ h l, L' !! h = Some l → l ⊆ E.
Proof.
  intros Ho HE HL h l Hl. destruct o as [h'|h' o|h1 h2]; cbn in Ho.
  - simplify_eq. apply lookup_insert_Some in Hl as [[_ <-]|[_ Hl]]; [set_solver|by eapply HL].
  - case_decide; [|done]. apply bind_Some in Ho as (l0 & Hl0 & (l1 & Hl1 & [= <-])%bind_Some).
    apply lookup_insert_Some in Hl as [[_ <-]|[_ Hl]]; [|by eapply HL].
    intros x Hx. apply (loc_op_elems _ _ _ Hl1), elem_of_app in Hx as [Hx|Hx]; [by apply HE|by eapply HL].
  - case_decide; [done|]. apply bind_Some in Ho as (l1 & Hl1 & (l2 & Hl2 & [= <-])%bind_Some).
    apply lookup_insert_Some in Hl as [[_ <-]|[_ [[_ <-]|[_ Hl]]%lookup_insert_Some]]; [set_solver| |by eapply HL].
    apply HL in Hl1, Hl2. set_solver.
Qed.

Lemma reps_length s L E :
  reps s L → (∀ h l, L !! h = Some l → l ⊆ E) → ∀ h l, L !! h = Some l → (length l ≤ length E)%nat.
Proof.
  intros [H _] HE h l Hl. apply submseteq_length, NoDup_submseteq; [by apply (H h l)|].
  intros x. by apply (HE h l).
Qed.

Lemma step_qop k s L L' o :
  supports o = true → reps s L → (∀ h l, L !! h = Some l → (length l < k)%nat) →
  abs_qop o L = Some L' → ∃ s', exec k o s = Some s' ∧ reps s' L'.
Proof.
  intros Hs HL Hk Ho. destruct o; [|by eapply step_loc|by eapply step_concat].
  injection Ho as <-. by apply step_init.
Qed.

(** Programs written against the interface: a sequence of operations that is
    meaningful for lists runs, and the memory then holds the lists. *)
Lemma run_qops_reps k os : ∀ s L L' E,
  Forall (λ o, supports o = true ∧ qop_elems o ⊆ E) os → (length E < k)%nat →
  reps s L → (∀ h l, L !! h = Some l → l ⊆ E) → run_qops abs_qop os L = Some L' →
  ∃ s', run_qops (exec k) os s = Some s' ∧ reps s' L' ∧ ∀ h l, L' !! h = Some l → (length l < k)%nat.
Proof.
  induction os as [|o os IH]; intros s L L' E Hos Hk HL HE; cbn [run_qops].
  - intros [= <-]. exists s. split_and!; try done. intros h l Hl.
    pose proof (reps_length s L E HL HE h l Hl). lia.
  - apply Forall_cons in Hos as [[Ho HoE] Hos]. destruct (abs_qop o L) as [L1|] eqn:E1; [|done].
    cbn. intros Hr. destruct (step_qop k s L L1 o Ho HL) as (s1 & -> & H1); [|done|].
    { intros h l Hl. pose proof (reps_length s L E HL HE h l Hl). lia. }
    cbn. eapply IH; [exact Hos|exact Hk|exact H1| |exact Hr]. by eapply abs_qop_elems.
Qed.

Lemma run_qops_empty k os s L :
  Forall (λ o, supports o = true) os → (length os < k)%nat → run_qops abs_qop os ∅ = Some L →
  ∃ s', run_qops (exec k) os s = Some s' ∧ reps s' L ∧ ∀ h l, L !! h = Some l → (length l < k)%nat.
Proof.
  intros Hos Hk Hr. eapply (run_qops_reps k os s ∅ L (mjoin (qop_elems <$> os))); [| | |set_solver|done].
  - apply Forall_forall. intros o Ho. rewrite Forall_forall in Hos. split; [by apply Hos|].
    intros x Hx. apply list_elem_of_join. exists (qop_elems o). split; [done|]. by apply list_elem_of_fmap_2.
  - eapply Nat.le_lt_trans; [|exact Hk]. clear. induction os as [|o os IH]; [cbn; lia|].
    change (length (qop_elems o ++ mjoin (qop_elems <$> os)) ≤ S (length os))%nat. rewrite length_app. assert (length (qop_elems o) ≤ 1)%nat by (destruct o as [|? []|]; cbn; lia). lia.
  - split; [set_solver|]. intros ?????. set_solver.
Qed.

End client.
