(* ===== verification/QueueInstances.v ===== *)
(** The macros of every family of stdlib/queue.h discharge the interface
    [Family]: the instances [slist], [stailq], [simpleq], [tailq] and
    [circleq]. *)

From S2P Require Import Prelude Queue QueueFamilies QueueProofs.

(** ** Reading cells after assignments *)

Lemma word0_set0 n p s m : word0 (set0 n p s m) = if decide (n = m) then p else word0 (s m).
Proof. unfold set0. rewrite fn_insert_dec. by case_decide. Qed.
Lemma word0_set1 n p s m : word0 (set1 n p s m) = word0 (s m).
Proof. unfold set1. rewrite fn_insert_dec. case_decide; by subst. Qed.
Lemma word1_set1 n p s m : word1 (set1 n p s m) = if decide (n = m) then p else word1 (s m).
Proof. unfold set1. rewrite fn_insert_dec. by case_decide. Qed.
Lemma word1_set0 n p s m : word1 (set0 n p s m) = word1 (s m).
Proof. unfold set0. rewrite fn_insert_dec. case_decide; by subst. Qed.

Lemma word0_self n p s : word0 (set0 n p s n) = p.
Proof. rewrite word0_set0. by rewrite decide_True. Qed.

Lemma word0_other n m p s : n ≠ m → word0 (set0 n p s m) = word0 (s m).
Proof. intros. by rewrite word0_set0, decide_False. Qed.
Lemma word1_other n m p s : n ≠ m → word1 (set1 n p s m) = word1 (s m).
Proof. intros. by rewrite word1_set1, decide_False. Qed.

Lemma cell_eq (c c' : cell) : word0 c = word0 c' → word1 c = word1 c' → c = c'.
Proof. destruct c, c'. naive_solver. Qed.

(** Evaluate the words of an updated memory, by cases on the nodes. *)
Ltac cells :=
  repeat first [ rewrite word0_set0 | rewrite word0_set1 | rewrite word1_set1 | rewrite word1_set0 ];
  repeat case_decide; simplify_eq; try done.

(** ** The cells an insertion or a removal writes *)

Section cells.

Context (h : Z) (l1 l2 : list Z) (x : Z) (s s' : store).

Abbreviation w0 := (λ s m, word0 ((s : store) m)).
Abbreviation w1 := (λ s m, word1 ((s : store) m)).
Abbreviation before := (lastn (Hd h) l1).
Abbreviation after := (lastn (Hd h) (rev l2)).

(** [x] was linked into the forward chain between [l1] and [l2]. *)
Record linked0 (e : ptr) : Prop := Linked0 {
  l0_before : word0 (s' before) = Some (El x);
  l0_new : word0 (s' (El x)) = firstp l2 e;
  l0_rest : ∀ m, m ≠ before → m ≠ El x → word0 (s' m) = word0 (s m) }.

Record linked1 : Prop := Linked1 {
  l1_after : word1 (s' after) = Some (El x);
  l1_new : word1 (s' (El x)) = Some before;
  l1_rest : ∀ m, m ≠ after → m ≠ El x → word1 (s' m) = word1 (s m) }.

(** [x] was taken out of the forward chain. *)
Record unlinked0 (e : ptr) : Prop := Unlinked0 {
  u0_before : word0 (s' before) = firstp l2 e;
  u0_rest : ∀ m, m ≠ before → word0 (s' m) = word0 (s m) }.

Record unlinked1 : Prop := Unlinked1 {
  u1_after : word1 (s' after) = Some before;
  u1_rest : ∀ m, m ≠ after → word1 (s' m) = word1 (s m) }.

Lemma seg_linked0 e :
  NoDup (l1 ++ l2) → x ∉ l1 ++ l2 → linked0 e →
  seg (w0 s) (Hd h) (l1 ++ l2) e → seg (w0 s') (Hd h) (l1 ++ x :: l2) e.
Proof.
  intros Hnd Hx [H1 H2 H3] H. eapply seg_insert; try done. intros m Hm Hn. apply H3; [done|].
  intros ->. rewrite elem_nodes in Hm. naive_solver.
Qed.

Lemma seg_unlinked0 e :
  NoDup (l1 ++ l2) → unlinked0 e →
  seg (w0 s) (Hd h) (l1 ++ x :: l2) e → seg (w0 s') (Hd h) (l1 ++ l2) e.
Proof. intros Hnd [H1 H2] H. eapply seg_remove; try done. intros m _. apply H2. Qed.

Lemma nodup_rev (l : list Z) : NoDup l → NoDup (rev l).
Proof. rewrite !NoDup_ListNoDup. apply NoDup_rev. Qed.

Lemma seg_linked1 :
  NoDup (l1 ++ l2) → x ∉ l1 ++ l2 → linked1 →
  seg (w1 s) (Hd h) (rev (l1 ++ l2)) (Some (Hd h)) → seg (w1 s') (Hd h) (rev (l1 ++ x :: l2)) (Some (Hd h)).
Proof.
  intros Hnd Hx [H1 H2 H3]. apply nodup_rev in Hnd. rewrite rev_app_distr in Hnd |- *.
  rewrite rev_app_distr. cbn [rev]. rewrite <- app_assoc. cbn [app]. intros H.
  assert (x ∉ rev l2 ++ rev l1) as Hx'.
  { rewrite <- rev_app_distr, list_elem_of_In, <- in_rev, <- list_elem_of_In. done. }
  eapply seg_insert; try done; [by rewrite firstp_rev|]. intros m Hm Hn. apply H3; [done|].
  intros ->. rewrite elem_nodes in Hm. naive_solver.
Qed.

Lemma seg_unlinked1 :
  NoDup (l1 ++ l2) → unlinked1 →
  seg (w1 s) (Hd h) (rev (l1 ++ x :: l2)) (Some (Hd h)) → seg (w1 s') (Hd h) (rev (l1 ++ l2)) (Some (Hd h)).
Proof.
  intros Hnd [H1 H2]. apply nodup_rev in Hnd. rewrite rev_app_distr in Hnd |- *.
  rewrite rev_app_distr. cbn [rev]. rewrite <- app_assoc. cbn [app]. intros H.
  eapply seg_remove; try done; [by rewrite firstp_rev|]. intros m _. apply H2.
Qed.

(** The pointers at the place of an insertion. *)
Lemma seg_at0 e : seg (w0 s) (Hd h) (l1 ++ l2) e → word0 (s before) = firstp l2 e.
Proof. intros [_ H]%seg_app. by apply seg_first in H. Qed.

Lemma seg_at1 : seg (w1 s) (Hd h) (rev (l1 ++ l2)) (Some (Hd h)) → word1 (s after) = Some before.
Proof. rewrite rev_app_distr. intros [_ H]%seg_app. apply seg_first in H. by rewrite firstp_rev in H. Qed.

Lemma before_node : before = Hd h ∨ ∃ y, y ∈ l1 ∧ before = El y.
Proof.
  pose proof (lastn_in (Hd h) l1) as H. destruct before as [h'|y].
  - apply head_nodes in H as ->. by left.
  - apply elem_nodes in H as [|H]; [done|]. right. by exists y.
Qed.

Lemma after_node : after = Hd h ∨ ∃ y, y ∈ l2 ∧ after = El y.
Proof.
  pose proof (lastn_in (Hd h) (rev l2)) as H. rewrite nodes_rev in H. destruct after as [h'|y].
  - apply head_nodes in H as ->. by left.
  - apply elem_nodes in H as [|H]; [done|]. right. by exists y.
Qed.

End cells.

(** ** Singly linked lists *)

Section slist.

Definition slist_rep (s : store) (h : Z) (l : list Z) : Prop := seg (λ m, word0 (s m)) (Hd h) l None.

Definition slist_supports (o : qop) : bool :=
  match o with
  | OInit _ | OLoc _ (InsHead _) | OLoc _ (InsAfter _ _) | OLoc _ RemHead | OLoc _ (Rem _) => true
  | _ => false
  end.

Definition slist_exec (k : nat) (o : qop) (s : store) : option store :=
  match o with
  | OInit h => Some (SLIST_INIT h s)
  | OLoc h (InsHead x) => Some (SLIST_INSERT_HEAD h x s)
  | OLoc _ (InsAfter y x) => Some (SLIST_INSERT_AFTER y x s)
  | OLoc h RemHead => SLIST_REMOVE_HEAD h s
  | OLoc h (Rem x) => SLIST_REMOVE k h x s
  | _ => None
  end.

(** The frame of an operation that writes between [l1] and [l2]. *)
Lemma linked_frame h l1 l2 x (s s' : store) e :
  linked0 h l1 l2 x s s' e → (∀ m, m ∉ nodes (Hd h) (x :: l1 ++ l2) → word1 (s' m) = word1 (s m)) →
  ∀ m, m ∉ nodes (Hd h) (x :: l1 ++ l2) → s' m = s m.
Proof.
  intros [_ _ H] H1 m Hm. apply cell_eq; [|by apply H1]. apply H.
  - intros ->. apply Hm. pose proof (lastn_in (Hd h) l1) as Hl. revert Hl. unfold nodes.
    rewrite fmap_cons, fmap_app. set_solver.
  - intros ->. apply Hm. apply elem_nodes. set_solver.
Qed.

Lemma unlinked_frame h l1 l2 x (s s' : store) e :
  unlinked0 h l1 l2 s s' e → (∀ m, m ∉ nodes (Hd h) (l1 ++ x :: l2) → word1 (s' m) = word1 (s m)) →
  ∀ m, m ∉ nodes (Hd h) (l1 ++ x :: l2) → s' m = s m.
Proof.
  intros [_ H] H1 m Hm. apply cell_eq; [|by apply H1]. apply H.
  intros ->. apply Hm. pose proof (lastn_in (Hd h) l1) as Hl. revert Hl. unfold nodes.
  rewrite fmap_app. set_solver.
Qed.

(** The node a removal rewrites is the last one before the element. *)
Lemma remove_walk k s h l1 x l2 :
  NoDup (l1 ++ x :: l2) → slist_rep s h (l1 ++ x :: l2) → (length l1 < k)%nat → l1 ≠ [] →
  word0 (s (Hd h)) ≠ Some (El x) ∧ find_before k (word0 (s (Hd h))) x s = Some (lastn (Hd h) l1).
Proof.
  intros Hnd H Hk Hl. split; [|by eapply find_before_seg].
  destruct l1 as [|y l1]; [done|]. destruct H as [-> _]. intros [= ->].
  cbn in Hnd. apply NoDup_cons in Hnd. set_solver.
Qed.

Lemma slist_insert_head_ok h l x s :
  slist_rep s h l → linked0 h [] l x s (SLIST_INSERT_HEAD h x s) None.
Proof.
  intros H%seg_first. unfold SLIST_INSERT_HEAD. split; cbn; intros; cells.
Qed.

Lemma slist_insert_after_ok h l1 y l2 x s :
  slist_rep s h ((l1 ++ [y]) ++ l2) → x ≠ y →
  linked0 h (l1 ++ [y]) l2 x s (SLIST_INSERT_AFTER y x s) None.
Proof.
  intros H%seg_at0 Hx. rewrite lastn_snoc in H. unfold SLIST_INSERT_AFTER.
  split; rewrite ?lastn_snoc; intros; cells.
Qed.

Lemma slist_unlink_ok h l1 x l2 s :
  slist_rep s h (l1 ++ x :: l2) →
  unlinked0 h l1 l2 s (set0 (lastn (Hd h) l1) (word0 (s (El x))) s) None.
Proof.
  intros [_ [_ H]]%seg_app. apply seg_first in H. split; intros; cells.
Qed.

Lemma slist_remove_ok k h l1 x l2 s :
  NoDup (l1 ++ x :: l2) → slist_rep s h (l1 ++ x :: l2) → (length l1 < k)%nat →
  SLIST_REMOVE k h x s = Some (set0 (lastn (Hd h) l1) (word0 (s (El x))) s).
Proof.
  intros Hnd H Hk. unfold SLIST_REMOVE, SLIST_REMOVE_HEAD.
  pose proof (seg_at0 h l1 (x :: l2) s None H) as Hb. destruct l1 as [|z l1].
  - cbn in Hb |- *. rewrite Hb, decide_True by done. done.
  - destruct (remove_walk k s h (z :: l1) x l2 Hnd H Hk ltac:(done)) as [Hn ->].
    rewrite decide_False by done. cbn [mbind option_bind]. rewrite Hb. done.
Qed.

Lemma slist_linked h l1 l2 x s s' :
  NoDup (l1 ++ l2) → x ∉ l1 ++ l2 → linked0 h l1 l2 x s s' None → (∀ m, word1 (s' m) = word1 (s m)) →
  slist_rep s h (l1 ++ l2) →
  slist_rep s' h (l1 ++ x :: l2) ∧ ∀ m, m ∉ nodes (Hd h) (x :: l1 ++ l2) → s' m = s m.
Proof.
  intros Hnd Hx HL H1 H. split; [by eapply seg_linked0|]. eapply linked_frame; [done|]. intros; apply H1.
Qed.

Lemma slist_unlinked h l1 l2 x s s' :
  NoDup (l1 ++ x :: l2) → unlinked0 h l1 l2 s s' None → (∀ m, word1 (s' m) = word1 (s m)) →
  slist_rep s h (l1 ++ x :: l2) →
  slist_rep s' h (l1 ++ l2) ∧ ∀ m, m ∉ nodes (Hd h) (l1 ++ x :: l2) → s' m = s m.
Proof.
  intros Hnd HU H1 H. split; [|eapply unlinked_frame; [done|]; intros; apply H1].
  eapply seg_unlinked0; [|done..]. rewrite NoDup_app, NoDup_cons in Hnd. apply NoDup_app. set_solver.
Qed.

Lemma ins_after x y l l' :
  ins (λ y, [y; x]) y l = Some l' → ∃ l1 l2, l = (l1 ++ [y]) ++ l2 ∧ l' = (l1 ++ [y]) ++ x :: l2.
Proof. intros (l1 & l2 & -> & ->)%ins_split. exists l1, l2. by rewrite <- !app_assoc. Qed.

Lemma slist_loc k h o s l l' :
  slist_supports (OLoc h o) = true → NoDup l → (∀ x, x ∈ lop_new o → x ∉ l) → loc_op o l = Some l' →
  slist_rep s h l → (length l < k)%nat →
  ∃ s', slist_exec k (OLoc h o) s = Some s' ∧ slist_rep s' h l' ∧
    ∀ m, m ∉ nodes (Hd h) (lop_new o ++ l) → s' m = s m.
Proof.
  intros Hs Hnd Hx Ho H Hk. destruct o as [x|x|y x|y x| |x]; try done; cbn [loc_op lop_new slist_exec] in *.
  - injection Ho as <-. specialize (Hx x ltac:(set_solver)). eexists. split; [done|].
    apply (slist_linked h [] l x s); try done; [by apply slist_insert_head_ok|]. intros m.
    unfold SLIST_INSERT_HEAD. cells.
  - specialize (Hx x ltac:(set_solver)). apply ins_after in Ho as (l1 & l2 & -> & ->).
    eexists. split; [done|].
    apply (slist_linked h (l1 ++ [y]) l2 x s); try done.
    + apply slist_insert_after_ok; [done|]. intros ->. apply Hx. set_solver.
    + intros m. unfold SLIST_INSERT_AFTER. cells.
  - destruct l as [|x l]; [done|]. injection Ho as <-. exists (set0 (Hd h) (word0 (s (El x))) s). split.
    { unfold SLIST_REMOVE_HEAD. destruct H as [-> _]. done. }
    apply (slist_unlinked h [] l x s); try done; [by apply (slist_unlink_ok h [])|intros; cells].
  - apply ins_split in Ho as (l1 & l2 & -> & ->). eexists. split.
    { eapply (slist_remove_ok k h l1 x l2); [done..|]. rewrite length_app in Hk. lia. }
    apply (slist_unlinked h l1 l2 x s); try done; [by apply slist_unlink_ok|intros; cells].
Qed.

(** The access macros. *)
Lemma seg_elem f h l1 x l2 p : seg f (Hd h) (l1 ++ x :: l2) p → f (El x) = firstp l2 p.
Proof. intros [_ [_ H]]%seg_app. by apply seg_first in H. Qed.

Lemma seg_empty f h l p : seg f (Hd h) l p → (∀ x, p ≠ Some (El x)) → f (Hd h) = p ↔ l = [].
Proof. intros ->%seg_first Hp. destruct l as [|x l]; cbn [firstp]; [done|]. by split; [intros <-; destruct (Hp x)|]. Qed.

#[export] Instance slist : Family.
Proof.
  refine {| supports := slist_supports; exec := slist_exec; each := SLIST_FOREACH;
    empty := SLIST_EMPTY; first := SLIST_FIRST; next := SLIST_NEXT; stop := λ h, None; rep := slist_rep |}.
  - intros s s' h l He. apply seg_ext. intros m Hm. by rewrite He.
  - intros k h s _. eexists. split; [done|]. unfold SLIST_INIT. split.
    + unfold slist_rep. cbn. cells.
    + intros m Hm. apply cell_eq; cells.
  - apply slist_loc.
  - done.
  - intros k h s l H Hk. by apply walk_seg.
  - intros h s l H. by apply seg_first in H.
  - intros h s l1 x l2 H. by apply seg_elem in H.
  - intros h s l H. by apply bool_decide_ext, (seg_empty _ h l _ H).
Defined.

End slist.

(** ** Singly linked tail queues *)

Section stailq.

(** The head also knows its last node. *)
Definition stailq_rep (s : store) (h : Z) (l : list Z) : Prop :=
  slist_rep s h l ∧ word1 (s (Hd h)) = Some (lastn (Hd h) l).

Definition stailq_supports (o : qop) : bool :=
  match o with OLoc _ (InsBefore _ _) => false | _ => true end.

Definition stailq_exec (k : nat) (o : qop) (s : store) : option store :=
  match o with
  | OInit h => Some (STAILQ_INIT h s)
  | OLoc h (InsHead x) => Some (STAILQ_INSERT_HEAD h x s)
  | OLoc h (InsTail x) => STAILQ_INSERT_TAIL h x s
  | OLoc h (InsAfter y x) => Some (STAILQ_INSERT_AFTER h y x s)
  | OLoc h RemHead => STAILQ_REMOVE_HEAD h s
  | OLoc h (Rem x) => STAILQ_REMOVE k h x s
  | OConcat h1 h2 => STAILQ_CONCAT h1 h2 s
  | _ => None
  end.

Lemma lastn_insert n l1 x l2 :
  lastn n (l1 ++ x :: l2) = match l2 with [] => El x | _ => lastn n (l1 ++ l2) end.
Proof. rewrite !lastn_app. by destruct l2. Qed.

(** Only the head's second word may change. *)
Record tail_moved (h : Z) (l' : list Z) (s s' : store) : Prop := Tail_moved {
  t_last : word1 (s' (Hd h)) = Some (lastn (Hd h) l');
  t_rest : ∀ m, m ≠ Hd h → word1 (s' m) = word1 (s m) }.

Lemma stailq_linked h l1 l2 x s s' :
  NoDup (l1 ++ l2) → x ∉ l1 ++ l2 → linked0 h l1 l2 x s s' None → tail_moved h (l1 ++ x :: l2) s s' →
  stailq_rep s h (l1 ++ l2) →
  stailq_rep s' h (l1 ++ x :: l2) ∧ ∀ m, m ∉ nodes (Hd h) (x :: l1 ++ l2) → s' m = s m.
Proof.
  intros Hnd Hx HL [H1 H2] [H _]. split; [split; [by eapply seg_linked0|done]|].
  eapply linked_frame; [done|]. intros m Hm. apply H2. intros ->. apply Hm. by left.
Qed.

Lemma stailq_unlinked h l1 l2 x s s' :
  NoDup (l1 ++ x :: l2) → unlinked0 h l1 l2 s s' None → tail_moved h (l1 ++ l2) s s' →
  stailq_rep s h (l1 ++ x :: l2) →
  stailq_rep s' h (l1 ++ l2) ∧ ∀ m, m ∉ nodes (Hd h) (l1 ++ x :: l2) → s' m = s m.
Proof.
  intros Hnd HU [H1 H2] [H _]. split; [split; [|done]|].
  - eapply seg_unlinked0; [|done..]. rewrite NoDup_app, NoDup_cons in Hnd. apply NoDup_app. set_solver.
  - eapply unlinked_frame; [done|]. intros m Hm. apply H2. intros ->. apply Hm. by left.
Qed.

Lemma stailq_insert_head_ok h l x s :
  stailq_rep s h l →
  linked0 h [] l x s (STAILQ_INSERT_HEAD h x s) None ∧ tail_moved h (x :: l) s (STAILQ_INSERT_HEAD h x s).
Proof.
  intros [H%seg_first Hl]. cbn in H. pose proof (lastn_insert (Hd h) [] x l) as E. cbn [app] in E.
  unfold STAILQ_INSERT_HEAD. cbn zeta. rewrite (word0_self (El x)), H.
  split; split; rewrite ?E; cbn [lastn]; destruct l; cbn [firstp]; intros; cells.
Qed.

Lemma stailq_insert_after_ok h l1 y l2 x s :
  stailq_rep s h ((l1 ++ [y]) ++ l2) → x ≠ y →
  linked0 h (l1 ++ [y]) l2 x s (STAILQ_INSERT_AFTER h y x s) None ∧
  tail_moved h ((l1 ++ [y]) ++ x :: l2) s (STAILQ_INSERT_AFTER h y x s).
Proof.
  intros [H%seg_at0 Hl] Hx. rewrite lastn_snoc in H. pose proof (lastn_insert (Hd h) (l1 ++ [y]) x l2) as E.
  unfold STAILQ_INSERT_AFTER. cbn zeta. rewrite (word0_self (El x)), H.
  split; split; rewrite ?E, ?lastn_snoc; destruct l2; cbn [firstp]; intros; cells.
Qed.

Lemma stailq_insert_tail_ok h l x s :
  stailq_rep s h l → x ∉ l →
  ∃ s', STAILQ_INSERT_TAIL h x s = Some s' ∧ linked0 h l [] x s s' None ∧ tail_moved h (l ++ [x]) s s'.
Proof.
  intros [_ Hl] Hx. unfold STAILQ_INSERT_TAIL. rewrite word1_set0, Hl. eexists. split; [done|].
  assert (lastn (Hd h) l ≠ El x) by (destruct (before_node h l) as [->|(y & ? & ->)]; naive_solver).
  split; split; rewrite ?lastn_snoc; cbn [firstp]; intros; cells.
Qed.

Lemma stailq_unlink_ok h l1 x l2 s :
  stailq_rep s h (l1 ++ x :: l2) →
  let s1 := set0 (lastn (Hd h) l1) (word0 (s (El x))) s in
  let s' := match word0 (s1 (lastn (Hd h) l1)) with
            | None => set1 (Hd h) (Some (lastn (Hd h) l1)) s1
            | Some _ => s1
            end in
  unlinked0 h l1 l2 s s' None ∧ tail_moved h (l1 ++ l2) s s'.
Proof.
  intros [[_ [_ H%seg_first]]%seg_app Hl] s1 s'. subst s' s1. cbn beta in H. rewrite lastn_insert in Hl.
  rewrite word0_self, H. split; split; destruct l2; cbn [firstp]; rewrite ?app_nil_r; intros; cells.
Qed.

Lemma stailq_remove_ok k h l1 x l2 s :
  NoDup (l1 ++ x :: l2) → stailq_rep s h (l1 ++ x :: l2) → (length l1 < k)%nat →
  ∃ s', STAILQ_REMOVE k h x s = Some s' ∧ unlinked0 h l1 l2 s s' None ∧ tail_moved h (l1 ++ l2) s s'.
Proof.
  intros Hnd H Hk. eexists. split; [|by apply (stailq_unlink_ok h l1 x l2)]. destruct H as [H _].
  unfold STAILQ_REMOVE, STAILQ_REMOVE_HEAD.
  pose proof (seg_at0 h l1 (x :: l2) s None H) as Hb. destruct l1 as [|z l1].
  - cbn in Hb |- *. rewrite Hb, decide_True by done. done.
  - destruct (remove_walk k s h (z :: l1) x l2 Hnd H Hk ltac:(done)) as [Hn ->].
    rewrite decide_False by done. cbn [mbind option_bind]. rewrite Hb. done.
Qed.

Lemma stailq_loc k h o s l l' :
  stailq_supports (OLoc h o) = true → NoDup l → (∀ x, x ∈ lop_new o → x ∉ l) → loc_op o l = Some l' →
  stailq_rep s h l → (length l < k)%nat →
  ∃ s', stailq_exec k (OLoc h o) s = Some s' ∧ stailq_rep s' h l' ∧
    ∀ m, m ∉ nodes (Hd h) (lop_new o ++ l) → s' m = s m.
Proof.
  intros Hs Hnd Hx Ho H Hk. destruct o as [x|x|y x|y x| |x]; try done; cbn [loc_op lop_new stailq_exec] in *;
    try (specialize (Hx x ltac:(set_solver))).
  - injection Ho as <-. eexists. split; [done|].
    destruct (stailq_insert_head_ok h l x s H) as [? ?]. by apply (stailq_linked h [] l x s).
  - injection Ho as <-. destruct (stailq_insert_tail_ok h l x s H Hx) as (s' & -> & ? & ?).
    exists s'. split; [done|]. pose proof (stailq_linked h l [] x s s') as HL.
    rewrite app_nil_r in HL. by apply HL.
  - apply ins_after in Ho as (l1 & l2 & -> & ->). eexists. split; [done|].
    destruct (stailq_insert_after_ok h l1 y l2 x s H) as [? ?]; [set_solver|].
    by apply (stailq_linked h (l1 ++ [y]) l2 x s).
  - destruct l as [|x l]; [done|]. injection Ho as <-. eexists. split.
    { unfold STAILQ_REMOVE_HEAD. destruct H as [[-> _] _]. done. }
    destruct (stailq_unlink_ok h [] x l s H) as [? ?]. by apply (stailq_unlinked h [] l x s).
  - apply ins_split in Ho as (l1 & l2 & -> & ->). rewrite length_app in Hk.
    destruct (stailq_remove_ok k h l1 x l2 s Hnd H ltac:(lia)) as (s' & -> & ? & ?).
    exists s'. split; [done|]. by apply (stailq_unlinked h l1 l2 x s).
Qed.

Lemma stailq_concat_ok h1 h2 s l1 l2 :
  h1 ≠ h2 → NoDup (l1 ++ l2) → stailq_rep s h1 l1 → stailq_rep s h2 l2 →
  ∃ s', STAILQ_CONCAT h1 h2 s = Some s' ∧ stailq_rep s' h1 (l1 ++ l2) ∧ stailq_rep s' h2 [] ∧
    ∀ m, m ∉ nodes (Hd h1) l1 → m ∉ nodes (Hd h2) l2 → s' m = s m.
Proof.
  intros Hh Hnd [H1 L1] [H2 L2]. unfold STAILQ_CONCAT, STAILQ_EMPTY. pose proof (seg_first _ _ _ _ H2) as F2.
  cbn beta in F2. rewrite F2. destruct l2 as [|y l2]; cbn [firstp].
  { rewrite bool_decide_true by done. exists s. rewrite app_nil_r. done. }
  rewrite bool_decide_false by done. cbn [negb]. rewrite L1. eexists. split; [done|].
  set (b := lastn (Hd h1) l1) in *. pose proof (lastn_not_later h1 l1 (y :: l2) Hnd) as Hb.
  assert (b ≠ Hd h2) as Hb2 by (subst b; destruct (before_node h1 l1) as [->|(z & _ & ->)]; naive_solver).
  assert (b ∈ nodes (Hd h1) l1) as Hbn by apply lastn_in.
  unfold STAILQ_INIT. split_and!; [split|split|].
  - apply seg_app. split.
    + eapply seg_redirect; [apply nodes_nodup; by apply NoDup_app in Hnd as (? & _)|exact H1|cells|].
      intros m Hm Hn. cells. exfalso. rewrite head_nodes in Hm. congruence.
    + eapply seg_restart; [exact H2| |cells]. intros z Hz. cells. by destruct (Hb z Hz).
  - rewrite lastn_app. cbn [lastn] in L2 |- *. rewrite <- L2. cells.
  - cbn. cells.
  - cbn. cells.
  - intros m Hm1 Hm2. assert (m ≠ b) by congruence.
    assert (m ≠ Hd h1 ∧ m ≠ Hd h2) as [? ?] by (unfold nodes in *; set_solver). apply cell_eq; cells.
Qed.

#[export] Instance stailq : Family.
Proof.
  refine {| supports := stailq_supports; exec := stailq_exec; each := STAILQ_FOREACH;
    empty := STAILQ_EMPTY; first := STAILQ_FIRST; next := STAILQ_NEXT; stop := λ h, None; rep := stailq_rep |}.
  - intros s s' h l He [H1 H2]. split; [|by rewrite He by by left].
    eapply seg_ext; [|exact H1]. intros m Hm. by rewrite He.
  - intros k h s _. eexists. split; [done|]. unfold STAILQ_INIT. split; [split|].
    + unfold slist_rep. cbn. cells.
    + cells.
    + intros m Hm. apply cell_eq; cells.
  - apply stailq_loc.
  - intros k h1 h2 s l1 l2 _. apply stailq_concat_ok.
  - intros k h s l [H _] Hk. by apply walk_seg.
  - intros h s l [H _]. by apply seg_first in H.
  - intros h s l1 x l2 [H _]. by apply seg_elem in H.
  - intros h s l [H _]. by apply bool_decide_ext, (seg_empty _ h l _ H).
Defined.

End stailq.

(** ** Simple queues *)

Section simpleq.

Definition simpleq_supports (o : qop) : bool :=
  match o with OLoc _ (InsBefore _ _) | OConcat _ _ => false | _ => true end.

Definition simpleq_exec (k : nat) (o : qop) (s : store) : option store :=
  match o with
  | OInit h => Some (SIMPLEQ_INIT h s)
  | OLoc h (InsHead x) => Some (SIMPLEQ_INSERT_HEAD h x s)
  | OLoc h (InsTail x) => SIMPLEQ_INSERT_TAIL h x s
  | OLoc h (InsAfter y x) => Some (SIMPLEQ_INSERT_AFTER h y x s)
  | OLoc h RemHead => SIMPLEQ_REMOVE_HEAD h s
  | OLoc h (Rem x) => SIMPLEQ_REMOVE k h x s
  | _ => None
  end.

(** The simple queue macros are the tail queue macros with other field names. *)
Lemma simpleq_exec_stailq k o s : simpleq_supports o = true → simpleq_exec k o s = stailq_exec k o s.
Proof. by destruct o as [|? []|]. Qed.

#[export] Instance simpleq : Family.
Proof.
  refine {| supports := simpleq_supports; exec := simpleq_exec; each := SIMPLEQ_FOREACH;
    empty := SIMPLEQ_EMPTY; first := SIMPLEQ_FIRST; next := SIMPLEQ_NEXT; stop := λ h, None; rep := stailq_rep |}.
  - apply (rep_ext (Family := stailq)).
  - intros k h s _. by apply (exec_init (Family := stailq) k h s).
  - intros k h o s l l' Hs Hnd Hx Ho H Hk. rewrite simpleq_exec_stailq by done.
    by eapply stailq_loc.
  - done.
  - apply (each_rep (Family := stailq)).
  - apply (first_rep (Family := stailq)).
  - apply (next_rep (Family := stailq)).
  - apply (empty_rep (Family := stailq)).
Defined.

End simpleq.

(** ** Doubly linked queues: tail queues and circular queues *)

(** The forward chain ends with [e] (NULL, or the head), the backward chain
    runs through the reversed list and ends at the head. *)
Definition ring (e : ptr) (s : store) (h : Z) (l : list Z) : Prop :=
  seg (λ m, word0 (s m)) (Hd h) l e ∧ seg (λ m, word1 (s m)) (Hd h) (rev l) (Some (Hd h)).

Lemma ring_ext e s s' h l : (∀ m, m ∈ nodes (Hd h) l → s' m = s m) → ring e s h l → ring e s' h l.
Proof.
  intros He [H1 H2]. split; (eapply seg_ext; [|eassumption]); intros m Hm; rewrite He; try done.
  by apply nodes_rev.
Qed.

Lemma ring_linked e h l1 l2 x s s' :
  NoDup (l1 ++ l2) → x ∉ l1 ++ l2 → linked0 h l1 l2 x s s' e → linked1 h l1 l2 x s s' →
  ring e s h (l1 ++ l2) →
  ring e s' h (l1 ++ x :: l2) ∧ ∀ m, m ∉ nodes (Hd h) (x :: l1 ++ l2) → s' m = s m.
Proof.
  intros Hnd Hx HL HR [H1 H2]. split; [split; [by eapply seg_linked0|by eapply seg_linked1]|].
  eapply linked_frame; [done|]. intros m Hm. apply (l1_rest _ _ _ _ _ _ HR).
  - intros ->. apply Hm. destruct (after_node h l2) as [->|(y & Hy & ->)]; [by left|].
    apply elem_nodes. set_solver.
  - intros ->. apply Hm, elem_nodes. set_solver.
Qed.

Lemma ring_unlinked e h l1 l2 x s s' :
  NoDup (l1 ++ x :: l2) → unlinked0 h l1 l2 s s' e → unlinked1 h l1 l2 s s' →
  ring e s h (l1 ++ x :: l2) →
  ring e s' h (l1 ++ l2) ∧ ∀ m, m ∉ nodes (Hd h) (l1 ++ x :: l2) → s' m = s m.
Proof.
  intros Hnd HU HR [H1 H2].
  assert (NoDup (l1 ++ l2)) by (rewrite NoDup_app, NoDup_cons in Hnd; apply NoDup_app; set_solver).
  split; [split; [by eapply seg_unlinked0|by eapply seg_unlinked1]|].
  eapply unlinked_frame; [done|]. intros m Hm. apply (u1_rest _ _ _ _ _ HR).
  intros ->. apply Hm. destruct (after_node h l2) as [->|(y & Hy & ->)]; [by left|].
  apply elem_nodes. set_solver.
Qed.

(** The words around a place of a ring, and around an element. *)
Lemma ring_at e s h l1 l2 :
  ring e s h (l1 ++ l2) →
  word0 (s (lastn (Hd h) l1)) = firstp l2 e ∧ word1 (s (lastn (Hd h) (rev l2))) = Some (lastn (Hd h) l1).
Proof. intros [H1 H2]. split; [by apply seg_at0|by apply seg_at1]. Qed.

Lemma ring_elem e s h l1 x l2 :
  ring e s h (l1 ++ x :: l2) →
  word0 (s (El x)) = firstp l2 e ∧ word1 (s (El x)) = Some (lastn (Hd h) l1).
Proof.
  intros H. split.
  - rewrite <- (lastn_snoc (Hd h) l1 x). apply (ring_at e s h (l1 ++ [x]) l2). by rewrite <- app_assoc.
  - destruct (ring_at e s h l1 (x :: l2) H) as [_ E]. cbn [rev] in E. by rewrite lastn_snoc in E.
Qed.

(** The neighbours of a place are distinct from the elements on its other side. *)
Lemma before_ne h l1 y : y ∉ l1 → lastn (Hd h) l1 ≠ El y.
Proof. intros Hy. destruct (before_node h l1) as [->|(z & ? & ->)]; naive_solver. Qed.

Lemma after_ne h l2 y : y ∉ l2 → lastn (Hd h) (rev l2) ≠ El y.
Proof. intros Hy. destruct (after_node h l2) as [->|(z & ? & ->)]; naive_solver. Qed.

Lemma lastn_cons_ne n x l h : lastn n (x :: l) ≠ Hd h.
Proof. destruct l as [|y l _] using rev_ind; [done|]. by rewrite app_comm_cons, lastn_snoc. Qed.

Lemma firstp_rev_cons n x l p : firstp (rev (x :: l)) p = Some (lastn n (x :: l)).
Proof. rewrite <- (firstp_rev n (x :: l)). cbn [rev]. by destruct (rev l). Qed.

(** Where an insertion happens: between which parts of the list. *)
Inductive place : lop → Z → list Z → list Z → Prop :=
| place_head x l : place (InsHead x) x [] l
| place_tail x l : place (InsTail x) x l []
| place_after y x l1 l2 : place (InsAfter y x) x (l1 ++ [y]) l2
| place_before y x l1 l2 : place (InsBefore y x) x l1 (y :: l2).

(** To implement the operations on a ring it suffices to link the new element
    at its place and to unlink a removed one. *)
Lemma ring_loc e (ex : store → option store) h o s l l' :
  (∀ x l1 l2, place o x l1 l2 → ring e s h (l1 ++ l2) → x ∉ l1 ++ l2 → NoDup (l1 ++ l2) →
     ∃ s', ex s = Some s' ∧ linked0 h l1 l2 x s s' e ∧ linked1 h l1 l2 x s s') →
  (∀ x l1 l2, o = Rem x → ring e s h (l1 ++ x :: l2) → NoDup (l1 ++ x :: l2) →
     ∃ s', ex s = Some s' ∧ unlinked0 h l1 l2 s s' e ∧ unlinked1 h l1 l2 s s') →
  o ≠ RemHead → NoDup l → (∀ x, x ∈ lop_new o → x ∉ l) → loc_op o l = Some l' → ring e s h l →
  ∃ s', ex s = Some s' ∧ ring e s' h l' ∧ ∀ m, m ∉ nodes (Hd h) (lop_new o ++ l) → s' m = s m.
Proof.
  intros Hins Hrem Ho Hnd Hx Hl H.
  assert (∀ x l1 l2, place o x l1 l2 → l = l1 ++ l2 → l' = l1 ++ x :: l2 → lop_new o = [x] →
    ∃ s', ex s = Some s' ∧ ring e s' h l' ∧ ∀ m, m ∉ nodes (Hd h) (lop_new o ++ l) → s' m = s m) as Hgo.
  { intros x l1 l2 Hp -> -> En. rewrite En in *. specialize (Hx x ltac:(set_solver)).
    destruct (Hins x l1 l2 Hp H Hx Hnd) as (s' & -> & ? & ?). exists s'. split; [done|]. by apply ring_linked. }
  destruct o as [x|x|y x|y x| |x]; cbn [loc_op] in Hl.
  - injection Hl as <-. by apply (Hgo x [] l); [constructor|..].
  - injection Hl as <-. apply (Hgo x l []); [constructor|by rewrite app_nil_r|done..].
  - apply ins_after in Hl as (l1 & l2 & -> & ->). by apply (Hgo x (l1 ++ [y]) l2); [constructor|..].
  - apply ins_split in Hl as (l1 & l2 & -> & ->). by apply (Hgo x l1 (y :: l2)); [constructor|..].
  - done.
  - apply ins_split in Hl as (l1 & l2 & -> & ->). destruct (Hrem x l1 l2 eq_refl H Hnd) as (s' & -> & ? & ?).
    exists s'. split; [done|]. by apply (ring_unlinked e h l1 l2 x s).
Qed.

Section tailq.

Definition tailq_rep : store → Z → list Z → Prop := ring None.

Definition tailq_supports (o : qop) : bool := match o with OLoc _ RemHead => false | _ => true end.

Definition tailq_exec (k : nat) (o : qop) (s : store) : option store :=
  match o with
  | OInit h => Some (TAILQ_INIT h s)
  | OLoc h (InsHead x) => Some (TAILQ_INSERT_HEAD h x s)
  | OLoc h (InsTail x) => TAILQ_INSERT_TAIL h x s
  | OLoc h (InsAfter y x) => Some (TAILQ_INSERT_AFTER h y x s)
  | OLoc _ (InsBefore y x) => TAILQ_INSERT_BEFORE y x s
  | OLoc _ RemHead => None
  | OLoc h (Rem x) => TAILQ_REMOVE h x s
  | OConcat h1 h2 => TAILQ_CONCAT h1 h2 s
  end.

Lemma tailq_insert_head_ok h l x s :
  tailq_rep s h l → x ∉ l →
  linked0 h [] l x s (TAILQ_INSERT_HEAD h x s) None ∧ linked1 h [] l x s (TAILQ_INSERT_HEAD h x s).
Proof.
  intros H Hx. destruct (ring_at None s h [] l H) as [H0 H1]. cbn [lastn] in H0, H1.
  unfold TAILQ_INSERT_HEAD. cbn zeta. rewrite (word0_self (El x)), H0.
  destruct l as [|y l]; split; split; cbn [firstp rev lastn]; rewrite ?lastn_snoc; intros; cells; set_solver.
Qed.

Lemma tailq_insert_tail_ok h l x s :
  tailq_rep s h l → x ∉ l →
  ∃ s', TAILQ_INSERT_TAIL h x s = Some s' ∧ linked0 h l [] x s s' None ∧ linked1 h l [] x s s'.
Proof.
  intros H Hx. rewrite <- (app_nil_r l) in H. destruct (ring_at None s h l [] H) as [H0 H1].
  cbn [rev lastn] in H1. unfold TAILQ_INSERT_TAIL. rewrite word1_set0. rewrite word1_set1, decide_False, word1_set0, H1 by done.
  pose proof (before_ne h l x Hx). eexists. split; [done|].
  split; split; cbn [firstp rev lastn]; intros; cells.
Qed.

Lemma tailq_insert_after_ok h l1 y l2 x s :
  tailq_rep s h ((l1 ++ [y]) ++ l2) → x ∉ (l1 ++ [y]) ++ l2 → NoDup ((l1 ++ [y]) ++ l2) →
  linked0 h (l1 ++ [y]) l2 x s (TAILQ_INSERT_AFTER h y x s) None ∧
  linked1 h (l1 ++ [y]) l2 x s (TAILQ_INSERT_AFTER h y x s).
Proof.
  intros H Hx Hnd. destruct (ring_at None s h _ l2 H) as [H0 _]. rewrite lastn_snoc in H0.
  unfold TAILQ_INSERT_AFTER. cbn zeta. rewrite (word0_self (El x)), H0.
  assert (x ≠ y) by set_solver.
  destruct l2 as [|z l2]; split; split; cbn [firstp rev lastn]; rewrite ?lastn_snoc; intros; cells; set_solver.
Qed.

Lemma tailq_insert_before_ok h l1 y l2 x s :
  tailq_rep s h (l1 ++ y :: l2) → x ∉ l1 ++ y :: l2 → NoDup (l1 ++ y :: l2) →
  ∃ s', TAILQ_INSERT_BEFORE y x s = Some s' ∧
    linked0 h l1 (y :: l2) x s s' None ∧ linked1 h l1 (y :: l2) x s s'.
Proof.
  intros H Hx Hnd. destruct (ring_elem None s h l1 y l2 H) as [_ H1].
  pose proof (before_ne h l1 x ltac:(set_solver)).
  pose proof (before_ne h l1 y ltac:(rewrite NoDup_app in Hnd; set_solver)).
  assert (x ≠ y) by set_solver. unfold TAILQ_INSERT_BEFORE.
  rewrite word1_set0, word1_set1, decide_False, H1 by congruence. eexists. split; [done|].
  split; split; cbn [firstp rev]; rewrite ?lastn_snoc; intros; cells.
Qed.

Lemma tailq_remove_ok h l1 x l2 s :
  tailq_rep s h (l1 ++ x :: l2) → NoDup (l1 ++ x :: l2) →
  ∃ s', TAILQ_REMOVE h x s = Some s' ∧ unlinked0 h l1 l2 s s' None ∧ unlinked1 h l1 l2 s s'.
Proof.
  intros H Hnd. destruct (ring_elem None s h l1 x l2 H) as [H0 H1]. unfold TAILQ_REMOVE. rewrite H0, H1.
  destruct l2 as [|z l2]; cbn [firstp]; cbn zeta.
  - rewrite word1_set1, decide_False, H1 by done. eexists. split; [done|].
    split; split; cbn [firstp rev lastn]; intros; cells.
  - assert (z ≠ x) by (rewrite NoDup_app, !NoDup_cons in Hnd; set_solver).
    rewrite word1_set1, decide_False, H1 by congruence. eexists. split; [done|].
    split; split; cbn [firstp rev]; rewrite ?lastn_snoc; intros; cells.
Qed.

Lemma tailq_loc k h o s l l' :
  tailq_supports (OLoc h o) = true → NoDup l → (∀ x, x ∈ lop_new o → x ∉ l) → loc_op o l = Some l' →
  tailq_rep s h l → (length l < k)%nat →
  ∃ s', tailq_exec k (OLoc h o) s = Some s' ∧ tailq_rep s' h l' ∧
    ∀ m, m ∉ nodes (Hd h) (lop_new o ++ l) → s' m = s m.
Proof.
  intros Hs Hnd Hx Ho H _. apply (ring_loc None (tailq_exec k (OLoc h o)) h o s l l'); try done.
  - intros x l1 l2 [] Hr Hx' Hnd'; cbn [tailq_exec].
    + eexists. split; [done|]. by apply tailq_insert_head_ok.
    + rewrite app_nil_r in *. by apply tailq_insert_tail_ok.
    + eexists. split; [done|]. by apply tailq_insert_after_ok.
    + by apply tailq_insert_before_ok.
  - intros x l1 l2 -> Hr Hnd'. by apply tailq_remove_ok.
  - by intros ->.
Qed.

Lemma tailq_concat_ok h1 h2 s l1 l2 :
  h1 ≠ h2 → NoDup (l1 ++ l2) → tailq_rep s h1 l1 → tailq_rep s h2 l2 →
  ∃ s', TAILQ_CONCAT h1 h2 s = Some s' ∧ tailq_rep s' h1 (l1 ++ l2) ∧ tailq_rep s' h2 [] ∧
    ∀ m, m ∉ nodes (Hd h1) l1 → m ∉ nodes (Hd h2) l2 → s' m = s m.
Proof.
  intros Hh Hnd H1 H2. unfold TAILQ_CONCAT, TAILQ_EMPTY.
  pose proof (ring_at None s h2 [] l2 H2) as [F2 _]. cbn in F2. rewrite F2. destruct l2 as [|y l2]; cbn [firstp].
  { rewrite bool_decide_true by done. exists s. rewrite app_nil_r. done. }
  rewrite bool_decide_false by done. cbn [negb].
  assert (word1 (s (Hd h1)) = Some (lastn (Hd h1) l1)) as L1.
  { rewrite <- (app_nil_r l1) in H1. by apply (ring_at None s h1 l1 []). }
  assert (word1 (s (Hd h2)) = Some (lastn (Hd h2) (y :: l2))) as L2.
  { rewrite <- (app_nil_r (y :: l2)) in H2. by apply (ring_at None s h2 (y :: l2) []). }
  rewrite L1. cbn [mbind option_bind]. set (b := lastn (Hd h1) l1) in *.
  assert (b ≠ Hd h2) as Hb2 by (subst b; destruct (before_node h1 l1) as [->|(z & _ & ->)]; naive_solver).
  assert (b ∈ nodes (Hd h1) l1) as Hbn by apply lastn_in.
  rewrite word0_set0, decide_False, F2 by done. eexists. split; [done|]. rewrite word1_set0, L1.
  pose proof Hnd as (Hnd1 & Hdj & Hnd2)%NoDup_app. pose proof Hnd2 as [Hy _]%NoDup_cons.
  unfold TAILQ_INIT. split_and!; [split|split|].
  - apply seg_app. split.
    + eapply seg_redirect; [by apply nodes_nodup|apply H1|cells|].
      intros m Hm Hn. cells. exfalso. rewrite head_nodes in Hm. congruence.
    + eapply seg_restart; [apply H2| |cells]. intros z Hz. cells. by destruct (lastn_not_later h1 l1 (y :: l2) Hnd z Hz).
  - rewrite rev_app_distr. apply seg_app. rewrite firstp_rev. split.
    + apply seg_restart with (f := λ m, word1 (set1 (El y) (Some b) s m)) (n := Hd h2).
      * eapply seg_redirect; [apply nodes_nodup; by apply nodup_rev|apply H2|..]; cbn [rev]; rewrite ?lastn_snoc.
        -- cells.
        -- intros m _ Hn. cells.
      * intros z _. cells.
      * rewrite (firstp_rev_cons (Hd h2)). cells.
    + cbn [rev]. rewrite lastn_snoc. eapply seg_restart; [apply H1| |rewrite firstp_rev; cells].
      intros z Hz. rewrite list_elem_of_In, <- in_rev, <- list_elem_of_In in Hz. specialize (Hdj z Hz). cells. set_solver.
  - cbn. cells.
  - cbn. cells.
  - intros m Hm1 Hm2. assert (m ≠ b) by congruence.
    assert (m ≠ Hd h1 ∧ m ≠ Hd h2 ∧ m ≠ El y) as (? & ? & ?) by (unfold nodes in *; set_solver). apply cell_eq; cells.
Qed.

(** Reading an entry as a head finds the last element before a place. *)
Lemma headname_last_ok s h l1 l2 :
  tailq_rep s h (l1 ++ l2) → headname_last (Some (lastn (Hd h) l1)) s = Some (firstp (rev l1) None).
Proof.
  intros H. unfold headname_last. cbn [mbind option_bind]. destruct l1 as [|z l1 _] using rev_ind.
  - cbn [lastn rev firstp]. rewrite <- (app_nil_r ([] ++ l2)) in H. destruct (ring_at None s h _ [] H) as [H0 H1].
    cbn [rev lastn app] in H0, H1. rewrite H1. cbn. by rewrite H0.
  - rewrite <- app_assoc in H. rewrite lastn_snoc, (proj2 (ring_elem None s h l1 z l2 H)). cbn [mbind option_bind].
    rewrite (proj1 (ring_at None s h l1 ([z] ++ l2) H)). by rewrite rev_app_distr.
Qed.

Lemma tailq_last_ok s h l : tailq_rep s h l → TAILQ_LAST h s = Some (firstp (rev l) None).
Proof.
  intros H. unfold TAILQ_LAST. rewrite <- (app_nil_r l) in H.
  pose proof (proj2 (ring_at None s h l [] H)) as E. cbn [rev lastn] in E. rewrite E.
  by apply headname_last_ok with (l2 := []).
Qed.

Lemma tailq_prev_ok s h l1 x l2 : tailq_rep s h (l1 ++ x :: l2) → TAILQ_PREV x s = Some (firstp (rev l1) None).
Proof.
  intros H. unfold TAILQ_PREV. rewrite (proj2 (ring_elem None s h l1 x l2 H)). by eapply headname_last_ok.
Qed.

Lemma tailq_reverse_ok k s h l : tailq_rep s h l → (length l < k)%nat → TAILQ_FOREACH_REVERSE k h s = Some (rev l).
Proof.
  intros H Hk. unfold TAILQ_FOREACH_REVERSE. rewrite (tailq_last_ok s h l H). cbn [mbind option_bind].
  assert (∀ l1 l2 k, tailq_rep s h (l1 ++ l2) → (length l1 < k)%nat →
    tailq_reverse_from k (firstp (rev l1) None) s = Some (rev l1)) as Hgo.
  { clear. induction l1 as [|x l1 IH] using rev_ind; intros l2 [|k] H Hk; try lia; [done|].
    rewrite rev_app_distr. cbn [rev app firstp tailq_reverse_from]. rewrite <- app_assoc in H.
    rewrite (tailq_prev_ok s h l1 x l2 H). cbn [mbind option_bind]. rewrite length_app in Hk. cbn in Hk.
    rewrite (IH ([x] ++ l2)) by (done || lia). done. }
  apply (Hgo l []); [by rewrite app_nil_r|done].
Qed.

#[export] Instance tailq : Family.
Proof.
  refine {| supports := tailq_supports; exec := tailq_exec; each := TAILQ_FOREACH;
    empty := TAILQ_EMPTY; first := TAILQ_FIRST; next := TAILQ_NEXT; stop := λ h, None; rep := tailq_rep |}.
  - apply ring_ext.
  - intros k h s _. eexists. split; [done|]. unfold TAILQ_INIT. split; [split|].
    + cbn. cells.
    + cbn. cells.
    + intros m Hm. apply cell_eq; cells.
  - apply tailq_loc.
  - intros k h1 h2 s l1 l2 _. apply tailq_concat_ok.
  - intros k h s l [H _] Hk. by apply walk_seg.
  - intros h s l [H _]. by apply seg_first in H.
  - intros h s l1 x l2 [H _]. by apply seg_elem in H.
  - intros h s l [H _]. by apply bool_decide_ext, (seg_empty _ h l _ H).
Defined.

End tailq.

Section circleq.

Definition circleq_rep (s : store) (h : Z) (l : list Z) : Prop := ring (Some (Hd h)) s h l.

Definition circleq_supports (o : qop) : bool :=
  match o with OLoc _ RemHead | OConcat _ _ => false | _ => true end.

Definition circleq_exec (k : nat) (o : qop) (s : store) : option store :=
  match o with
  | OInit h => Some (CIRCLEQ_INIT h s)
  | OLoc h (InsHead x) => CIRCLEQ_INSERT_HEAD h x s
  | OLoc h (InsTail x) => CIRCLEQ_INSERT_TAIL h x s
  | OLoc h (InsAfter y x) => CIRCLEQ_INSERT_AFTER h y x s
  | OLoc h (InsBefore y x) => CIRCLEQ_INSERT_BEFORE h y x s
  | OLoc h (Rem x) => CIRCLEQ_REMOVE h x s
  | _ => None
  end.

Implicit Types (l : list Z) (s : store).

(** The words of the head and of an element: a neighbour is the head at the
    ends of the list and an element inside it. *)
Lemma firstp_head l h : firstp l (Some (Hd h)) = Some (Hd h) ↔ l = [].
Proof. by destruct l. Qed.

Lemma circleq_insert_head_ok h l x s :
  circleq_rep s h l → x ∉ l →
  ∃ s', CIRCLEQ_INSERT_HEAD h x s = Some s' ∧ linked0 h [] l x s s' (Some (Hd h)) ∧ linked1 h [] l x s s'.
Proof.
  intros H Hx. destruct (ring_at _ s h [] l H) as [H0 _]. cbn [lastn] in H0.
  pose proof H as H'. rewrite <- (app_nil_r l) in H'. destruct (ring_at _ s h l [] H') as [_ H1]. cbn [rev lastn] in H1.
  unfold CIRCLEQ_INSERT_HEAD. rewrite word1_other, word1_set0, H1 by done.
  rewrite word0_set1, word0_other, H0 by done.
  destruct l as [|y l]; cbn [firstp].
  - rewrite decide_True by done. eexists. split; [done|].
    split; split; cbn [firstp rev lastn]; intros; cells.
  - rewrite decide_False by (intros [= E]; by apply (lastn_cons_ne (Hd h) y l h)).
    eexists. split; [done|].
    split; split; cbn [firstp rev lastn]; rewrite ?lastn_snoc; intros; cells; set_solver.
Qed.

Lemma circleq_insert_tail_ok h l x s :
  circleq_rep s h l → x ∉ l →
  ∃ s', CIRCLEQ_INSERT_TAIL h x s = Some s' ∧ linked0 h l [] x s s' (Some (Hd h)) ∧ linked1 h l [] x s s'.
Proof.
  intros H Hx. destruct (ring_at _ s h [] l H) as [H0 _]. cbn [lastn] in H0.
  pose proof H as H'. rewrite <- (app_nil_r l) in H'. destruct (ring_at _ s h l [] H') as [_ H1]. cbn [rev lastn] in H1.
  unfold CIRCLEQ_INSERT_TAIL. rewrite word0_set1, word0_other, H0 by done.
  rewrite word1_set0, H1, word1_other, word1_set0, H1 by done.
  pose proof (before_ne h l x Hx). destruct l as [|y l _] using rev_ind; cbn [firstp lastn].
  - rewrite decide_True by done. eexists. split; [done|].
    split; split; cbn [firstp rev lastn]; intros; cells.
  - rewrite decide_False by (by intros [? ?]%firstp_head%app_nil). rewrite lastn_snoc. eexists. split; [done|].
    split; split; cbn [firstp rev lastn]; rewrite ?lastn_snoc in *; intros; cells.
Qed.

Lemma circleq_insert_after_ok h l1 y l2 x s :
  circleq_rep s h ((l1 ++ [y]) ++ l2) → x ∉ (l1 ++ [y]) ++ l2 →
  ∃ s', CIRCLEQ_INSERT_AFTER h y x s = Some s' ∧
    linked0 h (l1 ++ [y]) l2 x s s' (Some (Hd h)) ∧ linked1 h (l1 ++ [y]) l2 x s s'.
Proof.
  intros H Hx. destruct (ring_at _ s h _ l2 H) as [H0 _]. rewrite lastn_snoc in H0.
  assert (x ≠ y) by set_solver. unfold CIRCLEQ_INSERT_AFTER.
  rewrite word0_set1, word0_other, H0 by congruence.
  destruct l2 as [|z l2]; cbn [firstp].
  - rewrite decide_True by done. eexists. split; [done|].
    split; split; cbn [firstp rev lastn]; rewrite ?lastn_snoc; intros; cells.
  - rewrite decide_False by done. eexists. split; [done|].
    split; split; cbn [firstp rev]; rewrite ?lastn_snoc; intros; cells; set_solver.
Qed.

Lemma circleq_insert_before_ok h l1 y l2 x s :
  circleq_rep s h (l1 ++ y :: l2) → x ∉ l1 ++ y :: l2 →
  ∃ s', CIRCLEQ_INSERT_BEFORE h y x s = Some s' ∧
    linked0 h l1 (y :: l2) x s s' (Some (Hd h)) ∧ linked1 h l1 (y :: l2) x s s'.
Proof.
  intros H Hx. destruct (ring_elem _ s h l1 y l2 H) as [_ H1]. assert (x ≠ y) by set_solver.
  pose proof (before_ne h l1 x ltac:(set_solver)) as Hb. unfold CIRCLEQ_INSERT_BEFORE.
  rewrite word1_set0, H1, word1_other, word1_set0, H1 by congruence.
  destruct l1 as [|z l1 _] using rev_ind; cbn [lastn].
  - rewrite decide_True by done. eexists. split; [done|].
    split; split; cbn [firstp rev lastn]; rewrite ?lastn_snoc; intros; cells.
  - rewrite lastn_snoc in *. rewrite decide_False by done. eexists. split; [done|].
    split; split; cbn [firstp rev]; rewrite ?lastn_snoc; intros; cells.
Qed.

Lemma circleq_remove_ok h l1 x l2 s :
  circleq_rep s h (l1 ++ x :: l2) → NoDup (l1 ++ x :: l2) →
  ∃ s', CIRCLEQ_REMOVE h x s = Some s' ∧ unlinked0 h l1 l2 s s' (Some (Hd h)) ∧ unlinked1 h l1 l2 s s'.
Proof.
  intros H Hnd. destruct (ring_elem _ s h l1 x l2 H) as [H0 H1]. unfold CIRCLEQ_REMOVE. rewrite H0, H1.
  assert (∃ s1, (if decide (firstp l2 (Some (Hd h)) = Some (Hd h)) then Some (set1 (Hd h) (Some (lastn (Hd h) l1)) s)
    else elem_prev (firstp l2 (Some (Hd h))) (Some (lastn (Hd h) l1)) s) = Some s1 ∧
    s1 = set1 (lastn (Hd h) (rev l2)) (Some (lastn (Hd h) l1)) s) as (s1 & -> & ->).
  { destruct l2 as [|z l2]; cbn [firstp rev]; [rewrite decide_True by done; by eexists|].
    rewrite decide_False by done. rewrite lastn_snoc. by eexists. }
  cbn [mbind option_bind]. pose proof (after_ne h l2 x ltac:(rewrite NoDup_app, NoDup_cons in Hnd; set_solver)).
  rewrite word1_other, H1, word0_set1, H0 by done.
  destruct (before_node h l1) as [E|(z & _ & E)]; rewrite E.
  - rewrite decide_True by done. eexists. split; [done|]. split; split; rewrite ?E; intros; cells.
  - rewrite decide_False by done. eexists. split; [done|]. split; split; rewrite ?E; intros; cells.
Qed.

Lemma circleq_loc k h o s l l' :
  circleq_supports (OLoc h o) = true → NoDup l → (∀ x, x ∈ lop_new o → x ∉ l) → loc_op o l = Some l' →
  circleq_rep s h l → (length l < k)%nat →
  ∃ s', circleq_exec k (OLoc h o) s = Some s' ∧ circleq_rep s' h l' ∧
    ∀ m, m ∉ nodes (Hd h) (lop_new o ++ l) → s' m = s m.
Proof.
  intros Hs Hnd Hx Ho H _. apply (ring_loc (Some (Hd h)) (circleq_exec k (OLoc h o)) h o s l l'); try done.
  - intros x l1 l2 [] Hr Hx' Hnd'; cbn [circleq_exec].
    + by apply circleq_insert_head_ok.
    + rewrite app_nil_r in *. by apply circleq_insert_tail_ok.
    + by apply circleq_insert_after_ok.
    + by apply circleq_insert_before_ok.
  - intros x l1 l2 -> Hr Hnd'. by apply circleq_remove_ok.
  - by intros ->.
Qed.

Lemma circleq_reverse_ok k s h l :
  circleq_rep s h l → (length l < k)%nat → CIRCLEQ_FOREACH_REVERSE k h s = Some (rev l).
Proof. intros [_ H] Hk. apply walk_seg; [done..|]. by rewrite length_rev. Qed.

(** The neighbours of an element, and the cyclic ones. *)
Lemma circleq_neighbours s h l1 x l2 :
  circleq_rep s h (l1 ++ x :: l2) →
  CIRCLEQ_NEXT x s = firstp l2 (Some (Hd h)) ∧ CIRCLEQ_PREV x s = firstp (rev l1) (Some (Hd h)) ∧
  CIRCLEQ_LOOP_NEXT h x s = firstp (l2 ++ l1 ++ [x]) None ∧
  CIRCLEQ_LOOP_PREV h x s = firstp (rev (x :: l2 ++ l1)) None.
Proof.
  intros H. destruct (ring_elem _ s h l1 x l2 H) as [H0 H1].
  unfold CIRCLEQ_NEXT, CIRCLEQ_PREV, CIRCLEQ_LOOP_NEXT, CIRCLEQ_LOOP_PREV. rewrite H0, H1, firstp_rev.
  split_and!; try done.
  - destruct l2 as [|z l2]; cbn [firstp]; [|by rewrite decide_False].
    rewrite decide_True by done. pose proof (proj1 (ring_at _ s h [] _ H)) as E. cbn [lastn] in E.
    rewrite E. by destruct l1.
  - cbn [rev]. rewrite rev_app_distr. destruct l1 as [|z l1 _] using rev_ind.
    + cbn [lastn rev app]. rewrite decide_True by done.
      pose proof H as H'. rewrite <- (app_nil_r ([] ++ x :: l2)) in H'.
      pose proof (proj2 (ring_at _ s h _ [] H')) as E. cbn [rev lastn app] in E. rewrite E.
      symmetry. exact (firstp_rev_cons (Hd h) x l2 None).
    + rewrite lastn_snoc, decide_False by done. by rewrite rev_app_distr.
Qed.

#[export] Instance circleq : Family.
Proof.
  refine {| supports := circleq_supports; exec := circleq_exec; each := CIRCLEQ_FOREACH;
    empty := CIRCLEQ_EMPTY; first := CIRCLEQ_FIRST; next := CIRCLEQ_NEXT; stop := λ h, Some (Hd h); rep := circleq_rep |}.
  - intros s s' h l. apply ring_ext.
  - intros k h s _. eexists. split; [done|]. unfold CIRCLEQ_INIT. split; [split|].
    + cbn. cells.
    + cbn. cells.
    + intros m Hm. apply cell_eq; cells.
  - apply circleq_loc.
  - done.
  - intros k h s l [H _] Hk. by apply walk_seg.
  - intros h s l [H _]. by apply seg_first in H.
  - intros h s l1 x l2 [H _]. by apply seg_elem in H.
  - intros h s l [H _]. by apply bool_decide_ext, (seg_empty _ h l _ H).
Defined.

End circleq.
