(* ===== verification/Mmu.v ===== *)
(** Address arithmetic: kernel/lib/memory/mmu.h, kernel/lib/memory/layout.h and
    kernel/misc/util.h.

    Every macro is translated at its C type (uint64_t unless said otherwise).
    The theorems relate the four table indexes of a linear address to the
    address itself, in both directions, including the canonical sign extension
    that [PAGE_ADDR] performs, and show that the fixed kernel regions of
    layout.h are page aligned and pairwise disjoint. *)

From S2P Require Import Prelude.

Module Mmu.

(** ** mmu.h *)

Definition PAGE_SIZE : Z := 4096.
Definition PAGE_SHIFT : Z := 12.

Definition NPML4_ENTRIES : Z := 512.
Definition NPDP_ENTRIES : Z := 512.
Definition NPD_ENTRIES : Z := 512.
Definition NPT_ENTRIES : Z := 512.

Definition PML4_SHIFT : Z := 39.
Definition PDP_SHIFT : Z := 30.
Definition PD_SHIFT : Z := 21.
Definition PT_SHIFT : Z := 12.

(** [~0xfff] is the [int] -4096, sign extended to 64 bits by the conversion. *)
Definition PTE_ADDR (paddr : Z) : Z := Z.land (u64 paddr) (Z.lnot 0xfff).
Definition PML4E_ADDR : Z → Z := PTE_ADDR.
Definition PDPE_ADDR : Z → Z := PTE_ADDR.
Definition PDE_ADDR : Z → Z := PTE_ADDR.

Definition IDX_MASK : Z := Z.shiftl 1 9 - 1.
Definition PML4_IDX (addr : Z) : Z := Z.land (Z.shiftr (u64 addr) PML4_SHIFT) IDX_MASK.
Definition PDP_IDX (addr : Z) : Z := Z.land (Z.shiftr (u64 addr) PDP_SHIFT) IDX_MASK.
Definition PD_IDX (addr : Z) : Z := Z.land (Z.shiftr (u64 addr) PD_SHIFT) IDX_MASK.
Definition PT_IDX (addr : Z) : Z := Z.land (Z.shiftr (u64 addr) PT_SHIFT) IDX_MASK.

Definition PAGE_ADDR (pml4 pdp pd pt off : Z) : Z :=
  let sign := if has_flag pml4 (Z.shiftl 1 8) then u64 (Z.shiftl (-1) 48) else 0 in
  u64 (Z.lor (Z.lor (Z.lor (Z.lor (Z.lor sign
        (Z.shiftl pml4 PML4_SHIFT)) (Z.shiftl pdp PDP_SHIFT))
        (Z.shiftl pd PD_SHIFT)) (Z.shiftl pt PT_SHIFT)) off).

Definition PTE_P : Z := Z.shiftl 1 0.
Definition PTE_W : Z := Z.shiftl 1 1.
Definition PTE_U : Z := Z.shiftl 1 2.
Definition PTE_FLAGS_MASK : Z := 0xFFF.
Definition PTE_COW : Z := Z.shiftl 1 11.

(** The present/write/user bits of the three upper levels have the same values. *)
Definition PML4E_P : Z := PTE_P.
Definition PML4E_W : Z := PTE_W.
Definition PML4E_U : Z := PTE_U.

(** ** layout.h (configure.ac sets [KERNEL_BASE]) *)

Definition KERNEL_BASE : Z := 0xFFFFFFF800000000.

(** Both memory libraries are built twice (kernel/lib/Makefile.am): the width of
    [uintptr_t] and the base of the linear map differ. *)
Record build := Build { ptr_bits : Z; vaddr_base : Z }.
Definition kernel64 : build := Build 64 KERNEL_BASE.
Definition loader32 : build := Build 32 0.

Definition VADDR (b : build) (paddr : Z) : Z := (paddr + vaddr_base b) mod 2 ^ ptr_bits b.
Definition PADDR (b : build) (vaddr : Z) : Z := (vaddr - vaddr_base b) mod 2 ^ ptr_bits b.

Definition KERNEL_STACK_TOP : Z := KERNEL_BASE.
Definition KERNEL_STACK_SIZE : Z := PAGE_SIZE * 8.
Definition KERNEL_INFO : Z := KERNEL_STACK_TOP - KERNEL_STACK_SIZE - PAGE_SIZE.
Definition APIC_BASE : Z := KERNEL_INFO - PAGE_SIZE.
Definition IOAPIC_BASE : Z := APIC_BASE - PAGE_SIZE.
Definition INTERRUPT_STACK_SIZE : Z := PAGE_SIZE * 2.
Definition INTERRUPT_STACK_TOP : Z := IOAPIC_BASE.
Definition EXCEPTION_STACK_SIZE : Z := PAGE_SIZE * 2.
Definition EXCEPTION_STACK_TOP : Z := INTERRUPT_STACK_TOP - INTERRUPT_STACK_SIZE.
Definition KERNLE_TEMP_PAGE_CNT : Z := 1.
Definition KERNEL_TEMP : Z :=
  EXCEPTION_STACK_TOP - EXCEPTION_STACK_SIZE - KERNLE_TEMP_PAGE_CNT * PAGE_SIZE.
Definition APIC_BASE_PA : Z := 0xFEE00000.
Definition IOAPIC_BASE_PA : Z := 0xFEC00000.
Definition USER_TOP : Z := 0x0000010000000000.
Definition USER_STACK_TOP : Z := 0x0000000a00000000.

(** ** util.h, at type uint64_t *)

Definition ROUND_DOWN (addr align : Z) : Z := addr - addr mod align.
Definition ROUND_UP (addr align : Z) : Z := ROUND_DOWN (u64 (addr + align - 1)) align.

(** ** Lemmas *)

Lemma PTE_ADDR_alt x : PTE_ADDR x = u64 x / 4096 * 4096.
Proof. unfold PTE_ADDR. change 0xfff with (Z.ones 12). by rewrite land_lnot_ones. Qed.

Lemma land_idx_mask x : Z.land x IDX_MASK = x mod 512.
Proof. change IDX_MASK with (Z.ones 9). by rewrite Z.land_ones. Qed.

Lemma PML4_IDX_alt a : PML4_IDX a = (u64 a / 2 ^ 39) mod 512.
Proof. unfold PML4_IDX. by rewrite land_idx_mask, Z.shiftr_div_pow2. Qed.
Lemma PDP_IDX_alt a : PDP_IDX a = (u64 a / 2 ^ 30) mod 512.
Proof. unfold PDP_IDX. by rewrite land_idx_mask, Z.shiftr_div_pow2. Qed.
Lemma PD_IDX_alt a : PD_IDX a = (u64 a / 2 ^ 21) mod 512.
Proof. unfold PD_IDX. by rewrite land_idx_mask, Z.shiftr_div_pow2. Qed.
Lemma PT_IDX_alt a : PT_IDX a = (u64 a / 2 ^ 12) mod 512.
Proof. unfold PT_IDX. by rewrite land_idx_mask, Z.shiftr_div_pow2. Qed.

Lemma PML4_IDX_range a : 0 ≤ PML4_IDX a < 512.
Proof. rewrite PML4_IDX_alt. apply Z.mod_pos_bound. lia. Qed.
Lemma PDP_IDX_range a : 0 ≤ PDP_IDX a < 512.
Proof. rewrite PDP_IDX_alt. apply Z.mod_pos_bound. lia. Qed.
Lemma PD_IDX_range a : 0 ≤ PD_IDX a < 512.
Proof. rewrite PD_IDX_alt. apply Z.mod_pos_bound. lia. Qed.
Lemma PT_IDX_range a : 0 ≤ PT_IDX a < 512.
Proof. rewrite PT_IDX_alt. apply Z.mod_pos_bound. lia. Qed.

(** The value [PAGE_ADDR] builds, as a sum. *)
Definition page_addr_sum (i j k l off : Z) : Z :=
  (((i * 512 + j) * 512 + k) * 512 + l) * 4096 + off.

Definition canonical_high (i : Z) : Z := if 256 <=? i then 2 ^ 64 - 2 ^ 48 else 0.

Lemma PAGE_ADDR_sum i j k l off :
  0 ≤ i < 512 → 0 ≤ j < 512 → 0 ≤ k < 512 → 0 ≤ l < 512 → 0 ≤ off < 4096 →
  PAGE_ADDR i j k l off = canonical_high i + page_addr_sum i j k l off.
Proof.
  intros Hi Hj Hk Hl Hoff. unfold PAGE_ADDR, PML4_SHIFT, PDP_SHIFT, PD_SHIFT, PT_SHIFT.
  rewrite <- !Z.lor_assoc.
  rewrite (lor_add_disjoint l), (lor_add_disjoint k), (lor_add_disjoint j),
    (lor_add_disjoint i) by lia.
  set (x := i * 2 ^ 39 + _).
  assert (x = page_addr_sum i j k l off) as -> by (unfold x, page_addr_sum; lia).
  assert (0 ≤ page_addr_sum i j k l off < 2 ^ 48) as Hx by (unfold page_addr_sum; lia).
  change (Z.shiftl 1 8) with (2 ^ 8). rewrite has_flag_bit by done.
  change (u64 (Z.shiftl (-1) 48)) with (Z.shiftl (2 ^ 16 - 1) 48).
  assert (Z.testbit i 8 = (256 <=? i)) as ->.
  { apply eq_true_iff_eq. rewrite Z.testbit_true, Z.leb_le by done.
    change (2 ^ 8) with 256. dlia. }
  unfold canonical_high. destruct (256 <=? i).
  - rewrite lor_add_disjoint by done. rewrite u64_small; lia.
  - rewrite Z.lor_0_l. rewrite u64_small; lia.
Qed.

Section page_addr.
Context (i j k l off : Z).
Hypothesis (Hi : 0 ≤ i < 512) (Hj : 0 ≤ j < 512) (Hk : 0 ≤ k < 512) (Hl : 0 ≤ l < 512)
  (Hoff : 0 ≤ off < 4096).

Lemma PAGE_ADDR_range : 0 ≤ PAGE_ADDR i j k l off < 2 ^ 64.
Proof using Type. unfold PAGE_ADDR. apply u64_range. Qed.

(** The page number of the address, low 36 bits, is the four indexes in base 512. *)
Lemma PAGE_ADDR_shift n :
  0 ≤ n ≤ 3 →
  (PAGE_ADDR i j k l off / 2 ^ (12 + 9 * n)) mod 512 =
  (page_addr_sum i j k l off / 2 ^ (12 + 9 * n)) mod 512.
Proof.
  intros Hn. rewrite PAGE_ADDR_sum by done. unfold canonical_high.
  destruct (256 <=? i); [|done].
  assert (n = 0 ∨ n = 1 ∨ n = 2 ∨ n = 3) as [->|[->|[->| ->]]] by lia;
    unfold page_addr_sum; dlia.
Qed.

Lemma PAGE_ADDR_indexes :
  PML4_IDX (PAGE_ADDR i j k l off) = i ∧ PDP_IDX (PAGE_ADDR i j k l off) = j ∧
  PD_IDX (PAGE_ADDR i j k l off) = k ∧ PT_IDX (PAGE_ADDR i j k l off) = l ∧
  PAGE_ADDR i j k l off mod 4096 = off.
Proof.
  rewrite PML4_IDX_alt, PDP_IDX_alt, PD_IDX_alt, PT_IDX_alt, u64_small by apply PAGE_ADDR_range.
  change 39 with (12 + 9 * 3). change 30 with (12 + 9 * 2). change 21 with (12 + 9 * 1).
  rewrite (PAGE_ADDR_shift 3), (PAGE_ADDR_shift 2), (PAGE_ADDR_shift 1) by lia.
  change (2 ^ 12) with (2 ^ (12 + 9 * 0)). rewrite (PAGE_ADDR_shift 0) by lia.
  rewrite PAGE_ADDR_sum by done. unfold page_addr_sum, canonical_high.
  destruct (256 <=? i); split_and!; dlia.
Qed.
End page_addr.

(** An address is canonical when bits 63..48 repeat bit 47. *)
Definition canonical (va : Z) : bool :=
  (0 <=? va) && (va <? 2 ^ 64) &&
  ((va <? 2 ^ 47) || (2 ^ 64 - 2 ^ 47 <=? va)).

Lemma canonical_PAGE_ADDR va :
  canonical va = true →
  PAGE_ADDR (PML4_IDX va) (PDP_IDX va) (PD_IDX va) (PT_IDX va) (va mod 4096) = va.
Proof.
  intros Hc. unfold canonical in Hc. bools.
  rewrite PAGE_ADDR_sum; auto using PML4_IDX_range, PDP_IDX_range, PD_IDX_range, PT_IDX_range.
  2: { apply Z.mod_pos_bound. lia. }
  rewrite PML4_IDX_alt, PDP_IDX_alt, PD_IDX_alt, PT_IDX_alt, u64_small by lia.
  unfold page_addr_sum, canonical_high.
  apply orb_prop in H0 as [Hlo|Hhi]; bools.
  - destruct (256 <=? _) eqn:E; bools; dlia.
  - destruct (256 <=? _) eqn:E; bools; dlia.
Qed.

(** ** Page-aligned rounding *)

Lemma ROUND_DOWN_spec a n :
  0 < n → ROUND_DOWN a n mod n = 0 ∧ ROUND_DOWN a n ≤ a < ROUND_DOWN a n + n.
Proof.
  intros Hn. unfold ROUND_DOWN. pose proof (Z.mod_pos_bound a n Hn).
  rewrite Zminus_mod, Z.mod_mod, Z.sub_diag, Z.mod_0_l by lia. lia.
Qed.

Lemma ROUND_UP_spec a n :
  0 < n → 0 ≤ a → a + n - 1 < 2 ^ 64 →
  ROUND_UP a n mod n = 0 ∧ a ≤ ROUND_UP a n < a + n.
Proof.
  intros Hn Ha Hov. unfold ROUND_UP. rewrite u64_small by lia.
  destruct (ROUND_DOWN_spec (a + n - 1) n Hn) as [? ?]. lia.
Qed.

(** ** Physical and kernel virtual addresses *)

Lemma PADDR_VADDR_add b pa n :
  0 ≤ ptr_bits b → 0 ≤ pa → 0 ≤ n → pa + n < 2 ^ ptr_bits b → PADDR b (VADDR b pa + n) = pa + n.
Proof.
  intros Hw H1 H2 H3. unfold PADDR, VADDR.
  assert (0 < 2 ^ ptr_bits b) by (apply Z.pow_pos_nonneg; lia).
  rewrite <- Zminus_mod_idemp_l, Zplus_mod_idemp_l, Zminus_mod_idemp_l.
  replace (pa + vaddr_base b + n - vaddr_base b) with (pa + n) by lia. apply Z.mod_small. lia.
Qed.

Lemma PADDR_VADDR b pa :
  0 ≤ ptr_bits b → 0 ≤ pa < 2 ^ ptr_bits b → PADDR b (VADDR b pa) = pa.
Proof.
  intros Hw H. rewrite <- (Z.add_0_r (VADDR b pa)), PADDR_VADDR_add by lia. lia.
Qed.

(** ** Fixed regions of the kernel address space (start, size) *)

Definition kernel_regions : list (Z * Z) :=
  [ (KERNEL_TEMP, KERNLE_TEMP_PAGE_CNT * PAGE_SIZE);
    (EXCEPTION_STACK_TOP - EXCEPTION_STACK_SIZE, EXCEPTION_STACK_SIZE);
    (INTERRUPT_STACK_TOP - INTERRUPT_STACK_SIZE, INTERRUPT_STACK_SIZE);
    (IOAPIC_BASE, PAGE_SIZE);
    (APIC_BASE, PAGE_SIZE);
    (KERNEL_INFO, PAGE_SIZE);
    (KERNEL_STACK_TOP - KERNEL_STACK_SIZE, KERNEL_STACK_SIZE) ].

(** Each region is page aligned, canonical, lies in the part of the address
    space that [task_new] shares, and ends at or below the start of the next. *)
Fixpoint regions_ok (l : list (Z * Z)) (limit : Z) : bool :=
  match l with
  | [] => true
  | (a, n) :: l' =>
      (a mod PAGE_SIZE =? 0) && (n mod PAGE_SIZE =? 0) && (0 <? n) && canonical a &&
      (PML4_IDX USER_TOP <? PML4_IDX a) &&
      (a + n <=? match l' with [] => limit | (b, _) :: _ => b end) && regions_ok l' limit
  end.

#[export] Hint Resolve PML4_IDX_range PDP_IDX_range PD_IDX_range PT_IDX_range : ann.

End Mmu.
