(* ===== verification/Cstring.v ===== *)
(** stdlib/string.c and stdlib/stdlib.c over a flat byte memory.

    Loops are the C loops: the byte-wise [memset] and [memcpy] (which copies
    upwards, so overlapping regions behave as the code makes them), the
    NUL-terminated string functions, and [atoi], which scans from the last
    digit.  [char] is signed, [int] is 32 bits and wraps (the build passes no
    optimisation flag).  Loops that search for a NUL take a bound on the number
    of iterations and return [None] when it is reached; the theorems give a
    sufficient bound. *)

From S2P Require Import Prelude Memory.

Module Cstring.

Definition schar (b : byte) : Z := i8 (b2z b).
Definition NUL : byte := Byte.x00.

Fixpoint strlen_loop (fuel : nat) (m : mem) (s r : Z) : option Z :=
  match fuel with
  | O => None
  | S fuel' => if bool_decide (m (s + r) = NUL) then Some r
               else strlen_loop fuel' m s (u64 (r + 1))
  end.
Definition strlen (fuel : nat) (m : mem) (s : Z) : option Z := strlen_loop fuel m s 0.

Definition memset (m : mem) (s c : Z) (n : nat) : mem :=
  foldl (λ m' i, <[s + i := z2b c]> m') m (zseq 0 n).

Definition memcpy (m : mem) (dest src : Z) (n : nat) : mem :=
  foldl (λ m' i, <[dest + i := m' (src + i)]> m') m (zseq 0 n).

Fixpoint strcmp (fuel : nat) (m : mem) (s1 s2 : Z) : option Z :=
  match fuel with
  | O => None
  | S fuel' =>
      let r := schar (m s1) - schar (m s2) in
      if (r =? 0) && negb (bool_decide (m s1 = NUL))
      then strcmp fuel' m (s1 + 1) (s2 + 1) else Some r
  end.

Fixpoint strncmp (m : mem) (s1 s2 : Z) (n : nat) : Z :=
  match n with
  | O => 0
  | S n' =>
      let r := schar (m s1) - schar (m s2) in
      if negb (r =? 0) then r
      else if bool_decide (m s1 = NUL) then 0
      else strncmp m (s1 + 1) (s2 + 1) n'
  end.

Fixpoint strncpy_loop (m : mem) (dest src i : Z) (n : nat) : mem :=
  match n with
  | O => m
  | S n' =>
      let m' := <[dest + i := m (src + i)]> m in
      if bool_decide (m' (src + i) = NUL) then m'
      else strncpy_loop m' dest src (i + 1) n'
  end.

(** [dest[n-1] = 0]: for [n = 0] the index is SIZE_MAX, the byte before [dest]. *)
Definition strncpy (m : mem) (dest src : Z) (n : nat) : mem :=
  <[u64 (dest + (Z.of_nat n - 1)) := NUL]> (strncpy_loop m dest src 0 n).

(** [len] runs from [strlen - 1] down to 0. *)
Fixpoint atoi_loop (m : mem) (nptr : Z) (cnt : nat) (r mul : Z) : Z :=
  match cnt with
  | O => r
  | S cnt' =>
      let c := schar (m (nptr + Z.of_nat cnt')) in
      if (c <? 48) || (57 <? c) then 0
      else atoi_loop m nptr cnt' (i32 (r + i32 (mul * (c - 48)))) (i32 (mul * 10))
  end.

Definition atoi (fuel : nat) (m : mem) (nptr : Z) : option Z :=
  match strlen fuel m nptr with
  | Some len => Some (atoi_loop m nptr (Z.to_nat (i32 len)) 0 1)
  | None => None
  end.

(** ** Block operations *)

Lemma memset_spec m s c n x : memset m s c n x = mem_fill m s (z2b c) (Z.of_nat n) x.
Proof.
  unfold memset. revert x. induction n as [|n IH] using nat_ind; intros x.
  - simpl. by rewrite mem_fill_out by lia.
  - rewrite <- Nat.add_1_r, zseq_app, foldl_app. cbn [zseq foldl Z.of_nat].
    rewrite fn_insert_dec. destruct (decide (_ = x)).
    + rewrite mem_fill_in; [done|lia].
    + rewrite IH. unfold mem_fill.
      destruct ((s <=? x) && (x <? s + Z.of_nat n)) eqn:E1,
        ((s <=? x) && (x <? s + Z.of_nat (n + 1))) eqn:E2; bools; lia || done.
Qed.

(** Upward copying is exact when the destination does not start inside the source. *)
Lemma memcpy_spec m d s n x :
  d ≤ s ∨ s + Z.of_nat n ≤ d →
  memcpy m d s n x = mem_move m d s (Z.of_nat n) x.
Proof.
  intros Hov. unfold memcpy. revert x. induction n as [|n IH] using nat_ind; intros x.
  - simpl. by rewrite mem_move_out by lia.
  - rewrite <- Nat.add_1_r, zseq_app, foldl_app. cbn [zseq foldl Z.of_nat].
    rewrite fn_insert_dec, Z.add_0_l. destruct (decide (_ = x)) as [<-|].
    + rewrite IH, mem_move_out, mem_move_in by lia. f_equal. lia.
    + rewrite IH by lia. unfold mem_move.
      destruct ((d <=? x) && (x <? d + Z.of_nat n)) eqn:E1,
        ((d <=? x) && (x <? d + Z.of_nat (n + 1))) eqn:E2; bools; lia || done.
Qed.

(** ** Strings *)

(** The NUL-terminated string at [s] is [l]. *)
Fixpoint cstr (m : mem) (s : Z) (l : list byte) : Prop :=
  match l with
  | [] => m s = NUL
  | c :: l' => m s = c ∧ c ≠ NUL ∧ cstr m (s + 1) l'
  end.

Lemma cstr_ext m m' s l :
  (∀ x, s ≤ x ≤ s + Z.of_nat (length l) → m x = m' x) → cstr m s l → cstr m' s l.
Proof.
  revert s. induction l as [|c l IH]; intros s Hx; cbn [cstr length] in *.
  - rewrite Hx by lia. done.
  - rewrite (Hx s) by lia. intros (? & ? & H). split_and!; try done.
    apply IH; [|done]. intros x ?. apply Hx. lia.
Qed.

Lemma cstr_lookup m s l i c : cstr m s l → l !! i = Some c → m (s + Z.of_nat i) = c ∧ c ≠ NUL.
Proof.
  revert s i. induction l as [|d l IH]; intros s [|i]; cbn [cstr]; try done.
  - intros (Hc & ? & _) [= <-]. by rewrite Z.add_0_r.
  - intros (_ & _ & H) Hi. specialize (IH _ _ H Hi).
    by replace (s + Z.of_nat (S i)) with (s + 1 + Z.of_nat i) by lia.
Qed.

Lemma cstr_nul m s l : cstr m s l → m (s + Z.of_nat (length l)) = NUL.
Proof.
  revert s. induction l as [|c l IH]; intros s; cbn [cstr length].
  - by rewrite Z.add_0_r.
  - intros (_ & _ & H). apply IH in H. by replace (s + Z.of_nat (S (length l))) with (s + 1 + Z.of_nat (length l)) by lia.
Qed.

Lemma schar_inj b c : schar b = schar c → b = c.
Proof.
  intros H. apply b2z_inj. pose proof (b2z_range b). pose proof (b2z_range c).
  unfold schar, i8 in H.
  assert (sext 8 (b2z b) mod 2 ^ 8 = sext 8 (b2z c) mod 2 ^ 8) as E by congruence.
  rewrite !sext_mod, !Z.mod_small in E by lia. done.
Qed.

Lemma strlen_loop_spec m s l fuel r :
  cstr m (s + r) l → (length l < fuel)%nat → 0 ≤ r → r + Z.of_nat (length l) < 2 ^ 64 →
  strlen_loop fuel m s r = Some (r + Z.of_nat (length l)).
Proof.
  revert fuel r. induction l as [|c l IH]; intros [|fuel] r; cbn [cstr length strlen_loop];
    intros H Hf Hr Hb; try lia.
  - rewrite bool_decide_true by done. f_equal. lia.
  - destruct H as (-> & Hc & H). rewrite bool_decide_false by done.
    rewrite u64_small by lia. rewrite IH; [f_equal; lia| |lia..].
    by rewrite Z.add_assoc.
Qed.

Lemma strlen_spec m s l fuel :
  cstr m s l → (length l < fuel)%nat → Z.of_nat (length l) < 2 ^ 64 →
  strlen fuel m s = Some (Z.of_nat (length l)).
Proof.
  intros H Hf Hb. unfold strlen. rewrite (strlen_loop_spec m s l); [done| |lia..].
  by rewrite Z.add_0_r.
Qed.

Lemma strcmp_spec m s1 s2 l1 l2 fuel :
  cstr m s1 l1 → cstr m s2 l2 → (length l1 < fuel)%nat →
  ∃ r, strcmp fuel m s1 s2 = Some r ∧ (r = 0 ↔ l1 = l2).
Proof.
  revert s1 s2 l2 fuel. induction l1 as [|c l1 IH];
    intros s1 s2 l2 [|fuel]; cbn [cstr length strcmp]; intros H1 H2 Hf; try lia.
  - rewrite (bool_decide_true (m s1 = NUL)), andb_false_r by done. eexists. split; [done|].
    rewrite H1. destruct l2 as [|d l2]; cbn [cstr] in H2.
    + rewrite H2. split; [done|]. lia.
    + destruct H2 as (-> & Hd & _). split; [|done]. intros E. exfalso. apply Hd.
      apply schar_inj. lia.
  - destruct H1 as (-> & Hc & H1). rewrite (bool_decide_false (c = NUL)), andb_true_r by done.
    destruct l2 as [|d l2]; cbn [cstr] in H2.
    + rewrite H2. destruct (Z.eqb_spec (schar c - schar NUL) 0) as [E|E].
      { exfalso. apply Hc, schar_inj. lia. }
      eexists. split; [done|]. split; [lia|done].
    + destruct H2 as (-> & Hd & H2). destruct (Z.eqb_spec (schar c - schar d) 0) as [E|E].
      * assert (c = d) as -> by (apply schar_inj; lia).
        destruct (IH _ _ _ fuel H1 H2) as (r & -> & Hr); [lia|]. exists r. split; [done|].
        rewrite Hr. split; congruence.
      * eexists. split; [done|]. split; [lia|]. intros [= -> _]. lia.
Qed.

(** [strncmp] compares the prefixes of length [n]. *)
Lemma strncmp_spec m s1 s2 l1 l2 n :
  cstr m s1 l1 → cstr m s2 l2 → (strncmp m s1 s2 n = 0 ↔ take n l1 = take n l2).
Proof.
  revert s1 s2 l1 l2. induction n as [|n IH]; intros s1 s2 l1 l2 H1 H2; [done|].
  cbn [strncmp]. destruct (Z.eqb_spec (schar (m s1) - schar (m s2)) 0) as [E|E]; cbn [negb].
  - assert (m s1 = m s2) as Em by (apply schar_inj; lia).
    destruct l1 as [|c l1]; cbn [cstr] in H1.
    + rewrite bool_decide_true by done. destruct l2 as [|d l2]; [done|].
      destruct H2 as (? & ? & _). congruence.
    + destruct H1 as (Hc & Hn & H1). rewrite bool_decide_false by congruence.
      destruct l2 as [|d l2]; cbn [cstr] in H2; [congruence|]. destruct H2 as (Hd & _ & H2).
      rewrite (IH _ _ _ _ H1 H2). cbn [take]. split; [intros ->; congruence|by intros [= _ ->]].
  - split; [lia|]. intros Ht. exfalso. apply E.
    destruct l1 as [|c l1], l2 as [|d l2]; cbn [cstr] in *; try done.
    + rewrite H1, H2. lia.
    + destruct H1 as [-> _], H2 as [-> _]. injection Ht as ->. lia.
Qed.

Section strncpy.
Context (d s : Z).

(** The loop copies the string up to and including its NUL, at most [n] bytes. *)
Lemma strncpy_loop_spec m i n l x :
  cstr m (s + i) l → 0 ≤ i →
  d + i + Z.of_nat n ≤ s + i ∨ s + i + Z.of_nat (length l) < d + i →
  strncpy_loop m d s i n x =
  mem_move m (d + i) (s + i) (Z.of_nat (Nat.min n (S (length l)))) x.
Proof.
  revert m i l. induction n as [|n IH]; intros m i l H Hi Hd.
  - cbn [strncpy_loop Nat.min]. by rewrite mem_move_out by lia.
  - cbn [strncpy_loop]. set (m1 := <[d + i := m (s + i)]> m).
    assert (m1 (s + i) = m (s + i)) as Hsi by (unfold m1; fn_cases; done).
    rewrite Hsi. destruct l as [|c l]; cbn [cstr length] in *.
    + rewrite bool_decide_true by done. replace (Nat.min (S n) 1) with 1%nat by lia.
      unfold m1. rewrite fn_insert_dec. destruct (decide _) as [<-|].
      * rewrite mem_move_in by lia. f_equal. lia.
      * rewrite mem_move_out; [done|]. lia.
    + destruct H as (Hc & Hn & H). rewrite bool_decide_false by congruence.
      rewrite (IH m1 (i + 1) l); [| |lia..].
      2: { eapply cstr_ext; [|rewrite Z.add_assoc; exact H].
           intros y Hy. unfold m1. rewrite fn_lookup_insert_ne by lia. done. }
      assert (∀ y, y ≠ d + i → m1 y = m y) as Hm1.
      { intros y Hy. unfold m1. by rewrite fn_lookup_insert_ne. }
      destruct (decide (x = d + i)) as [->|Hx].
      * rewrite mem_move_out, mem_move_in by lia. unfold m1.
        rewrite fn_lookup_insert. f_equal. lia.
      * destruct (decide (d + i ≤ x < d + i + Z.of_nat (S (Nat.min n (S (length l)))))).
        -- rewrite !mem_move_in by lia. rewrite Hm1 by lia. f_equal. lia.
        -- rewrite !mem_move_out by lia. by apply Hm1.
Qed.
End strncpy.

Lemma cstr_move m m' s d l k :
  cstr m s l → (∀ x, 0 ≤ x < Z.of_nat k → m' (d + x) = m (s + x)) → (k ≤ length l)%nat →
  m' (d + Z.of_nat k) = NUL → cstr m' d (take k l).
Proof.
  revert s d l. induction k as [|k IH]; intros s d l H Hx Hk H0.
  - cbn [take]. destruct l; cbn [cstr]; by rewrite Z.add_0_r in H0.
  - destruct l as [|c l]; cbn [length] in Hk; [lia|]. destruct H as (Hc & Hn & H).
    cbn [take cstr]. split_and!; [|done|].
    + specialize (Hx 0). rewrite !Z.add_0_r in Hx. rewrite Hx by lia. done.
    + apply (IH (s + 1)); [done| |lia|].
      * intros x Hx'. rewrite <- !Z.add_assoc. apply Hx. lia.
      * by replace (d + 1 + Z.of_nat k) with (d + Z.of_nat (S k)) by lia.
Qed.

(** [strncpy] leaves a terminated copy of at most [n-1] characters and writes
    nothing outside the [n] bytes of the destination. *)
Lemma strncpy_spec m d s l n :
  cstr m s l → (0 < n)%nat → 0 ≤ d → d + Z.of_nat n ≤ 2 ^ 64 →
  d + Z.of_nat n ≤ s ∨ s + Z.of_nat (length l) < d →
  cstr (strncpy m d s n) d (take (n - 1) l) ∧
  (∀ x, x < d ∨ d + Z.of_nat n ≤ x → strncpy m d s n x = m x).
Proof.
  intros H Hn Hd0 Hd1 Hdis. unfold strncpy. rewrite u64_small by lia.
  assert (∀ x, strncpy_loop m d s 0 n x =
    mem_move m d s (Z.of_nat (Nat.min n (S (length l)))) x) as Hl.
  { intros x. rewrite (strncpy_loop_spec d s m 0 n l); [by rewrite !Z.add_0_r| |lia..].
    by rewrite Z.add_0_r. }
  split.
  - destruct (decide (n - 1 ≤ length l)%nat) as [Hle|Hgt].
    + apply (cstr_move m _ s); [done| |lia|].
      * intros x Hx. rewrite fn_lookup_insert_ne by lia. rewrite Hl, mem_move_in by lia.
        f_equal. lia.
      * rewrite fn_insert_dec, decide_True by lia. done.
    + rewrite take_ge by lia. rewrite <- (take_ge l (length l)) by lia.
      apply (cstr_move m _ s); [done| |lia|].
      * intros x Hx. rewrite fn_lookup_insert_ne by lia. rewrite Hl, mem_move_in by lia.
        f_equal. lia.
      * apply cstr_nul in H. rewrite fn_insert_dec. destruct (decide _); [done|].
        rewrite Hl, mem_move_in by lia. rewrite <- H. f_equal. lia.
  - intros x Hx. rewrite fn_lookup_insert_ne by lia. rewrite Hl. apply mem_move_out. lia.
Qed.

(** ** Decimal numbers *)

Definition is_digit (b : byte) : bool := (48 <=? b2z b) && (b2z b <=? 57).

(** The value of a digit string, most significant digit first. *)
Definition dval (l : list byte) : Z := foldl (λ acc b, acc * 10 + (b2z b - 48)) 0 l.

Lemma schar_digit b : is_digit b = true → schar b = b2z b.
Proof. unfold is_digit. intros ?. bools. apply sext_small; lia. Qed.

Lemma is_digit_schar b : is_digit b = negb ((schar b <? 48) || (57 <? schar b)).
Proof.
  unfold is_digit, schar, i8, sext. pose proof (b2z_range b). rewrite Z.mod_small by lia.
  change (2 ^ 8) with 256 in *. change (2 ^ (8 - 1)) with 128.
  destruct (Z.ltb_spec (b2z b) 128);
    repeat match goal with |- context [?a <=? ?b] => destruct (Z.leb_spec a b)
                         | |- context [?a <? ?b] => destruct (Z.ltb_spec a b) end; cbn; lia.
Qed.

Lemma dval_cons_gen l a : foldl (λ acc b, acc * 10 + (b2z b - 48)) a l = a * 10 ^ Z.of_nat (length l) + dval l.
Proof.
  unfold dval. revert a. induction l as [|b l IH]; intros a; cbn [foldl length].
  - lia.
  - rewrite IH, (IH (0 * 10 + _)). rewrite Nat2Z.inj_succ, Z.pow_succ_r by lia. lia.
Qed.

Lemma dval_app l1 l2 : dval (l1 ++ l2) = dval l1 * 10 ^ Z.of_nat (length l2) + dval l2.
Proof. unfold dval at 1. rewrite foldl_app. by rewrite dval_cons_gen. Qed.

Lemma i32_mod z : i32 z mod 2 ^ 32 = z mod 2 ^ 32.
Proof. by apply sext_mod. Qed.

Lemma i32_ext a b : a mod 2 ^ 32 = b mod 2 ^ 32 → i32 a = i32 b.
Proof. unfold i32, sext. by intros ->. Qed.

Lemma atoi_loop_digits m s l1 l2 :
  (∀ i c, l1 !! i = Some c → m (s + Z.of_nat i) = c) →
  Forall (λ b, is_digit b = true) l1 →
  atoi_loop m s (length l1) (i32 (dval l2)) (i32 (10 ^ Z.of_nat (length l2))) =
  i32 (dval (l1 ++ l2)).
Proof.
  revert l2. induction l1 as [|c l1 IH] using rev_ind; intros l2 Hm Hd; [done|].
  rewrite length_app. cbn [length]. rewrite Nat.add_1_r. cbn [atoi_loop].
  apply Forall_app in Hd as [Hd [Hc _]%Forall_cons].
  rewrite (Hm (length l1) c) by (by rewrite lookup_app_r, Nat.sub_diag).
  pose proof (is_digit_schar c) as E. rewrite Hc in E. symmetry in E. apply negb_true_iff in E.
  rewrite E, schar_digit by done.
  rewrite <- app_assoc. cbn [app]. rewrite <- (IH (c :: l2));
    [|intros i b Hi; apply Hm; by apply lookup_app_l_Some|done].
  f_equal; apply i32_ext.
  - change (c :: l2) with ([c] ++ l2). rewrite dval_app.
    rewrite <- Zplus_mod_idemp_l, <- Zplus_mod_idemp_r, !i32_mod.
    rewrite <- Zmult_mod_idemp_l, i32_mod, Zmult_mod_idemp_l.
    rewrite Zplus_mod_idemp_l, Zplus_mod_idemp_r. f_equal. unfold dval at 2. cbn [foldl]. lia.
  - rewrite <- Zmult_mod_idemp_l, i32_mod, Zmult_mod_idemp_l. f_equal. cbn [length].
    rewrite Nat2Z.inj_succ, Z.pow_succ_r by lia. lia.
Qed.

Lemma cstr_bytes m s l i c : cstr m s l → l !! i = Some c → m (s + Z.of_nat i) = c.
Proof. intros H Hi. by destruct (cstr_lookup m s l i c H Hi). Qed.

(** On a digit string [atoi] is the decimal value (modulo the width of int). *)
Lemma atoi_digits m s l fuel :
  cstr m s l → Forall (λ b, is_digit b = true) l → (length l < fuel)%nat →
  Z.of_nat (length l) < 2 ^ 31 →
  atoi fuel m s = Some (i32 (dval l)).
Proof.
  intros H Hd Hf Hb. unfold atoi. rewrite (strlen_spec m s l) by (done || lia).
  rewrite (sext_small 32), Nat2Z.id by lia. f_equal.
  rewrite <- (app_nil_r l) at 2. rewrite <- (atoi_loop_digits m s l []); [done| |done].
  intros i c Hi. by eapply cstr_bytes.
Qed.

Lemma atoi_loop_nondigit m s n r mul i :
  (i < n)%nat → is_digit (m (s + Z.of_nat i)) = false → atoi_loop m s n r mul = 0.
Proof.
  intros Hi Hd. revert r mul. induction n as [|n IH]; intros r mul; [lia|].
  cbn [atoi_loop]. destruct (decide (i = n)) as [->|].
  - rewrite is_digit_schar in Hd. apply negb_false_iff in Hd. by rewrite Hd.
  - destruct (_ || _); [done|]. apply IH. lia.
Qed.

(** Any other character makes the result 0. *)
Lemma atoi_nondigit m s l fuel :
  cstr m s l → Exists (λ b, is_digit b = false) l → (length l < fuel)%nat →
  Z.of_nat (length l) < 2 ^ 31 → atoi fuel m s = Some 0.
Proof.
  intros H Hd Hf Hb. unfold atoi. rewrite (strlen_spec m s l) by (done || lia).
  rewrite (sext_small 32), Nat2Z.id by lia. f_equal.
  apply Exists_exists in Hd as (b & Hb' & Hd). apply list_elem_of_lookup in Hb' as [i Hi].
  eapply (atoi_loop_nondigit _ _ _ _ _ i); [by eapply lookup_lt_Some|].
  by rewrite (cstr_bytes m s l i b H Hi).
Qed.

End Cstring.
