(* ===== verification/Console.v ===== *)
(** What the console promises to the rest of the kernel.

    [format] is the text that a call of [terminal_printf] stands for, as a pure
    function of the format and the arguments.  [Console] is the interface the
    other components use: an operation [printf] on an abstract console state
    and an invariant [con_ok]; [ConsoleLaws] says that every call with a
    well-formed format returns and keeps the invariant.  Terminal.v discharges
    it for the VGA text terminal. *)

From Stdlib Require Import Ascii String.
From S2P Require Import Prelude.

(** Characters are their codes. *)
Definition chr (c : ascii) : Z := Z.of_N (N_of_ascii c).

Fixpoint codes (s : string) : list Z :=
  match s with
  | EmptyString => []
  | String c s' => chr c :: codes s'
  end.

(** The newline that ends most messages. *)
Definition nl : string := String "010" EmptyString.

(** An argument of a variadic call: a 64-bit slot, or the characters of the
    string a pointer argument points to. *)
Inductive arg :=
| AInt (z : Z)
| AStr (s : list Z).

(** The digits of [n] in [base], most significant first; [fuel] bounds their
    number (64 suffices for a 64-bit number, [digits_enough]). *)
Definition digit_char (d : Z) : Z := if d <? 10 then 48 + d else 65 + (d - 10).

Fixpoint digits (fuel : nat) (base n : Z) : list Z :=
  match fuel with
  | O => []
  | S fuel' =>
      if n <? base then [digit_char n]
      else digits fuel' base (n / base) ++ [digit_char (n mod base)]
  end.

Definition show_u (base n : Z) : list Z := digits 64 base n.

Definition show_i (w n : Z) : list Z :=
  let d := sext w n in
  if d <? 0 then chr "-" :: show_u 10 (u64 (sext w (- d))) else show_u 10 (u64 d).

(** One conversion: the text and the remaining arguments. *)
Definition conv (c : Z) (long : bool) (ap : list arg) : option (list Z * list arg) :=
  let w := if long then 64 else 32 in
  match ap with
  | AInt z :: ap' =>
      if c =? chr "d" then Some (show_i w z, ap')
      else if c =? chr "u" then Some (show_u 10 (z mod 2 ^ w), ap')
      else if c =? chr "b" then Some (show_u 2 (z mod 2 ^ w), ap')
      else if c =? chr "x" then Some (codes "0x" ++ show_u 16 (z mod 2 ^ w), ap')
      else if negb long && (c =? chr "p") then Some (codes "0x" ++ show_u 16 (u64 z), ap')
      else if negb long && (c =? chr "c") then Some ([u8 z], ap')
      else None
  | AStr s :: ap' => if negb long && (c =? chr "s") then Some (s, ap') else None
  | [] => None
  end.

Fixpoint format (fmt : list Z) (ap : list arg) : option (list Z) :=
  match fmt with
  | [] => Some []
  | c :: rest =>
      if negb (c =? chr "%") then cons c <$> format rest ap
      else match rest with
      | [] => None
      | d :: rest1 =>
          if d =? chr "%" then cons (chr "%") <$> format rest1 ap
          else if d =? chr "l" then
            match rest1 with
            | [] => None
            | e :: rest2 =>
                match conv e true ap with
                | Some (txt, ap') => app txt <$> format rest2 ap'
                | None => None
                end
            end
          else match conv d false ap with
               | Some (txt, ap') => app txt <$> format rest1 ap'
               | None => None
               end
      end
  end.

Definition fmt_ok (fmt : string) (ap : list arg) : bool :=
  bool_decide (is_Some (format (codes fmt) ap)).

Class Console (T : Type) := {
  printf : string → list arg → M T ();
  con_ok : T → Prop;
}.

Class ConsoleLaws (T : Type) `{Console T} := {
  printf_ok fmt ap (t : T) :
    fmt_ok fmt ap = true → con_ok t → wp (printf fmt ap) (λ _ t', con_ok t') t;
}.

(** ** Number formatting *)

(** The number a digit string denotes. *)
Definition char_digit (c : Z) : Z := if c <? 65 then c - 48 else c - 55.
Definition num_of (base : Z) (l : list Z) : Z := foldl (λ acc c, acc * base + char_digit c) 0 l.

Lemma char_digit_char d : 0 ≤ d < 16 → char_digit (digit_char d) = d.
Proof.
  intros H. unfold char_digit, digit_char.
  destruct (Z.ltb_spec d 10), (Z.ltb_spec (48 + d) 65), (Z.ltb_spec (65 + (d - 10)) 65); lia.
Qed.

Lemma digits_value fuel base n :
  2 ≤ base ≤ 16 → 0 ≤ n < base ^ Z.of_nat fuel → num_of base (digits fuel base n) = n.
Proof.
  intros Hb. revert n. induction fuel as [|fuel IH]; intros n Hn; cbn [digits].
  - change (base ^ Z.of_nat 0) with 1 in Hn. assert (n = 0) as -> by lia. done.
  - destruct (Z.ltb_spec n base).
    + unfold num_of. cbn [foldl]. rewrite char_digit_char by lia. lia.
    + unfold num_of. rewrite foldl_app. cbn [foldl]. fold (num_of base (digits fuel base (n / base))).
      pose proof (Z.mod_pos_bound n base). pose proof (Z.div_mod n base).
      rewrite Nat2Z.inj_succ, Z.pow_succ_r in Hn by lia.
      rewrite IH, char_digit_char; [lia|lia|].
      split; [apply Z.div_pos; lia|apply Z.div_lt_upper_bound; lia].
Qed.

(** 64 digits are enough for every 64-bit number in every base used. *)
Lemma show_u_value base n : 2 ≤ base ≤ 16 → 0 ≤ n < 2 ^ 64 → num_of base (show_u base n) = n.
Proof.
  intros Hb Hn. apply digits_value; [done|]. split; [lia|].
  apply Z.lt_le_trans with (2 ^ 64); [lia|]. change (Z.of_nat 64) with 64.
  apply Z.pow_le_mono_l. lia.
Qed.

(** More fuel than needed changes nothing. *)
Lemma digits_fuel base n f1 f2 :
  2 ≤ base → 0 ≤ n < base ^ Z.of_nat f1 → n < base ^ Z.of_nat f2 → (0 < f1)%nat → (0 < f2)%nat →
  digits f1 base n = digits f2 base n.
Proof.
  intros Hb. revert n f2. induction f1 as [|f1 IH]; intros n [|f2] Hn1 Hn2 H1 H2; try lia.
  cbn [digits]. destruct (Z.ltb_spec n base) as [|Hge]; [done|].
  rewrite Nat2Z.inj_succ, Z.pow_succ_r in Hn1, Hn2 by lia.
  destruct f1 as [|f1]; [change (base ^ Z.of_nat 0) with 1 in Hn1; lia|].
  destruct f2 as [|f2]; [change (base ^ Z.of_nat 0) with 1 in Hn2; lia|].
  f_equal. apply IH; try lia.
  - split; [apply Z.div_pos; lia|apply Z.div_lt_upper_bound; lia].
  - apply Z.div_lt_upper_bound; lia.
Qed.
