(* ===== verification/Terminal.v ===== *)
(** The VGA text terminal: kernel/lib/console/terminal.c and terminal.h.

    The text buffer is a function from cell index to 16-bit cell (character in
    the low byte, colour in the high byte).  Rows 0..22 hold the scrolling
    output; the code scrolls as soon as the cursor would enter row 23, and the
    monitor keeps its command line in row 24.  Assertions are [EPanic].  The
    theorems show that output from a cursor in rows 0..22 never fails an
    assertion and never touches rows 23 and above, what a scroll does to every
    cell, and that [terminal_vprintf] writes exactly the text [format] gives. *)

From Stdlib Require Import Ascii String.
From S2P Require Import Prelude Console.

Module Term.

Definition TERMINAL_ROW_COUNT : Z := 24.
Definition TERMINAL_COL_COUNT : Z := 80.
Definition TERMINAL_TAB_SPACE : nat := 8.

(** [enum terminal_color], in source order, and its values. *)
Inductive color :=
  | TERMINAL_COLOR_BLACK
  | TERMINAL_COLOR_BLUE
  | TERMINAL_COLOR_GREEN
  | TERMINAL_COLOR_CYAN
  | TERMINAL_COLOR_RED
  | TERMINAL_COLOR_MAGENTA
  | TERMINAL_COLOR_BROWN
  | TERMINAL_COLOR_LIGHT_GREY
  | TERMINAL_COLOR_DARK_GREY
  | TERMINAL_COLOR_LIGHT_BLUE
  | TERMINAL_COLOR_LIGHT_GREEN
  | TERMINAL_COLOR_LIGHT_CYAN
  | TERMINAL_COLOR_LIGHT_RED
  | TERMINAL_COLOR_LIGHT_MAGENTA
  | TERMINAL_COLOR_LIGHT_BROWN
  | TERMINAL_COLOR_WHITE.

Definition color_value (c : color) : Z :=
  match c with
  | TERMINAL_COLOR_BLACK => 0
  | TERMINAL_COLOR_BLUE => 1
  | TERMINAL_COLOR_GREEN => 2
  | TERMINAL_COLOR_CYAN => 3
  | TERMINAL_COLOR_RED => 4
  | TERMINAL_COLOR_MAGENTA => 5
  | TERMINAL_COLOR_BROWN => 6
  | TERMINAL_COLOR_LIGHT_GREY => 7
  | TERMINAL_COLOR_DARK_GREY => 8
  | TERMINAL_COLOR_LIGHT_BLUE => 9
  | TERMINAL_COLOR_LIGHT_GREEN => 10
  | TERMINAL_COLOR_LIGHT_CYAN => 11
  | TERMINAL_COLOR_LIGHT_RED => 12
  | TERMINAL_COLOR_LIGHT_MAGENTA => 13
  | TERMINAL_COLOR_LIGHT_BROWN => 14
  | TERMINAL_COLOR_WHITE => 15
  end.

Record terminal := Terminal {
  terminal_buffer : Z → Z;
  terminal_color : Z;
  terminal_column : Z;
  terminal_row : Z;
}.

Definition set_buffer b t := Terminal b (terminal_color t) (terminal_column t) (terminal_row t).
Definition set_column c t := Terminal (terminal_buffer t) (terminal_color t) c (terminal_row t).
Definition set_row r t := Terminal (terminal_buffer t) (terminal_color t) (terminal_column t) r.

(** [struct terminal_position]: two bytes. *)
Record position := Position { p_row : Z; p_column : Z }.

Definition terminal_position : M terminal position :=
  gets (λ t, Position (u8 (terminal_row t)) (u8 (terminal_column t))).

Definition terminal_set_position (p : position) : M terminal () :=
  massert (p_row p <=? TERMINAL_ROW_COUNT) ;;
  modify (set_row (p_row p)) ;;
  massert (p_column p <? TERMINAL_COL_COUNT) ;;
  modify (set_column (p_column p)).

(** [memset(TERMINAL_ROW(r), 0, TERMINAL_ROW_SIZE)]. *)
Definition zero_row (r : Z) (b : Z → Z) : Z → Z := λ x,
  if (r * TERMINAL_COL_COUNT <=? x) && (x <? (r + 1) * TERMINAL_COL_COUNT) then 0 else b x.

(** [memcpy(TERMINAL_ROW(d), TERMINAL_ROW(s), TERMINAL_ROW_SIZE)]. *)
Definition copy_row (d s : Z) (b : Z → Z) : Z → Z := λ x,
  if (d * TERMINAL_COL_COUNT <=? x) && (x <? (d + 1) * TERMINAL_COL_COUNT)
  then b (x + (s - d) * TERMINAL_COL_COUNT) else b x.

Definition terminal_clear_line : M terminal () :=
  modify (λ t, set_buffer (zero_row (terminal_row t) (terminal_buffer t)) t) ;;
  modify (set_column 0).

(** The static line buffer survives between calls: the arguments of the
    [memset] that should clear it are swapped, so it writes no byte. *)
Record cmdbuf := CmdBuf { chars : Z → Z; len : Z }.

Definition read_cell (t : terminal) (cb : cmdbuf) (i : Z) : cmdbuf :=
  let cell := terminal_buffer t (terminal_row t * TERMINAL_COL_COUNT + i) in
  if (chars cb 0 =? 0) && (cell =? chr " ") then cb
  else CmdBuf (<[len cb := u8 cell]> (chars cb)) (u8 (len cb + 1)).

Fixpoint trim (n : nat) (cb : cmdbuf) : cmdbuf :=
  match n with
  | O => cb
  | S n' =>
      if (0 <? len cb) && (chars cb (len cb - 1) =? chr " ")
      then trim n' (CmdBuf (<[len cb - 1 := 0]> (chars cb)) (len cb - 1)) else cb
  end.

(** The contents of the static buffer before the call are an argument; at most
    80 characters are read, so 80 rounds of trimming suffice. *)
Definition terminal_read_command (off : Z) (static : Z → Z) (t : terminal) : Z → Z :=
  let n := Z.to_nat (TERMINAL_COL_COUNT - off) in
  chars (trim 80 (foldl (read_cell t) (CmdBuf static 0) (zseq off n))).

Definition terminal_make_char (ch color : Z) : Z := u16 (Z.lor (Z.shiftl color 8) ch).

Definition terminal_make_color (fg bg : color) : Z :=
  u8 (Z.lor (Z.shiftl (color_value bg) 4) (Z.land (color_value fg) 0xf)).

(** Both colours can be read back from the attribute byte. *)
Lemma make_color_fields fg bg :
  Z.land (terminal_make_color fg bg) 0xf = color_value fg ∧ Z.shiftr (terminal_make_color fg bg) 4 = color_value bg.
Proof. by destruct fg, bg. Qed.

(** The end of [terminal_put_color]: line wrap, then scroll. *)
Definition wrap_column : M terminal () :=
  t ← get;
  massert (terminal_column t <=? TERMINAL_COL_COUNT) ;;
  if terminal_column t =? TERMINAL_COL_COUNT
  then put (set_row (terminal_row t + 1) (set_column 0 t)) else mret ().

Definition scroll_rows (row : Z) (b : Z → Z) : Z → Z :=
  foldl (λ b' i, copy_row i (i + 1) b') b (zseq 0 (Z.to_nat (row - 1))).

Definition scroll : M terminal () :=
  t ← get;
  massert (terminal_row t <=? TERMINAL_ROW_COUNT) ;;
  if terminal_row t =? TERMINAL_ROW_COUNT - 1
  then
    let b1 := scroll_rows (terminal_row t) (terminal_buffer t) in
    let b2 := zero_row (terminal_row t - 1) b1 in
    put (set_row (terminal_row t - 1) (set_buffer b2 t)) ;;
    massert (terminal_column t =? 0)
  else mret ().

(** [terminal_put_color] for a character other than a tab. *)
Definition put_char (ch color : Z) : M terminal () :=
  t ← get;
  let index := terminal_row t * TERMINAL_COL_COUNT + terminal_column t in
  if ch =? 13 then put (set_column 0 t)
  else
    (if ch =? 10 then
       massert (terminal_row t <? TERMINAL_ROW_COUNT) ;;
       put (set_row (terminal_row t + 1) (set_column 0 t))
     else
       put (set_column (terminal_column t + 1)
         (set_buffer (<[index := terminal_make_char ch color]> (terminal_buffer t)) t))) ;;
    wrap_column ;;
    scroll.

Definition terminal_put_color (ch color : Z) : M terminal () :=
  if ch =? 9 then mfor (zseq 0 TERMINAL_TAB_SPACE) (λ _, put_char (chr " ") color)
  else put_char ch color.

Definition terminal_put (ch : Z) : M terminal () :=
  t ← get; terminal_put_color (u8 ch) (terminal_color t).

Definition digit2hex : list Z := codes "0123456789ABCDEF".

Definition convert_digit (digit base : Z) : M terminal Z :=
  massert (digit <? base) ;;
  if digit <? 10 then deref (digit2hex !! Z.to_nat digit)
  else massert (base =? 16) ;; deref (digit2hex !! Z.to_nat digit).

(** The recursion depth is the number of digits: [fuel] of 64 suffices. *)
Fixpoint terminal_print_digit (fuel : nat) (digit base : Z) : M terminal () :=
  match fuel with
  | O => fail EFuel
  | S fuel' =>
      massert ((base =? 2) || (base =? 10) || (base =? 16)) ;;
      if digit <? base then c ← convert_digit (u8 digit) base; terminal_put c
      else
        terminal_print_digit fuel' (digit / base) base ;;
        c ← convert_digit (u8 (digit mod base)) base; terminal_put c
  end.

Definition puts (l : list Z) : M terminal () := mfor l terminal_put.

Definition print_signed (w z : Z) : M terminal () :=
  let d := sext w z in
  if d <? 0 then terminal_put (chr "-") ;; terminal_print_digit 64 (u64 (sext w (- d))) 10
  else terminal_print_digit 64 (u64 d) 10.

(** The arguments are consumed from the left; an argument that is missing or of
    the wrong kind is undefined behaviour. *)
Definition next_int (ap : list arg) : M terminal (Z * list arg) :=
  match ap with AInt z :: ap' => mret (z, ap') | _ => fail EUndef end.

(** The cases of the conversion [switch]; the remaining arguments are returned. *)
Definition print_conv (c : Z) (ap : list arg) : M terminal (list arg) :=
  if c =? chr "%" then terminal_put (chr "%") ;; mret ap
  else if c =? chr "c" then '(z, ap') ← next_int ap; terminal_put (i8 z) ;; mret ap'
  else if c =? chr "s" then
    match ap with AStr s :: ap' => puts s ;; mret ap' | _ => fail EUndef end
  else if c =? chr "d" then '(z, ap') ← next_int ap; print_signed 32 z ;; mret ap'
  else if c =? chr "u" then
    '(z, ap') ← next_int ap; terminal_print_digit 64 (u32 z) 10 ;; mret ap'
  else if c =? chr "b" then
    '(z, ap') ← next_int ap; terminal_print_digit 64 (u32 z) 2 ;; mret ap'
  else if c =? chr "x" then
    '(z, ap') ← next_int ap; puts (codes "0x") ;; terminal_print_digit 64 (u32 z) 16 ;; mret ap'
  else if c =? chr "p" then
    '(z, ap') ← next_int ap; puts (codes "0x") ;; terminal_print_digit 64 (u64 z) 16 ;; mret ap'
  else fail EPanic.

(** The inner [switch] after [%l]. *)
Definition print_long (c : Z) (ap : list arg) : M terminal (list arg) :=
  if c =? chr "d" then '(z, ap') ← next_int ap; print_signed 64 z ;; mret ap'
  else if c =? chr "u" then
    '(z, ap') ← next_int ap; terminal_print_digit 64 (u64 z) 10 ;; mret ap'
  else if c =? chr "b" then
    '(z, ap') ← next_int ap; terminal_print_digit 64 (u64 z) 2 ;; mret ap'
  else if c =? chr "x" then
    '(z, ap') ← next_int ap; puts (codes "0x") ;; terminal_print_digit 64 (u64 z) 16 ;; mret ap'
  else fail EPanic.

Fixpoint terminal_vprintf (fmt : list Z) (ap : list arg) : M terminal () :=
  match fmt with
  | [] => mret ()
  | c :: rest =>
      if negb (c =? chr "%") then terminal_put c ;; terminal_vprintf rest ap
      else match rest with
      | [] => fail EPanic
      | d :: rest1 =>
          if d =? chr "l" then
            match rest1 with
            | [] => fail EPanic
            | e :: rest2 => ap' ← print_long e ap; terminal_vprintf rest2 ap'
            end
          else ap' ← print_conv d ap; terminal_vprintf rest1 ap'
      end
  end.

Definition terminal_printf (fmt : string) (ap : list arg) : M terminal () :=
  terminal_vprintf (codes fmt) ap.

Definition terminal_clear : M terminal () :=
  modify (λ t, Terminal
    (λ x, if (0 <=? x) && (x <? TERMINAL_ROW_COUNT * TERMINAL_COL_COUNT) then 0
          else terminal_buffer t x)
    (terminal_make_color TERMINAL_COLOR_WHITE TERMINAL_COLOR_BLACK) 0 0).

Definition terminal_init : M terminal () := terminal_clear.

(** ** Output never fails and stays above row 23 *)

Definition term_ok (t : terminal) : Prop :=
  0 ≤ terminal_row t ≤ 22 ∧ 0 ≤ terminal_column t < 80.

(** The state after some output: cursor in range, colour kept, and the cells of
    rows 23 and above (the command line) untouched. *)
Definition out_ok (t t' : terminal) : Prop :=
  term_ok t' ∧ terminal_color t' = terminal_color t ∧
  ∀ x, 23 * 80 ≤ x → terminal_buffer t' x = terminal_buffer t x.

Lemma out_ok_refl t : term_ok t → out_ok t t.
Proof. intros. split_and!; done || apply H. Qed.

Lemma out_ok_trans t1 t2 t3 : out_ok t1 t2 → out_ok t2 t3 → out_ok t1 t3.
Proof.
  intros (_ & C1 & B1) (O2 & C2 & B2). split_and!; [apply O2..|congruence|].
  intros x Hx. by rewrite B2, B1.
Qed.

Lemma copy_row_cell d r b x :
  copy_row d r b x = if decide (d * 80 ≤ x < (d + 1) * 80) then b (x + (r - d) * 80) else b x.
Proof.
  unfold copy_row, TERMINAL_COL_COUNT.
  destruct (decide _), ((d * 80 <=? x) && _) eqn:E; bools; lia || done.
Qed.

Lemma zero_row_cell r b x :
  zero_row r b x = if decide (r * 80 ≤ x < (r + 1) * 80) then 0 else b x.
Proof.
  unfold zero_row, TERMINAL_COL_COUNT.
  destruct (decide _), ((r * 80 <=? x) && _) eqn:E; bools; lia || done.
Qed.

(** Copying rows upwards one after the other moves every cell up by one row. *)
Lemma copy_rows_cell n b x :
  foldl (λ b' i, copy_row i (i + 1) b') b (zseq 0 n) x =
  if decide (0 ≤ x < Z.of_nat n * 80) then b (x + 80) else b x.
Proof.
  revert x. induction n as [|n IH]; intros x.
  - cbn [zseq foldl]. by destruct (decide _); [lia|].
  - rewrite <- Nat.add_1_r, zseq_app, foldl_app. cbn [zseq foldl].
    rewrite copy_row_cell, !IH.
    repeat destruct (decide _); try lia; try done; f_equal; lia.
Qed.

Lemma scroll_rows_cell row b x :
  1 ≤ row →
  scroll_rows row b x = if decide (0 ≤ x < (row - 1) * 80) then b (x + 80) else b x.
Proof. intros Hrow. unfold scroll_rows. rewrite copy_rows_cell, Z2Nat.id by lia. done. Qed.

Lemma out_ok_intro t t' :
  0 ≤ terminal_row t' ≤ 22 → 0 ≤ terminal_column t' < 80 →
  terminal_color t' = terminal_color t →
  (∀ x, 23 * 80 ≤ x → terminal_buffer t' x = terminal_buffer t x) → out_ok t t'.
Proof. done. Qed.

(** Between the character and the scroll: the cursor may have just entered row 23,
    then at column 0. *)
Definition mid_ok (t t1 : terminal) (cmax : Z) : Prop :=
  (0 ≤ terminal_row t1 ≤ 22 ∧ 0 ≤ terminal_column t1 ≤ cmax ∨
   0 ≤ terminal_row t1 ≤ 23 ∧ terminal_column t1 = 0) ∧
  terminal_color t1 = terminal_color t ∧
  ∀ x, 23 * 80 ≤ x → terminal_buffer t1 x = terminal_buffer t x.

Lemma scroll_ok t t1 : mid_ok t t1 79 → wp scroll (λ _, out_ok t) t1.
Proof.
  intros (Hpos & Hcol & Hbuf). unfold scroll, TERMINAL_ROW_COUNT. wp_step. wp_step. wp_step.
  wp_step; [apply Z.leb_le; lia|].
  destruct (Z.eqb_spec (terminal_row t1) (24 - 1)) as [E|E].
  - wp_step. eapply wp_eq; [done|]. wp_step; [apply Z.eqb_eq; lia|].
    apply out_ok_intro; cbn; try lia.
    intros x Hx. rewrite zero_row_cell, scroll_rows_cell by lia.
    repeat destruct (decide _); try lia. by apply Hbuf.
  - wp_step. apply out_ok_intro; try lia; done.
Qed.

Lemma wrap_scroll_ok t t1 : mid_ok t t1 80 → wp (wrap_column ;; scroll) (λ _, out_ok t) t1.
Proof.
  intros (Hpos & Hcol & Hbuf). wp_step. unfold wrap_column, TERMINAL_COL_COUNT.
  wp_step. wp_step. wp_step. wp_step; [apply Z.leb_le; lia|].
  destruct (Z.eqb_spec (terminal_column t1) 80) as [E|E].
  - eapply wp_eq; [done|]. apply scroll_ok. split_and!; cbn; [lia|done|done].
  - wp_step. apply scroll_ok. split_and!; [lia|done|done].
Qed.

Lemma put_char_ok ch color t : term_ok t → wp (put_char ch color) (λ _, out_ok t) t.
Proof.
  intros [Hr Hc]. unfold put_char. wp_step. wp_step.
  destruct (ch =? 13); [eapply wp_eq; [done|]; apply out_ok_intro; cbn; lia || done|].
  wp_step. destruct (ch =? 10).
  - wp_step. wp_step; [apply Z.ltb_lt; unfold TERMINAL_ROW_COUNT; lia|].
    eapply wp_eq; [done|]. apply wrap_scroll_ok. split_and!; cbn; [lia|done|done].
  - eapply wp_eq; [done|]. apply wrap_scroll_ok. split_and!; cbn; [lia|done|].
    intros x Hx. rewrite fn_lookup_insert_ne; [done|]. unfold TERMINAL_COL_COUNT. lia.
Qed.

(** A sequence of computations that each respect the output contract respects it. *)
Lemma out_ok_for {A} (l : list A) (f : A → M terminal ()) t :
  (∀ a t', term_ok t' → wp (f a) (λ _, out_ok t') t') → term_ok t →
  wp (mfor l f) (λ _, out_ok t) t.
Proof.
  intros Hf Ht. apply (wp_mfor _ _ (λ _ t', out_ok t t')); [by apply out_ok_refl| |done].
  intros dn a rest t' _ Ht'. eapply wp_mono; [apply Hf, Ht'|].
  intros [] t'' Ht''. by eapply out_ok_trans.
Qed.

Lemma terminal_put_ok ch t : term_ok t → wp (terminal_put ch) (λ _, out_ok t) t.
Proof.
  intros Ht. unfold terminal_put, terminal_put_color. wp_step. wp_step.
  destruct (_ =? 9); [|by apply put_char_ok].
  apply out_ok_for; [|done]. intros _ t' Ht'. by apply put_char_ok.
Qed.

Lemma puts_ok l t : term_ok t → wp (puts l) (λ _, out_ok t) t.
Proof. intros Ht. apply out_ok_for; [|done]. intros. by apply terminal_put_ok. Qed.

(** ** [terminal_vprintf] writes the formatted text *)

Lemma mfor_app {S A} (l1 l2 : list A) (f : A → M S ()) s :
  mfor (l1 ++ l2) f s = (mfor l1 f ;; mfor l2 f) s.
Proof.
  revert s. induction l1 as [|a l1 IH]; intros s; [done|].
  cbn [app mfor]. unfold mbind, M_bind in *. destruct (f a s) as [[[] s']|e]; [|done].
  by rewrite IH.
Qed.

Lemma convert_digit_char d base t :
  0 ≤ d < base → base = 2 ∨ base = 10 ∨ base = 16 →
  convert_digit d base t = Ok (digit_char d, t).
Proof.
  intros Hd Hb. unfold convert_digit.
  assert (digit2hex !! Z.to_nat d = Some (digit_char d)) as Hl.
  { assert (Forall (λ d, digit2hex !! Z.to_nat d = Some (digit_char d)) (zseq 0 16)) as Hall
      by (repeat constructor).
    rewrite Forall_forall in Hall. apply Hall, zseq_elem. lia. }
  rewrite Hl. unfold mbind, M_bind, massert. rewrite (proj2 (Z.ltb_lt d base)) by lia. cbn.
  destruct (Z.ltb_spec d 10); [done|]. assert (base = 16) as -> by lia. done.
Qed.

Lemma print_digit_puts fuel n base t :
  base = 2 ∨ base = 10 ∨ base = 16 → 0 ≤ n < base ^ Z.of_nat fuel → (0 < fuel)%nat →
  terminal_print_digit fuel n base t = puts (digits fuel base n) t.
Proof.
  intros Hb. revert n t. induction fuel as [|fuel IH]; intros n t Hn Hf; [lia|].
  cbn [terminal_print_digit digits]. unfold mbind at 1, M_bind at 1, massert at 1.
  assert ((base =? 2) || (base =? 10) || (base =? 16) = true) as Hbb
    by (destruct Hb as [->|[->| ->]]; done).
  rewrite Hbb. cbn [mret M_ret]. destruct (Z.ltb_spec n base) as [Hlt|Hge].
  - unfold mbind, M_bind. rewrite u8_small, convert_digit_char by lia.
    cbn. unfold mbind, M_bind. by destruct (terminal_put _ t) as [[[] ?]|].
  - rewrite Nat2Z.inj_succ, Z.pow_succ_r in Hn by lia.
    destruct fuel as [|fuel]; [change (base ^ Z.of_nat 0) with 1 in Hn; lia|].
    unfold puts. rewrite mfor_app. unfold mbind, M_bind. rewrite IH; [|..|lia].
    2: { split; [apply Z.div_pos; lia|apply Z.div_lt_upper_bound; lia]. }
    unfold puts. destruct (mfor _ _ t) as [[[] t']|]; [|done].
    pose proof (Z.mod_pos_bound n base). rewrite u8_small, convert_digit_char by lia.
    cbn. unfold mbind, M_bind. by destruct (terminal_put _ t') as [[[] ?]|].
Qed.

Lemma print_u_puts n base t :
  base = 2 ∨ base = 10 ∨ base = 16 → 0 ≤ n < 2 ^ 64 →
  terminal_print_digit 64 n base t = puts (show_u base n) t.
Proof.
  intros Hb Hn. apply print_digit_puts; [done| |lia]. split; [lia|].
  apply Z.lt_le_trans with (2 ^ 64); [lia|]. change (Z.of_nat 64) with 64.
  apply Z.pow_le_mono_l. lia.
Qed.


Lemma puts_bind {A} (m : M terminal A) (a : A) (k : A → M terminal ()) l1 l2 t :
  (∀ t, m t = (puts l1 ;; mret a) t) → (∀ t, k a t = puts l2 t) →
  (m ≫= k) t = puts (l1 ++ l2) t.
Proof.
  intros Hm Hk. unfold puts. rewrite mfor_app. unfold mbind, M_bind in *. rewrite Hm.
  unfold puts. destruct (mfor l1 _ t) as [[[] t']|]; [|done]. apply Hk.
Qed.

Lemma puts_one c t : terminal_put c t = puts [c] t.
Proof. cbn. unfold mbind, M_bind. by destruct (terminal_put c t) as [[[] ?]|]. Qed.

Lemma bind_ret_unit (m : M terminal ()) t : (m ≫= λ u, mret u) t = m t.
Proof. unfold mbind, M_bind. by destruct (m t) as [[[] ?]|]. Qed.

Lemma print_signed_puts w z t :
  0 < w ≤ 64 → print_signed w z t = puts (show_i w z) t.
Proof.
  intros Hw. unfold print_signed, show_i. destruct (sext w z <? 0).
  - apply (puts_bind _ () _ [chr "-"]).
    + intros t'. rewrite puts_one. unfold mbind, M_bind. by destruct (puts _ t') as [[[] ?]|].
    + intros t'. apply print_u_puts; [lia|apply u64_range].
  - apply print_u_puts; [lia|apply u64_range].
Qed.

Lemma terminal_put_u8 z t : terminal_put (i8 z) t = terminal_put (u8 z) t.
Proof.
  unfold terminal_put. unfold u8. unfold i8. rewrite sext_mod, Z.mod_mod by lia. done.
Qed.

(** Case analysis on a character compared with literals. *)
Ltac char_cases c :=
  repeat match goal with
  | |- context [c =? ?x] => destruct (Z.eqb_spec c x) as [->|?]; [intros [= <- <-]|]
  end;
  repeat match goal with
  | |- context [chr ?a =? chr ?b] =>
      let v := eval vm_compute in (chr a =? chr b) in change (chr a =? chr b) with v; cbv iota
  end.

Lemma seq_ret {A} (m : M terminal ()) (a : A) l t :
  (∀ t, m t = puts l t) → (m ;; mret a) t = (puts l ;; mret a) t.
Proof. intros H. unfold mbind, M_bind. by rewrite H. Qed.

Lemma puts_app_seq (m : M terminal ()) l1 l2 t :
  (∀ t, m t = puts l2 t) → (puts l1 ;; m) t = puts (l1 ++ l2) t.
Proof. intros H. unfold puts. rewrite mfor_app. unfold mbind, M_bind. destruct (mfor l1 _ t) as [[[] ?]|]; [apply H|done]. Qed.

Lemma bind_assoc_seq {A} (m1 m2 : M terminal ()) (a : A) t :
  (m1 ;; m2 ;; mret a) t = ((m1 ;; m2) ;; mret a) t.
Proof. unfold mbind, M_bind. by destruct (m1 t) as [[[] ?]|]. Qed.

Lemma print_long_puts c ap txt ap' t :
  conv c true ap = Some (txt, ap') → print_long c ap t = (puts txt ;; mret ap') t.
Proof.
  unfold conv, print_long. destruct ap as [|[z|s] ap]; [done| |done]. cbn [negb andb].
  char_cases c; [..|done].
  - apply seq_ret. intros. by apply print_signed_puts.
  - apply seq_ret. intros. apply print_u_puts; [lia|apply u64_range].
  - apply seq_ret. intros. apply print_u_puts; [lia|apply u64_range].
  - etransitivity; [apply bind_assoc_seq|]. apply seq_ret. intros. apply (puts_app_seq _ (codes "0x")).
    intros. apply print_u_puts; [lia|apply u64_range].
Qed.

Lemma print_conv_puts c ap txt ap' t :
  conv c false ap = Some (txt, ap') → c ≠ chr "%" → print_conv c ap t = (puts txt ;; mret ap') t.
Proof.
  intros Hc Hp. unfold print_conv. rewrite (proj2 (Z.eqb_neq c (chr "%"))) by done.
  revert Hc. unfold conv. destruct ap as [|[z|s] ap]; [done| |]; cbn [negb andb].
  - char_cases c; [..|done].
    + apply seq_ret. intros. by apply print_signed_puts.
    + apply seq_ret. intros. apply print_u_puts; [lia|pose proof (Z.mod_pos_bound z (2 ^ 32)); unfold u32; lia].
    + apply seq_ret. intros. apply print_u_puts; [lia|pose proof (Z.mod_pos_bound z (2 ^ 32)); unfold u32; lia].
    + etransitivity; [apply bind_assoc_seq|]. apply seq_ret. intros.
      apply (puts_app_seq _ (codes "0x")). intros. apply print_u_puts; [lia|pose proof (Z.mod_pos_bound z (2 ^ 32)); unfold u32; lia].
    + etransitivity; [apply bind_assoc_seq|]. apply seq_ret. intros.
      apply (puts_app_seq _ (codes "0x")). intros. apply print_u_puts; [lia|apply u64_range].
    + apply seq_ret. intros. rewrite terminal_put_u8. apply puts_one.
  - destruct (Z.eqb_spec c (chr "s")) as [->|?]; [|done]. by intros [= <- <-].
Qed.

Lemma vprintf_puts fmt ap l t :
  format fmt ap = Some l → terminal_vprintf fmt ap t = puts l t.
Proof.
  revert ap l t. induction fmt as [fmt IH] using (induction_ltof1 _ (@length Z)).
  unfold ltof in IH. intros ap l t. destruct fmt as [|c rest]; cbn [format terminal_vprintf].
  { by intros [= <-]. }
  destruct (negb (c =? chr "%")).
  { intros (l' & Hl & ->)%fmap_Some. cbn. unfold mbind, M_bind.
    destruct (terminal_put c t) as [[[] t']|]; [|done]. apply (IH rest); [cbn; lia|done]. }
  destruct rest as [|d rest1]; [done|].
  destruct (Z.eqb_spec d (chr "%")) as [->|Hd].
  { intros (l' & Hl & ->)%fmap_Some. cbn -[chr]. change (chr "%" =? chr "l") with false. cbv iota.
    apply (puts_bind _ ap _ [chr "%"]).
    - intros t'. change (chr "%" =? chr "%") with true. cbv iota. apply seq_ret. intros. apply puts_one.
    - intros t'. apply (IH rest1); [cbn; lia|done]. }
  destruct (d =? chr "l").
  - destruct rest1 as [|e rest2]; [done|].
    destruct (conv e true ap) as [[txt ap']|] eqn:E; [|done].
    intros (l' & Hl & ->)%fmap_Some. apply (puts_bind _ ap').
    + intros t'. by apply print_long_puts.
    + intros t'. apply (IH rest2); [cbn; lia|done].
  - destruct (conv d false ap) as [[txt ap']|] eqn:E; [|done].
    intros (l' & Hl & ->)%fmap_Some. apply (puts_bind _ ap').
    + intros t'. by apply print_conv_puts.
    + intros t'. apply (IH rest1); [cbn; lia|done].
Qed.

(** The terminal is a console. *)
#[global] Instance terminal_console : Console terminal := {
  printf := terminal_printf;
  con_ok := term_ok;
}.

#[global] Instance terminal_console_laws : ConsoleLaws terminal.
Proof.
  constructor. intros fmt ap t Hf Ht. unfold fmt_ok in Hf.
  apply bool_decide_eq_true in Hf as [l Hl].
  unfold wp, printf; cbn [terminal_console]. unfold terminal_printf.
  rewrite (vprintf_puts _ _ l) by done.
  pose proof (puts_ok l t Ht) as H. unfold wp in H. destruct (puts l t) as [[[] t']|]; [|done].
  apply H.
Qed.

End Term.
