(* ===== verification/Map.v ===== *)
(** Physical pages and page tables: kernel/lib/memory/map.c and map.h.

    The state holds physical memory, the array of [struct page] (reference
    counters and list links, indexed by page number), the free list and the
    console the code prints to.  A [struct page *] is the index of the page in
    the array; using an index outside the array is [EUndef].  A [pte_t *] is the
    virtual address of the entry in the kernel's linear map, and is read and
    written through [PADDR].  The same code is built for the kernel and for the
    loader, hence the [bld] field.  [invlpg] is recorded, in order, in [shot]. *)

From Stdlib Require Import String.
From S2P Require Import Prelude Memory Queue Mmu Console.
Import Mmu.

Module Map.

Definition SIZEOF_PAGE64 : Z := 24.

Section map.
Context {T : Type} `{!Console T}.

Record mstate := MState {
  bld : build;
  phys : mem;             (* physical memory *)
  pages : Z;              (* mmap_state->pages: address of the array *)
  pages_cnt : Z;          (* mmap_state->pages_cnt *)
  refs : Z → Z;           (* pages[i].ref *)
  free : Lst.queue;       (* mmap_state->free and pages[i].link *)
  shot : list Z;          (* addresses given to invlpg, latest first *)
  con : T;                (* console *)
}.

Definition set_phys m s := MState (bld s) m (pages s) (pages_cnt s) (refs s) (free s) (shot s) (con s).
Definition set_refs r s := MState (bld s) (phys s) (pages s) (pages_cnt s) r (free s) (shot s) (con s).
Definition set_free q s := MState (bld s) (phys s) (pages s) (pages_cnt s) (refs s) q (shot s) (con s).
Definition set_shot l s := MState (bld s) (phys s) (pages s) (pages_cnt s) (refs s) (free s) l (con s).
Definition set_con c s := MState (bld s) (phys s) (pages s) (pages_cnt s) (refs s) (free s) (shot s) c.

Definition terminal_printf (fmt : string) (ap : list arg) : M mstate () :=
  zoom con set_con (printf fmt ap).

Definition invlpg (va : Z) : M mstate () := modify (λ s, set_shot (va :: shot s) s).

(** [mmap_init]: adopt the array and the free list of a [struct mmap_state]. *)
Definition mmap_init (pgs cnt : Z) (fl : Lst.queue) : M mstate () :=
  modify (λ s, MState (bld s) (phys s) pgs cnt (refs s) fl (shot s) (con s)).

(** Access to a field of [*p]. *)
Definition page_at (p : Z) : M mstate () :=
  s ← get; if (0 <=? p) && (p <? pages_cnt s) then mret () else fail EUndef.

Definition get_ref (p : Z) : M mstate Z := page_at p ;; gets (λ s, refs s p).
Definition set_ref (p v : Z) : M mstate () :=
  page_at p ;; modify (λ s, set_refs (<[p := v]> (refs s)) s).

(** [memset(p, 0, sizeof *p)]. *)
Definition clear_page_struct (p : Z) : M mstate () :=
  page_at p ;;
  modify (λ s, set_refs (<[p := 0]> (refs s)) (set_free (Lst.set_entry p Lst.null_entry (free s)) s)).

Definition page_alloc : M mstate (option Z) :=
  s ← get;
  match Lst.LIST_FIRST (free s) with
  | None => mret None
  | Some p =>
      page_at p ;;
      q ← deref (Lst.LIST_REMOVE p (free s));
      modify (set_free q) ;;
      clear_page_struct p ;;
      mret (Some p)
  end.

Definition page_free (p : Z) : M mstate () :=
  page_at p ;;
  modify (λ s, set_free (Lst.LIST_INSERT_HEAD p (free s)) s) ;;
  r ← get_ref p;
  massert (r =? 0).

Definition page_incref (p : Z) : M mstate () :=
  r ← get_ref p; set_ref p (u32 (r + 1)).

(** The address of [pages[p]]. *)
Definition page_ptr (s : mstate) (p : Z) : Z := u64 (pages s + SIZEOF_PAGE64 * p).

Definition page_decref (p : Z) : M mstate () :=
  r ← get_ref p;
  massert (0 <? r) ;;
  set_ref p (u32 (r - 1)) ;;
  s ← get;
  terminal_printf ("decref page %p, refs: %d" ++ nl) [AInt (page_ptr s p); AInt (u32 (r - 1))] ;;
  r' ← get_ref p;
  if r' =? 0 then page_free p else mret ().

(** [(p - pages) << PAGE_SHIFT] is computed at the width of [ptrdiff_t] and
    converted to uint64_t. *)
Definition page2pa (b : build) (p : Z) : Z := u64 (sext (ptr_bits b) (Z.shiftl p PAGE_SHIFT)).

Definition pa2page (addr : Z) : Z := Z.shiftr (u64 addr) PAGE_SHIFT.

Definition page2kva (b : build) (p : Z) : Z := VADDR b (page2pa b p).

(** Loads and stores through a kernel virtual address. *)
Definition kread (va : Z) : M mstate Z := gets (λ s, rd64 (phys s) (PADDR (bld s) va)).
Definition kwrite (va v : Z) : M mstate () :=
  modify (λ s, set_phys (wr64 (phys s) (PADDR (bld s) va) v) s).
(** [memset(va, 0, n)]. *)
Definition kzero (va n : Z) : M mstate () :=
  modify (λ s, set_phys (mem_fill (phys s) (PADDR (bld s) va) Byte.x00 n) s).

(** One level of [mmap_lookup]: the entry [tbl[idx]], created on demand.  The
    three levels of the source are this block with the names of the level. *)
Definition lookup_level (tbl idx : Z) (create : bool) : M mstate (option Z) :=
  e ← kread (tbl + 8 * idx);
  if has_flag e PML4E_P then mret (Some e)
  else if negb create then mret None
  else
    pg ← page_alloc;
    match pg with
    | None => mret None
    | Some p =>
        s ← get;
        kzero (page2kva (bld s) p) PAGE_SIZE ;;
        set_ref p 1 ;;
        let e' := Z.lor (Z.lor (Z.lor (page2pa (bld s) p) PML4E_P) PML4E_W) PML4E_U in
        kwrite (tbl + 8 * idx) e' ;;
        mret (Some e')
    end.

(** The address of the page-table entry of [va], or NULL. *)
Definition mmap_lookup (pml4 va : Z) (create : bool) : M mstate (option Z) :=
  r1 ← lookup_level pml4 (PML4_IDX va) create;
  match r1 with
  | None => mret None
  | Some pml4e =>
      massert (has_flag pml4e PML4E_P) ;;
      s ← get;
      r2 ← lookup_level (VADDR (bld s) (PML4E_ADDR pml4e)) (PDP_IDX va) create;
      match r2 with
      | None => mret None
      | Some pdpe =>
          massert (has_flag pdpe PML4E_P) ;;
          r3 ← lookup_level (VADDR (bld s) (PDPE_ADDR pdpe)) (PD_IDX va) create;
          match r3 with
          | None => mret None
          | Some pde =>
              massert (has_flag pde PML4E_P) ;;
              mret (Some (VADDR (bld s) (PDE_ADDR pde) + 8 * PT_IDX va))
          end
      end
  end.

(** Returns the page and the value stored through [pte_p]. *)
Definition page_lookup (pml4 va : Z) : M mstate (option Z * option Z) :=
  pte ← mmap_lookup pml4 va false;
  match pte with
  | None => mret (None, None)
  | Some a =>
      e ← kread a;
      if has_flag e PTE_P then mret (Some (pa2page (PTE_ADDR e)), Some a)
      else mret (None, Some a)
  end.

Definition page_remove (pml4 va : Z) : M mstate () :=
  '(p, pte) ← page_lookup pml4 va;
  match p with
  | None => mret ()
  | Some p =>
      page_decref p ;;
      a ← deref pte;
      kwrite a 0 ;;
      invlpg va
  end.

Definition page_insert (pml4 p va perm : Z) : M mstate Z :=
  pte ← mmap_lookup pml4 va true;
  match pte with
  | None => mret (-1)
  | Some a =>
      s ← get;
      e ← kread a;
      let new := Z.lor (Z.lor (page2pa (bld s) p) perm) PTE_P in
      if PTE_ADDR e =? page2pa (bld s) p then
        invlpg va ;;
        kwrite a new ;;
        mret 0
      else
        page_remove pml4 va ;;
        kwrite a new ;;
        page_incref p ;;
        mret 0
  end.

End map.
Arguments mstate : clear implicits.

End Map.
