(* ===== verification/AllocProofs.v ===== *)
(** The page allocator of map.c: each operation as a state transformation, for
    every state whose free list is well formed.  The free list is described by
    the mathematical list of its pages ([alloc_ok]); the equations give the
    whole resulting state, so nothing else changes. *)

From Stdlib Require Import String.
From S2P Require Import Prelude Memory Queue Mmu Console Map.
Import Mmu Map.

Lemma lrep_set_entry x e q l : x ∉ l → Lst.lrep q l → Lst.lrep (Lst.set_entry x e q) l.
Proof.
  intros Hx (Hnd & sl & H). split; [done|]. exists sl. eapply Lst.lseg_ext; [|exact H].
  intros y Hy. cbn. rewrite fn_lookup_insert_ne; [done|]. by intros ->.
Qed.

Section alloc.
Context {T : Type} `{!Console T, !ConsoleLaws T}.
Implicit Types (s : mstate T) (fl : list Z).

Definition in_range s (p : Z) : Prop := 0 ≤ p < pages_cnt s.

(** The free list holds the pages [fl], all of them in the array. *)
Definition alloc_ok s fl : Prop := Lst.lrep (free s) fl ∧ ∀ p, p ∈ fl → in_range s p.

Lemma page_at_ok s p : in_range s p → page_at p s = Ok ((), s).
Proof.
  intros [H1 H2]. unfold page_at, get, mbind, M_bind.
  by rewrite (proj2 (Z.leb_le 0 p)), (proj2 (Z.ltb_lt p _)).
Qed.

Lemma get_ref_ok s p : in_range s p → get_ref p s = Ok (refs s p, s).
Proof. intros H. unfold get_ref, mbind, M_bind. by rewrite page_at_ok. Qed.

Lemma set_ref_ok s p v : in_range s p → set_ref p v s = Ok ((), set_refs (<[p := v]> (refs s)) s).
Proof. intros H. unfold set_ref, mbind, M_bind. by rewrite page_at_ok. Qed.

Lemma page_alloc_none s : alloc_ok s [] → page_alloc s = Ok (None, s).
Proof.
  intros [H _]. unfold page_alloc, get, mbind, M_bind. by rewrite (Lst.lrep_first _ _ H).
Qed.

Lemma page_alloc_some s p fl :
  alloc_ok s (p :: fl) →
  ∃ q, page_alloc s = Ok (Some p, set_refs (<[p := 0]> (refs s)) (set_free q s)) ∧
       Lst.lrep q fl ∧ Lst.ent q p = Lst.null_entry.
Proof.
  intros [H Hin]. pose proof (Lst.lrep_nodup _ _ H) as [Hp _]%NoDup_cons.
  destruct (Lst.remove_rep p _ [] fl H) as (q & Hq & Hrep).
  exists (Lst.set_entry p Lst.null_entry q). split_and!.
  - unfold page_alloc, clear_page_struct, get, mbind, M_bind.
    rewrite (Lst.lrep_first _ _ H). cbn [head]. rewrite page_at_ok by (apply Hin; set_solver).
    rewrite Hq. cbn. rewrite page_at_ok; [done|]. apply Hin. set_solver.
  - by apply lrep_set_entry.
  - cbn. by rewrite fn_lookup_insert.
Qed.

Lemma page_free_ok s p fl :
  alloc_ok s fl → in_range s p → p ∉ fl → refs s p = 0 →
  ∃ q, page_free p s = Ok ((), set_free q s) ∧ Lst.lrep q (p :: fl).
Proof.
  intros [H _] Hp Hnp H0. exists (Lst.LIST_INSERT_HEAD p (free s)). split.
  - unfold page_free, modify, mbind, M_bind. rewrite page_at_ok by done.
    rewrite get_ref_ok by done. cbn. by rewrite H0.
  - by apply Lst.insert_head_rep.
Qed.

Lemma page_incref_ok s p :
  in_range s p → page_incref p s = Ok ((), set_refs (<[p := u32 (refs s p + 1)]> (refs s)) s).
Proof.
  intros H. unfold page_incref, mbind, M_bind. rewrite get_ref_ok by done. by apply set_ref_ok.
Qed.

Lemma printf_zoom s fmt ap :
  fmt_ok fmt ap = true → con_ok (con s) →
  ∃ c, terminal_printf fmt ap s = Ok ((), set_con c s) ∧ con_ok c.
Proof.
  intros Hf Hc. pose proof (printf_ok fmt ap (con s) Hf Hc) as Hw.
  unfold wp in Hw. unfold terminal_printf, zoom.
  destruct (printf fmt ap (con s)) as [[[] c]|]; [|done]. eauto.
Qed.

Lemma page_decref_ok s p fl :
  alloc_ok s fl → in_range s p → p ∉ fl → 0 < refs s p < 2 ^ 32 → con_ok (con s) →
  ∃ q c, page_decref p s =
           Ok ((), set_con c (set_free q (set_refs (<[p := refs s p - 1]> (refs s)) s))) ∧
         con_ok c ∧ Lst.lrep q (if refs s p =? 1 then p :: fl else fl).
Proof.
  intros Hal Hp Hnp Hr Hc. unfold page_decref, get, mbind, M_bind.
  rewrite get_ref_ok by done. rewrite (proj2 (Z.ltb_lt 0 (refs s p))) by lia. cbn [massert mret M_ret].
  rewrite set_ref_ok by done. rewrite u32_small by lia.
  edestruct (printf_zoom (set_refs (<[p:=refs s p - 1]> (refs s)) s)) as (c & -> & Hc');
    [reflexivity|done|].
  rewrite get_ref_ok by done. cbn [refs set_con set_refs]. rewrite fn_lookup_insert.
  destruct (Z.eqb_spec (refs s p) 1) as [E|E].
  - rewrite (proj2 (Z.eqb_eq (refs s p - 1) 0)) by lia.
    destruct (page_free_ok (set_con c (set_refs (<[p:=refs s p - 1]> (refs s)) s)) p fl)
      as (q & -> & Hq); [done|done|done|cbn; rewrite fn_lookup_insert; lia|].
    by exists q, c.
  - rewrite (proj2 (Z.eqb_neq (refs s p - 1) 0)) by lia. exists (free s), c. split_and!; [done..|apply Hal].
Qed.

(** ** Page numbers and addresses *)

(** The linear map covers the pages when their addresses fit in half the pointer range. *)
Definition build_ok s : Prop :=
  12 < ptr_bits (bld s) ≤ 64 ∧ pages_cnt s * 4096 ≤ 2 ^ (ptr_bits (bld s) - 1).

Lemma build_bound s p :
  build_ok s → in_range s p →
  0 ≤ p * 4096 ∧ p * 4096 + 4096 ≤ 2 ^ (ptr_bits (bld s) - 1) ∧
  2 ^ (ptr_bits (bld s) - 1) < 2 ^ ptr_bits (bld s) ∧ 2 ^ (ptr_bits (bld s) - 1) ≤ 2 ^ 63.
Proof.
  intros [Hw Hc] [H1 H2]. split_and!; [lia|lia| |].
  - apply Z.pow_lt_mono_r; lia.
  - apply Z.pow_le_mono_r; lia.
Qed.

Lemma page2pa_ok s p : build_ok s → in_range s p → page2pa (bld s) p = p * 4096.
Proof.
  intros Hb Hp. pose proof (build_bound s p Hb Hp) as (? & ? & ? & ?). destruct Hb as [Hw _].
  unfold page2pa. rewrite Z.shiftl_mul_pow2 by done. change (2 ^ PAGE_SHIFT) with 4096.
  rewrite sext_small by lia. apply u64_small. lia.
Qed.

Lemma PADDR_entry s f i :
  build_ok s → in_range s f → 0 ≤ i < 512 →
  PADDR (bld s) (VADDR (bld s) (f * 4096) + 8 * i) = f * 4096 + 8 * i.
Proof.
  intros Hb Hf Hi. pose proof (build_bound s f Hb Hf) as (? & ? & ? & ?).
  destruct Hb as [? _]. apply PADDR_VADDR_add; lia.
Qed.

Lemma PADDR_page s p :
  build_ok s → in_range s p → PADDR (bld s) (page2kva (bld s) p) = p * 4096.
Proof.
  intros Hb Hp. unfold page2kva. rewrite page2pa_ok by done.
  pose proof (build_bound s p Hb Hp) as (? & ? & ? & ?). destruct Hb as [? _].
  apply PADDR_VADDR; lia.
Qed.

(** [page2pa] and [pa2page] are inverse on the pages of the array. *)
Lemma pa2page_page2pa s p : build_ok s → in_range s p → pa2page (page2pa (bld s) p) = p.
Proof.
  intros Hb Hp. rewrite page2pa_ok by done.
  pose proof (build_bound s p Hb Hp) as (? & ? & ? & ?).
  unfold pa2page, PAGE_SHIFT. rewrite u64_small, Z.shiftr_div_pow2 by lia.
  change (2 ^ 12) with 4096. by rewrite Z.div_mul.
Qed.

End alloc.
