(* ===== verification/Walk.v ===== *)
(** Address translation as the processor performs it.

    [walk] and [translate] are the four-level page walk of AMD64 long mode, on
    page frames and 64-bit entries, and are the specification of map.c: the
    theorems of MapProofs.v say what each operation does to [translate].  The
    file also has the arithmetic of entries and frames, and the label of a page
    table: which address space it belongs to and which indexes lead to it. *)

From S2P Require Import Prelude Memory Mmu.
Import Mmu.

(** Entry [i] of the table in frame [f]. *)
Definition entry_at (m : mem) (f i : Z) : Z := rd64 m (f * 4096 + 8 * i).

Definition present (e : Z) : bool := has_flag e PTE_P.
Definition frame (e : Z) : Z := PTE_ADDR e / 4096.

(** Follow table entries from frame [f]. *)
Fixpoint walk (ent : Z → Z → Z) (f : Z) (path : list Z) : option Z :=
  match path with
  | [] => Some f
  | i :: rest => if present (ent f i) then walk ent (frame (ent f i)) rest else None
  end.

Definition table_path (va : Z) : list Z := [PML4_IDX va; PDP_IDX va; PD_IDX va].
Definition full_path (va : Z) : list Z := table_path va ++ [PT_IDX va].

(** The leaf entry for [va], when every level is present. *)
Definition leaf (ent : Z → Z → Z) (root : Z) (path : list Z) (i : Z) : option Z :=
  f ← walk ent root path;
  if present (ent f i) then Some (ent f i) else None.

Definition translate (m : mem) (root va : Z) : option Z :=
  leaf (entry_at m) root (table_path va) (PT_IDX va).

(** ** Entries *)

Lemma present_bit e : present e = Z.testbit e 0.
Proof. apply (has_flag_bit e 0). done. Qed.

Lemma frame_alt e : 0 ≤ e < 2 ^ 64 → frame e = e / 4096.
Proof.
  intros He. unfold frame. rewrite PTE_ADDR_alt, u64_small, Z.div_mul by lia. done.
Qed.

Lemma PTE_ADDR_frame e : PTE_ADDR e = frame e * 4096.
Proof. unfold frame. rewrite PTE_ADDR_alt, Z.div_mul by lia. done. Qed.

(** An entry made of a frame address and flag bits. *)
Lemma mk_entry p flags :
  0 ≤ p → p * 4096 < 2 ^ 63 → 0 ≤ flags < 4096 →
  Z.lor (p * 4096) flags = p * 4096 + flags.
Proof.
  intros Hp Hp2 Hf. change 4096 with (2 ^ 12). rewrite <- Z.shiftl_mul_pow2 by done.
  rewrite lor_add_disjoint by done. by rewrite Z.shiftl_mul_pow2.
Qed.

Lemma frame_mk p flags :
  0 ≤ p → p * 4096 < 2 ^ 63 → 0 ≤ flags < 4096 → frame (p * 4096 + flags) = p.
Proof. intros. rewrite frame_alt by lia. apply div_add_small; lia. Qed.

Lemma present_mk p flags : Z.testbit flags 0 = true → present (p * 4096 + flags) = true.
Proof.
  intros Hf. rewrite present_bit. rewrite Z.bit0_odd in *.
  rewrite Z.odd_add, Hf, Z.odd_mul. change (Z.odd 4096) with false. by rewrite andb_false_r.
Qed.

Lemma present_0 : present 0 = false.
Proof. done. Qed.

(** ** Writing entries *)

Lemma entry_range m f i : 0 ≤ entry_at m f i < 2 ^ 64.
Proof. apply rd64_range. Qed.

Lemma entry_wr_eq m f i v : entry_at (wr64 m (f * 4096 + 8 * i) v) f i = u64 v.
Proof. apply rd64_wr64_eq. Qed.

Lemma entry_wr_ne m f i g j v :
  0 ≤ i < 512 → 0 ≤ j < 512 → (f, i) ≠ (g, j) →
  entry_at (wr64 m (f * 4096 + 8 * i) v) g j = entry_at m g j.
Proof.
  intros Hi Hj Hne. apply rd64_wr64_ne.
  assert (f ≠ g ∨ i ≠ j) as [?|?]; [|lia..].
  destruct (decide (f = g)); [right|by left]. congruence.
Qed.

Lemma entry_zero_in m f i :
  0 ≤ i < 512 → entry_at (mem_fill m (f * 4096) Byte.x00 4096) f i = 0.
Proof. intros Hi. apply rd64_fill_zero; lia. Qed.

Lemma entry_zero_out m f g i :
  0 ≤ i < 512 → f ≠ g → entry_at (mem_fill m (f * 4096) Byte.x00 4096) g i = entry_at m g i.
Proof. intros Hi Hne. apply rd64_fill_out. lia. Qed.

Lemma table_path_ok va : Forall (λ i, 0 ≤ i < 512) (table_path va).
Proof.
  unfold table_path. rewrite !Forall_cons.
  auto using PML4_IDX_range, PDP_IDX_range, PD_IDX_range.
Qed.

(** ** Walks *)

(** Translation depends on the table indexes only. *)
Lemma translate_full (m : mem) x va va' : full_path va = full_path va' → translate m x va = translate m x va'.
Proof.
  unfold full_path, table_path. cbn [app]. intros [= E1 E2 E3 E4]. unfold translate, table_path. by rewrite E1, E2, E3, E4.
Qed.

Lemma walk_app ent f p1 p2 :
  walk ent f (p1 ++ p2) = g ← walk ent f p1; walk ent g p2.
Proof.
  revert f. induction p1 as [|i p1 IH]; intros f; [done|]. cbn [app walk].
  destruct (present _); [apply IH|done].
Qed.

(** ** Labels *)

(** The owner is the frame of the root table; [l_path] the indexes from it. *)
Record label := Lab { l_owner : Z; l_path : list Z }.

#[global] Instance label_eq_dec : EqDecision label.
Proof. solve_decision. Defined.

(** The first PML4 slot that [task_new] shares with the kernel. *)
Definition KIDX : Z := PML4_IDX USER_TOP.

Lemma KIDX_val : KIDX = 2.
Proof. done. Qed.

(** The label of the table an entry leads to: a shared slot of any root leads
    into the kernel's tree, rooted at frame [K]. *)
Definition child (K : Z) (lab : label) (i : Z) : label :=
  if bool_decide (l_path lab = []) && (KIDX <=? i) then Lab K [i]
  else Lab (l_owner lab) (l_path lab ++ [i]).

Definition descend (K : Z) (lab : label) (path : list Z) : label := foldl (child K) lab path.

Lemma child_path K lab i : l_path (child K lab i) = l_path lab ++ [i].
Proof.
  unfold child. case_bool_decide as E; cbn; [|done]. rewrite E. by destruct (KIDX <=? i).
Qed.

Lemma child_kernel K lab i : l_owner lab = K → l_owner (child K lab i) = K.
Proof. intros H. unfold child. by destruct (_ && _). Qed.

Lemma descend_path K lab path : l_path (descend K lab path) = l_path lab ++ path.
Proof.
  unfold descend. revert lab. induction path as [|i path IH]; intros lab; cbn [foldl].
  - by rewrite app_nil_r.
  - rewrite IH, child_path, <- app_assoc. done.
Qed.

(** A user-space path stays in the address space it starts in. *)
Lemma descend_user K o i rest :
  i < KIDX → descend K (Lab o []) (i :: rest) = Lab o (i :: rest).
Proof.
  intros Hi. cbn. unfold child at 2. cbn. rewrite (proj2 (Z.leb_gt KIDX i)) by done.
  assert (∀ p q, p ≠ [] → foldl (child K) (Lab o p) q = Lab o (p ++ q)) as H.
  { intros p q. revert p. induction q as [|j q IH]; intros p Hp; cbn.
    - by rewrite app_nil_r.
    - unfold child at 2. cbn. rewrite bool_decide_false by done. cbn.
      rewrite IH by (by destruct p). by rewrite <- app_assoc. }
  by rewrite H.
Qed.
