(* ===== verification/MapWf.v ===== *)
(** The invariant of the page tables and reference counters.

    A ghost state labels the frames that hold page tables (owner and index
    path), lists the free pages and gives, for every other page, the number of
    references held by someone else than a user page table ([pins]).  [wf] says
    that the tables reachable from any root form a tree (every present entry of
    a table leads to the table with the child label, labels are unique), that a
    page mapped in user space is neither free nor a page table, and that a
    page's counter is exactly the number of user entries that map it plus its
    pins.  [K] is the frame of the kernel's PML4. *)

From S2P Require Import Prelude Memory Queue Mmu Console Map AllocProofs Walk.
Import Mmu Map.

Record ghost := Ghost { lab : Z → option label; fl : list Z; pins : Z → Z }.

(** All entry positions of all frames. *)
Definition cells (cnt : Z) : list (Z * Z) :=
  zseq 0 (Z.to_nat cnt) ≫= λ f, pair f <$> zseq 0 512.

Lemma cells_elem cnt f i : (f, i) ∈ cells cnt ↔ 0 ≤ f < cnt ∧ 0 ≤ i < 512.
Proof.
  unfold cells. rewrite list_elem_of_bind. setoid_rewrite list_elem_of_fmap.
  setoid_rewrite zseq_elem. split.
  - intros (f' & (i' & [= -> ->] & ?) & ?). lia.
  - intros [? ?]. exists f. split; [|lia]. exists i. split; [done|]. change (Z.of_nat 512) with 512. lia.
Qed.

Lemma cells_NoDup cnt : NoDup (cells cnt).
Proof.
  unfold cells. apply NoDup_bind; [| |apply zseq_NoDup].
  - intros f1 f2 [f i] _ _ H1 H2.
    apply list_elem_of_fmap in H1 as (? & [= -> _] & _).
    by apply list_elem_of_fmap in H2 as (? & [= -> _] & _).
  - intros f _. apply NoDup_fmap; [|apply zseq_NoDup]. by intros i j [= ->].
Qed.

Section wf.
Context {T : Type} `{!Console T} (K : Z).
Implicit Types (s : mstate T) (g : ghost).

(** A last-level table of a user address space. *)
Definition uleaf g (f : Z) : bool :=
  match lab g f with
  | Some l => bool_decide (length (l_path l) = 3%nat) && negb (l_owner l =? K)
  | None => false
  end.

Definition refers (m : mem) g (d : Z) (c : Z * Z) : Z :=
  let e := entry_at m c.1 c.2 in
  if uleaf g c.1 && present e && (frame e =? d) then 1 else 0.

(** The number of user entries that map page [d]. *)
Definition ucount (m : mem) g (cnt d : Z) : Z := zsum (refers m g d) (cells cnt).

Record wf s g : Prop := {
  wf_build : build_ok s;
  wf_alloc : alloc_ok s (fl g);
  wf_con : con_ok (con s);
  wf_free p : p ∈ fl g → lab g p = None ∧ pins g p = 0;
  wf_lab f l : lab g f = Some l →
    in_range s f ∧ (length (l_path l) ≤ 3)%nat ∧ refs s f = 1;
  wf_tpin f l : lab g f = Some l → pins g f = 0;
  wf_root f o : lab g f = Some (Lab o []) → f = o;
  wf_inj f1 f2 l : lab g f1 = Some l → lab g f2 = Some l → f1 = f2;
  wf_edge f l i : lab g f = Some l → (length (l_path l) < 3)%nat → 0 ≤ i < 512 →
    present (entry_at (phys s) f i) = true →
    lab g (frame (entry_at (phys s) f i)) = Some (child K l i);
  wf_back f o q i : lab g f = Some (Lab o (q ++ [i])) →
    0 ≤ i < 512 ∧ ∃ f', lab g f' = Some (Lab o q) ∧
      present (entry_at (phys s) f' i) = true ∧ frame (entry_at (phys s) f' i) = f;
  wf_leaf f i : uleaf g f = true → 0 ≤ i < 512 →
    if present (entry_at (phys s) f i)
    then let d := frame (entry_at (phys s) f i) in in_range s d ∧ d ∉ fl g ∧ lab g d = None
    else entry_at (phys s) f i = 0;
  wf_refs d : in_range s d → d ∉ fl g → lab g d = None →
    refs s d = ucount (phys s) g (pages_cnt s) d + pins g d ∧ 0 ≤ pins g d ∧ refs s d < 2 ^ 32;
}.

Lemma refers_nonneg m g d c : 0 ≤ refers m g d c.
Proof. unfold refers. destruct (_ && _); lia. Qed.

Lemma ucount_nonneg m g cnt d : 0 ≤ ucount m g cnt d.
Proof. apply zsum_nonneg. intros. apply refers_nonneg. Qed.

(** A mapped page is counted. *)
Lemma ucount_pos m g cnt f i d :
  0 ≤ f < cnt → 0 ≤ i < 512 → uleaf g f = true → present (entry_at m f i) = true →
  frame (entry_at m f i) = d → 1 ≤ ucount m g cnt d.
Proof.
  intros Hf Hi Hu Hp Hd.
  etransitivity; [|apply (zsum_ge _ _ (f, i))].
  - unfold refers. cbn. rewrite Hu, Hp, Hd, Z.eqb_refl. done.
  - intros. apply refers_nonneg.
  - by apply cells_elem.
Qed.

Lemma uleaf_lab g f : uleaf g f = true → ∃ l, lab g f = Some l ∧ length (l_path l) = 3%nat ∧ l_owner l ≠ K.
Proof.
  unfold uleaf. destruct (lab g f) as [l|]; [|done]. intros [H1 H2]%andb_prop.
  apply bool_decide_eq_true in H1. apply negb_true_iff, Z.eqb_neq in H2. eauto.
Qed.

Lemma uleaf_intro g f l :
  lab g f = Some l → length (l_path l) = 3%nat → l_owner l ≠ K → uleaf g f = true.
Proof.
  intros H0 H1 H2. unfold uleaf. rewrite H0.
  rewrite bool_decide_true by done. by apply Z.eqb_neq in H2 as ->.
Qed.

(** Free pages and page tables are mapped nowhere in user space. *)
Lemma ucount_zero s g d :
  wf s g → (d ∈ fl g ∨ lab g d ≠ None) → ucount (phys s) g (pages_cnt s) d = 0.
Proof.
  intros W Hd. apply zsum_zero. intros [f i] [Hf Hi]%cells_elem. unfold refers. cbn [fst snd].
  destruct (uleaf g f) eqn:Hu; [|done]. pose proof (wf_leaf _ _ W f i Hu Hi) as Hl.
  destruct (present _); [|done]. cbn [andb]. destruct (Z.eqb_spec (frame (entry_at (phys s) f i)) d) as [E|]; [|done].
  cbn zeta in Hl. rewrite E in Hl. destruct Hl as (_ & ? & ?), Hd; congruence || done.
Qed.

(** Every frame on a walk from a labelled table carries the label of its path. *)
Lemma walk_label s g f l path f' :
  wf s g → lab g f = Some l → (length (l_path l) + length path ≤ 3)%nat →
  Forall (λ i, 0 ≤ i < 512) path →
  walk (entry_at (phys s)) f path = Some f' → lab g f' = Some (descend K l path).
Proof.
  intros W. revert f l. induction path as [|i path IH]; intros f l Hl Hlen Hp; cbn [walk length].
  - by intros [= <-].
  - apply Forall_cons in Hp as [Hi Hp]. destruct (present _) eqn:E; [|done]. intros Hw.
    refine (IH _ (child K l i) _ _ Hp Hw); [|rewrite child_path, length_app; cbn in *; lia].
    apply (wf_edge _ _ W); [done|cbn in Hlen; lia|done|done].
Qed.

(** The invariant does not depend on the record of TLB invalidations, *)
Lemma wf_shot s g l : wf s g → wf (set_shot l s) g.
Proof. intros []. by constructor. Qed.

(** and of memory only on the entries of the page tables. *)
Lemma ucount_ext m m' g cnt d :
  (∀ f l i, lab g f = Some l → 0 ≤ i < 512 → entry_at m' f i = entry_at m f i) →
  ucount m' g cnt d = ucount m g cnt d.
Proof.
  intros He. apply zsum_ext. intros [f i] [_ Hi]%cells_elem. unfold refers. cbn [fst snd].
  destruct (uleaf g f) eqn:Hu; [|done]. destruct (uleaf_lab g f Hu) as (l & Hl & _). by rewrite (He f l i).
Qed.

Lemma wf_phys s g m :
  wf s g → (∀ f l i, lab g f = Some l → 0 ≤ i < 512 → entry_at m f i = entry_at (phys s) f i) →
  wf (set_phys m s) g.
Proof.
  intros W He. destruct W as [W1 W2 W3 W4 W5 W6 W7 W8 W9 W10 W11 W12]. constructor; cbn [phys set_phys]; try done.
  - intros f l i Hl Hlen Hi. rewrite (He f l i) by done. by apply W9.
  - intros f o q i Hl. destruct (W10 f o q i Hl) as (Hi & f' & Hl' & Hp). split; [done|].
    exists f'. split; [done|]. by rewrite (He f' _ i Hl' Hi).
  - intros f i Hu Hi. destruct (uleaf_lab g f Hu) as (l & Hl & _). rewrite (He f l i) by done. by apply W11.
  - intros d Hd Hn Hl. rewrite (ucount_ext (phys s)) by done. by apply W12.
Qed.

Lemma leaf_cons ent f i path j :
  leaf ent f (i :: path) j = if present (ent f i) then leaf ent (frame (ent f i)) path j else None.
Proof. unfold leaf. cbn. by destruct (present (ent f i)). Qed.

End wf.
