(* ===== verification/LookupProofs.v ===== *)
(** [mmap_lookup]: creating the missing tables of an address keeps the
    invariant and changes no translation.

    [ext] relates the states before and after: the tables already there keep
    their labels, the pages taken from the free list become tables, counters
    and contents of all other pages are untouched, and every address of every
    address space translates as before. *)

From S2P Require Import Prelude Memory Queue Mmu Console Map AllocProofs Walk MapWf.
Import Mmu Map.

Section lookup.
Context {T : Type} `{!Console T, !ConsoleLaws T} (K : Z).
Implicit Types (s : mstate T) (g : ghost).

Record ext s g s' g' : Prop := {
  ext_wf : wf K s' g';
  ext_bld : bld s' = bld s;
  ext_cnt : pages_cnt s' = pages_cnt s;
  ext_lab f l : lab g f = Some l → lab g' f = Some l;
  ext_fl : ∃ new, fl g = new ++ fl g';
  ext_none p : lab g p = None → p ∉ fl g → lab g' p = None;
  ext_refs d : d ∉ fl g → refs s' d = refs s d;
  ext_pins : pins g' = pins g;
  ext_ent f l i : lab g f = Some l → 0 ≤ i < 512 →
    (length (l_path l) = 3%nat ∨ present (entry_at (phys s) f i) = true) →
    entry_at (phys s') f i = entry_at (phys s) f i;
  ext_mem x : lab g (x / 4096) = None → x / 4096 ∉ fl g → phys s' x = phys s x;
  ext_tr r o va : lab g r = Some (Lab o []) →
    translate (phys s') r va = translate (phys s) r va;
  (** an entry only changes from absent to a table of its own tree *)
  ext_keep f l i : lab g f = Some l → 0 ≤ i < 512 →
    entry_at (phys s') f i = entry_at (phys s) f i ∨
    present (entry_at (phys s) f i) = false ∧ present (entry_at (phys s') f i) = true ∧
    lab g' (frame (entry_at (phys s') f i)) = Some (Lab (l_owner l) (l_path l ++ [i]));
  (** the pages that are still free were not touched *)
  ext_frefs d : d ∈ fl g' → refs s' d = refs s d;
  (** and the others hold tables *)
  ext_used d : d ∈ fl g → d ∉ fl g' → is_Some (lab g' d);
}.

Lemma ext_refl s g : wf K s g → ext s g s g.
Proof. intros W. constructor; auto; [by exists []|]. by intros d ? ?. Qed.

Lemma ext_trans s1 g1 s2 g2 s3 g3 : ext s1 g1 s2 g2 → ext s2 g2 s3 g3 → ext s1 g1 s3 g3.
Proof.
  intros E1 E2. destruct (ext_fl _ _ _ _ E1) as [n1 F1], (ext_fl _ _ _ _ E2) as [n2 F2].
  assert (∀ d, d ∉ fl g1 → d ∉ fl g2) as Hfl by (intros d; rewrite F1; set_solver).
  constructor.
  - apply (ext_wf _ _ _ _ E2).
  - rewrite (ext_bld _ _ _ _ E2). apply (ext_bld _ _ _ _ E1).
  - rewrite (ext_cnt _ _ _ _ E2). apply (ext_cnt _ _ _ _ E1).
  - intros f l Hf. by apply (ext_lab _ _ _ _ E2), (ext_lab _ _ _ _ E1).
  - exists (n1 ++ n2). by rewrite F1, F2, app_assoc.
  - intros p Hp Hn. apply (ext_none _ _ _ _ E2); [by apply (ext_none _ _ _ _ E1)|auto].
  - intros d Hd. rewrite (ext_refs _ _ _ _ E2 d) by auto. by apply (ext_refs _ _ _ _ E1).
  - rewrite (ext_pins _ _ _ _ E2). apply (ext_pins _ _ _ _ E1).
  - intros f l i Hf Hi Hc. pose proof (ext_lab _ _ _ _ E1 f l Hf) as Hf2.
    pose proof (ext_ent _ _ _ _ E1 f l i Hf Hi Hc) as He.
    rewrite (ext_ent _ _ _ _ E2 f l i Hf2 Hi); [done|]. by rewrite He.
  - intros x Hx Hn. rewrite (ext_mem _ _ _ _ E2 x); [by apply (ext_mem _ _ _ _ E1)| |auto].
    by apply (ext_none _ _ _ _ E1).
  - intros r o va Hr. rewrite (ext_tr _ _ _ _ E2 r o); [by apply (ext_tr _ _ _ _ E1 r o)|].
    by apply (ext_lab _ _ _ _ E1).
  - intros f l i Hf Hi. pose proof (ext_lab _ _ _ _ E1 f l Hf) as Hf2.
    destruct (ext_keep _ _ _ _ E1 f l i Hf Hi) as [He|(Ha & Hp & Hl)].
    + rewrite <- He. by apply (ext_keep _ _ _ _ E2).
    + right. rewrite (ext_ent _ _ _ _ E2 f l i Hf2 Hi) by (by right).
      split_and!; [done..|]. by apply (ext_lab _ _ _ _ E2).
  - intros d Hd. rewrite (ext_frefs _ _ _ _ E2 d Hd). apply (ext_frefs _ _ _ _ E1). rewrite F2. set_solver.
  - intros d Hd Hn. destruct (decide (d ∈ fl g2)) as [Hin|Hin]; [by apply (ext_used _ _ _ _ E2)|].
    destruct (ext_used _ _ _ _ E1 d Hd Hin) as [l Hl]. exists l. by apply (ext_lab _ _ _ _ E2).
Qed.

(** ** Adding one table *)

Section grow.
Context s g (f i p : Z) (l : label) (fl' : list Z) (q : Lst.queue)
  (r : Z → Z).
Hypothesis W : wf K s g.
Hypothesis Hl : lab g f = Some l.
Hypothesis Hlen : (length (l_path l) < 3)%nat.
Hypothesis Hi : 0 ≤ i < 512.
Hypothesis Hnp : present (entry_at (phys s) f i) = false.
Hypothesis Hown : child K l i = Lab (l_owner l) (l_path l ++ [i]).
Hypothesis Hfl : fl g = p :: fl'.
Hypothesis Hq : Lst.lrep q fl'.
Hypothesis Hr : ∀ d, r d = if decide (p = d) then 1 else refs s d.

Definition grow_phys : mem :=
  wr64 (mem_fill (phys s) (p * 4096) Byte.x00 4096) (f * 4096 + 8 * i) (p * 4096 + 7).
Definition grow_state : mstate T :=
  set_phys grow_phys (set_refs r (set_free q s)).
Definition grow_ghost : ghost := Ghost (<[p := Some (child K l i)]> (lab g)) fl' (pins g).

Lemma grow_p : in_range s p ∧ lab g p = None ∧ p ∉ fl' ∧ p ≠ f.
Proof.
  destruct (wf_alloc _ _ _ W) as [Hrep Hin]. rewrite Hfl in *.
  apply Lst.lrep_nodup, NoDup_cons in Hrep as [Hp _].
  destruct (wf_free _ _ _ W p) as [Hlp _]; [rewrite Hfl; set_solver|].
  split_and!; [apply Hin; set_solver|done|done|]. intros ->. congruence.
Qed.

Lemma grow_range : 0 ≤ p ∧ p * 4096 < 2 ^ 63.
Proof.
  destruct grow_p as [Hp _]. destruct (build_bound s p) as (? & ? & ? & ?); [apply W|done|]. lia.
Qed.

Lemma grow_entry_new : entry_at grow_phys f i = p * 4096 + 7.
Proof.
  unfold grow_phys. rewrite entry_wr_eq. pose proof grow_range. apply u64_small. lia.
Qed.

Lemma grow_entry_p j : 0 ≤ j < 512 → entry_at grow_phys p j = 0.
Proof.
  intros Hj. destruct grow_p as (_ & _ & _ & Hpf). unfold grow_phys.
  rewrite entry_wr_ne by (done || congruence). by apply entry_zero_in.
Qed.

Lemma grow_entry_old f' j :
  0 ≤ j < 512 → f' ≠ p → (f', j) ≠ (f, i) → entry_at grow_phys f' j = entry_at (phys s) f' j.
Proof.
  intros Hj Hf' Hne. unfold grow_phys. rewrite entry_wr_ne by (done || congruence).
  by apply entry_zero_out.
Qed.

Lemma grow_frame : frame (p * 4096 + 7) = p ∧ present (p * 4096 + 7) = true.
Proof.
  pose proof grow_range. split; [apply frame_mk; lia|by apply present_mk].
Qed.

Lemma grow_lab f' l' : lab g f' = Some l' → lab grow_ghost f' = Some l' ∧ f' ≠ p.
Proof.
  intros Hf'. destruct grow_p as (_ & Hp & _). assert (f' ≠ p) by congruence.
  cbn. rewrite fn_lookup_insert_ne by done. done.
Qed.

(** The label of the new table was not in use. *)
Lemma grow_fresh f' : lab g f' ≠ Some (child K l i).
Proof.
  intros Hf'. rewrite Hown in Hf'.
  destruct (wf_back _ _ _ W _ _ _ _ Hf') as (_ & f'' & Hf'' & Hp & _).
  assert (f'' = f) as ->; [|congruence]. eapply (wf_inj _ _ _ W); [done|].
  rewrite Hl. f_equal. by destruct l.
Qed.

Lemma grow_uleaf f' : f' ≠ p → uleaf K grow_ghost f' = uleaf K g f'.
Proof. intros Hf'. unfold uleaf. cbn. by rewrite fn_lookup_insert_ne by done. Qed.

Lemma uleaf_not_f : uleaf K g f = false.
Proof.
  unfold uleaf. rewrite Hl. rewrite bool_decide_false by lia. done.
Qed.

Lemma grow_ucount d :
  ucount K grow_phys grow_ghost (pages_cnt s) d = ucount K (phys s) g (pages_cnt s) d.
Proof.
  apply zsum_ext. intros [f' j] [Hf' Hj]%cells_elem. unfold refers. cbn [fst snd].
  destruct (decide (f' = p)) as [->|Hne].
  - rewrite grow_entry_p, present_0, andb_false_r by done.
    assert (uleaf K g p = false) as ->; [|done].
    unfold uleaf. destruct grow_p as (_ & -> & _). done.
  - rewrite grow_uleaf by done. destruct (uleaf K g f') eqn:Hu; [|done].
    rewrite grow_entry_old; [done|done|done|]. intros [= -> _]. rewrite uleaf_not_f in Hu. done.
Qed.

Lemma grow_edges f' l' j :
  lab grow_ghost f' = Some l' → (length (l_path l') < 3)%nat → 0 ≤ j < 512 →
  present (entry_at grow_phys f' j) = true →
  lab grow_ghost (frame (entry_at grow_phys f' j)) = Some (child K l' j).
Proof.
  intros Hf' Hl' Hj Hp. destruct (decide (f' = p)) as [->|Hne].
  { by rewrite grow_entry_p, present_0 in Hp. }
  cbn in Hf'. rewrite fn_lookup_insert_ne in Hf' by done.
  destruct (decide ((f', j) = (f, i))) as [[= -> ->]|Hc].
  - rewrite grow_entry_new, (proj1 grow_frame). cbn. rewrite fn_lookup_insert. congruence.
  - rewrite grow_entry_old in * by done. apply grow_lab. by apply (wf_edge _ _ _ W).
Qed.

Lemma grow_backs f' o q0 j :
  lab grow_ghost f' = Some (Lab o (q0 ++ [j])) →
  0 ≤ j < 512 ∧ ∃ f'', lab grow_ghost f'' = Some (Lab o q0) ∧
    present (entry_at grow_phys f'' j) = true ∧ frame (entry_at grow_phys f'' j) = f'.
Proof.
  cbn. rewrite fn_insert_dec. destruct (decide (p = f')) as [<-|Hne].
  - rewrite Hown. intros [= <- [Hq0 <-]%app_inj_tail]. split; [done|]. exists f.
    rewrite grow_entry_new. destruct grow_frame as [-> ->]. split_and!; try done.
    subst q0. rewrite fn_lookup_insert_ne by apply grow_p. rewrite Hl. by destruct l.
  - intros Hf'. destruct (wf_back _ _ _ W _ _ _ _ Hf') as (Hj & f'' & Hf'' & Hp & Hfr).
    split; [done|]. exists f''. destruct (grow_lab _ _ Hf'') as [Hf2 Hn]. cbn in Hf2.
    rewrite grow_entry_old; [done|done|done|]. intros [= -> ->]. congruence.
Qed.

Lemma grow_leaves f' j :
  uleaf K grow_ghost f' = true → 0 ≤ j < 512 →
  if present (entry_at grow_phys f' j)
  then let d := frame (entry_at grow_phys f' j) in
       in_range s d ∧ d ∉ fl' ∧ lab grow_ghost d = None
  else entry_at grow_phys f' j = 0.
Proof.
  intros Hu Hj. destruct (decide (f' = p)) as [->|Hne].
  { by rewrite grow_entry_p, present_0. }
  rewrite grow_uleaf in Hu by done. rewrite grow_entry_old; [|done|done|].
  2: { intros [= -> _]. rewrite uleaf_not_f in Hu. done. }
  pose proof (wf_leaf _ _ _ W f' j Hu Hj) as H. rewrite Hfl in H.
  destruct (present (entry_at (phys s) f' j)); [|exact H]. destruct H as (? & Hn & ?).
  split_and!; [done|set_solver|]. cbn. rewrite fn_lookup_insert_ne; [done|set_solver].
Qed.

Lemma grow_wf : wf K grow_state grow_ghost.
Proof.
  destruct grow_p as (Hpr & Hpl & Hpn & Hpf). constructor; cbn [lab fl pins grow_ghost].
  - apply W.
  - split; [done|]. intros x Hx. apply (wf_alloc _ _ _ W). rewrite Hfl. set_solver.
  - apply W.
  - intros x Hx. rewrite fn_lookup_insert_ne by (by intros ->).
    apply (wf_free _ _ _ W). rewrite Hfl. set_solver.
  - intros f' l'. cbn. rewrite fn_insert_dec, Hr. destruct (decide (p = f')) as [<-|].
    + intros [= <-]. rewrite child_path, length_app. cbn. split_and!; [done..|lia|done].
    + intros Hf'. by apply (wf_lab _ _ _ W).
  - intros f' l'. rewrite fn_insert_dec. destruct (decide (p = f')) as [<-|].
    + intros _. apply (wf_free _ _ _ W). rewrite Hfl. set_solver.
    + apply (wf_tpin _ _ _ W).
  - intros f' o. rewrite fn_insert_dec. destruct (decide (p = f')) as [<-|]; [|apply (wf_root _ _ _ W)].
    intros [= E]. apply (f_equal l_path) in E. rewrite child_path in E. by destruct (l_path l).
  - intros f1 f2 l'. rewrite !fn_insert_dec.
    destruct (decide (p = f1)) as [<-|], (decide (p = f2)) as [<-|]; [done| | |apply W].
    + intros [= <-] H2. by apply grow_fresh in H2.
    + intros H1 [= <-]. by apply grow_fresh in H1.
  - apply grow_edges.
  - apply grow_backs.
  - apply grow_leaves.
  - intros d Hd Hn. cbn. rewrite fn_insert_dec, Hr. destruct (decide (p = d)) as [|Hpd]; [done|].
    intros Hld. rewrite grow_ucount. apply (wf_refs _ _ _ W); [done| |done].
    rewrite Hfl. set_solver.
Qed.

Lemma leaf_zero ent f0 path j :
  (∀ k, 0 ≤ k < 512 → ent f0 k = 0) → Forall (λ k, 0 ≤ k < 512) (path ++ [j]) →
  leaf ent f0 path j = None.
Proof.
  intros H0 Hp. destruct path as [|k path]; cbn [app] in Hp; apply Forall_cons in Hp as [Hk _].
  - unfold leaf. cbn. by rewrite H0.
  - by rewrite leaf_cons, H0.
Qed.

Lemma grow_leaf f0 l0 path j :
  lab g f0 = Some l0 → (length (l_path l0) + length path = 3)%nat →
  Forall (λ k, 0 ≤ k < 512) (path ++ [j]) →
  leaf (entry_at grow_phys) f0 path j = leaf (entry_at (phys s)) f0 path j.
Proof.
  revert f0 l0. induction path as [|k path IH]; intros f0 l0 Hl0 Hlen0 Hp.
  - unfold leaf. cbn. cbn [app] in Hp. apply Forall_cons in Hp as [Hj _]. cbn in Hlen0.
    rewrite grow_entry_old; [done|done|by apply (grow_lab _ _ Hl0)|].
    intros [= -> _]. assert (l0 = l) as -> by congruence. lia.
  - rewrite !leaf_cons. cbn [app] in Hp. apply Forall_cons in Hp as [Hk Hp]. cbn in Hlen0.
    destruct (decide ((f0, k) = (f, i))) as [[= -> ->]|Hc].
    + rewrite grow_entry_new, Hnp. destruct grow_frame as [-> ->].
      apply leaf_zero; [apply grow_entry_p|done].
    + rewrite grow_entry_old; [|done|by apply (grow_lab _ _ Hl0)|done].
      destruct (present (entry_at (phys s) f0 k)) eqn:E; [|done].
      apply (IH _ (child K l0 k)); [|rewrite child_path, length_app; cbn; lia|done].
      apply (wf_edge _ _ _ W); [done|lia|done|done].
Qed.

Lemma grow_ext : ext s g grow_state grow_ghost.
Proof.
  destruct grow_p as (Hpr & Hpl & Hpn & Hpf). constructor;
    cbn [lab fl pins grow_ghost phys refs bld pages_cnt grow_state set_phys set_refs set_free].
  - apply grow_wf.
  - done.
  - done.
  - intros f' l' Hf'. by apply (grow_lab f' l' Hf').
  - exists [p]. by rewrite Hfl.
  - intros x Hx Hn. rewrite fn_lookup_insert_ne; [done|]. rewrite Hfl in Hn. set_solver.
  - intros d Hd. rewrite Hr. rewrite decide_False; [done|]. rewrite Hfl in Hd. set_solver.
  - done.
  - intros f' l' j Hf' Hj Hc. apply grow_entry_old; [done|by apply (grow_lab _ _ Hf')|].
    intros [= -> ->]. destruct Hc as [Hc|Hc]; [|congruence].
    assert (l' = l) as -> by congruence. lia.
  - intros x Hx Hn. unfold grow_phys. rewrite wr64_out, mem_fill_out; [done| |].
    + destruct (decide (p = x / 4096)) as [->|]; [rewrite Hfl in Hn; set_solver|dlia].
    + assert (f ≠ x / 4096) by congruence. dlia.
  - intros rt o va Hrt. apply (grow_leaf rt (Lab o [])); [done|done|].
    apply Forall_app. split; [apply table_path_ok|]. apply Forall_singleton. apply PT_IDX_range.
  - intros f' l' j Hf' Hj. destruct (decide ((f', j) = (f, i))) as [[= -> ->]|Hc].
    + right. assert (l' = l) as -> by congruence. rewrite grow_entry_new. destruct grow_frame as [-> ->].
      split_and!; [done..|]. rewrite fn_lookup_insert. by rewrite Hown.
    + left. apply grow_entry_old; [done|by apply (grow_lab _ _ Hf')|done].
  - intros d Hd. rewrite Hr. rewrite decide_False; [done|]. by intros <-.
  - intros d Hd Hn. rewrite Hfl in Hd. apply elem_of_cons in Hd as [->|?]; [|done].
    rewrite fn_lookup_insert. by eexists.
Qed.
End grow.

(** ** One level *)

Lemma kread_entry s f i :
  build_ok s → in_range s f → 0 ≤ i < 512 →
  kread (VADDR (bld s) (f * 4096) + 8 * i) s = Ok (entry_at (phys s) f i, s).
Proof. intros Hb Hf Hi. unfold kread, gets. by rewrite PADDR_entry. Qed.

Lemma kwrite_entry s f i v :
  build_ok s → in_range s f → 0 ≤ i < 512 →
  kwrite (VADDR (bld s) (f * 4096) + 8 * i) v s =
  Ok ((), set_phys (wr64 (phys s) (f * 4096 + 8 * i) v) s).
Proof. intros Hb Hf Hi. unfold kwrite, modify. by rewrite PADDR_entry. Qed.

(** A slot that new tables may be added to: not a shared slot of a task's root. *)
Definition own_slot (l : label) (i : Z) : Prop := child K l i = Lab (l_owner l) (l_path l ++ [i]).

Lemma lookup_level_spec s g f l i create :
  wf K s g → lab g f = Some l → (length (l_path l) < 3)%nat → 0 ≤ i < 512 →
  own_slot l i ∨ present (entry_at (phys s) f i) = true →
  ∃ r s' g', lookup_level (VADDR (bld s) (f * 4096)) i create s = Ok (r, s') ∧
    ext s g s' g' ∧ (create = false → s' = s ∧ g' = g) ∧
    (∀ f' l', lab g' f' = Some l' → lab g f' = Some l' ∨ l' = child K l i) ∧
    match r with
    | Some e => present e = true ∧ entry_at (phys s') f i = e ∧ lab g' (frame e) = Some (child K l i)
    | None => present (entry_at (phys s) f i) = false ∧ s' = s ∧ g' = g ∧ (create = true → fl g = [])
    end.
Proof.
  intros W Hl Hlen Hi Hown. pose proof (wf_lab _ _ _ W f l Hl) as (Hf & _).
  pose proof (wf_build _ _ _ W) as Hb.
  unfold lookup_level. unfold mbind, M_bind. rewrite kread_entry by done.
  change (has_flag (entry_at (phys s) f i) PML4E_P) with (present (entry_at (phys s) f i)).
  destruct (present (entry_at (phys s) f i)) eqn:E.
  { eexists (Some _), s, g. split_and!; [done|by apply ext_refl|done|by left|done|done|].
    by apply (wf_edge _ _ _ W). }
  destruct Hown as [Hown|]; [|done]. destruct create; cbn [negb].
  2: { eexists None, s, g. split_and!; try done; [by apply ext_refl|by left]. }
  pose proof (wf_alloc _ _ _ W) as Hal. destruct (fl g) as [|p fl'] eqn:Hfl.
  { rewrite page_alloc_none by done. eexists None, s, g. split_and!; try done; [by apply ext_refl|by left]. }
  destruct (page_alloc_some s p fl' Hal) as (q & -> & Hq & _).
  set (r := <[p := 1]> (<[p := 0]> (refs s))).
  assert (∀ d, r d = if decide (p = d) then 1 else refs s d) as Hr.
  { intros d. unfold r. rewrite !fn_insert_dec. by destruct (decide (p = d)). }
  assert (ext s g (grow_state s f i p q r) (grow_ghost g i p l fl')) as Hext by (by apply grow_ext).
  assert (in_range s p ∧ 0 ≤ p ∧ p * 4096 < 2 ^ 63) as (Hp & Hp0 & Hp63).
  { split; [by eapply grow_p|by eapply grow_range]. }
  set (s1 := set_refs _ _).
  assert (build_ok s1) as Hb1 by done. assert (in_range s1 p ∧ in_range s1 f) as [Hp1 Hf1] by done.
  unfold get, kzero, modify. change (bld s1) with (bld s).
  rewrite PADDR_page by done. rewrite set_ref_ok by done.
  rewrite page2pa_ok by done.
  assert (Z.lor (Z.lor (Z.lor (p * 4096) PML4E_P) PML4E_W) PML4E_U = p * 4096 + 7) as ->.
  { rewrite <- !Z.lor_assoc. apply (mk_entry p 7); lia. }
  change (bld s) with (bld (set_refs (<[p:=1]> (refs (set_phys
    (mem_fill (phys s1) (p * 4096) Byte.x00 PAGE_SIZE) s1)))
    (set_phys (mem_fill (phys s1) (p * 4096) Byte.x00 PAGE_SIZE) s1))).
  rewrite kwrite_entry by done.
  exists (Some (p * 4096 + 7)), (grow_state s f i p q r), (grow_ghost g i p l fl').
  split_and!; try done.
  - intros f' l'. cbn. rewrite fn_insert_dec. destruct (decide (p = f')); [|by left]. intros [= <-]. by right.
  - by apply present_mk.
  - by eapply grow_entry_new.
  - rewrite frame_mk by lia. cbn. by rewrite fn_lookup_insert.
Qed.

(** ** The whole lookup *)

(** The slots below the root always belong to the table's own tree. *)
Lemma own_slot_deep l i : l_path l ≠ [] → own_slot l i.
Proof. intros H. unfold own_slot, child. by rewrite bool_decide_false. Qed.

Lemma own_slot_root o i : i < KIDX ∨ o = K → own_slot (Lab o []) i.
Proof.
  intros H. unfold own_slot, child. cbn.
  destruct (Z.leb_spec KIDX i); [|done]. destruct H as [?| ->]; [lia|done].
Qed.

(** The address of [va] may be given tables in the space with root [Lab o []]. *)
Definition mappable s (root o va : Z) : Prop :=
  PML4_IDX va < KIDX ∨ o = K ∨ present (entry_at (phys s) root (PML4_IDX va)) = true.

Lemma VADDR_entry b e : VADDR b (PTE_ADDR e) = VADDR b (frame e * 4096).
Proof. by rewrite PTE_ADDR_frame. Qed.

(** What a successful or failed lookup says about the walk in the resulting state. *)
Definition lookup_post s s' g' (root o va : Z) (create : bool) (r : option Z) : Prop :=
  match r with
  | Some a => ∃ f, a = VADDR (bld s) (f * 4096) + 8 * PT_IDX va ∧
      walk (entry_at (phys s')) root (table_path va) = Some f ∧
      lab g' f = Some (descend K (Lab o []) (table_path va))
  | None => walk (entry_at (phys s')) root (table_path va) = None ∧ (create = true → fl g' = [])
  end.

(** Present entries stay, so a complete walk stays. *)
Lemma walk_ext s g s' g' f l path f' :
  wf K s g → ext s g s' g' → lab g f = Some l → (length (l_path l) + length path ≤ 3)%nat →
  Forall (λ i, 0 ≤ i < 512) path →
  walk (entry_at (phys s)) f path = Some f' → walk (entry_at (phys s')) f path = Some f'.
Proof.
  intros W E. revert f l. induction path as [|i path IH]; intros f l Hl Hlen Hp; cbn [walk]; [done|].
  apply Forall_cons in Hp as [Hi Hp]. cbn [length] in Hlen.
  destruct (present (entry_at (phys s) f i)) eqn:P; [|done]. intros Hw.
  rewrite (ext_ent _ _ _ _ E f l i Hl Hi) by (by right). rewrite P.
  refine (IH _ (child K l i) _ _ Hp Hw); [|rewrite child_path, length_app; cbn; lia].
  apply (wf_edge _ _ _ W); [done|lia|done|done].
Qed.

(** The only tables added are below the root and, for a user address, in the
    address space [o]. *)
Definition adds (o va : Z) g g' : Prop :=
  ∀ f l, lab g' f = Some l → lab g f = Some l ∨ l_path l ≠ [] ∧ (PML4_IDX va < KIDX → l_owner l = o).

(** One more level after a walk along [path] from the root. *)
Lemma next_level s g s1 g1 root o va path f i create :
  wf K s g → ext s g s1 g1 → (create = false → s1 = s ∧ g1 = g) →
  lab g root = Some (Lab o []) → Forall (λ i, 0 ≤ i < 512) path → (length path < 3)%nat →
  walk (entry_at (phys s1)) root path = Some f → 0 ≤ i < 512 → head (path ++ [i]) = Some (PML4_IDX va) →
  own_slot (descend K (Lab o []) path) i ∨ present (entry_at (phys s1) f i) = true →
  ∃ r s2 g2, lookup_level (VADDR (bld s) (f * 4096)) i create s1 = Ok (r, s2) ∧
    ext s g s2 g2 ∧ (create = false → s2 = s ∧ g2 = g) ∧ (adds o va g g1 → adds o va g g2) ∧
    match r with
    | Some e => present e = true ∧ walk (entry_at (phys s2)) root (path ++ [i]) = Some (frame e)
    | None => walk (entry_at (phys s2)) root (path ++ [i]) = None ∧ (create = true → fl g2 = [])
    end.
Proof.
  intros W E1 F1 Hr Hp Hlen Hw Hi Hhd Hown.
  pose proof (ext_lab _ _ _ _ E1 _ _ Hr) as Hr1. pose proof (ext_wf _ _ _ _ E1) as W1.
  pose proof (walk_label K s1 g1 root (Lab o []) path f W1 Hr1 ltac:(cbn; lia) Hp Hw) as Hf.
  rewrite <- (ext_bld _ _ _ _ E1).
  destruct (lookup_level_spec s1 g1 f (descend K (Lab o []) path) i create)
    as (r & s2 & g2 & -> & E2 & F2 & N2 & H2); [done|done|rewrite descend_path; done|done|done|].
  exists r, s2, g2. split_and!; [done|by eapply ext_trans| | |].
  { intros Hc. destruct (F1 Hc) as [-> ->]. by apply F2. }
  { intros A1 f' l' Hf'. destruct (N2 f' l' Hf') as [Hf1| ->]; [by apply A1|]. right.
    rewrite child_path, descend_path. split; [by destruct path|]. intros Hu.
    assert (descend K (Lab o []) (path ++ [i]) = Lab o (path ++ [i])) as Hd.
    { destruct path as [|j path]; injection Hhd as ->; by apply descend_user. }
    unfold descend in Hd. rewrite foldl_app in Hd. cbn in Hd. unfold descend. by rewrite Hd. }
  assert (walk (entry_at (phys s2)) root path = Some f) as Hw2
    by (eapply (walk_ext s1 g1); try done; cbn; lia).
  destruct r as [e|].
  - destruct H2 as (P & N & _). split; [done|]. rewrite walk_app, Hw2. cbn. by rewrite N, P.
  - destruct H2 as (P & -> & -> & Hfl). split; [|done]. rewrite walk_app, Hw2. cbn. by rewrite P.
Qed.

Lemma walk_none_app ent root p1 p2 : walk ent root p1 = None → walk ent root (p1 ++ p2) = None.
Proof. intros H. by rewrite walk_app, H. Qed.

Lemma own_slot_path o i path j : own_slot (descend K (Lab o []) (i :: path)) j.
Proof. apply own_slot_deep. by rewrite descend_path. Qed.

Lemma mmap_lookup_spec s g root o va create :
  wf K s g → lab g root = Some (Lab o []) → mappable s root o va →
  ∃ r s' g', mmap_lookup (VADDR (bld s) (root * 4096)) va create s = Ok (r, s') ∧
    ext s g s' g' ∧ (create = false → s' = s ∧ g' = g) ∧ adds o va g g' ∧ lookup_post s s' g' root o va create r.
Proof.
  intros W Hr Hm. unfold mmap_lookup, mbind, M_bind, get.
  pose proof (PML4_IDX_range va) as R1. pose proof (PDP_IDX_range va) as R2.
  pose proof (PD_IDX_range va) as R3.
  destruct (next_level s g s g root o va [] root (PML4_IDX va) create)
    as (r1 & s1 & g1 & -> & E1 & F1 & A1 & H1);
    [done|by apply ext_refl|done|done|done|cbn; lia|done|done|done| |].
  { destruct Hm as [?|[?|?]]; [left; apply own_slot_root; auto..|by right]. }
  specialize (A1 (λ f l H, or_introl H)). destruct r1 as [e1|].
  2: { eexists None, s1, g1. split_and!; try done. split; [apply (walk_none_app _ _ [_]), H1|apply H1]. }
  destruct H1 as (P1 & W1). change (has_flag e1 PML4E_P) with (present e1). rewrite P1. cbn [massert mret M_ret].
  rewrite (ext_bld _ _ _ _ E1), VADDR_entry.
  destruct (next_level s g s1 g1 root o va [PML4_IDX va] (frame e1) (PDP_IDX va) create)
    as (r2 & s2 & g2 & -> & E2 & F2 & A2 & H2);
    [done..|by rewrite Forall_singleton|cbn; lia|done|done|done|left; apply own_slot_path|].
  specialize (A2 A1).
  destruct r2 as [e2|].
  2: { eexists None, s2, g2. split_and!; try done. split; [apply (walk_none_app _ _ [_; _]), H2|apply H2]. }
  destruct H2 as (P2 & W2). change (has_flag e2 PML4E_P) with (present e2). rewrite P2. cbn [massert mret M_ret].
  change (PDPE_ADDR e2) with (PTE_ADDR e2). rewrite VADDR_entry.
  destruct (next_level s g s2 g2 root o va [PML4_IDX va; PDP_IDX va] (frame e2) (PD_IDX va) create)
    as (r3 & s3 & g3 & -> & E3 & F3 & A3 & H3);
    [done..|by rewrite !Forall_cons|cbn; lia|done|done|done|left; apply own_slot_path|].
  specialize (A3 A2).
  destruct r3 as [e3|]; [|by eexists None, s3, g3].
  destruct H3 as (P3 & W3). change (has_flag e3 PML4E_P) with (present e3). rewrite P3. cbn [massert mret M_ret].
  change (PDE_ADDR e3) with (PTE_ADDR e3). rewrite VADDR_entry.
  eexists (Some _), s3, g3. split_and!; try done. exists (frame e3). split_and!; try done.
  eapply (walk_label K s3 g3); [apply E3|by apply (ext_lab _ _ _ _ E3)|cbn; lia|apply table_path_ok|done].
Qed.

(** For a user address the shared slots of all roots stay as they are. *)
Lemma ext_top s g s' g' o va f o' i :
  wf K s g → ext s g s' g' → adds o va g g' → PML4_IDX va < KIDX → o ≠ K →
  lab g f = Some (Lab o' []) → KIDX ≤ i < 512 → entry_at (phys s') f i = entry_at (phys s) f i.
Proof.
  intros W E A Hu HoK Hf Hi. assert (0 ≤ i < 512) as Hi0 by (rewrite KIDX_val in Hi; lia).
  destruct (ext_keep _ _ _ _ E f _ i Hf Hi0) as [He|(Ha & Hp & Hl)]; [done|]. exfalso.
  pose proof (wf_edge _ _ _ (ext_wf _ _ _ _ E) f (Lab o' []) i (ext_lab _ _ _ _ E _ _ Hf) ltac:(cbn; lia) Hi0 Hp) as Hl'.
  unfold child in Hl'. cbn in Hl'. rewrite (proj2 (Z.leb_le KIDX i)) in Hl' by lia. cbn in Hl, Hl'.
  assert (o' = K) as -> by congruence. destruct (A _ _ Hl') as [Hold|[_ Ho]]; [|by apply HoK; symmetry; apply Ho].
  destruct (wf_back _ _ _ W _ K [] i Hold) as (_ & f' & Hf' & Hp' & _).
  assert (f' = f) as -> by (by eapply (wf_inj _ _ _ W)). congruence.
Qed.

(** So do the kernel's own tables. *)
Lemma ext_kern s g s' g' o va f l i :
  wf K s g → ext s g s' g' → adds o va g g' → PML4_IDX va < KIDX → o ≠ K →
  lab g f = Some l → l_owner l = K → 0 ≤ i < 512 → entry_at (phys s') f i = entry_at (phys s) f i.
Proof.
  intros W E A Hu HoK Hf Hl Hi. destruct (ext_keep _ _ _ _ E f l i Hf Hi) as [He|(Ha & _ & Hc)]; [done|]. exfalso.
  rewrite Hl in Hc. destruct (A _ _ Hc) as [Hold|[_ Ho]]; [|by apply HoK; symmetry; apply Ho].
  destruct (wf_back _ _ _ W _ K (l_path l) i Hold) as (_ & f' & Hf' & Hp' & _).
  assert (f' = f) as -> by (eapply (wf_inj _ _ _ W); [exact Hf'|]; rewrite Hf, <- Hl; by destruct l). congruence.
Qed.
End lookup.
