(* ===== verification/InsertProofs.v ===== *)
(** [page_lookup], [page_remove] and [page_insert] on user addresses.

    A write to one last-level entry changes the translation of exactly one page
    of one address space ([translate_write]) and moves the reference counts by
    one ([ucount_write]); [leaf_write_wf] is the resulting preservation lemma,
    used for mapping, unmapping and remapping. *)

From S2P Require Import Prelude Memory Queue Mmu Console Map AllocProofs Walk MapWf.
From S2P Require Import LookupProofs.
Import Mmu Map.

Section insert.
Context {T : Type} `{!Console T, !ConsoleLaws T} (K : Z).
Implicit Types (s : mstate T) (g : ghost).

(** Whether an entry refers to page [d]. *)
Definition delta (e d : Z) : Z := if present e && (frame e =? d) then 1 else 0.

Lemma ucount_write m g cnt f i v d :
  uleaf K g f = true → 0 ≤ f < cnt → 0 ≤ i < 512 → 0 ≤ v < 2 ^ 64 →
  ucount K (wr64 m (f * 4096 + 8 * i) v) g cnt d =
  ucount K m g cnt d - delta (entry_at m f i) d + delta v d.
Proof.
  intros Hu Hf Hi Hv. unfold ucount.
  rewrite (zsum_update (refers K m g d) _ _ (f, i)); [|apply cells_NoDup|by apply cells_elem|].
  - unfold refers, delta. cbn [fst snd]. rewrite Hu, entry_wr_eq, u64_small by done. cbn [andb]. lia.
  - intros [f' j] [_ Hj]%cells_elem Hne. unfold refers. cbn [fst snd].
    rewrite entry_wr_ne by (done || congruence). done.
Qed.

(** The value of a well-formed user entry. *)
Definition leaf_val s g (fl' : list Z) (v : Z) : Prop :=
  0 ≤ v < 2 ^ 64 ∧
  if present v then in_range s (frame v) ∧ frame v ∉ fl' ∧ lab g (frame v) = None else v = 0.

Section write.
Context s g s' (f i v : Z) (fl' : list Z).
Hypothesis W : wf K s g.
Hypothesis Hu : uleaf K g f = true.
Hypothesis Hi : 0 ≤ i < 512.
Hypothesis Hv : leaf_val s g fl' v.
Hypothesis Hbld : bld s' = bld s.
Hypothesis Hcnt : pages_cnt s' = pages_cnt s.
Hypothesis Hphys : phys s' = wr64 (phys s) (f * 4096 + 8 * i) v.
Hypothesis Hcon : con_ok (con s').
Hypothesis Hrep : Lst.lrep (free s') fl'.
Hypothesis Hsub : ∀ x, x ∈ fl g → x ∈ fl'.
Hypothesis Hnew : ∀ x, x ∈ fl' → x ∉ fl g →
  in_range s x ∧ lab g x = None ∧ refs s x - delta (entry_at (phys s) f i) x + delta v x = 0.
Hypothesis Hrefs : ∀ d, in_range s d → d ∉ fl' → lab g d = None →
  refs s' d = refs s d - delta (entry_at (phys s) f i) d + delta v d ∧ refs s' d < 2 ^ 32.
Hypothesis Htbl : ∀ d, lab g d ≠ None → refs s' d = refs s d.

Definition write_ghost : ghost := Ghost (lab g) fl' (pins g).

Lemma write_f : in_range s f ∧ ∃ l, lab g f = Some l ∧ length (l_path l) = 3%nat ∧ l_owner l ≠ K.
Proof.
  destruct (uleaf_lab K g f Hu) as (l & Hl & H3 & Ho). split; [|eauto].
  by destruct (wf_lab _ _ _ W f l Hl).
Qed.

Lemma write_ent f' j : 0 ≤ j < 512 → (f', j) ≠ (f, i) → entry_at (phys s') f' j = entry_at (phys s) f' j.
Proof. intros Hj Hne. rewrite Hphys. apply entry_wr_ne; [done|done|congruence]. Qed.

Lemma write_ent_eq : entry_at (phys s') f i = v.
Proof. rewrite Hphys, entry_wr_eq. apply u64_small, Hv. Qed.

(** A page that became free is referred to by no entry any more. *)
Lemma write_freed x :
  x ∈ fl' → x ∉ fl g → ucount K (phys s') g (pages_cnt s) x = 0 ∧ pins g x = 0.
Proof.
  intros Hx Hn. destruct (Hnew x Hx Hn) as (Hr & Hl & H0).
  destruct (wf_refs _ _ _ W x Hr Hn Hl) as (Hc & Hp & _).
  pose proof (ucount_nonneg K (phys s') g (pages_cnt s) x).
  rewrite Hphys, ucount_write in *; [lia|done|apply write_f|done|apply Hv
    |done|apply write_f|done|apply Hv].
Qed.

Lemma write_inner f' l' j :
  lab g f' = Some l' → (length (l_path l') < 3)%nat → 0 ≤ j < 512 →
  entry_at (phys s') f' j = entry_at (phys s) f' j.
Proof.
  intros Hl' Hlen Hj. apply write_ent; [done|]. intros [= -> _].
  destruct write_f as (_ & l & Hl & H3 & _). assert (l' = l) as -> by congruence. lia.
Qed.

(** The kernel's tables are not written. *)
Lemma write_kern f' l' j :
  lab g f' = Some l' → l_owner l' = K → 0 ≤ j < 512 → entry_at (phys s') f' j = entry_at (phys s) f' j.
Proof.
  intros Hl' Ho Hj. apply write_ent; [done|]. intros [= -> _]. destruct write_f as (_ & l & Hl & _ & HK). congruence.
Qed.

Lemma leaf_write_wf : wf K s' write_ghost.
Proof.
  destruct write_f as (Hf & _).
  constructor; cbn [lab fl pins write_ghost].
  - destruct (wf_build _ _ _ W) as [? ?]. split; by rewrite ?Hcnt, Hbld.
  - split; [done|]. intros x Hx. unfold in_range. rewrite Hcnt.
    destruct (decide (x ∈ fl g)); [by apply (wf_alloc _ _ _ W)|by apply Hnew].
  - done.
  - intros x Hx. destruct (decide (x ∈ fl g)) as [|Hn]; [by apply (wf_free _ _ _ W)|].
    split; [by apply Hnew|by apply write_freed].
  - intros f' l' Hl'. unfold in_range. rewrite Hcnt, Htbl by congruence. by apply (wf_lab _ _ _ W).
  - apply (wf_tpin _ _ _ W).
  - apply (wf_root _ _ _ W).
  - apply (wf_inj _ _ _ W).
  - intros f' l' j Hl' Hlen Hj. rewrite (write_inner f' l') by done. by apply (wf_edge _ _ _ W).
  - intros f' o q j Hl'. destruct (wf_back _ _ _ W _ _ _ _ Hl') as (Hj & f'' & Hl'' & Hp).
    split; [done|]. exists f''. split; [done|].
    destruct (wf_lab _ _ _ W _ _ Hl') as (_ & Hlen & _). cbn in Hlen. rewrite length_app in Hlen. cbn in Hlen.
    rewrite (write_inner f'' (Lab o q)); [done|done|cbn; lia|done].
  - intros f' j Hu' Hj. unfold in_range. rewrite Hcnt.
    destruct (decide ((f', j) = (f, i))) as [[= -> ->]|Hne].
    { rewrite write_ent_eq. apply Hv. }
    pose proof (wf_leaf _ _ _ W f' j Hu' Hj) as Hl. pose proof (write_ent f' j Hj Hne) as He.
    rewrite He. destruct (present (entry_at (phys s) f' j)) eqn:P; [|exact Hl].
    destruct Hl as (Hr & Hn & Hld). split_and!; [apply Hr..| |done].
    intros Hin. destruct (write_freed _ Hin Hn) as [H0 _].
    destruct (uleaf_lab K g f' Hu') as (l' & Hl' & _).
    pose proof (ucount_pos K (phys s') g (pages_cnt s) f' j (frame (entry_at (phys s) f' j))) as Hpos.
    rewrite He in Hpos. destruct (wf_lab _ _ _ W f' l' Hl') as (Hf' & _).
    specialize (Hpos Hf' Hj Hu' P eq_refl). lia.
  - intros d Hd Hn Hl. unfold in_range in Hd. rewrite Hcnt in *.
    assert (d ∉ fl g) as Hn' by auto.
    destruct (wf_refs _ _ _ W d Hd Hn' Hl) as (Hc & Hp & _). destruct (Hrefs d Hd Hn Hl) as [Hr Hb].
    change (ucount K (phys s') write_ghost) with (ucount K (phys s') g).
    rewrite Hr, Hphys, ucount_write by (done || apply Hv). split_and!; [lia|done|lia].
Qed.

Lemma write_walk r l path :
  lab g r = Some l → (length (l_path l) + length path ≤ 3)%nat → Forall (λ k, 0 ≤ k < 512) path →
  walk (entry_at (phys s')) r path = walk (entry_at (phys s)) r path.
Proof.
  revert r l. induction path as [|k path IH]; intros r l Hl Hlen Hp; cbn [walk]; [done|].
  cbn [length] in Hlen. apply Forall_cons in Hp as [Hk Hp].
  rewrite (write_inner r l) by (done || lia).
  destruct (present (entry_at (phys s) r k)) eqn:P; [|done].
  apply (IH _ (child K l k)); [|rewrite child_path, length_app; cbn; lia|done].
  apply (wf_edge _ _ _ W); [done|lia|done|done].
Qed.

Lemma translate_write r o va :
  lab g r = Some (Lab o []) →
  translate (phys s') r va =
  if decide (walk (entry_at (phys s)) r (table_path va) = Some f ∧ PT_IDX va = i)
  then if present v then Some v else None
  else translate (phys s) r va.
Proof.
  intros Hr. unfold translate, leaf. rewrite (write_walk r (Lab o [])) by (done || apply table_path_ok).
  destruct (walk (entry_at (phys s)) r (table_path va)) as [f'|] eqn:Hw; cbn.
  - destruct (decide _) as [[Ef Ei]|Hne].
    + injection Ef as Ef. rewrite Ef, Ei, write_ent_eq. done.
    + rewrite write_ent; [done|apply PT_IDX_range|]. intros [= Ef Ei]. apply Hne. by rewrite Ef.
  - destruct (decide _) as [[? _]|]; done.
Qed.
End write.

(** ** User addresses *)

(** [root] is the PML4 frame of a task and [va] lies below [USER_TOP]. *)
Definition user_va g (root o va : Z) : Prop :=
  lab g root = Some (Lab o []) ∧ o ≠ K ∧ PML4_IDX va < KIDX.

(** Two addresses of the same page of the same address space. *)
Definition same_page (r va r' va' : Z) : Prop := r = r' ∧ full_path va = full_path va'.

Lemma user_leaf s g root o va f :
  wf K s g → user_va g root o va → walk (entry_at (phys s)) root (table_path va) = Some f →
  lab g f = Some (Lab o (table_path va)) ∧ uleaf K g f = true ∧ in_range s f.
Proof.
  intros W (Hr & Ho & Hva) Hw.
  pose proof (walk_label K s g root (Lab o []) (table_path va) f W Hr ltac:(cbn; lia) (table_path_ok va) Hw) as Hf.
  unfold table_path in Hf. rewrite descend_user in Hf by done. split_and!; [done| |].
  - by eapply uleaf_intro.
  - by apply (wf_lab _ _ _ W _ _ Hf).
Qed.

(** No two pages of no two address spaces share a user entry. *)
Lemma walk_unique s g root o va r' o' va' f :
  wf K s g → user_va g root o va → lab g r' = Some (Lab o' []) →
  walk (entry_at (phys s)) root (table_path va) = Some f →
  walk (entry_at (phys s)) r' (table_path va') = Some f →
  root = r' ∧ table_path va = table_path va'.
Proof.
  intros W U Hr' Hw Hw'. destruct (user_leaf s g root o va f W U Hw) as (Hf & _).
  pose proof (walk_label K s g r' (Lab o' []) (table_path va') f W Hr' ltac:(cbn; lia) (table_path_ok va') Hw') as Hf'.
  assert (Lab o (table_path va) = descend K (Lab o' []) (table_path va')) as Hd by congruence.
  pose proof (descend_path K (Lab o' []) (table_path va')) as Hp.
  rewrite <- Hd in Hp. cbn [l_path app] in Hp. split; [|done].
  destruct U as (Hr & Ho & Hva). pose proof Hp as Hp'. unfold table_path in Hp'. injection Hp' as E1 E2 E3.
  unfold table_path at 2 in Hd. rewrite descend_user in Hd by lia. assert (o = o') as <- by congruence.
  by eapply (wf_inj _ _ _ W).
Qed.

Lemma user_mappable s g root o va : user_va g root o va → mappable K s root o va.
Proof. intros (_ & _ & H). by left. Qed.

Lemma pa2page_frame e : 0 ≤ e < 2 ^ 64 → pa2page (PTE_ADDR e) = frame e.
Proof.
  intros He. rewrite PTE_ADDR_frame. rewrite frame_alt by done. unfold pa2page, PAGE_SHIFT.
  rewrite u64_small by dlia. rewrite Z.shiftr_div_pow2 by done. apply Z.div_mul. done.
Qed.

Lemma page_lookup_ok s g root o va :
  wf K s g → lab g root = Some (Lab o []) → mappable K s root o va →
  page_lookup (VADDR (bld s) (root * 4096)) va s =
  Ok (frame <$> translate (phys s) root va,
      (λ f, VADDR (bld s) (f * 4096) + 8 * PT_IDX va) <$>
        walk (entry_at (phys s)) root (table_path va), s).
Proof.
  intros W Hr Hm. unfold page_lookup, mbind, M_bind.
  destruct (mmap_lookup_spec K s g root o va false W Hr Hm) as (r & s' & g' & -> & E & F & _ & H).
  destruct (F eq_refl) as [-> ->]. unfold translate, leaf. destruct r as [a|]; unfold lookup_post in H.
  - destruct H as (f & -> & Hw & Hf). rewrite Hw. cbn [mbind option_bind]. destruct (wf_lab _ _ _ W f _ Hf) as (Hfr & _).
    rewrite kread_entry; [|apply W|done|apply PT_IDX_range].
    change (has_flag (entry_at (phys s) f (PT_IDX va)) PTE_P) with (present (entry_at (phys s) f (PT_IDX va))).
    destruct (present _); cbn; [|done]. rewrite pa2page_frame by apply entry_range. done.
  - destruct H as [Hw _]. by rewrite Hw.
Qed.

(** ** Unmapping *)

Record removed s g s' g' (root va : Z) : Prop := {
  rm_wf : wf K s' g';
  rm_bld : bld s' = bld s;
  rm_cnt : pages_cnt s' = pages_cnt s;
  rm_lab : lab g' = lab g;
  rm_pins : pins g' = pins g;
  rm_fl : fl g' = match translate (phys s) root va with
                  | Some e => if refs s (frame e) =? 1 then frame e :: fl g else fl g
                  | None => fl g
                  end;
  rm_refs d : refs s' d = refs s d -
    match translate (phys s) root va with
    | Some e => if frame e =? d then 1 else 0
    | None => 0
    end;
  rm_walk : walk (entry_at (phys s')) root (table_path va) = walk (entry_at (phys s)) root (table_path va);
  rm_tr : translate (phys s') root va = None;
  rm_other r' o' va' : lab g r' = Some (Lab o' []) → ¬ same_page root va r' va' →
    translate (phys s') r' va' = translate (phys s) r' va';
  rm_mem x : lab g (x / 4096) = None → phys s' x = phys s x;
  rm_shot : shot s' = match translate (phys s) root va with Some _ => va :: shot s | None => shot s end;
  rm_inner f l i : lab g f = Some l → (length (l_path l) < 3)%nat → 0 ≤ i < 512 →
    entry_at (phys s') f i = entry_at (phys s) f i;
  rm_kern f l i : lab g f = Some l → l_owner l = K → 0 ≤ i < 512 →
    entry_at (phys s') f i = entry_at (phys s) f i;
}.

Lemma removed_refl s g root va :
  wf K s g → translate (phys s) root va = None → removed s g s g root va.
Proof. intros W Ht. constructor; rewrite ?Ht; auto. intros. lia. Qed.

(** What is known of a page mapped at a user address. *)
Lemma mapped_page s g root o va e :
  wf K s g → user_va g root o va → translate (phys s) root va = Some e →
  ∃ f, walk (entry_at (phys s)) root (table_path va) = Some f ∧
    entry_at (phys s) f (PT_IDX va) = e ∧ present e = true ∧ uleaf K g f = true ∧ in_range s f ∧
    in_range s (frame e) ∧ frame e ∉ fl g ∧ lab g (frame e) = None ∧ 0 < refs s (frame e) < 2 ^ 32.
Proof.
  intros W U Ht. unfold translate, leaf in Ht.
  destruct (walk (entry_at (phys s)) root (table_path va)) as [f|] eqn:Hw; [|done].
  cbn in Ht. destruct (present (entry_at (phys s) f (PT_IDX va))) eqn:P; [|done]. injection Ht as He.
  destruct (user_leaf s g root o va f W U Hw) as (Hf & Hu & Hfr).
  pose proof (wf_leaf _ _ _ W f (PT_IDX va) Hu (PT_IDX_range va)) as Hl.
  rewrite P in Hl. cbn zeta in Hl. rewrite He in Hl, P. destruct Hl as (Hd & Hn & Hld).
  destruct (wf_refs _ _ _ W _ Hd Hn Hld) as (Hc & Hp & ?).
  exists f. do 8 (split; [done|]). split; [|done].
  pose proof (ucount_pos K (phys s) g (pages_cnt s) f (PT_IDX va) (frame e) Hfr (PT_IDX_range va) Hu) as Hpos.
  rewrite He in Hpos. specialize (Hpos P eq_refl). lia.
Qed.

Lemma delta_mapped e d : present e = true → delta e d = if frame e =? d then 1 else 0.
Proof. intros P. unfold delta. by rewrite P. Qed.

(** The free list after a reference to page [d] is dropped. *)
Definition fl_drop s g (d : Z) : list Z := if refs s d =? 1 then d :: fl g else fl g.

(** Dropping the reference of entry [i] of the user table [f].  The entry may
    already have been left behind in a memory [m] that still has it: the
    counters do not depend on the contents of memory. *)
Lemma clear_entry s g m f i e :
  wf K (set_phys m s) g → uleaf K g f = true → 0 ≤ i < 512 →
  entry_at m f i = e → present e = true →
  ∃ q c, let s1 := set_con c (set_free q (set_refs (<[frame e := refs s (frame e) - 1]> (refs s)) s)) in
    page_decref (frame e) s = Ok ((), s1) ∧
    (∀ d, refs s1 d = refs s d - delta e d) ∧
    wf K (set_phys (wr64 m (f * 4096 + 8 * i) 0) s1) (write_ghost g (fl_drop s g (frame e))).
Proof.
  intros W Hu Hi He P. pose proof (wf_leaf _ _ _ W f i Hu Hi) as Hl.
  cbn [phys set_phys] in Hl. rewrite He, P in Hl. destruct Hl as (Hd & Hn & Hld).
  destruct (wf_refs _ _ _ W _ Hd Hn Hld) as (Hc & Hp & Hlt). cbn in Hc, Hp, Hlt.
  destruct (uleaf_lab K g f Hu) as (l & Hl & _). destruct (wf_lab _ _ _ W f l Hl) as (Hfr & _).
  pose proof (ucount_pos K m g (pages_cnt s) f i (frame e) Hfr Hi Hu) as Hpos.
  rewrite He in Hpos. specialize (Hpos P eq_refl).
  destruct (page_decref_ok s (frame e) (fl g)) as (q & c & Hrun & Hcon & Hq);
    [exact (wf_alloc _ _ _ W)|done|done|lia|exact (wf_con _ _ _ W)|].
  exists q, c. cbn zeta. split; [done|]. set (s1 := set_con c _).
  assert (∀ d, refs s1 d = refs s d - delta e d) as Hrefs.
  { intros d. cbn. rewrite fn_insert_dec, delta_mapped by done.
    destruct (decide (frame e = d)) as [->|E]; [by rewrite Z.eqb_refl|].
    rewrite (proj2 (Z.eqb_neq _ _)) by done. lia. }
  split; [done|]. assert (delta 0 = λ _, 0) as H0 by done.
  eapply (leaf_write_wf (set_phys m s) g _ f i 0 (fl_drop s g (frame e))); try done.
  - intros x Hx. unfold fl_drop. destruct (_ =? _); [set_solver|done].
  - intros x Hx Hxn. unfold fl_drop in Hx. destruct (Z.eqb_spec (refs s (frame e)) 1) as [E1|]; [|done].
    assert (x = frame e) as -> by set_solver. cbn [phys set_phys]. rewrite He, H0, delta_mapped, Z.eqb_refl by done.
    split_and!; [apply Hd..|done|cbn; lia].
  - intros d Hdr Hdn Hld'. cbn [phys set_phys]. rewrite He, H0.
    change (refs (set_phys (wr64 m (f * 4096 + 8 * i) 0) s1)) with (refs s1).
    rewrite Hrefs. split; [cbn; lia|].
    assert (0 ≤ delta e d) by (unfold delta; destruct (_ && _); lia).
    assert (d ∉ fl g) as Hdn' by (unfold fl_drop in Hdn; destruct (_ =? _); set_solver).
    destruct (wf_refs _ _ _ W d Hdr Hdn' Hld') as (_ & _ & Hb). cbn in Hb. lia.
  - intros d Hld'. change (refs (set_phys (wr64 m (f * 4096 + 8 * i) 0) s1)) with (refs s1).
    rewrite Hrefs, delta_mapped by done. rewrite (proj2 (Z.eqb_neq _ _)); [cbn; lia|]. intros <-. done.
Qed.

Lemma set_phys_same s : set_phys (phys s) s = s.
Proof. by destruct s. Qed.

Lemma page_remove_spec s g root o va :
  wf K s g → user_va g root o va →
  ∃ s' g', page_remove (VADDR (bld s) (root * 4096)) va s = Ok ((), s') ∧ removed s g s' g' root va.
Proof.
  intros W U. pose proof (user_mappable s g root o va U) as Hm. pose proof U as (Hr & Ho & Hva).
  unfold page_remove, mbind, M_bind. rewrite (page_lookup_ok s g root o va W Hr Hm).
  destruct (translate (phys s) root va) as [e|] eqn:Ht; cbn [fmap option_fmap option_map].
  2: { exists s, g. split; [done|by apply removed_refl]. }
  destruct (mapped_page s g root o va e W U Ht) as (f & Hw & He & P & Hu & Hfr & _).
  rewrite <- (set_phys_same s) in W.
  destruct (clear_entry s g (phys s) f (PT_IDX va) e W Hu (PT_IDX_range va) He P) as (q & c & -> & Hrefs & W').
  rewrite set_phys_same in W.
  rewrite Hw. cbn [fmap option_fmap option_map deref]. cbn [mret M_ret].
  set (s1 := set_con c _) in *. rewrite <- (eq_refl : bld s1 = bld s).
  rewrite kwrite_entry; [|exact (wf_build _ _ _ W)|exact Hfr|apply PT_IDX_range].
  unfold invlpg, modify. set (s' := set_shot _ _).
  exists s', (write_ghost g (fl_drop s g (frame e))). split; [done|].
  assert (∀ r' o' va', lab g r' = Some (Lab o' []) → translate (phys s') r' va' =
    if decide (walk (entry_at (phys s)) r' (table_path va') = Some f ∧ PT_IDX va' = PT_IDX va)
    then None else translate (phys s) r' va') as Htr.
  { intros r' o' va' Hr'. pose proof (PT_IDX_range va).
    by rewrite (translate_write s g s' f (PT_IDX va) 0 []) with (o := o'). }
  constructor.
  - exact (wf_shot K _ _ _ W').
  - done.
  - done.
  - done.
  - done.
  - by rewrite Ht.
  - intros d. rewrite Ht. change (refs s' d) with (refs s1 d). by rewrite Hrefs, delta_mapped.
  - rewrite (write_walk s g s' f (PT_IDX va) 0) with (l := Lab o []);
      first [done|apply PT_IDX_range|apply table_path_ok|cbn; lia].
  - rewrite (Htr root o) by done. by rewrite decide_True.
  - intros r' o' va' Hr' Hne. rewrite (Htr r' o') by done. rewrite decide_False; [done|].
    intros [Hw' Hi]. apply Hne. destruct (walk_unique s g root o va r' o' va' f W U Hr' Hw Hw') as [-> E].
    split; [done|]. unfold full_path. by rewrite E, Hi.
  - intros x Hx. cbn. apply wr64_out. destruct (uleaf_lab K g f Hu) as (l & Hl & _).
    assert (x / 4096 ≠ f) by congruence. pose proof (PT_IDX_range va). dlia.
  - by rewrite Ht.
  - intros f' l' j Hl' H3 Hj. apply (write_inner s g s' f (PT_IDX va) 0) with (l' := l');
      first [done|apply PT_IDX_range].
  - intros f' l' j Hl' Ho' Hj. apply (write_kern s g s' f (PT_IDX va) 0) with (l' := l');
      first [done|apply PT_IDX_range].
Qed.

(** ** Mapping *)

Lemma write_ghost_same g : write_ghost g (fl g) = g.
Proof. by destruct g. Qed.

(** Storing an entry for page [p] over an entry that is clear or maps [p] already. *)
Lemma map_entry s g s' root o va f v :
  wf K s g → user_va g root o va → walk (entry_at (phys s)) root (table_path va) = Some f →
  let e := entry_at (phys s) f (PT_IDX va) in let p := frame v in
  0 ≤ v < 2 ^ 64 → present v = true → in_range s p → p ∉ fl g → lab g p = None → refs s p + 1 < 2 ^ 32 →
  (present e = true → frame e = p) →
  bld s' = bld s → pages_cnt s' = pages_cnt s → free s' = free s → con s' = con s →
  phys s' = wr64 (phys s) (f * 4096 + 8 * PT_IDX va) v →
  (∀ d, refs s' d = refs s d - delta e d + delta v d) →
  wf K s' g ∧ translate (phys s') root va = Some v ∧
  (∀ r' o' va', lab g r' = Some (Lab o' []) → ¬ same_page root va r' va' →
     translate (phys s') r' va' = translate (phys s) r' va') ∧
  (∀ x, lab g (x / 4096) = None → phys s' x = phys s x) ∧
  (∀ f' l i, lab g f' = Some l → (length (l_path l) < 3)%nat → 0 ≤ i < 512 →
     entry_at (phys s') f' i = entry_at (phys s) f' i) ∧
  (∀ f' l i, lab g f' = Some l → l_owner l = K → 0 ≤ i < 512 →
     entry_at (phys s') f' i = entry_at (phys s) f' i).
Proof.
  intros W U Hw e p Hv P Hpr Hpn Hpl Hpb He Hb Hc Hf Hcon Hph Href.
  destruct (user_leaf s g root o va f W U Hw) as (Hlf & Hu & Hfr).
  pose proof (PT_IDX_range va) as Hi. pose proof U as (Hr & Ho & Hva).
  assert (leaf_val s g (fl g) v) as Hlv by (split; [done|by rewrite P]).
  assert (∀ d, d ≠ p → refs s' d = refs s d) as Hne.
  { intros d Hd. rewrite Href. unfold delta. fold p. rewrite (proj2 (Z.eqb_neq p d)), andb_false_r by done.
    destruct (present e) eqn:Pe; cbn [andb]; [|lia].
    rewrite He by done. rewrite (proj2 (Z.eqb_neq p d)) by done. lia. }
  assert (refs s p ≤ refs s' p ≤ refs s p + 1) as Hp.
  { rewrite Href. rewrite (delta_mapped v) by done. fold p. rewrite Z.eqb_refl.
    unfold delta. destruct (_ && _); lia. }
  assert (wf K s' (write_ghost g (fl g))) as W'.
  { eapply (leaf_write_wf s g s' f (PT_IDX va) v (fl g)); try done.
    - rewrite Hcon. apply W.
    - rewrite Hf. apply W.
    - intros d Hd Hn Hl. split; [apply Href|]. destruct (decide (d = p)) as [->|]; [lia|].
      rewrite Hne by done. by apply (wf_refs _ _ _ W).
    - intros d Hd. apply Hne. by intros ->. }
  rewrite write_ghost_same in W'.
  split_and!; [done| | | | |].
  - rewrite (translate_write s g s' f (PT_IDX va) v (fl g)) with (o := o) by done.
    by rewrite decide_True, P.
  - intros r' o' va' Hr' Hns. rewrite (translate_write s g s' f (PT_IDX va) v (fl g)) with (o := o') by done.
    rewrite decide_False; [done|]. intros [Hw' Hi']. apply Hns.
    destruct (walk_unique s g root o va r' o' va' f W U Hr' Hw Hw') as [-> E].
    split; [done|]. unfold full_path. by rewrite E, Hi'.
  - intros x Hx. rewrite Hph. apply wr64_out. assert (x / 4096 ≠ f) by congruence. dlia.
  - intros f' l' j Hl' H3 Hj. by apply (write_inner s g s' f (PT_IDX va) v) with (l' := l').
  - intros f' l' j Hl' Ho' Hj. by apply (write_kern s g s' f (PT_IDX va) v) with (l' := l').
Qed.

(** The state after mapping page [p] at [va]. *)
Record inserted s g s' g' (root va p v : Z) : Prop := {
  in_wf : wf K s' g';
  in_bld : bld s' = bld s;
  in_cnt : pages_cnt s' = pages_cnt s;
  in_lab f l : lab g f = Some l → lab g' f = Some l;
  in_none d : lab g d = None → d ∉ fl g → lab g' d = None;
  in_pins : pins g' = pins g;
  in_tr : translate (phys s') root va = Some v;
  in_other r' o' va' : lab g r' = Some (Lab o' []) → ¬ same_page root va r' va' →
    translate (phys s') r' va' = translate (phys s) r' va';
  in_refs d : d ∉ fl g → refs s' d = refs s d -
    match translate (phys s) root va with Some e => if frame e =? d then 1 else 0 | None => 0 end +
    (if p =? d then 1 else 0);
  in_free d : d ∈ fl g' → d ∈ fl g ∨
    ∃ e, translate (phys s) root va = Some e ∧ d = frame e ∧ refs s d = 1 ∧ d ≠ p;
  in_mem x : lab g (x / 4096) = None → x / 4096 ∉ fl g → phys s' x = phys s x;
  in_shot e : translate (phys s) root va = Some e → va ∈ shot s';
  in_new f l : lab g' f = Some l → lab g f = Some l ∨ l_path l ≠ [] ∧ l_owner l = root;
  in_top f o i : lab g f = Some (Lab o []) → KIDX ≤ i < 512 →
    entry_at (phys s') f i = entry_at (phys s) f i;
  in_kern f l i : lab g f = Some l → l_owner l = K → 0 ≤ i < 512 →
    entry_at (phys s') f i = entry_at (phys s) f i;
}.

Lemma ext_inserted s g s1 g1 s' g' root o va p v :
  wf K s g → user_va g root o va → ext K s g s1 g1 → adds o va g g1 → inserted s1 g1 s' g' root va p v →
  inserted s g s' g' root va p v.
Proof.
  intros W U E Ad I. destruct (ext_fl _ _ _ _ _ E) as [nw F].
  assert (∀ d, d ∉ fl g → d ∉ fl g1) as Hfl by (rewrite F; set_solver).
  pose proof (ext_tr _ _ _ _ _ E root o va (proj1 U)) as Ht. constructor.
  - apply I.
  - rewrite (in_bld _ _ _ _ _ _ _ _ I). exact (ext_bld _ _ _ _ _ E).
  - rewrite (in_cnt _ _ _ _ _ _ _ _ I). exact (ext_cnt _ _ _ _ _ E).
  - intros f l Hf. by apply (in_lab _ _ _ _ _ _ _ _ I), (ext_lab _ _ _ _ _ E).
  - intros d Hd Hn. apply (in_none _ _ _ _ _ _ _ _ I); [by apply (ext_none _ _ _ _ _ E)|auto].
  - rewrite (in_pins _ _ _ _ _ _ _ _ I). exact (ext_pins _ _ _ _ _ E).
  - apply I.
  - intros r' o' va' Hr' Hns. rewrite <- (ext_tr _ _ _ _ _ E r' o' va' Hr').
    apply (in_other _ _ _ _ _ _ _ _ I r' o'); [by apply (ext_lab _ _ _ _ _ E)|done].
  - intros d Hd. rewrite (in_refs _ _ _ _ _ _ _ _ I) by auto. by rewrite Ht, (ext_refs _ _ _ _ _ E).
  - intros d Hd. destruct (in_free _ _ _ _ _ _ _ _ I d Hd) as [?|(e & He & -> & H1 & H2)].
    + left. rewrite F. set_solver.
    + right. exists e. rewrite Ht in He. split_and!; try done. rewrite <- (ext_refs _ _ _ _ _ E); [done|].
      by destruct (mapped_page s g root o va e W U He) as (? & ? & ? & ? & ? & ? & ? & ? & _).
  - intros x Hx Hn. rewrite (in_mem _ _ _ _ _ _ _ _ I); [by apply (ext_mem _ _ _ _ _ E)| |auto].
    by apply (ext_none _ _ _ _ _ E).
  - intros e. rewrite <- Ht. apply (in_shot _ _ _ _ _ _ _ _ I).
  - intros f l Hf. destruct (in_new _ _ _ _ _ _ _ _ I f l Hf) as [Hf1|?]; [|by right].
    destruct (Ad f l Hf1) as [?|[? Ho]]; [by left|]. right. split; [done|].
    destruct U as (Hr & _ & Hva). rewrite (wf_root _ _ _ W _ _ Hr). auto.
  - intros f o' i Hf Hi. rewrite (in_top _ _ _ _ _ _ _ _ I f o' i) by (by try apply (ext_lab _ _ _ _ _ E)).
    destruct U as (Hr & Ho & Hva). by apply (ext_top K s g s1 g1 o va f o').
  - intros f l i Hf Hl Hi. rewrite (in_kern _ _ _ _ _ _ _ _ I f l i) by (by try apply (ext_lab _ _ _ _ _ E)).
    destruct U as (Hr & Ho & Hva). by apply (ext_kern K s g s1 g1 o va f l).
Qed.

Section insert_cases.
Context s g (root o va f v : Z).
Let e := entry_at (phys s) f (PT_IDX va).
Let p := frame v.
Hypothesis W : wf K s g.
Hypothesis U : user_va g root o va.
Hypothesis Hw : walk (entry_at (phys s)) root (table_path va) = Some f.
Hypothesis Hv : 0 ≤ v < 2 ^ 64.
Hypothesis P : present v = true.
Hypothesis Hp : in_range s p.
Hypothesis Hpn : p ∉ fl g.
Hypothesis Hpl : lab g p = None.
Hypothesis Hpb : refs s p + 1 < 2 ^ 32.

Lemma translate_e : translate (phys s) root va = if present e then Some e else None.
Proof. unfold translate, leaf. rewrite Hw. done. Qed.

(** The page is mapped there already: only the flags change. *)
Lemma insert_same :
  present e = true → frame e = p →
  inserted s g (set_phys (wr64 (phys s) (f * 4096 + 8 * PT_IDX va) v) (set_shot (va :: shot s) s)) g
    root va p v.
Proof.
  intros Pe Hfe.
  destruct (map_entry s g (set_phys (wr64 (phys s) (f * 4096 + 8 * PT_IDX va) v)
    (set_shot (va :: shot s) s)) root o va f v) as (W' & Ht & Ho & Hm & Hin & Hke); try done.
  { intros d. cbn. unfold delta. fold e p. rewrite Pe, P, Hfe. cbn [andb]. lia. }
  constructor; try done.
  - intros d _. rewrite translate_e, Pe, Hfe. cbn. lia.
  - intros d Hd. by left.
  - intros x Hx _. by apply Hm.
  - intros e' _. cbn. set_solver.
  - by left.
  - intros f' o' i Hf' Hi. apply (Hin f' (Lab o' [])); [done|cbn; lia|rewrite KIDX_val in Hi; lia].
Qed.

(** Any other case: unmap, store, count. *)
Lemma insert_fresh s2 g2 :
  removed s g s2 g2 root va → (present e = true → frame e ≠ p) →
  inserted s g (set_refs (<[p := refs s2 p + 1]> (refs s2))
                  (set_phys (wr64 (phys s2) (f * 4096 + 8 * PT_IDX va) v) s2)) g2 root va p v.
Proof.
  intros R Hfe. pose proof (rm_fl _ _ _ _ _ _ R) as F. pose proof (rm_refs _ _ _ _ _ _ R) as Href.
  pose proof (rm_lab _ _ _ _ _ _ R) as Hlab. pose proof (rm_tr _ _ _ _ _ _ R) as Ht2.
  pose proof (rm_walk _ _ _ _ _ _ R) as Hw2. rewrite Hw in Hw2. rewrite translate_e in F, Href.
  assert (present (entry_at (phys s2) f (PT_IDX va)) = false) as P2.
  { unfold translate, leaf in Ht2. rewrite Hw2 in Ht2. cbn in Ht2. by destruct (present (entry_at (phys s2) f (PT_IDX va))). }
  assert (p ∉ fl g2) as Hpn2.
  { rewrite F. destruct (present e); [|done]. destruct (_ =? _); [|done].
    specialize (Hfe eq_refl). set_solver. }
  assert (refs s2 p = refs s p) as Hrp.
  { rewrite Href. destruct (present e); [|lia]. rewrite (proj2 (Z.eqb_neq _ _)) by auto. lia. }
  destruct (map_entry s2 g2 (set_refs (<[p := refs s2 p + 1]> (refs s2))
    (set_phys (wr64 (phys s2) (f * 4096 + 8 * PT_IDX va) v) s2)) root o va f v)
    as (W' & Ht & Ho & Hm & Hin & Hke); try done.
  - apply R.
  - unfold user_va. rewrite Hlab. exact U.
  - unfold in_range. rewrite (rm_cnt _ _ _ _ _ _ R). exact Hp.
  - by rewrite Hlab.
  - fold p. by rewrite Hrp.
  - intros P'. congruence.
  - intros d. cbn. unfold delta at 1. rewrite P2. cbn [andb]. rewrite fn_insert_dec, delta_mapped by done.
    fold p. destruct (decide (p = d)) as [<-|Hd]; [rewrite Z.eqb_refl; lia|].
    rewrite (proj2 (Z.eqb_neq _ _)) by done. lia.
  - constructor; try done.
    + exact (rm_bld _ _ _ _ _ _ R).
    + exact (rm_cnt _ _ _ _ _ _ R).
    + intros f' l. by rewrite Hlab.
    + intros d. by rewrite Hlab.
    + exact (rm_pins _ _ _ _ _ _ R).
    + intros r' o' va' Hr' Hns. rewrite (Ho r' o'); [|by rewrite Hlab|done].
      by apply (rm_other _ _ _ _ _ _ R r' o').
    + intros d Hd. cbn [refs set_refs]. rewrite translate_e, fn_insert_dec, Hrp, Href.
      destruct (decide (p = d)) as [<-|Hd']; [rewrite Z.eqb_refl|rewrite (proj2 (Z.eqb_neq p d)) by done; lia].
      destruct (present e); [|lia]. rewrite (proj2 (Z.eqb_neq _ _)) by auto. lia.
    + intros d Hd. rewrite F in Hd. rewrite translate_e. destruct (present e); [|by left].
      destruct (Z.eqb_spec (refs s (frame e)) 1) as [E1|]; [|by left].
      apply elem_of_cons in Hd as [->|]; [right|by left]. exists e. auto.
    + intros x Hx _. rewrite Hm by (by rewrite Hlab). by apply (rm_mem _ _ _ _ _ _ R).
    + intros e' He'. rewrite translate_e in He'. cbn [shot set_refs set_phys]. rewrite (rm_shot _ _ _ _ _ _ R), translate_e, He'. set_solver.
    + intros f' l. rewrite Hlab. by left.
    + intros f' o' i Hf' Hi. rewrite KIDX_val in Hi. rewrite (Hin f' (Lab o' [])) by (rewrite ?Hlab; cbn; done || lia).
      apply (rm_inner _ _ _ _ _ _ R f' (Lab o' [])); [done|cbn; lia|lia].
    + intros f' l' i Hf' Hl' Hi. rewrite (Hke f' l') by (rewrite ?Hlab; done).
      by apply (rm_kern _ _ _ _ _ _ R f' l').
Qed.
End insert_cases.

Lemma page_insert_spec s g root o va p perm :
  wf K s g → user_va g root o va → in_range s p → 0 < p → p ∉ fl g → lab g p = None →
  refs s p + 1 < 2 ^ 32 → 0 ≤ perm < 4096 →
  ∃ r s' g', page_insert (VADDR (bld s) (root * 4096)) p va perm s = Ok (r, s') ∧
    (r = -1 ∧ ext K s g s' g' ∧ adds o va g g' ∧ fl g' = [] ∨
     r = 0 ∧ inserted s g s' g' root va p (p * 4096 + Z.lor perm 1)).
Proof.
  intros W U Hp Hp0 Hpn Hpl Hpb Hperm. pose proof U as (Hr & Ho & Hva).
  unfold page_insert, mbind, M_bind.
  destruct (mmap_lookup_spec K s g root o va true W Hr (user_mappable _ _ _ _ _ U))
    as (r & s1 & g1 & -> & E & _ & Ad & H).
  destruct r as [a|]; unfold lookup_post in H.
  2: { destruct H as [_ H]. exists (-1), s1, g1. split; [done|]. left. auto. }
  destruct H as (f & -> & Hw & Hlf). unfold get.
  pose proof (ext_wf _ _ _ _ _ E) as W1. pose proof (wf_build _ _ _ W1) as Hb1.
  destruct (ext_fl _ _ _ _ _ E) as [nw F].
  assert (in_range s1 p) as Hp1 by (unfold in_range; by rewrite (ext_cnt _ _ _ _ _ E)).
  assert (user_va g1 root o va) as U1 by (split; [by apply (ext_lab _ _ _ _ _ E)|done]).
  destruct (user_leaf s1 g1 root o va f W1 U1 Hw) as (_ & Hu & Hfr).
  assert (p ∉ fl g1) as Hpn1 by (rewrite F in Hpn; set_solver).
  assert (lab g1 p = None) as Hpl1 by (by apply (ext_none _ _ _ _ _ E)).
  assert (refs s1 p = refs s p) as Hrp by (by apply (ext_refs _ _ _ _ _ E)).
  rewrite <- (ext_bld _ _ _ _ _ E).
  rewrite kread_entry; [|done|done|apply PT_IDX_range]. rewrite page2pa_ok by done.
  pose proof (build_bound s1 p Hb1 Hp1) as (? & ? & ? & ?).
  assert (0 ≤ Z.lor perm 1 < 4096) as Hpm by (apply (lor_bound _ _ 12); lia).
  rewrite <- Z.lor_assoc. change PTE_P with 1. rewrite mk_entry by lia.
  set (v := p * 4096 + Z.lor perm 1).
  assert (frame v = p) as Hfv by (apply frame_mk; lia).
  assert (present v = true) as Pv.
  { apply present_mk. rewrite Z.lor_spec. apply orb_true_r. }
  assert (0 ≤ v < 2 ^ 64) as Hv by (unfold v; lia).
  set (e := entry_at (phys s1) f (PT_IDX va)).
  rewrite PTE_ADDR_frame. destruct (Z.eqb_spec (frame e * 4096) (p * 4096)) as [Efr|Efr].
  - assert (present e = true) as Pe.
    { pose proof (wf_leaf _ _ _ W1 f (PT_IDX va) Hu (PT_IDX_range va)) as Hl. fold e in Hl.
      destruct (present e); [done|]. rewrite Hl in Efr. change (frame 0) with 0 in Efr. lia. }
    unfold invlpg, modify. change (bld s1) with (bld (set_shot (va :: shot s1) s1)).
    rewrite kwrite_entry; [|done|done|apply PT_IDX_range]. cbn.
    eexists 0, _, g1. split; [done|]. right. split; [done|].
    eapply (ext_inserted s g s1 g1); try done. rewrite <- Hfv at 1.
    eapply (insert_same s1 g1 root o va f v); try rewrite Hfv; try done; try rewrite ?Hrp; fold e; try lia.
  - destruct (page_remove_spec s1 g1 root o va W1 U1) as (s2 & g2 & -> & R).
    pose proof (wf_build _ _ _ (rm_wf _ _ _ _ _ _ R)) as Hb2.
    pose proof (rm_cnt _ _ _ _ _ _ R) as Hc2.
    assert (in_range s2 p ∧ in_range s2 f) as [Hp2 Hf2] by (unfold in_range; by rewrite Hc2).
    rewrite <- (rm_bld _ _ _ _ _ _ R).
    rewrite kwrite_entry; [|done|done|apply PT_IDX_range].
    rewrite page_incref_ok by done.
    eexists 0, _, g2. split; [done|]. right. split; [done|].
    eapply (ext_inserted s g s1 g1); try done.
    assert (present e = true → frame e ≠ p) as Hfe by lia.
    assert (refs s2 p = refs s1 p) as Hrp2.
    { rewrite (rm_refs _ _ _ _ _ _ R), (translate_e s1 root va f Hw). fold e.
      destruct (present e); [|lia]. rewrite (proj2 (Z.eqb_neq _ _)) by auto. lia. }
    cbn [refs set_phys]. rewrite u32_small; rewrite <- Hfv.
    + eapply (insert_fresh s1 g1 root o va f v); rewrite ?Hfv, ?Hrp; done.
    + rewrite Hfv, Hrp2, Hrp. destruct (wf_refs _ _ _ W p Hp Hpn Hpl) as (? & ? & _).
      pose proof (ucount_nonneg K (phys s) g (pages_cnt s) p). lia.
Qed.

End insert.
