(* ===== verification/KmapProofs.v ===== *)
(** Changes outside the user tables: entries of the kernel's last-level tables,
    and pages the kernel takes for itself. *)

From S2P Require Import Prelude Memory Queue Mmu Console Map AllocProofs Walk MapWf.
From S2P Require Import LookupProofs InsertProofs.
Import Mmu Map.

Section kmap.
Context {T : Type} `{!Console T, !ConsoleLaws T} (K : Z).
Implicit Types (s : mstate T) (g : ghost).

(** ** Lookups that find all tables *)

Lemma lookup_level_present s f i create :
  build_ok s → in_range s f → 0 ≤ i < 512 → present (entry_at (phys s) f i) = true →
  lookup_level (VADDR (bld s) (f * 4096)) i create s = Ok (Some (entry_at (phys s) f i), s).
Proof.
  intros Hb Hf Hi P. unfold lookup_level, mbind, M_bind. rewrite kread_entry by done.
  change (has_flag (entry_at (phys s) f i) PML4E_P) with (present (entry_at (phys s) f i)). by rewrite P.
Qed.

Lemma mmap_lookup_present s g root o va f create :
  wf K s g → lab g root = Some (Lab o []) → walk (entry_at (phys s)) root (table_path va) = Some f →
  mmap_lookup (VADDR (bld s) (root * 4096)) va create s = Ok (Some (VADDR (bld s) (f * 4096) + 8 * PT_IDX va), s).
Proof.
  intros W Hr Hw. pose proof (wf_build _ _ _ W) as Hb. unfold table_path in Hw. cbn [walk] in Hw.
  set (e1 := entry_at (phys s) root (PML4_IDX va)) in *. destruct (present e1) eqn:P1; [|done].
  set (e2 := entry_at (phys s) (frame e1) (PDP_IDX va)) in *. destruct (present e2) eqn:P2; [|done].
  set (e3 := entry_at (phys s) (frame e2) (PD_IDX va)) in *. destruct (present e3) eqn:P3; [|done].
  injection Hw as <-. pose proof (table_path_ok va) as Hp. unfold table_path in Hp.
  rewrite !Forall_cons in Hp. destruct Hp as (R1 & R2 & R3 & _).
  pose proof (wf_edge _ _ _ W root _ (PML4_IDX va) Hr ltac:(cbn; lia) R1 P1) as L1. fold e1 in L1.
  assert (length (l_path (child K (Lab o []) (PML4_IDX va))) = 1%nat) as N1 by (by rewrite child_path).
  pose proof (wf_edge _ _ _ W (frame e1) _ (PDP_IDX va) L1 ltac:(rewrite N1; lia) R2 P2) as L2. fold e2 in L2.
  unfold mmap_lookup, mbind, M_bind, get.
  rewrite lookup_level_present by (done || apply (wf_lab _ _ _ W _ _ Hr)). fold e1.
  change (has_flag e1 PML4E_P) with (present e1). rewrite P1. cbn [massert mret M_ret]. rewrite VADDR_entry.
  rewrite lookup_level_present by (done || apply (wf_lab _ _ _ W _ _ L1)). fold e2.
  change (has_flag e2 PML4E_P) with (present e2). rewrite P2. cbn [massert mret M_ret].
  change (PDPE_ADDR e2) with (PTE_ADDR e2). rewrite VADDR_entry.
  rewrite lookup_level_present by (done || apply (wf_lab _ _ _ W _ _ L2)). fold e3.
  change (has_flag e3 PML4E_P) with (present e3). rewrite P3. cbn [massert mret M_ret].
  change (PDE_ADDR e3) with (PTE_ADDR e3). by rewrite VADDR_entry.
Qed.

(** [page_insert] at an address whose table exists and whose entry is empty. *)
Lemma page_insert_present s g r o f va p perm :
  wf K s g → lab g r = Some (Lab o []) → walk (entry_at (phys s)) r (table_path va) = Some f →
  entry_at (phys s) f (PT_IDX va) = 0 → in_range s p → 0 < p → 0 ≤ perm < 4096 →
  page_insert (VADDR (bld s) (r * 4096)) p va perm s =
  Ok (0, set_refs (<[p := u32 (refs s p + 1)]> (refs s))
           (set_phys (wr64 (phys s) (f * 4096 + 8 * PT_IDX va) (p * 4096 + Z.lor perm 1)) s)).
Proof.
  intros W Hr Hw He Hp Hp0 Hperm. pose proof (wf_build _ _ _ W) as Hb.
  pose proof (walk_label K s g r _ (table_path va) f W Hr ltac:(cbn; lia) (table_path_ok va) Hw) as Hl.
  destruct (wf_lab _ _ _ W f _ Hl) as (Hf & _).
  pose proof (PT_IDX_range va) as Hi. pose proof (build_bound s p Hb Hp) as (? & ? & ? & ?).
  assert (0 ≤ Z.lor perm 1 < 4096) as Hpm by (apply (lor_bound _ _ 12); lia).
  unfold page_insert, page_remove, page_lookup, mbind, M_bind, get.
  rewrite (mmap_lookup_present s g r o va f true) by done.
  rewrite kread_entry by done. rewrite He, page2pa_ok by done.
  change (PTE_ADDR 0) with 0. rewrite (proj2 (Z.eqb_neq 0 (p * 4096))) by lia.
  rewrite (mmap_lookup_present s g r o va f false) by done.
  rewrite kread_entry by done. rewrite He. change (has_flag 0 PTE_P) with false. cbn [mret M_ret].
  rewrite <- Z.lor_assoc. change PTE_P with 1. rewrite mk_entry by lia.
  unfold mret, M_ret. rewrite kwrite_entry by done. rewrite page_incref_ok by done. done.
Qed.

(** ** Memory changes outside the inner tables *)

Lemma walk_same s g m x l path :
  wf K s g → (∀ f l' i, lab g f = Some l' → (length (l_path l') < 3)%nat → 0 ≤ i < 512 →
    entry_at m f i = entry_at (phys s) f i) →
  lab g x = Some l → (length (l_path l) + length path ≤ 3)%nat → Forall (λ i, 0 ≤ i < 512) path →
  walk (entry_at m) x path = walk (entry_at (phys s)) x path.
Proof.
  intros W He. revert x l. induction path as [|i path IH]; intros x l Hx Hlen Hp; cbn [walk]; [done|].
  apply Forall_cons in Hp as [Hi Hp]. cbn [length] in Hlen. rewrite (He x l i) by (done || lia).
  destruct (present (entry_at (phys s) x i)) eqn:P; [|done].
  apply (IH _ (child K l i)); [|rewrite child_path, length_app; cbn; lia|done].
  apply (wf_edge _ _ _ W); [done|lia|done|done].
Qed.

Lemma translate_same s g m x o va :
  wf K s g → (∀ f l i, lab g f = Some l → 0 ≤ i < 512 → entry_at m f i = entry_at (phys s) f i) →
  lab g x = Some (Lab o []) → translate m x va = translate (phys s) x va.
Proof.
  intros W He Hx. unfold translate, leaf.
  rewrite (walk_same s g m x (Lab o [])); [|done|by eauto|done|cbn; lia|apply table_path_ok].
  destruct (walk (entry_at (phys s)) x (table_path va)) as [f|] eqn:Hw; [|done]. cbn.
  pose proof (walk_label K s g x (Lab o []) (table_path va) f W Hx ltac:(cbn; lia) (table_path_ok va) Hw) as Hf.
  by rewrite (He f _ (PT_IDX va) Hf (PT_IDX_range va)).
Qed.

(** *** Writing a last-level entry of the kernel's tables *)

Section kleaf.
Context s g (f i v : Z) (q : list Z).
Hypothesis W : wf K s g.
Hypothesis Hf : lab g f = Some (Lab K q).
Hypothesis Hq : length q = 3%nat.
Hypothesis Hi : 0 ≤ i < 512.
Let m := wr64 (phys s) (f * 4096 + 8 * i) v.

Lemma kleaf_ent f' l' j :
  lab g f' = Some l' → (length (l_path l') < 3)%nat ∨ l_owner l' ≠ K → 0 ≤ j < 512 →
  entry_at m f' j = entry_at (phys s) f' j.
Proof.
  intros Hf' Hor Hj. apply entry_wr_ne; [done|done|]. intros [= -> ->].
  assert (l' = Lab K q) as -> by congruence. cbn in Hor. destruct Hor; [lia|done].
Qed.

Lemma kleaf_wf : wf K (set_phys m s) g.
Proof.
  destruct W as [W1 W2 W3 W4 W5 W6 W7 W8 W9 W10 W11 W12].
  assert (∀ f' j, uleaf K g f' = true → 0 ≤ j < 512 → entry_at m f' j = entry_at (phys s) f' j) as Hu.
  { intros f' j Hf' Hj. destruct (uleaf_lab K g f' Hf') as (l & Hl & _ & Ho). apply (kleaf_ent f' l j Hl); auto. }
  constructor; cbn [phys set_phys refs pages_cnt]; try done.
  - intros f' l j Hl Hlen Hj. rewrite (kleaf_ent f' l j Hl) by auto. by apply W9.
  - intros f' o q' j Hl. destruct (W10 f' o q' j Hl) as (Hj & f'' & Hl'' & Hp). split; [done|].
    exists f''. split; [done|]. destruct (W5 _ _ Hl) as (_ & Hlen & _). cbn in Hlen. rewrite length_app in Hlen.
    cbn in Hlen. rewrite (kleaf_ent f'' _ j Hl''); [done| |done]. left. cbn. lia.
  - intros f' j Hf' Hj. rewrite (Hu f' j) by done. by apply W11.
  - intros d Hd Hn Hl. destruct (W12 d Hd Hn Hl) as (Hr & Hp). split; [|done]. rewrite Hr. f_equal.
    apply zsum_ext. intros [f' j] [_ Hj]%cells_elem. unfold refers. cbn [fst snd].
    destruct (uleaf K g f') eqn:Hf'; [|done]. by rewrite Hu.
Qed.

Lemma kleaf_walk x o va :
  lab g x = Some (Lab o []) →
  walk (entry_at m) x (table_path va) = walk (entry_at (phys s)) x (table_path va).
Proof.
  intros Hx. apply (walk_same s g m x (Lab o [])); [done| |done|cbn; lia|apply table_path_ok].
  intros f' l' j Hl' Hlen Hj. apply (kleaf_ent f' l' j Hl'); auto.
Qed.

Lemma kleaf_translate x o va :
  lab g x = Some (Lab o []) → 0 ≤ v < 2 ^ 64 →
  translate m x va =
  if decide (walk (entry_at (phys s)) x (table_path va) = Some f ∧ PT_IDX va = i)
  then if present v then Some v else None else translate (phys s) x va.
Proof.
  intros Hx Hv. unfold translate, leaf. rewrite (kleaf_walk x o va Hx).
  destruct (walk (entry_at (phys s)) x (table_path va)) as [f'|] eqn:Hw; cbn.
  - destruct (decide _) as [[[= ->] ->]|Hne].
    + unfold m. by rewrite entry_wr_eq, u64_small.
    + unfold m. rewrite entry_wr_ne; [done|done|apply PT_IDX_range|]. intros [= -> ->]. by apply Hne.
  - by destruct (decide _) as [[? _]|].
Qed.
End kleaf.

(** ** Counters *)

(** Taking a page off the free list. *)
Lemma unlink_wf s g p l1 l2 q r :
  wf K s g → fl g = l1 ++ p :: l2 → Lst.lrep q (l1 ++ l2) →
  (∀ d, d ≠ p → r d = refs s d) → 0 ≤ r p < 2 ^ 32 →
  wf K (set_refs r (set_free q s)) (Ghost (lab g) (l1 ++ l2) (<[p := r p]> (pins g))).
Proof.
  intros W Hfl Hq Hr Hrp. assert (p ∈ fl g) as Hpfl by (rewrite Hfl; set_solver).
  pose proof (ucount_zero K s g p W (or_introl Hpfl)) as Hu.
  destruct (wf_free _ _ _ W p Hpfl) as [Hpl Hpp].
  assert (∀ x, x ∈ l1 ++ l2 → x ∈ fl g) as Hsub by (rewrite Hfl; set_solver).
  assert (p ∉ l1 ++ l2) as Hpn.
  { pose proof (Lst.lrep_nodup _ _ (proj1 (wf_alloc _ _ _ W))) as Hnd. rewrite Hfl in Hnd.
    apply NoDup_app in Hnd as (_ & H1 & [H2 _]%NoDup_cons). intros [Hin|Hin]%elem_of_app; [|done].
    apply (H1 p Hin). by left. }
  destruct W as [W1 W2 W3 W4 W5 W6 W7 W8 W9 W10 W11 W12].
  constructor; cbn [phys set_phys set_refs set_free refs lab fl pins bld con free pages_cnt]; try done.
  - split; [done|]. intros x Hx. apply W2. auto.
  - intros x Hx. rewrite fn_lookup_insert_ne by (by intros ->). auto.
  - intros f l Hf. rewrite Hr by congruence. by apply W5.
  - intros f l Hf. rewrite fn_lookup_insert_ne by congruence. by apply (W6 f l).
  - intros f i Hf Hi. specialize (W11 f i Hf Hi). destruct (present _); [|done]. destruct W11 as (? & Hn & ?).
    split_and!; [done| |done]. auto.
  - intros d Hd Hn Hl. rewrite fn_insert_dec.
    change (ucount K (phys s) (Ghost (lab g) (l1 ++ l2) (<[p := r p]> (pins g))) (pages_cnt s) d)
      with (ucount K (phys s) g (pages_cnt s) d). destruct (decide (p = d)) as [<-|Hne].
    + rewrite Hu. lia.
    + rewrite Hr by done. apply W12; [done| |done]. rewrite Hfl. set_solver.
Qed.

Lemma alloc_wf s g p fl' q :
  wf K s g → fl g = p :: fl' → Lst.lrep q fl' →
  wf K (set_refs (<[p := 0]> (refs s)) (set_free q s)) (Ghost (lab g) fl' (pins g)).
Proof.
  intros W Hfl Hq. assert (p ∈ fl g) as Hpfl by (rewrite Hfl; by left).
  destruct (wf_free _ _ _ W p Hpfl) as [_ Hpp].
  pose proof (unlink_wf s g p [] fl' q (<[p := 0]> (refs s)) W Hfl Hq) as H.
  rewrite fn_lookup_insert in H. destruct H as [W1 W2 W3 W4 W5 W6 W7 W8 W9 W10 W11 W12];
    [intros d Hd; by rewrite fn_lookup_insert_ne|lia|].
  assert (∀ d, <[p := 0]> (pins g) d = pins g d) as E.
  { intros d. rewrite fn_insert_dec. by destruct (decide (p = d)) as [<-|]. }
  cbn [pins lab fl] in *. setoid_rewrite E in W4. setoid_rewrite E in W6. setoid_rewrite E in W12. by constructor.
Qed.

(** Counting a page that stays in the free list. *)
Lemma wf_free_ref s g p v : wf K s g → p ∈ fl g → wf K (set_refs (<[p := v]> (refs s)) s) g.
Proof.
  intros W Hp. destruct (wf_free _ _ _ W p Hp) as [Hpl _].
  destruct W as [W1 W2 W3 W4 W5 W6 W7 W8 W9 W10 W11 W12].
  constructor; cbn [phys set_refs refs lab fl pins bld con free pages_cnt]; try done.
  - intros f l Hf. rewrite fn_lookup_insert_ne by congruence. by apply W5.
  - intros d Hd Hn Hl. rewrite fn_lookup_insert_ne by congruence. by apply W12.
Qed.

(** A reference held by the kernel. *)
Lemma pin_wf s g d n :
  wf K s g → in_range s d → d ∉ fl g → lab g d = None → 0 ≤ pins g d + n → refs s d + n < 2 ^ 32 →
  wf K (set_refs (<[d := refs s d + n]> (refs s)) s) (Ghost (lab g) (fl g) (<[d := pins g d + n]> (pins g))).
Proof.
  intros W Hd Hn Hl Hp Hb. destruct W as [W1 W2 W3 W4 W5 W6 W7 W8 W9 W10 W11 W12].
  constructor; cbn [phys set_refs refs lab fl pins bld con free pages_cnt]; try done.
  - intros x Hx. rewrite fn_lookup_insert_ne by congruence. by apply W4.
  - intros f l Hf. rewrite fn_lookup_insert_ne by congruence. by apply W5.
  - intros f l Hf. rewrite fn_lookup_insert_ne by congruence. by apply (W6 f l).
  - intros x Hx Hxn Hxl. destruct (W12 x Hx Hxn Hxl) as (Hr & Hp0 & Hb0).
    change (ucount K (phys s) (Ghost (lab g) (fl g) (<[d := pins g d + n]> (pins g))) (pages_cnt s) x)
      with (ucount K (phys s) g (pages_cnt s) x).
    rewrite !fn_insert_dec. destruct (decide (d = x)) as [<-|]; [lia|done].
Qed.
End kmap.
