(* ===== verification/Gdt.v ===== *)
(** Segment, gate and TSS descriptors: kernel/misc/gdt.h.

    The macros of the header fill the bit fields of a descriptor; the model has
    the fields with their widths and their packing into 32-bit words.  The
    specification is the processor's reading of those words (AMD64 manual,
    volume 2): [seg_base], [gate_offset] and so on.  The theorems say that the
    processor reads back what the macro was given. *)

From Stdlib Require Import String.
From S2P Require Import Prelude.

Module Gdt.

Definition USF_G : Z := Z.shiftl 1 15.
Definition USF_D : Z := Z.shiftl 1 14.
Definition USF_L : Z := Z.shiftl 1 13.
Definition USF_P : Z := Z.shiftl 1 7.
Definition USF_S : Z := Z.shiftl 1 4.

Definition UST_X : Z := Z.shiftl 1 3.
Definition UST_W : Z := Z.shiftl 1 1.
Definition UST_R : Z := Z.shiftl 1 1.

Definition TYPE_INTERRUPT_GATE : Z := 0xe.
Definition TYPE_TRAP_GATE : Z := 0xf.
Definition TYPE_AVAILABLE_TSS : Z := 0x9.

Definition DPL_U : Z := Z.shiftl 0x3 5.
Definition DPL_S : Z := 0.
Definition IDT_DPL_U : Z := 0x3.
Definition IDT_DPL_S : Z := 0.
Definition GDT_DPL_U : Z := 0x3.
Definition GDT_DPL_S : Z := 0.
Definition TSS_DPL_U : Z := 0x3.
Definition TSS_DPL_S : Z := 0.

Definition GD_KT : Z := 0x0008.
Definition GD_KD : Z := 0x0010.
Definition GD_UT : Z := 0x0018.
Definition GD_UD : Z := 0x0020.
Definition GD_TSS : Z := 0x0028.

(** The low [w] bits, as a bit field of that width stores them. *)
Definition bits (w z : Z) : Z := z mod 2 ^ w.
(** Bits [lo .. lo+w-1] of a word. *)
Definition field (z lo w : Z) : Z := bits w (Z.shiftr z lo).

(** ** Descriptors *)

Record descriptor := Descriptor { seg_a : Z; seg_b : Z }.

Definition SEGMENT_DESC (flags base limit : Z) : descriptor :=
  Descriptor
    (u32 (Z.lor (Z.land limit 0xffff) (Z.shiftl (Z.land base 0xffff) 16)))
    (u32 (Z.lor (Z.lor (Z.lor (Z.land (Z.shiftr base 16) 0xff) (Z.shiftl (Z.land flags 0xf0ff) 8))
                       (Z.land limit 0xf0000)) (Z.land base 0xff000000))).

(** The gate view of [struct descriptor64]. *)
Record gate := Gate {
  target_offset0 : Z; target_selector : Z;
  g_ist : Z; g_reserved0 : Z; g_type : Z; g_s : Z; g_dpl : Z; g_p : Z;
  target_offset1 : Z; target_offset2 : Z; g_reserved1 : Z;
}.

Definition GATE (sel off ist type dpl : Z) : gate :=
  Gate (bits 16 (Z.land off 0xffff)) (bits 16 sel) (bits 2 ist) 0 (bits 4 type) 0 (bits 2 dpl) 1
    (bits 16 (Z.land (Z.shiftr off 16) 0xffff)) (bits 32 (Z.shiftr off 32)) 0.

Definition TRAP_GATE (sel off ist dpl : Z) : gate := GATE sel (u64 off) ist TYPE_TRAP_GATE dpl.
Definition INTERRUPT_GATE (sel off ist dpl : Z) : gate := GATE sel (u64 off) ist TYPE_INTERRUPT_GATE dpl.

(** [struct tss], packed: its fields in order with their sizes. *)
Definition tss : list (string * Z) :=
  [ ("reserved0", 4); ("rsp0", 8); ("rsp1", 8); ("rsp2", 8); ("reserved1", 8); ("ist1", 8); ("ist2", 8); ("ist3", 8);
    ("ist4", 8); ("ist5", 8); ("ist6", 8); ("ist7", 8); ("reserved2", 8); ("reserved3", 2); ("io_map_base", 2) ]%string.

Definition SIZEOF_TSS : Z := foldr (λ fd n, snd fd + n) 0 tss.

Fixpoint field_offset (l : list (string * Z)) (name : string) : option Z :=
  match l with
  | [] => None
  | (fd, n) :: l' => if String.eqb fd name then Some 0 else Z.add n <$> field_offset l' name
  end.

Definition tss_offset : string → option Z := field_offset tss.

(** The TSS view of [struct descriptor64]. *)
Record tss_desc := TssDesc {
  segment_limit0 : Z; base_address0 : Z;
  base_address1 : Z; t_type : Z; t_s : Z; t_dpl : Z; t_p : Z;
  segment_limit1 : Z; t_avl : Z; t_ign : Z; t_g : Z; base_address2 : Z;
  base_address3 : Z; t_mbz : Z;
}.

Definition TSS (base limit type dpl : Z) : tss_desc :=
  TssDesc (bits 16 (Z.land limit 0xffff)) (bits 16 (Z.land base 0xffff))
    (bits 8 (Z.land (Z.shiftr base 16) 0xff)) (bits 4 type) 0 (bits 2 dpl) 1
    (bits 4 (Z.land (Z.shiftr limit 16) 0xf)) 0 0 0 (bits 8 (Z.land (Z.shiftr base 24) 0xff))
    (bits 32 (Z.land (Z.shiftr base 32) 0xffffffff)) 0.

Definition SEGMENT_TSS (base limit type dpl : Z) : tss_desc := TSS (u64 base) (u32 limit) type dpl.

(** The macro for assembly code: the two words of a segment descriptor, with
    the type, attribute and granularity bits in [flags]. *)
Definition SEG (flags base limit : Z) : descriptor :=
  Descriptor (u32 (Z.lor (Z.land limit 0xffff) (Z.shiftl (Z.land base 0xffff) 16)))
    (u32 (Z.lor (Z.lor (Z.lor (Z.land (Z.shiftr base 16) 0xff) (Z.shiftl (Z.land flags 0xf0ff) 8)) (Z.land limit 0xf0000))
      (Z.land base 0xff000000))).

(** ** Packing into 32-bit words, first field in the low bits *)

Fixpoint pack (fields : list (Z * Z)) : Z :=
  match fields with
  | [] => 0
  | (w, v) :: rest => v + 2 ^ w * pack rest
  end.

Definition gate_words (g : gate) : list Z :=
  [ pack [(16, target_offset0 g); (16, target_selector g)];
    pack [(2, g_ist g); (6, g_reserved0 g); (4, g_type g); (1, g_s g); (2, g_dpl g); (1, g_p g);
          (16, target_offset1 g)];
    target_offset2 g;
    g_reserved1 g ].

Definition tss_words (t : tss_desc) : list Z :=
  [ pack [(16, segment_limit0 t); (16, base_address0 t)];
    pack [(8, base_address1 t); (4, t_type t); (1, t_s t); (2, t_dpl t); (1, t_p t);
          (4, segment_limit1 t); (1, t_avl t); (2, t_ign t); (1, t_g t); (8, base_address2 t)];
    base_address3 t;
    t_mbz t ].

(** ** What the processor reads *)

Record seg_view := SegView { v_base : Z; v_limit : Z; v_type : Z; v_s : Z; v_dpl : Z; v_p : Z; v_l : Z; v_d : Z; v_g : Z }.

Definition seg_read (d : descriptor) : seg_view :=
  SegView (field (seg_a d) 16 16 + 2 ^ 16 * field (seg_b d) 0 8 + 2 ^ 24 * field (seg_b d) 24 8)
    (field (seg_a d) 0 16 + 2 ^ 16 * field (seg_b d) 16 4)
    (field (seg_b d) 8 4) (field (seg_b d) 12 1) (field (seg_b d) 13 2) (field (seg_b d) 15 1)
    (field (seg_b d) 21 1) (field (seg_b d) 22 1) (field (seg_b d) 23 1).

Record gate_view := GateView { v_offset : Z; v_selector : Z; v_ist : Z; v_gtype : Z; v_gdpl : Z; v_gp : Z }.

Definition gate_read (ws : list Z) : option gate_view :=
  match ws with
  | [a; b; c; _] =>
      Some (GateView (field a 0 16 + 2 ^ 16 * field b 16 16 + 2 ^ 32 * field c 0 32)
              (field a 16 16) (field b 0 3) (field b 8 4) (field b 13 2) (field b 15 1))
  | _ => None
  end.

Record tss_view := TssView { v_tbase : Z; v_tlimit : Z; v_ttype : Z; v_tdpl : Z; v_tp : Z; v_tg : Z }.

Definition tss_read (ws : list Z) : option tss_view :=
  match ws with
  | [a; b; c; _] =>
      Some (TssView
        (field a 16 16 + 2 ^ 16 * field b 0 8 + 2 ^ 24 * field b 24 8 + 2 ^ 32 * field c 0 32)
        (field a 0 16 + 2 ^ 16 * field b 16 4) (field b 8 4) (field b 13 2) (field b 15 1) (field b 23 1))
  | _ => None
  end.

(** ** Lemmas *)

Lemma bits_range w z : 0 ≤ w → 0 ≤ bits w z < 2 ^ w.
Proof. intros Hw. apply Z.mod_pos_bound, Z.pow_pos_nonneg; lia. Qed.

Lemma bits_small w z : 0 ≤ z < 2 ^ w → bits w z = z.
Proof. apply Z.mod_small. Qed.

Lemma field_alt z lo w : 0 ≤ lo → field z lo w = (z / 2 ^ lo) mod 2 ^ w.
Proof. intros. unfold field, bits. by rewrite Z.shiftr_div_pow2. Qed.

Lemma land_mask z w : 0 ≤ w → Z.land z (2 ^ w - 1) = z mod 2 ^ w.
Proof. intros. rewrite <- Z.land_ones by done. f_equal. by rewrite Z.ones_equiv. Qed.

Lemma GATE_fields sel off ist type dpl :
  GATE sel off ist type dpl =
  Gate (off mod 65536) (sel mod 65536) (ist mod 4) 0 (type mod 16) 0 (dpl mod 4) 1
    ((off / 65536) mod 65536) ((off / 2 ^ 32) mod 2 ^ 32) 0.
Proof.
  unfold GATE, bits. rewrite !Z.shiftr_div_pow2 by done.
  change 0xffff with (2 ^ 16 - 1). rewrite !land_mask by done.
  change (2 ^ 16) with 65536. by rewrite !Z.mod_mod.
Qed.

Lemma TSS_fields base limit type dpl :
  TSS base limit type dpl =
  TssDesc (limit mod 65536) (base mod 65536) ((base / 65536) mod 256) (type mod 16) 0 (dpl mod 4) 1
    ((limit / 65536) mod 16) 0 0 0 ((base / 2 ^ 24) mod 256) ((base / 2 ^ 32) mod 2 ^ 32) 0.
Proof.
  unfold TSS, bits. rewrite !Z.shiftr_div_pow2 by done.
  change 0xffffffff with (2 ^ 32 - 1). change 0xffff with (2 ^ 16 - 1).
  change 0xff with (2 ^ 8 - 1). change 0xf with (2 ^ 4 - 1). rewrite !land_mask by done.
  by rewrite !Z.mod_mod.
Qed.

(** Reading a packed field: skip the fields below it, then take it. *)
Lemma field_skip v w r lo w' :
  0 ≤ w ≤ lo → 0 ≤ v < 2 ^ w → field (v + 2 ^ w * r) lo w' = field r (lo - w) w'.
Proof.
  intros Hw Hv. rewrite !field_alt by lia. f_equal.
  replace lo with (w + (lo - w)) at 1 by lia. rewrite Z.pow_add_r by lia.
  assert (0 < 2 ^ w) by (apply Z.pow_pos_nonneg; lia).
  assert (0 < 2 ^ (lo - w)) by (apply Z.pow_pos_nonneg; lia).
  rewrite <- Z.div_div by lia. f_equal. rewrite Z.mul_comm, Z.div_add by lia.
  by rewrite Z.div_small.
Qed.

Lemma field_take v w r : 0 ≤ w → 0 ≤ v < 2 ^ w → field (v + 2 ^ w * r) 0 w = v.
Proof.
  intros Hw Hv. rewrite field_alt by done. change (2 ^ 0) with 1. rewrite Z.div_1_r.
  rewrite Z.mul_comm, Z.mod_add, Z.mod_small by lia. done.
Qed.

(** Reads a field off a packed word. *)
Ltac read_field := rewrite ?field_skip by (done || lia); apply field_take; (done || lia).

Lemma field_testbit z lo w i :
  0 ≤ lo → 0 ≤ w → 0 ≤ i → Z.testbit (field z lo w) i = if i <? w then Z.testbit z (i + lo) else false.
Proof.
  intros Hlo Hw Hi. unfold field, bits. destruct (Z.ltb_spec i w).
  - rewrite Z.mod_pow2_bits_low by done. by rewrite Z.shiftr_spec.
  - by rewrite Z.mod_pow2_bits_high by lia.
Qed.

(** A field of a word built with masks and shifts, compared bit by bit. *)
Ltac field_bits :=
  apply Z.bits_inj'; let i := fresh "i" in let Hi := fresh "Hi" in intros i Hi;
  rewrite !field_testbit by done;
  match goal with |- context [ i <? ?w ] => destruct (Z.ltb_spec i w) as [Hlt|]; [|done];
    let H := fresh in
    assert (H : i ∈ zseq 0 (Z.to_nat w)) by (apply zseq_elem; lia);
    vm_compute in H; clear Hi Hlt; repeat (apply elem_of_cons in H as [->|H]; [|]);
    [..|by apply elem_of_nil in H]
  end;
  unfold u32; rewrite ?Z.mod_pow2_bits_low, ?Z.lor_spec, ?Z.shiftl_spec, ?Z.land_spec, ?Z.shiftr_spec by lia;
  cbn; rewrite ?andb_false_r, ?andb_true_r, ?orb_false_r; try done.

(** (the macro of [loader_init_gdt]) the processor reads from a segment
    descriptor the base, the limit and every flag it was built from. *)
Theorem segment_desc_roundtrip flags base limit :
  0 ≤ base < 2 ^ 32 → 0 ≤ limit < 2 ^ 20 →
  seg_read (SEGMENT_DESC flags base limit) =
  SegView base limit (field flags 0 4) (field flags 4 1) (field flags 5 2) (field flags 7 1)
    (field flags 13 1) (field flags 14 1) (field flags 15 1).
Proof.
  intros Hb Hl. unfold seg_read, SEGMENT_DESC. cbn [seg_a seg_b].
  set (a := u32 (Z.lor (Z.land limit 0xffff) _)). set (b := u32 (Z.lor (Z.lor _ _) _)).
  assert (field a 16 16 = field base 0 16) as -> by (unfold a, b; field_bits).
  assert (field b 0 8 = field base 16 8) as -> by (unfold a, b; field_bits).
  assert (field b 24 8 = field base 24 8) as -> by (unfold a, b; field_bits).
  assert (field a 0 16 = field limit 0 16) as -> by (unfold a, b; field_bits).
  assert (field b 16 4 = field limit 16 4) as -> by (unfold a, b; field_bits).
  assert (field b 8 4 = field flags 0 4) as -> by (unfold a, b; field_bits).
  assert (field b 12 1 = field flags 4 1) as -> by (unfold a, b; field_bits).
  assert (field b 13 2 = field flags 5 2) as -> by (unfold a, b; field_bits).
  assert (field b 15 1 = field flags 7 1) as -> by (unfold a, b; field_bits).
  assert (field b 21 1 = field flags 13 1) as -> by (unfold a, b; field_bits).
  assert (field b 22 1 = field flags 14 1) as -> by (unfold a, b; field_bits).
  assert (field b 23 1 = field flags 15 1) as -> by (unfold a, b; field_bits).
  f_equal; rewrite !field_alt by done; dlia.
Qed.

Lemma segment_desc_roundtrip_witness :
  seg_read (SEGMENT_DESC (Z.lor USF_P USF_S) 0x12345678 0xabcde) =
  SegView 0x12345678 0xabcde 0 1 0 1 0 0 0.
Proof. apply (segment_desc_roundtrip (Z.lor USF_P USF_S)); split; reflexivity || discriminate. Defined.

Lemma gate_read_GATE sel off ist type dpl :
  0 ≤ sel < 2 ^ 16 → 0 ≤ ist < 4 → 0 ≤ type < 16 → 0 ≤ dpl < 4 →
  gate_read (gate_words (GATE sel (u64 off) ist type dpl)) =
  Some (GateView (u64 off) sel ist type dpl 1).
Proof.
  intros Hs Hi Ht Hd. pose proof (u64_range off) as Ho. set (o := u64 off) in *. clearbody o.
  rewrite GATE_fields. unfold gate_words, gate_read.
  cbn [target_offset0 target_selector g_ist g_reserved0 g_type g_s g_dpl g_p target_offset1
       target_offset2 g_reserved1 pack].
  f_equal. f_equal; rewrite !field_alt by done; dlia.
Qed.

(** Interrupt and trap gates built by the macros are read by the processor
    with the same handler address (all 64 bits), selector, stack-table index
    and privilege level, with the right type, and present. *)
Theorem gate_roundtrip sel off ist dpl :
  0 ≤ sel < 2 ^ 16 → 0 ≤ ist < 4 → 0 ≤ dpl < 4 →
  gate_read (gate_words (INTERRUPT_GATE sel off ist dpl)) = Some (GateView (u64 off) sel ist 14 dpl 1) ∧
  gate_read (gate_words (TRAP_GATE sel off ist dpl)) = Some (GateView (u64 off) sel ist 15 dpl 1).
Proof. intros Hs Hi Hd. split; apply gate_read_GATE; done. Qed.

Lemma gate_roundtrip_witness :
  gate_read (gate_words (INTERRUPT_GATE GD_KT 0xFFFFFFF800123456 1 IDT_DPL_U)) =
    Some (GateView 0xFFFFFFF800123456 8 1 14 3 1) ∧
  gate_read (gate_words (TRAP_GATE GD_KT 0xFFFFFFF800123456 1 IDT_DPL_U)) =
    Some (GateView 0xFFFFFFF800123456 8 1 15 3 1).
Proof. apply (gate_roundtrip GD_KT 0xFFFFFFF800123456 1 IDT_DPL_U); split; reflexivity || discriminate. Defined.

(** A TSS descriptor is read with the base address (all 64 bits), the limit
    (20 bits), the type and the privilege level it was built from. *)
Theorem tss_roundtrip base limit type dpl :
  0 ≤ limit < 2 ^ 20 → 0 ≤ type < 16 → 0 ≤ dpl < 4 →
  tss_read (tss_words (SEGMENT_TSS base limit type dpl)) = Some (TssView (u64 base) limit type dpl 1 0).
Proof.
  intros Hl Ht Hd. unfold SEGMENT_TSS. pose proof (u64_range base) as Hb.
  set (b := u64 base) in *. clearbody b. rewrite u32_small by lia.
  rewrite TSS_fields. unfold tss_words, tss_read.
  cbn [segment_limit0 base_address0 base_address1 t_type t_s t_dpl t_p segment_limit1 t_avl t_ign
       t_g base_address2 base_address3 t_mbz pack].
  f_equal. f_equal; rewrite !field_alt by done; dlia.
Qed.

Lemma tss_roundtrip_witness :
  tss_read (tss_words (SEGMENT_TSS 0xFFFFFFF800ABC000 103 TYPE_AVAILABLE_TSS TSS_DPL_S)) =
  Some (TssView 0xFFFFFFF800ABC000 103 9 0 1 0).
Proof. apply (tss_roundtrip 0xFFFFFFF800ABC000 103); split; reflexivity || discriminate. Defined.

(** The layout of [struct tss] is the one of the 64-bit task-state segment: the
    stack pointers of privilege levels 0 to 2 from offset 4, the seven entries of
    the interrupt stack table from offset 0x24, the offset of the I/O map at
    0x66, 0x68 bytes in all. *)
Theorem tss_layout :
  SIZEOF_TSS = 0x68 ∧ tss_offset "rsp0" = Some 4 ∧ tss_offset "ist1" = Some 0x24 ∧ tss_offset "ist7" = Some 0x54 ∧
  tss_offset "io_map_base" = Some 0x66.
Proof. done. Qed.

End Gdt.
