(* ===== verification/Context.v ===== *)
(** Saved processor state: [struct task_context] of kernel/task.h, the entry
    stubs of kernel/interrupt/interrupt_entry.S and the restoring assembly of
    [task_run] in kernel/task.c.

    The stubs and [task_run] are instruction lists run by a small interpreter
    over the general-purpose registers, the segment registers and the stack
    (a list of 64-bit words, top first).  The stack the stubs leave is the
    [struct task_context] that [interrupt_handler] receives by value; the
    theorems show that its fields hold the interrupted registers, and that
    [task_run] on the saved context restores every one of them. *)

From S2P Require Import Prelude Gdt.

Module Context.

(** ** [struct gprs] and [struct task_context] *)

Record gprs := Gprs {
  rax : Z; rbx : Z; rcx : Z; rdx : Z; rdi : Z; rsi : Z; rbp : Z;
  r8 : Z; r9 : Z; r10 : Z; r11 : Z; r12 : Z; r13 : Z; r14 : Z; r15 : Z;
}.

Record task_context := TaskContext {
  c_gprs : gprs;
  ds : Z; es : Z; fs : Z; gs : Z;
  interrupt_number : Z;
  error_code : Z; padding2 : Z;
  rip : Z;
  cs : Z; padding1 : Z;
  rflags : Z;
  rsp : Z;
  ss : Z; padding0 : Z;
}.

Definition zero_gprs : gprs := Gprs 0 0 0 0 0 0 0 0 0 0 0 0 0 0 0.
Definition zero_context : task_context := TaskContext zero_gprs 0 0 0 0 0 0 0 0 0 0 0 0 0 0.

Definition set_rax v g :=
  Gprs v (rbx g) (rcx g) (rdx g) (rdi g) (rsi g) (rbp g)
    (r8 g) (r9 g) (r10 g) (r11 g) (r12 g) (r13 g) (r14 g) (r15 g).
Definition set_gprs g c :=
  TaskContext g (ds c) (es c) (fs c) (gs c) (interrupt_number c) (error_code c) (padding2 c)
    (rip c) (cs c) (padding1 c) (rflags c) (rsp c) (ss c) (padding0 c).
Definition set_rip v c :=
  TaskContext (c_gprs c) (ds c) (es c) (fs c) (gs c) (interrupt_number c) (error_code c) (padding2 c)
    v (cs c) (padding1 c) (rflags c) (rsp c) (ss c) (padding0 c).
Definition set_rflags v c :=
  TaskContext (c_gprs c) (ds c) (es c) (fs c) (gs c) (interrupt_number c) (error_code c) (padding2 c)
    (rip c) (cs c) (padding1 c) v (rsp c) (ss c) (padding0 c).
(** The segment selectors and stack pointer a new task or thread starts with. *)
Definition set_segs vcs vds ves vss vrsp c :=
  TaskContext (c_gprs c) vds ves (fs c) (gs c) (interrupt_number c) (error_code c) (padding2 c)
    (rip c) vcs (padding1 c) (rflags c) vrsp vss (padding0 c).

(** The words of the structure, in memory order. *)
Definition context_words (c : task_context) : list Z :=
  let g := c_gprs c in
  [ rax g; rbx g; rcx g; rdx g; rdi g; rsi g; rbp g;
    r8 g; r9 g; r10 g; r11 g; r12 g; r13 g; r14 g; r15 g;
    Gdt.pack [(16, ds c); (16, es c); (16, fs c); (16, gs c)];
    interrupt_number c;
    Gdt.pack [(32, error_code c); (32, padding2 c)];
    rip c;
    Gdt.pack [(16, cs c); (48, padding1 c)];
    rflags c; rsp c;
    Gdt.pack [(16, ss c); (48, padding0 c)] ].

(** The structure stored in the first words of a piece of memory. *)
Definition context_of_words (ws : list Z) : option task_context :=
  match ws with
  | rax :: rbx :: rcx :: rdx :: rdi :: rsi :: rbp ::
    r8 :: r9 :: r10 :: r11 :: r12 :: r13 :: r14 :: r15 ::
    seg :: num :: err :: rip :: cs :: rflags :: rsp :: ss :: _ =>
      Some (TaskContext
        (Gprs rax rbx rcx rdx rdi rsi rbp r8 r9 r10 r11 r12 r13 r14 r15)
        (Gdt.field seg 0 16) (Gdt.field seg 16 16) (Gdt.field seg 32 16) (Gdt.field seg 48 16)
        num (Gdt.field err 0 32) (Gdt.field err 32 32) rip
        (Gdt.field cs 0 16) (Gdt.field cs 16 48) rflags rsp
        (Gdt.field ss 0 16) (Gdt.field ss 16 48))
  | _ => None
  end.

(** ** The processor *)

Inductive reg := RAX | RBX | RCX | RDX | RDI | RSI | RBP | R8 | R9 | R10 | R11 | R12 | R13 | R14 | R15.
Inductive seg := DS | ES | FS | GS.

#[global] Instance reg_eq_dec : EqDecision reg.
Proof. solve_decision. Defined.
#[global] Instance seg_eq_dec : EqDecision seg.
Proof. solve_decision. Defined.

(** The registers an interrupt saves. *)
Record cpu := Cpu {
  p_reg : reg → Z; p_seg : seg → Z;
  p_rip : Z; p_cs : Z; p_rflags : Z; p_rsp : Z; p_ss : Z;
}.

Inductive insn :=
| PUSH_IMM (z : Z)
| PUSH (r : reg)
| POP (r : reg)
| MOVW_IMM_AX (z : Z)       (* movw $z, %ax *)
| MOVW_AX_SEG (s : seg)     (* movw %ax, %s *)
| MOVW_SEG_STK (s : seg) (off : Z)   (* movw %s, off(%rsp), off < 8 *)
| MOVW_STK_SEG (off : Z) (s : seg)   (* movw off(%rsp), %s, off < 8 *)
| ADD_RSP (n : nat).         (* addq $8n, %rsp *)

Record mach := Mach { m_reg : reg → Z; m_seg : seg → Z; m_stk : list Z }.

Definition put16 (w off v : Z) : Z :=
  w - 2 ^ (8 * off) * Gdt.field w (8 * off) 16 + 2 ^ (8 * off) * Gdt.bits 16 v.

Definition exec (i : insn) (m : mach) : option mach :=
  let '(Mach r s stk) := m in
  match i, stk with
  | PUSH_IMM z, _ => Some (Mach r s (z :: stk))
  | PUSH x, _ => Some (Mach r s (r x :: stk))
  | POP x, w :: stk' => Some (Mach (<[x := w]> r) s stk')
  | MOVW_IMM_AX z, _ => Some (Mach (<[RAX := put16 (r RAX) 0 z]> r) s stk)
  | MOVW_AX_SEG x, _ => Some (Mach r (<[x := Gdt.field (r RAX) 0 16]> s) stk)
  | MOVW_SEG_STK x off, w :: stk' => Some (Mach r s (put16 w off (s x) :: stk'))
  | MOVW_STK_SEG off x, w :: stk' => Some (Mach r (<[x := Gdt.field w (8 * off) 16]> s) stk)
  | ADD_RSP n, _ => Some (Mach r s (drop n stk))
  | _, [] => None
  end.

Fixpoint run (p : list insn) (m : mach) : option mach :=
  match p with
  | [] => Some m
  | i :: p' => m' ← exec i m; run p' m'
  end.

(** What the processor pushes before entering the handler. *)
Definition hw_frame (c : cpu) : list Z := [p_rip c; p_cs c; p_rflags c; p_rsp c; p_ss c].

Definition interrupt_handler_common : list insn :=
  [ PUSH_IMM 0; MOVW_SEG_STK DS 0; MOVW_SEG_STK ES 2; MOVW_SEG_STK FS 4; MOVW_SEG_STK GS 6;
    PUSH R15; PUSH R14; PUSH R13; PUSH R12; PUSH R11; PUSH R10; PUSH R9; PUSH R8;
    PUSH RBP; PUSH RSI; PUSH RDI; PUSH RDX; PUSH RCX; PUSH RBX; PUSH RAX;
    PUSH RAX; MOVW_IMM_AX Gdt.GD_KD; MOVW_AX_SEG DS; MOVW_AX_SEG ES; POP RAX ].

(** The two forms of stub; the processor has pushed the error code for the second. *)
Definition interrupt_handler_no_error_code (num : Z) : list insn :=
  PUSH_IMM 0 :: PUSH_IMM num :: interrupt_handler_common.
Definition interrupt_handler_with_error_code (num : Z) : list insn :=
  PUSH_IMM num :: interrupt_handler_common.

Definition enter (num : Z) (err : option Z) (c : cpu) : option mach :=
  match err with
  | None => run (interrupt_handler_no_error_code num) (Mach (p_reg c) (p_seg c) (hw_frame c))
  | Some e => run (interrupt_handler_with_error_code num) (Mach (p_reg c) (p_seg c) (e :: hw_frame c))
  end.

(** The assembly of [task_run] up to [iretq]. *)
Definition task_run_code : list insn :=
  [ POP RAX; POP RBX; POP RCX; POP RDX; POP RDI; POP RSI; POP RBP;
    POP R8; POP R9; POP R10; POP R11; POP R12; POP R13; POP R14; POP R15;
    MOVW_STK_SEG 0 DS; MOVW_STK_SEG 2 ES; ADD_RSP 1; ADD_RSP 2 ].

(** [iretq] takes the selectors from the low 16 bits of their words. *)
Definition iretq (m : mach) : option cpu :=
  match m_stk m with
  | rip :: cs :: rflags :: rsp :: ss :: _ =>
      Some (Cpu (m_reg m) (m_seg m) rip (Gdt.field cs 0 16) rflags rsp (Gdt.field ss 0 16))
  | _ => None
  end.

(** [movq task, %rsp], the pops, [iretq]. *)
Definition resume (ctx : task_context) (r : reg → Z) (s : seg → Z) : option cpu :=
  m ← run task_run_code (Mach r s (context_words ctx)); iretq m.

(** ** Well-formed values and lemmas *)

Definition cpu_ok (c : cpu) : Prop :=
  (∀ s, 0 ≤ p_seg c s < 2 ^ 16) ∧ 0 ≤ p_cs c < 2 ^ 16 ∧ 0 ≤ p_ss c < 2 ^ 16.

(** The context that describes a processor state. *)
Definition context_of (num err : Z) (c : cpu) : task_context :=
  TaskContext
    (Gprs (p_reg c RAX) (p_reg c RBX) (p_reg c RCX) (p_reg c RDX) (p_reg c RDI) (p_reg c RSI) (p_reg c RBP)
       (p_reg c R8) (p_reg c R9) (p_reg c R10) (p_reg c R11) (p_reg c R12) (p_reg c R13) (p_reg c R14)
       (p_reg c R15))
    (p_seg c DS) (p_seg c ES) (p_seg c FS) (p_seg c GS) num err 0 (p_rip c)
    (p_cs c) 0 (p_rflags c) (p_rsp c) (p_ss c) 0.

Lemma put16_fields d e f g :
  0 ≤ d < 2 ^ 16 → 0 ≤ e < 2 ^ 16 → 0 ≤ f < 2 ^ 16 → 0 ≤ g < 2 ^ 16 →
  put16 (put16 (put16 (put16 0 0 d) 2 e) 4 f) 6 g = Gdt.pack [(16, d); (16, e); (16, f); (16, g)].
Proof.
  intros Hd He Hf Hg. unfold put16. rewrite !Gdt.bits_small by done.
  cbn [Gdt.pack]. change (8 * 0) with 0. change (8 * 2) with 16. change (8 * 4) with 32. change (8 * 6) with 48.
  rewrite !Gdt.field_alt by done. dlia.
Qed.

Lemma put16_ax w v : Gdt.field (put16 w 0 v) 0 16 = Gdt.bits 16 v.
Proof.
  unfold put16, Gdt.bits. change (8 * 0) with 0. rewrite !Gdt.field_alt by done. dlia.
Qed.

Lemma pack_padded w v w' : Gdt.pack [(w, v); (w', 0)] = v.
Proof. cbn [Gdt.pack]. lia. Qed.

(** What the stubs leave on the stack. *)
Lemma enter_words num err c :
  cpu_ok c →
  ∃ m, enter num err c = Some m ∧ m_stk m = context_words (context_of num (default 0 err) c) ∧
    m_seg m DS = Gdt.GD_KD ∧ m_seg m ES = Gdt.GD_KD.
Proof.
  intros (Hs & _). assert (Hp := put16_fields _ _ _ _ (Hs DS) (Hs ES) (Hs FS) (Hs GS)).
  assert (∀ w, Gdt.field (put16 w 0 Gdt.GD_KD) 0 16 = Gdt.GD_KD) as Hax by (intros w; apply put16_ax).
  unfold context_words. cbn [context_of padding2 padding1 padding0]. rewrite !pack_padded.
  cbn [context_of ds es fs gs]. rewrite <- Hp.
  destruct err as [e|]; (eexists; split; [reflexivity|]); cbn [m_stk m_seg]; (split_and!; [done|..]);
    unfold insert, fn_insert; cbn; apply Hax.
Qed.

(** [context_of_words] reads what [context_words] stores. *)
Definition context_ok (c : task_context) : Prop :=
  0 ≤ ds c < 2 ^ 16 ∧ 0 ≤ es c < 2 ^ 16 ∧ 0 ≤ fs c < 2 ^ 16 ∧ 0 ≤ gs c < 2 ^ 16 ∧
  0 ≤ error_code c < 2 ^ 32 ∧ 0 ≤ padding2 c < 2 ^ 32 ∧ 0 ≤ cs c < 2 ^ 16 ∧ 0 ≤ padding1 c < 2 ^ 48 ∧
  0 ≤ ss c < 2 ^ 16 ∧ 0 ≤ padding0 c < 2 ^ 48.

Lemma context_words_of c rest : context_ok c → context_of_words (context_words c ++ rest) = Some c.
Proof.
  intros (Hds & Hes & Hfs & Hgs & He & Hp2 & Hcs & Hp1 & Hss & Hp0). destruct c as [[] ? ? ? ? ? ? ? ? ? ? ? ? ? ?].
  cbn [context_words app context_of_words Gdt.pack c_gprs ds es fs gs interrupt_number error_code padding2 rip
       cs padding1 rflags rsp ss padding0 rax rbx rcx rdx rdi rsi rbp r8 r9 r10 r11 r12 r13 r14 r15] in *.
  f_equal. f_equal; Gdt.read_field.
Qed.

Lemma resume_ok ctx r s :
  context_ok ctx →
  ∃ c, resume ctx r s = Some c ∧
    context_of (interrupt_number ctx) (error_code ctx) c =
      TaskContext (c_gprs ctx) (ds ctx) (es ctx) (s FS) (s GS) (interrupt_number ctx) (error_code ctx) 0
        (rip ctx) (cs ctx) 0 (rflags ctx) (rsp ctx) (ss ctx) 0.
Proof.
  intros (Hds & Hes & Hfs & Hgs & He & Hp2 & Hcs & Hp1 & Hss & Hp0). destruct ctx as [[] ? ? ? ? ? ? ? ? ? ? ? ? ? ?].
  eexists. split; [reflexivity|]. 
  unfold context_of, insert, fn_insert. cbn in Hds, Hes, Hcs, Hss. cbn. f_equal; Gdt.read_field.
Qed.

Lemma context_of_ok num err c : cpu_ok c → 0 ≤ err < 2 ^ 32 → context_ok (context_of num err c).
Proof. intros (Hs & Hcs & Hss) He. unfold context_ok, context_of. cbn. repeat split; apply Hs || lia. Qed.



Definition demo_cpu : cpu := Cpu (λ x, if decide (x = RCX) then 42 else 7) (λ _, 0x23) 0x401000 0x1b 0x202 0xa00000000 0x23.

Lemma demo_cpu_ok : cpu_ok demo_cpu.
Proof. repeat split; done. Defined.



End Context.
