(* ===== verification/Task.v ===== *)
(** Tasks: kernel/task.c and task.h, with the part of kernel/cpu.c they use.

    The kernel state has the memory manager of Map.v, the task table and its
    free list (slots are indexes), the counters, the processor's [cr3] and the
    fields of the one [struct cpu_context] the kernel uses ([cpu_get_id] is
    constantly 0).  A [struct task *] is a slot of the table or the CPU's own
    task ([tptr]).  [task_run] never returns: the operations that end in it
    return the task that was resumed, whose registers are [Context.resume] of
    its context.  User addresses are accessed through the page tables that
    [cr3] selects; [CR0.WP] is never set, so the kernel may write any present
    page, and an access to an address that is not present is [EUndef]. *)

From Stdlib Require Import String.
From S2P Require Import Prelude Memory Queue Mmu Console Map Walk Gdt Context.
Import Mmu Map.

Module Task.

Inductive task_state := TASK_STATE_FREE | TASK_STATE_READY | TASK_STATE_RUN | TASK_STATE_DONT_RUN.

#[global] Instance task_state_eq_dec : EqDecision task_state.
Proof. solve_decision. Defined.

(** [name] is the string held by the 64-byte array. *)
Record task := MkTask {
  context : Context.task_context;
  state : task_state;
  id : Z;
  name : list Z;
  pml4 : Z;
}.

Definition set_context c t := MkTask c (state t) (id t) (name t) (pml4 t).
Definition set_state s t := MkTask (context t) s (id t) (name t) (pml4 t).
Definition set_id i t := MkTask (context t) (state t) i (name t) (pml4 t).
Definition set_name n t := MkTask (context t) (state t) (id t) n (pml4 t).
Definition set_pml4 v t := MkTask (context t) (state t) (id t) (name t) v.

(** [memset(task, 0, sizeof( *task))]. *)
Definition zero_task : task := MkTask Context.zero_context TASK_STATE_FREE 0 [] 0.

Definition TASK_MAX_CNT : Z := 1024.
Definition TASK_NAME_SIZE : nat := 64.
Definition NULL : Z := 0.
Definition RFLAGS_IF : Z := Z.shiftl 1 9.

(** The string left in an array of [n] bytes by [strncpy] (Cstring.strncpy_spec). *)
Definition strncpy_str (n : nat) (l : list Z) : list Z := take (n - 1) l.

Inductive tptr := TSelf | TSlot (i : Z).

#[global] Instance tptr_eq_dec : EqDecision tptr.
Proof. solve_decision. Defined.

Section task.
Context {T : Type} `{!Console T}.

Record kstate := KState {
  mm : mstate T;
  tasks : Z → task;            (* tasks[TASK_MAX_CNT] *)
  free_tasks : Lst.queue;      (* free_tasks and tasks[i].free_link *)
  last_task_id : Z;
  next_task_idx : Z;           (* the static variable of schedule *)
  cr3 : Z;
  cpu_pml4 : Z;                (* cpu_context()->pml4 *)
  cpu_task : option tptr;      (* cpu_context()->task *)
  self_task : task;            (* cpu_context()->self_task *)
  config_pml4 : Z;             (* config->pml4.ptr *)
}.

Definition set_mm m k := KState m (tasks k) (free_tasks k) (last_task_id k) (next_task_idx k)
  (cr3 k) (cpu_pml4 k) (cpu_task k) (self_task k) (config_pml4 k).
Definition set_tasks ts k := KState (mm k) ts (free_tasks k) (last_task_id k) (next_task_idx k)
  (cr3 k) (cpu_pml4 k) (cpu_task k) (self_task k) (config_pml4 k).
Definition set_free_tasks q k := KState (mm k) (tasks k) q (last_task_id k) (next_task_idx k)
  (cr3 k) (cpu_pml4 k) (cpu_task k) (self_task k) (config_pml4 k).
Definition set_last_task_id n k := KState (mm k) (tasks k) (free_tasks k) n (next_task_idx k)
  (cr3 k) (cpu_pml4 k) (cpu_task k) (self_task k) (config_pml4 k).
Definition set_next_task_idx n k := KState (mm k) (tasks k) (free_tasks k) (last_task_id k) n
  (cr3 k) (cpu_pml4 k) (cpu_task k) (self_task k) (config_pml4 k).
Definition set_cr3 v k := KState (mm k) (tasks k) (free_tasks k) (last_task_id k) (next_task_idx k)
  v (cpu_pml4 k) (cpu_task k) (self_task k) (config_pml4 k).
Definition set_cpu_pml4 v k := KState (mm k) (tasks k) (free_tasks k) (last_task_id k) (next_task_idx k)
  (cr3 k) v (cpu_task k) (self_task k) (config_pml4 k).
Definition set_cpu_task p k := KState (mm k) (tasks k) (free_tasks k) (last_task_id k) (next_task_idx k)
  (cr3 k) (cpu_pml4 k) p (self_task k) (config_pml4 k).
Definition set_self_task t k := KState (mm k) (tasks k) (free_tasks k) (last_task_id k) (next_task_idx k)
  (cr3 k) (cpu_pml4 k) (cpu_task k) t (config_pml4 k).

(** Operations of the memory manager on the kernel state. *)
Definition liftm {A} (m : M (mstate T) A) : M kstate A := zoom mm set_mm m.

Definition kprintf (fmt : string) (ap : list arg) : M kstate () := liftm (terminal_printf fmt ap).

Definition kbld : M kstate build := gets (λ k, bld (mm k)).

(** Access to a task through a pointer. *)
Definition slot_at (i : Z) : M kstate () :=
  if (0 <=? i) && (i <? TASK_MAX_CNT) then mret () else fail EUndef.

Definition get_task (p : tptr) : M kstate task :=
  match p with
  | TSelf => gets self_task
  | TSlot i => slot_at i ;; gets (λ k, tasks k i)
  end.

Definition upd_task (p : tptr) (f : task → task) : M kstate () :=
  match p with
  | TSelf => modify (λ k, set_self_task (f (self_task k)) k)
  | TSlot i => slot_at i ;; modify (λ k, set_tasks (<[i := f (tasks k i)]> (tasks k)) k)
  end.

Definition lcr3 (v : Z) : M kstate () := modify (set_cr3 v).
Definition rcr3 : M kstate Z := gets cr3.

(** ** [task_init] *)

Definition init_slot (i : Z) : M kstate () :=
  modify (λ k, set_free_tasks (Lst.LIST_INSERT_HEAD i (free_tasks k)) k) ;;
  upd_task (TSlot i) (set_state TASK_STATE_FREE).

(** The slots in index order. *)
Definition slots : list Z := zseq 0 (Z.to_nat TASK_MAX_CNT).

Definition task_init : M kstate () :=
  mfor (reverse slots) init_slot ;;
  modify (set_cpu_task (Some TSelf)) ;;
  upd_task TSelf (λ _, zero_task).

(** ** [task_new] *)

(** [memcpy] between pages of the linear map. *)
Definition kcopy (dst src n : Z) : M (mstate T) () :=
  modify (λ s, set_phys (mem_move (phys s) (PADDR (bld s) dst) (PADDR (bld s) src) n) s).

Definition task_new (nm : list Z) : M kstate (option Z) :=
  k ← get;
  match Lst.LIST_FIRST (free_tasks k) with
  | None =>
      kprintf ("Can't create task `%s': no more free tasks" ++ nl) [AStr nm] ;;
      mret None
  | Some t =>
      slot_at t ;;
      q ← deref (Lst.LIST_REMOVE t (free_tasks k));
      modify (set_free_tasks (Lst.set_entry t Lst.null_entry q)) ;;
      upd_task (TSlot t) (λ _, zero_task) ;;
      upd_task (TSlot t) (set_name (strncpy_str TASK_NAME_SIZE nm)) ;;
      modify (λ k, set_last_task_id (u32 (last_task_id k + 1)) k) ;;
      n ← gets last_task_id;
      upd_task (TSlot t) (set_id n) ;;
      upd_task (TSlot t) (set_state TASK_STATE_DONT_RUN) ;;
      pg ← liftm page_alloc;
      match pg with
      | None =>
          kprintf ("Can't create task `%s': no memory for new pml4" ++ nl) [AStr nm] ;;
          mret None
      | Some p =>
          liftm (page_incref p) ;;
          b ← kbld;
          let tbl := page2kva b p in
          upd_task (TSlot t) (set_pml4 tbl) ;;
          liftm (kzero tbl PAGE_SIZE) ;;
          liftm (kcopy (tbl + 8 * PML4_IDX USER_TOP) (config_pml4 k + 8 * PML4_IDX USER_TOP)
                   (PAGE_SIZE - PML4_IDX USER_TOP * 8)) ;;
          mret (Some t)
      end
  end.

(** ** [task_destroy] *)

(** The four nested loops, innermost first.  [table_entries f tbl n] runs [f]
    on the present entries [tbl[0..n-1]]. *)
Definition for_present (tbl : Z) (n : nat) (f : Z → Z → M (mstate T) ()) : M (mstate T) () :=
  mfor (zseq 0 n) (λ i,
    e ← kread (tbl + 8 * i);
    if negb (has_flag e PTE_P) then mret () else f i e).

Definition destroy_pt (pte : Z) : M (mstate T) () :=
  for_present pte (Z.to_nat NPT_ENTRIES) (λ l e, page_decref (pa2page (PTE_ADDR e))).

(** Clear the entry and drop the table it referred to. *)
Definition drop_table (tbl i pa : Z) : M (mstate T) () :=
  kwrite (tbl + 8 * i) 0 ;; page_decref (pa2page pa).

Definition destroy_pd (pde : Z) : M (mstate T) () :=
  for_present pde (Z.to_nat NPD_ENTRIES) (λ k e,
    s ← get;
    destroy_pt (VADDR (bld s) (PTE_ADDR e)) ;; drop_table pde k (PTE_ADDR e)).

Definition destroy_pdp (pdpe : Z) : M (mstate T) () :=
  for_present pdpe (Z.to_nat NPDP_ENTRIES) (λ j e,
    s ← get;
    destroy_pd (VADDR (bld s) (PDPE_ADDR e)) ;; drop_table pdpe j (PDPE_ADDR e)).

Definition destroy_pml4 (tbl : Z) : M (mstate T) () :=
  for_present tbl (Z.to_nat (PML4_IDX USER_TOP + 1)) (λ i e,
    s ← get;
    destroy_pdp (VADDR (bld s) (PML4E_ADDR e)) ;; drop_table tbl i (PML4E_ADDR e)).

Definition task_destroy (p : tptr) : M kstate () :=
  t ← get_task p;
  if pml4 t =? NULL then mret ()
  else
    massert (bool_decide (p ≠ TSelf)) ;;
    k ← get;
    (if decide (cpu_task k = Some p) then modify (set_cpu_task None) else mret ()) ;;
    old_cr3 ← rcr3;
    b ← kbld;
    let pa := PADDR b (pml4 t) in
    (if negb (old_cr3 =? pa) then lcr3 pa else mret ()) ;;
    liftm (destroy_pml4 (pml4 t)) ;;
    (if negb (old_cr3 =? pa) then lcr3 old_cr3
     else lcr3 (PADDR b (config_pml4 k)) ;; massert (negb (config_pml4 k =? pml4 t))) ;;
    liftm (page_decref (pa2page pa)) ;;
    upd_task p (set_pml4 NULL) ;;
    match p with
    | TSlot i => modify (λ k, set_free_tasks (Lst.LIST_INSERT_HEAD i (free_tasks k)) k)
    | TSelf => fail EUndef
    end ;;
    upd_task p (set_state TASK_STATE_FREE) ;;
    kprintf ("task [%d] has been destroyed" ++ nl) [AInt (id t)].

(** ** [task_list] and [task_kill] *)

Definition is_alive (t : task) : bool :=
  bool_decide (state t = TASK_STATE_RUN) || bool_decide (state t = TASK_STATE_READY).

Definition is_user (t : task) : bool :=
  negb (Z.land (Context.cs (context t)) Gdt.GDT_DPL_U =? 0).

Definition task_list : M kstate () :=
  kprintf ("task_id        name           owner" ++ nl) [] ;;
  mfor slots (λ i,
    t ← get_task (TSlot i);
    if negb (is_alive t) then mret ()
    else kprintf ("  %d         %s          %s" ++ nl)
           [AInt (id t); AStr (name t); AStr (codes (if is_user t then "user" else "kernel"))]).

Definition task_kill (task_id : Z) : M kstate () :=
  r ← mfor_ret slots (λ i,
    t ← get_task (TSlot i);
    if negb (is_alive t) then mret None
    else if negb (id t =? task_id) then mret None
    else if negb (is_user t) then
      kprintf ("error: killing kernel tasks is forbidden" ++ nl) [] ;; mret (Some ())
    else task_destroy (TSlot i) ;; mret (Some ()));
  match r with
  | Some _ => mret ()
  | None => kprintf ("Can't kill task `%d': no such task" ++ nl) [AInt task_id]
  end.

(** ** Memory through [cr3] *)

Definition vtranslate (k : kstate) (va : Z) : option Z :=
  e ← translate (phys (mm k)) (cr3 k / PAGE_SIZE) va; Some (frame e * PAGE_SIZE + va mod PAGE_SIZE).

Definition vload8 (va : Z) : M kstate byte :=
  k ← get; a ← deref (vtranslate k (u64 va)); mret (phys (mm k) a).

Definition vstore8 (va : Z) (v : byte) : M kstate () :=
  k ← get; a ← deref (vtranslate k (u64 va));
  liftm (modify (λ s, set_phys (<[a := v]> (phys s)) s)).

Fixpoint vload (va : Z) (n : nat) : M kstate Z :=
  match n with
  | O => mret 0
  | S n' => b ← vload8 va; r ← vload (va + 1) n'; mret (b2z b + 256 * r)
  end.

Definition vmemcpy (dst src n : Z) : M kstate () :=
  mfor (zseq 0 (Z.to_nat n)) (λ i, b ← vload8 (src + i); vstore8 (dst + i) b).

Definition vmemset (dst c n : Z) : M kstate () :=
  mfor (zseq 0 (Z.to_nat n)) (λ i, vstore8 (dst + i) (z2b c)).

(** ** ELF headers (kernel/misc/elf.h) *)

Definition ELF_MAGIC : Z := 0x464C457F.
Definition ELF_PHEADER_TYPE_LOAD : Z := 1.
Definition SIZEOF_PHEADER64 : Z := 56.

Definition e_magic (eh : Z) : M kstate Z := vload eh 4.
Definition e_entry (eh : Z) : M kstate Z := vload (eh + 24) 8.
Definition e_phoff (eh : Z) : M kstate Z := vload (eh + 32) 8.
Definition e_phnum (eh : Z) : M kstate Z := vload (eh + 56) 2.

Definition p_type (ph : Z) : M kstate Z := vload ph 4.
Definition p_offset (ph : Z) : M kstate Z := vload (ph + 8) 8.
Definition p_va (ph : Z) : M kstate Z := vload (ph + 16) 8.
Definition p_filesz (ph : Z) : M kstate Z := vload (ph + 32) 8.
Definition p_memsz (ph : Z) : M kstate Z := vload (ph + 40) 8.

(** ** [task_load] and [task_create] *)

Definition task_load_segment (t : Z) (nm : list Z) (binary ph : Z) : M kstate Z :=
  pva ← p_va ph;
  let va := ROUND_DOWN pva PAGE_SIZE in
  memsz ← p_memsz ph;
  let size := ROUND_UP memsz PAGE_SIZE in
  r ← mfor_ret (zseq 0 (Z.to_nat (size / PAGE_SIZE))) (λ n,
    let i := n * PAGE_SIZE in
    pg ← liftm page_alloc;
    match pg with
    | None =>
        kprintf ("Can't load `%s': no more free pages" ++ nl) [AStr nm] ;; mret (Some (-1))
    | Some p =>
        tk ← get_task (TSlot t);
        r ← liftm (page_insert (pml4 tk) p (u64 (va + i)) (Z.lor PTE_U PTE_W));
        if negb (r =? 0) then
          kprintf ("Can't load `%s': page_insert failed" ++ nl) [AStr nm] ;; mret (Some (-1))
        else mret None
    end);
  match r with
  | Some e => mret e
  | None =>
      off ← p_offset ph;
      filesz ← p_filesz ph;
      vmemcpy pva (binary + off) filesz ;;
      vmemset (pva + filesz) 0 (u64 (memsz - filesz)) ;;
      mret 0
  end.

Definition task_load (t : Z) (nm : list Z) (binary size : Z) : M kstate Z :=
  magic ← e_magic binary;
  if negb (magic =? ELF_MAGIC) then
    kprintf ("Can't load task `%s': invalid elf magic" ++ nl) [AStr nm] ;; mret (-1)
  else
    tk ← get_task (TSlot t);
    b ← kbld;
    lcr3 (PADDR b (pml4 tk)) ;;
    phoff ← e_phoff binary;
    phnum ← e_phnum binary;
    r ← mfor_ret (zseq 0 (Z.to_nat phnum)) (λ i,
      let ph := binary + phoff + SIZEOF_PHEADER64 * i in
      ty ← p_type ph;
      if negb (ty =? ELF_PHEADER_TYPE_LOAD) then mret None
      else
        off ← p_offset ph;
        if size <? off then
          kprintf ("Can't load task `%s': truncated binary" ++ nl) [AStr nm] ;; mret (Some ())
        else
          r ← task_load_segment t nm binary ph;
          mret (if negb (r =? 0) then Some () else None));
    match r with
    | None =>
        entry ← e_entry binary;
        upd_task (TSlot t) (λ tk, set_context (Context.set_rip entry (context tk)) tk) ;;
        mret 0
    | Some _ =>
        c ← gets config_pml4;
        lcr3 (PADDR b c) ;;
        mret (-1)
    end.

(** The end of [task_create]: selectors, stack pointer, READY. *)
Definition user_context (c : Context.task_context) : Context.task_context :=
  Context.set_segs (Z.lor Gdt.GD_UT Gdt.GDT_DPL_U) (Z.lor Gdt.GD_UD Gdt.GDT_DPL_U)
    (Z.lor Gdt.GD_UD Gdt.GDT_DPL_U) (Z.lor Gdt.GD_UD Gdt.GDT_DPL_U) USER_STACK_TOP c.

Definition task_create (nm : list Z) (binary size : Z) : M kstate Z :=
  r ← task_new nm;
  match r with
  | None => mret (-1)
  | Some t =>
      let cleanup := task_destroy (TSlot t) ;; mret (-1) in
      r ← task_load t nm binary size;
      if negb (r =? 0) then cleanup
      else
        pg ← liftm page_alloc;
        match pg with
        | None =>
            kprintf ("Can't create `%s': no memory for user stack" ++ nl) [AStr nm] ;; cleanup
        | Some stack =>
            tk ← get_task (TSlot t);
            r ← liftm (page_insert (pml4 tk) stack (USER_STACK_TOP - PAGE_SIZE) (Z.lor PTE_U PTE_W));
            if negb (r =? 0) then
              kprintf ("Can't create `%s': page_insert failed" ++ nl) [AStr nm] ;; cleanup
            else
              upd_task (TSlot t) (λ tk, set_context (user_context (context tk)) tk) ;;
              upd_task (TSlot t) (set_state TASK_STATE_READY) ;;
              mret 0
        end
  end.

(** ** [task_run] and [schedule] *)

(** The result is the task whose context the assembly loads. *)
Definition task_run (p : tptr) : M kstate tptr :=
  upd_task p (λ t, set_context
    (Context.set_rflags (Z.lor (Context.rflags (context t)) RFLAGS_IF) (context t)) t) ;;
  upd_task p (set_state TASK_STATE_RUN) ;;
  mret p.

Fixpoint schedule_loop (i : Z) (js : list Z) : M kstate tptr :=
  match js with
  | [] => fail EPanic  (* panic("no more tasks") *)
  | j :: js' =>
      let idx := u32 (i + j) mod TASK_MAX_CNT in
      t ← get_task (TSlot idx);
      if negb (bool_decide (state t = TASK_STATE_READY)) then
        massert (negb (bool_decide (state t = TASK_STATE_RUN))) ;;
        schedule_loop i js'
      else
        b ← kbld;
        c ← rcr3;
        (if negb (c =? PADDR b (pml4 t)) then lcr3 (PADDR b (pml4 t)) else mret ()) ;;
        modify (set_cpu_task (Some (TSlot idx))) ;;
        modify (set_cpu_pml4 (pml4 t)) ;;
        modify (set_next_task_idx (idx + 1)) ;;
        task_run (TSlot idx)
  end.

Definition schedule : M kstate tptr :=
  i ← gets (λ k, u32 (next_task_idx k));
  schedule_loop i slots.

End task.
Arguments kstate : clear implicits.

End Task.
