(* ===== verification/SchedProofs.v ===== *)
(** The scheduler of kernel/task.c: round robin.

    [next_ready] is the specification: the first READY slot in cyclic order
    from [next_task_idx].  [schedule_spec] says that [schedule] resumes exactly
    that task, with the address space switched and nothing else touched, and
    panics exactly when no slot is READY.  [waits_bound] is the fairness
    argument: the cyclic distance to a READY slot shrinks at every turn given
    to another one. *)

From S2P Require Import Prelude Memory Queue Mmu Console Map Gdt Context Task.
Import Mmu Map Task.

Section sched.
Context {T : Type} `{!Console T}.
Implicit Types (k : kstate T).

Definition ready (t : task) : Prop := state t = TASK_STATE_READY.

#[export] Instance ready_dec t : Decision (ready t).
Proof. unfold ready. apply _. Defined.

Lemma slots_elem i : i ∈ slots ↔ 0 ≤ i < TASK_MAX_CNT.
Proof. apply zseq_elem. Qed.

(** The slots in the order [schedule] visits them. *)
Definition cyclic (i : Z) : list Z := (λ j, (i + j) mod TASK_MAX_CNT) <$> slots.

Definition next_ready (ts : Z → task) (i : Z) : option Z := head (filter (λ idx, ready (ts idx)) (cyclic i)).

(** What [task_run] does to the task. *)
Definition run_task (t : task) : task :=
  set_state TASK_STATE_RUN
    (set_context (Context.set_rflags (Z.lor (Context.rflags (context t)) RFLAGS_IF) (context t)) t).

(** No slot is in state RUN: true whenever the kernel is running, except for
    the task being resumed. *)
Definition no_run k : Prop := ∀ i, 0 ≤ i < TASK_MAX_CNT → state (tasks k i) ≠ TASK_STATE_RUN.

Definition sched_ok k : Prop := 0 ≤ next_task_idx k ≤ TASK_MAX_CNT ∧ no_run k.

Record scheduled k (idx : Z) k' : Prop := {
  sc_task : tasks k' idx = run_task (tasks k idx);
  sc_other j : j ≠ idx → tasks k' j = tasks k j;
  sc_cr3 : cr3 k' = PADDR (bld (mm k)) (pml4 (tasks k idx));
  sc_cpu_task : cpu_task k' = Some (TSlot idx);
  sc_cpu_pml4 : cpu_pml4 k' = pml4 (tasks k idx);
  sc_next : next_task_idx k' = idx + 1;
  sc_mm : mm k' = mm k;
  sc_free : free_tasks k' = free_tasks k;
  sc_last : last_task_id k' = last_task_id k;
  sc_self : self_task k' = self_task k;
  sc_config : config_pml4 k' = config_pml4 k;
}.

Lemma slot_at_ok (i : Z) k : 0 ≤ i < TASK_MAX_CNT → slot_at i k = Ok ((), k).
Proof.
  intros [H1 H2]. unfold slot_at. by rewrite (proj2 (Z.leb_le 0 i)), (proj2 (Z.ltb_lt i _)).
Qed.

Lemma get_slot_ok i k : 0 ≤ i < TASK_MAX_CNT → get_task (TSlot i) k = Ok (tasks k i, k).
Proof. intros H. cbn. unfold mbind, M_bind. by rewrite slot_at_ok. Qed.

Lemma upd_slot_ok i f k :
  0 ≤ i < TASK_MAX_CNT →
  upd_task (TSlot i) f k = Ok ((), set_tasks (<[i := f (tasks k i)]> (tasks k)) k).
Proof. intros H. cbn. unfold mbind, M_bind. by rewrite slot_at_ok. Qed.

Lemma task_run_ok i k :
  0 ≤ i < TASK_MAX_CNT →
  ∃ ts, task_run (TSlot i) k = Ok (TSlot i, set_tasks ts k) ∧
    ts i = run_task (tasks k i) ∧ (∀ j, j ≠ i → ts j = tasks k j).
Proof.
  intros H. unfold task_run, mbind, M_bind. rewrite !upd_slot_ok by done. eexists. split; [done|].
  cbn [tasks set_tasks]. rewrite !fn_lookup_insert. split; [done|].
  intros j Hj. by rewrite !fn_lookup_insert_ne by done.
Qed.

Lemma schedule_loop_spec k i js :
  0 ≤ i ≤ TASK_MAX_CNT → Forall (λ j, 0 ≤ j < TASK_MAX_CNT) js → no_run k →
  match head (filter (λ idx, ready (tasks k idx)) ((λ j, (i + j) mod TASK_MAX_CNT) <$> js)) with
  | Some idx => ∃ k', schedule_loop i js k = Ok (TSlot idx, k') ∧ scheduled k idx k'
  | None => schedule_loop i js k = Err EPanic
  end.
Proof.
  intros Hi Hjs Hn. induction Hjs as [|j js Hj _ IH]; [done|].
  cbn [fmap list_fmap schedule_loop]. unfold TASK_MAX_CNT in Hi, Hj. rewrite u32_small by lia.
  set (idx := (i + j) mod TASK_MAX_CNT).
  assert (0 ≤ idx < TASK_MAX_CNT) as Hx by (apply Z.mod_pos_bound; done).
  unfold mbind, M_bind. rewrite get_slot_ok by done. rewrite filter_cons.
  destruct (decide (ready (tasks k idx))) as [Hr|Hr].
  - rewrite bool_decide_true by done. cbn [head negb]. unfold kbld, rcr3, gets.
    set (c := PADDR (bld (mm k)) (pml4 (tasks k idx))).
    assert (∃ k1, (if negb (cr3 k =? c) then lcr3 c else mret ()) k = Ok ((), k1) ∧
      k1 = set_cr3 c k) as (k1 & -> & ->).
    { destruct (Z.eqb_spec (cr3 k) c) as [<-|]; [|by eexists]. exists k. split; [done|by destruct k]. }
    unfold modify. edestruct (task_run_ok idx) as (ts & -> & H1 & H2); [done|].
    eexists. split; [done|]. by constructor.
  - rewrite bool_decide_false by done. cbn [negb]. rewrite bool_decide_false by (by apply Hn). exact IH.
Qed.

Lemma schedule_ok k :
  sched_ok k →
  match next_ready (tasks k) (next_task_idx k) with
  | Some idx => ∃ k', schedule k = Ok (TSlot idx, k') ∧ scheduled k idx k'
  | None => schedule k = Err EPanic
  end.
Proof.
  intros [Hi Hn]. unfold schedule, mbind, M_bind, gets, next_ready, cyclic.
  rewrite u32_small by (unfold TASK_MAX_CNT in Hi; lia). apply schedule_loop_spec; [done| |done].
  apply Forall_forall. intros j Hj. by apply slots_elem.
Qed.

(** ** Fairness *)

(** The number of slots visited before slot [i]. *)
Definition dist (n i : Z) : Z := (i - n) mod TASK_MAX_CNT.

Lemma first_zseq (P : Z → Prop) `{∀ x, Decision (P x)} (f : Z → Z) j0 n x :
  head (filter P (f <$> zseq j0 n)) = Some x →
  ∃ j, j0 ≤ j < j0 + Z.of_nat n ∧ x = f j ∧ P x ∧ ∀ j', j0 ≤ j' < j → ¬ P (f j').
Proof.
  revert j0. induction n as [|n IH]; intros j0; [done|]. cbn [zseq fmap list_fmap]. rewrite filter_cons.
  destruct (decide (P (f j0))) as [Hp|Hp].
  - intros [= <-]. exists j0. split_and!; [lia|lia|done|done|lia].
  - intros Hh. destruct (IH _ Hh) as (j & Hj & -> & HP & Hf). exists j. split_and!; [lia|lia|done|done|].
    intros j' Hj'. destruct (decide (j' = j0)) as [->|]; [done|]. apply Hf. lia.
Qed.

Lemma head_filter_none (P : Z → Prop) `{∀ x, Decision (P x)} l x :
  x ∈ l → P x → head (filter P l) ≠ None.
Proof.
  intros Hx HP. assert (x ∈ filter P l) as Hf by (by apply list_elem_of_filter).
  destruct (filter P l); [by apply elem_of_nil in Hf|done].
Qed.

(** The chosen slot is READY and no READY slot is closer. *)
Lemma next_ready_first ts n idx :
  0 ≤ n ≤ TASK_MAX_CNT → next_ready ts n = Some idx →
  0 ≤ idx < TASK_MAX_CNT ∧ ready (ts idx) ∧
  ∀ i, 0 ≤ i < TASK_MAX_CNT → ready (ts i) → dist n idx ≤ dist n i.
Proof.
  intros Hn H. apply first_zseq in H as (j & Hj & -> & Hr & Hf).
  unfold dist, TASK_MAX_CNT in *. change (Z.of_nat (Z.to_nat 1024)) with 1024 in Hj.
  split; [dlia|]. split; [done|]. intros i Hi Hri.
  destruct (Z.le_gt_cases (((n + j) mod 1024 - n) mod 1024) ((i - n) mod 1024)) as [|Hlt]; [done|exfalso].
  apply (Hf ((i - n) mod 1024)); [dlia|]. by replace ((n + (i - n) mod 1024) mod 1024) with i by dlia.
Qed.

Lemma next_ready_some ts n i :
  0 ≤ n ≤ TASK_MAX_CNT → 0 ≤ i < TASK_MAX_CNT → ready (ts i) → is_Some (next_ready ts n).
Proof.
  intros Hn Hi Hr. apply not_eq_None_Some. apply (head_filter_none _ _ i); [|done].
  apply list_elem_of_fmap. exists (dist n i). split; [unfold dist, TASK_MAX_CNT in *; dlia|].
  apply slots_elem. unfold dist. apply Z.mod_pos_bound. done.
Qed.

(** A slot that was passed over is strictly closer next time. *)
Lemma dist_step n idx i :
  0 ≤ n ≤ TASK_MAX_CNT → 0 ≤ idx < TASK_MAX_CNT → 0 ≤ i < TASK_MAX_CNT → idx ≠ i →
  dist n idx ≤ dist n i → dist (idx + 1) i < dist n i.
Proof. unfold dist, TASK_MAX_CNT. intros. dlia. Qed.

(** [waits i n k]: from [k] on, [n] consecutive turns go to slots other than
    [i], which stays READY; between two turns anything may happen to the state
    that leaves [next_task_idx], the readiness of [i] and the absence of RUN
    tasks. *)
Inductive waits (i : Z) : nat → kstate T → Prop :=
| waits_O k : waits i O k
| waits_S n k idx k1 k2 :
    schedule k = Ok (TSlot idx, k1) → idx ≠ i →
    next_task_idx k2 = next_task_idx k1 → no_run k2 → ready (tasks k2 i) →
    waits i n k2 → waits i (S n) k.

Lemma waits_dist i n k :
  0 ≤ i < TASK_MAX_CNT → sched_ok k → ready (tasks k i) → waits i n k →
  Z.of_nat n ≤ dist (next_task_idx k) i.
Proof.
  intros Hi Hk Hr Hw. revert Hk Hr.
  induction Hw as [k|n k idx k1 k2 Hs Hne Hnx Hn2 Hr2 Hw IH]; intros [Hn Hno] Hr.
  - unfold dist. apply Z.mod_pos_bound. done.
  - pose proof (schedule_ok k (conj Hn Hno)) as Hsp.
    destruct (next_ready _ _) as [idx'|] eqn:E; [|congruence].
    destruct Hsp as (k' & Hs' & Hsc). rewrite Hs in Hs'. injection Hs' as <- <-.
    destruct (next_ready_first _ _ _ Hn E) as (Hx & _ & Hmin).
    rewrite (sc_next _ _ _ Hsc) in Hnx.
    assert (sched_ok k2) as Hk2 by (split; [rewrite Hnx; unfold TASK_MAX_CNT in *; lia|done]).
    specialize (IH Hk2 Hr2). rewrite Hnx in IH.
    pose proof (dist_step (next_task_idx k) idx i Hn Hx Hi Hne (Hmin i Hi Hr)). lia.
Qed.

End sched.
