(* ===== verification/DestroyProofs.v ===== *)
(** [task_destroy]: the nested loops give back every page table of the task and
    drop every reference its entries hold.

    Between the inner loop and the removal of a last-level table its entries
    still stand in memory although their references are gone; the invariant is
    therefore kept for a memory in which they are cleared ([wf K (set_phys m s)
    g]) until the table itself is unlinked.  [pruned] describes the state after
    the subtree below a table has been removed; one lemma handles a level of
    the tree, whatever the level. *)

From S2P Require Import Prelude Memory Queue Mmu Console Map AllocProofs Walk MapWf.
From S2P Require Import LookupProofs InsertProofs Gdt Context Task.
Import Mmu Map.

Section destroy.
Context {T : Type} `{!Console T, !ConsoleLaws T} (K : Z).
Implicit Types (s : mstate T) (g : ghost).

(** Every page nobody refers to is in the free list. *)
Definition tight s g : Prop := ∀ d, in_range s d → d ∉ fl g → lab g d = None → 0 < refs s d.

(** Slot [i] of a table labelled [l] is not one of the shared slots of a root. *)
Definition uslot (l : label) (i : Z) : Prop := l_path l ≠ [] ∨ i < KIDX.

Lemma child_uslot l i : uslot l i → child K l i = Lab (l_owner l) (l_path l ++ [i]).
Proof.
  intros H. unfold child. destruct (Z.leb_spec KIDX i); [|by rewrite andb_false_r].
  rewrite bool_decide_false; [done|]. destruct H; [done|lia].
Qed.

(** Only one slot leads to a table of a user tree. *)
Lemma child_inj l i l' j : uslot l i → child K l' j = child K l i → l' = l ∧ j = i.
Proof.
  intros H. rewrite (child_uslot l i H). destruct l as [o p], l' as [o' p']. unfold child; cbn in *.
  case_bool_decide as E; cbn [andb]; [destruct (Z.leb_spec KIDX j)|]; cbn.
  - intros [= -> Hp]. apply (app_inj_tail [] p) in Hp as [<- ->]. destruct H; [done|cbn in *; lia].
  - intros [= -> [-> ->]%app_inj_tail]. done.
  - intros [= -> [-> ->]%app_inj_tail]. done.
Qed.

Section shrink.
Context s g (m : mem) (f i c : Z) (l : label).
Hypothesis W : wf K (set_phys m s) g.
Hypothesis Hl : lab g f = Some l.
Hypothesis Hlen : (length (l_path l) < 3)%nat.
Hypothesis Hi : 0 ≤ i < 512.
Hypothesis Hus : uslot l i.
Hypothesis P : present (entry_at m f i) = true.
Hypothesis Hc : frame (entry_at m f i) = c.
Hypothesis Hempty : ∀ j, 0 ≤ j < 512 → present (entry_at m c j) = false.

Definition shrink_ghost : ghost := Ghost (<[c := None]> (lab g)) (c :: fl g) (pins g).
Definition shrink_mem : mem := wr64 m (f * 4096 + 8 * i) 0.

Lemma shrink_c : lab g c = Some (child K l i) ∧ in_range s c ∧ refs s c = 1 ∧ c ∉ fl g ∧ c ≠ f.
Proof.
  pose proof (wf_edge _ _ _ W f l i Hl Hlen Hi P) as Hlc. cbn [phys set_phys] in Hlc. rewrite Hc in Hlc.
  destruct (wf_lab _ _ _ W c _ Hlc) as (Hr & _ & H1). split_and!; try done; try apply Hr.
  - intros Hin. destruct (wf_free _ _ _ W c Hin). congruence.
  - intros ->. rewrite Hl in Hlc. injection Hlc as Hlc. apply (f_equal l_path) in Hlc.
    rewrite child_path in Hlc. apply (f_equal length) in Hlc. rewrite length_app in Hlc. cbn in Hlc. lia.
Qed.

Lemma shrink_ent f' j : 0 ≤ j < 512 → (f', j) ≠ (f, i) → entry_at shrink_mem f' j = entry_at m f' j.
Proof. intros Hj Hne. apply entry_wr_ne; [done|done|congruence]. Qed.

Lemma shrink_ent_eq : entry_at shrink_mem f i = 0.
Proof. unfold shrink_mem. by rewrite entry_wr_eq. Qed.

Lemma shrink_lab f' l' : lab shrink_ghost f' = Some l' → lab g f' = Some l' ∧ f' ≠ c.
Proof. cbn. rewrite fn_insert_dec. by destruct (decide (c = f')). Qed.

Lemma shrink_uleaf f' : f' ≠ c → uleaf K shrink_ghost f' = uleaf K g f'.
Proof. intros Hf. unfold uleaf. cbn. by rewrite fn_lookup_insert_ne. Qed.

Lemma shrink_ucount d :
  ucount K shrink_mem shrink_ghost (pages_cnt s) d = ucount K m g (pages_cnt s) d.
Proof.
  apply zsum_ext. intros [f' j] [Hf' Hj]%cells_elem. unfold refers. cbn [fst snd].
  destruct (decide (f' = c)) as [->|Hne].
  - rewrite (Hempty j Hj), andb_false_r. unfold uleaf. cbn. by rewrite fn_lookup_insert.
  - rewrite shrink_uleaf by done. destruct (decide ((f', j) = (f, i))) as [[= -> ->]|Hd].
    + unfold uleaf. rewrite Hl, bool_decide_false by lia. done.
    + by rewrite shrink_ent.
Qed.

Lemma shrink_edge f' l' j :
  lab shrink_ghost f' = Some l' → (length (l_path l') < 3)%nat → 0 ≤ j < 512 →
  present (entry_at shrink_mem f' j) = true →
  lab shrink_ghost (frame (entry_at shrink_mem f' j)) = Some (child K l' j).
Proof.
  intros [Hl' Hne]%shrink_lab Hlen' Hj.
  destruct (decide ((f', j) = (f, i))) as [[= -> ->]|Hd]; [by rewrite shrink_ent_eq|].
  rewrite shrink_ent by done. intros P'.
  pose proof (wf_edge _ _ _ W f' l' j Hl' Hlen' Hj P') as Hlc. cbn [phys set_phys] in Hlc.
  cbn. rewrite fn_lookup_insert_ne; [done|]. intros E. rewrite <- E in Hlc.
  destruct shrink_c as (Hlc' & _). rewrite Hlc' in Hlc. injection Hlc as Hch.
  destruct (child_inj l i l' j Hus (eq_sym Hch)) as [-> ->].
  apply Hd. f_equal. by apply (wf_inj _ _ _ W) with l.
Qed.

Lemma shrink_back f' o q j :
  lab shrink_ghost f' = Some (Lab o (q ++ [j])) →
  0 ≤ j < 512 ∧ ∃ f'', lab shrink_ghost f'' = Some (Lab o q) ∧
    present (entry_at shrink_mem f'' j) = true ∧ frame (entry_at shrink_mem f'' j) = f'.
Proof.
  intros [Hl' Hne]%shrink_lab. destruct (wf_back _ _ _ W _ _ _ _ Hl') as (Hj & f'' & Hf'' & P' & Hfr).
  cbn [phys set_phys] in P', Hfr. split; [done|]. exists f''. split.
  - cbn. rewrite fn_lookup_insert_ne; [done|]. intros <-. by rewrite Hempty in P'.
  - rewrite shrink_ent; [done|done|]. intros [= -> ->]. congruence.
Qed.

Lemma shrink_leaf f' j :
  uleaf K shrink_ghost f' = true → 0 ≤ j < 512 →
  if present (entry_at shrink_mem f' j)
  then let d := frame (entry_at shrink_mem f' j) in
       in_range s d ∧ d ∉ c :: fl g ∧ lab shrink_ghost d = None
  else entry_at shrink_mem f' j = 0.
Proof.
  intros Hu Hj. destruct (decide (f' = c)) as [->|Hne].
  { unfold uleaf in Hu. cbn in Hu. by rewrite fn_lookup_insert in Hu. }
  rewrite shrink_uleaf in Hu by done.
  destruct (decide ((f', j) = (f, i))) as [[= -> ->]|Hd]; [by rewrite shrink_ent_eq|].
  rewrite shrink_ent by done. pose proof (wf_leaf _ _ _ W f' j Hu Hj) as Hlf. cbn [phys set_phys] in Hlf.
  destruct (present (entry_at m f' j)); [|exact Hlf]. destruct Hlf as (Hr & Hn & Hld).
  destruct shrink_c as (Hlc & _). split; [done|]. split.
  - apply not_elem_of_cons. split; [congruence|done].
  - cbn. rewrite fn_lookup_insert_ne; [done|congruence].
Qed.

Lemma drop_table_ok :
  ∃ q con, let s1 := set_con con (set_free q (set_refs (<[c := refs s c - 1]> (refs s)) s)) in
    page_decref c s = Ok ((), s1) ∧ wf K (set_phys shrink_mem s1) shrink_ghost.
Proof.
  destruct shrink_c as (Hlc & Hr & H1 & Hn & Hcf).
  destruct (page_decref_ok s c (fl g)) as (q & con & Hrun & Hcon & Hq);
    [exact (wf_alloc _ _ _ W)|done|done|lia|exact (wf_con _ _ _ W)|].
  exists q, con. cbn zeta. split; [done|]. rewrite H1 in Hq. cbn in Hq.
  constructor; cbn [lab fl pins shrink_ghost phys set_phys].
  - exact (wf_build _ _ _ W).
  - split; [done|]. intros x [->|Hx]%elem_of_cons; [done|]. by apply (wf_alloc _ _ _ W).
  - done.
  - intros x Hx. rewrite fn_insert_dec. destruct (decide (c = x)) as [<-|Hne].
    + split; [done|]. by apply (wf_tpin _ _ _ W _ _ Hlc).
    + apply (wf_free _ _ _ W). set_solver.
  - intros f' l' [Hl' Hne]%shrink_lab. destruct (wf_lab _ _ _ W f' l' Hl') as (? & ? & ?).
    split_and!; [done..|]. cbn [refs set_refs set_con set_free set_phys]. by rewrite fn_lookup_insert_ne.
  - intros f' l' [Hl' Hne]%shrink_lab. by apply (wf_tpin _ _ _ W f' l').
  - intros f' o' [Hl' Hne]%shrink_lab. by apply (wf_root _ _ _ W).
  - intros f1 f2 l' [H1' _]%shrink_lab [H2' _]%shrink_lab. by apply (wf_inj _ _ _ W) with l'.
  - exact shrink_edge.
  - exact shrink_back.
  - exact shrink_leaf.
  - intros d Hd Hdn. rewrite fn_insert_dec. destruct (decide (c = d)) as [<-|Hne]; [set_solver|]. intros Hld.
    cbn [refs set_refs set_con set_free set_phys pages_cnt]. rewrite fn_lookup_insert_ne by done.
    rewrite shrink_ucount. apply (wf_refs _ _ _ W); [done|set_solver|done].
Qed.
End shrink.

(** ** Pruning a subtree *)

(** The labels of the tables below slots [0..n-1] of the table labelled [l]. *)
Definition below (l : label) (n : Z) (l' : label) : Prop :=
  l_owner l' = l_owner l ∧ ∃ i q, l_path l' = l_path l ++ i :: q ∧ i < n.

(** From [(s, g)] to [(s', g')] the tables with labels in [P] are gone; [f] is
    the only other table whose entries may differ. *)
Record pruned (P : label → Prop) (f : Z) s g s' g' : Prop := {
  pr_bld : bld s' = bld s;
  pr_cnt : pages_cnt s' = pages_cnt s;
  pr_keep x l : lab g x = Some l → ¬ P l → lab g' x = Some l;
  pr_sub x l : lab g' x = Some l → lab g x = Some l ∧ ¬ P l;
  pr_gone x l : lab g x = Some l → P l → x ∈ fl g';
  pr_fl x : x ∈ fl g → x ∈ fl g';
  pr_pins : pins g' = pins g;
  pr_ent x l j : lab g x = Some l → ¬ P l → x ≠ f → 0 ≤ j < 512 →
    entry_at (phys s') x j = entry_at (phys s) x j;
  pr_mem x : lab g (x / 4096) = None → phys s' x = phys s x;
  pr_tight : tight s g → tight s' g';
}.

Lemma pruned_refl P f s g : (∀ x l, lab g x = Some l → ¬ P l) → pruned P f s g s g.
Proof. intros HP. constructor; try done; [eauto|]. intros x l Hl Hp. by destruct (HP x l). Qed.

(** The subtree of [f] has been removed up to slot [n]: a memory [m] that
    differs from the real one at most in table [f] satisfies the invariant and
    has no present entry there. *)
Definition emptied (f : Z) (l : label) (n : Z) s g s' g' (m : mem) : Prop :=
  wf K (set_phys m s') g' ∧ pruned (below l n) f s g s' g' ∧
  (∀ x l' j, lab g' x = Some l' → x ≠ f → 0 ≤ j < 512 → entry_at m x j = entry_at (phys s') x j) ∧
  (∀ j, 0 ≤ j < n → present (entry_at m f j) = false) ∧
  (∀ j, n ≤ j < 512 → entry_at m f j = entry_at (phys s) f j ∧ entry_at (phys s') f j = entry_at (phys s) f j).

(** The specification of a routine that empties the tables of depth [d]. *)
Definition empties (D : Z → M (mstate T) ()) (d : nat) (o : Z) : Prop :=
  ∀ s g f l, wf K s g → lab g f = Some l → l_owner l = o → length (l_path l) = d →
    ∃ s' g' m, D (VADDR (bld s) (f * 4096)) s = Ok ((), s') ∧ emptied f l 512 s g s' g' m.

Lemma below_not l n : ¬ below l n l.
Proof.
  intros (_ & i & q & Hp & _). apply (f_equal length) in Hp. rewrite length_app in Hp. cbn in Hp. lia.
Qed.

(** An ancestor of a table is a table. *)
Lemma ancestor s g x o p q :
  wf K s g → lab g x = Some (Lab o (p ++ q)) → ∃ y, lab g y = Some (Lab o p).
Proof.
  intros W. revert x. induction q as [|i q IH] using rev_ind; intros x Hx.
  - rewrite app_nil_r in Hx. eauto.
  - rewrite app_assoc in Hx. destruct (wf_back _ _ _ W _ _ _ _ Hx) as (_ & y & Hy & _). eauto.
Qed.

(** A slot that is not present has no table below it. *)
Lemma absent_below s g f l n x q :
  wf K s g → lab g f = Some l → present (entry_at (phys s) f n) = false →
  lab g x ≠ Some (Lab (l_owner l) (l_path l ++ n :: q)).
Proof.
  intros W Hl P Hx. replace (l_path l ++ n :: q) with ((l_path l ++ [n]) ++ q) in Hx by (by rewrite <- app_assoc).
  apply (ancestor s g) in Hx as [y Hy]; [|done].
  destruct (wf_back _ _ _ W _ _ _ _ Hy) as (_ & z & Hz & Pz & _).
  assert (z = f) as -> by (apply (wf_inj _ _ _ W) with l; [by destruct l|done]). congruence.
Qed.

Lemma below_succ l n l' :
  below l (n + 1) l' ↔ below l n l' ∨ (¬ below l n l' ∧ ∃ q, l' = Lab (l_owner l) (l_path l ++ n :: q)).
Proof.
  split.
  - intros (Ho & i & q & Hp & Hi). destruct (decide (i = n)) as [->|].
    + right. split; [|exists q; destruct l'; cbn in *; congruence].
      intros (_ & i & q' & Hp' & Hlt). rewrite Hp in Hp'. apply app_inv_head in Hp'. injection Hp' as -> _. lia.
    + left. split; [done|]. exists i, q. split; [done|lia].
  - intros [(Ho & i & q & Hp & Hi)|(_ & q & ->)].
    + split; [done|]. exists i, q. split; [done|lia].
    + split; [done|]. exists n, q. split; [done|lia].
Qed.

Lemma emptied_lab f l n s g s' g' m :
  emptied f l n s g s' g' m → lab g f = Some l → lab g' f = Some l.
Proof. intros (_ & Hp & _) Hl. by apply (pr_keep _ _ _ _ _ _ Hp), below_not. Qed.

(** One more slot is not present. *)
Lemma emptied_next f l n s g s' g' m :
  wf K (set_phys m s') g' → pruned (below l n) f s g s' g' →
  (∀ x l' j, lab g' x = Some l' → x ≠ f → 0 ≤ j < 512 → entry_at m x j = entry_at (phys s') x j) →
  (∀ j, 0 ≤ j ≤ n → present (entry_at m f j) = false) →
  (∀ j, n < j < 512 → entry_at m f j = entry_at (phys s) f j ∧ entry_at (phys s') f j = entry_at (phys s) f j) →
  lab g f = Some l → 0 ≤ n < 512 → emptied f l (n + 1) s g s' g' m.
Proof.
  intros W Hp Hm H0 H1 Hl Hn. pose proof (H0 n ltac:(lia)) as P.
  assert (lab g' f = Some l) as Hl' by (by apply (pr_keep _ _ _ _ _ _ Hp), below_not).
  split; [done|]. split_and!; [|done| |].
  - assert (∀ x l', lab g' x = Some l' → ¬ below l (n + 1) l') as Hno.
    { intros x l' Hx [Hb|(_ & q & ->)]%below_succ; [by apply (pr_sub _ _ _ _ _ _ Hp) in Hx as [_ ?]|].
      by apply (absent_below _ g' f l n x q W Hl' P) in Hx. }
    destruct Hp as [P1 P2 P3 P4 P5 P6 P7 P8 P9 P10]. constructor; try done.
    + intros x l' Hx Hb. apply P3; [done|]. intros ?. apply Hb, below_succ. by left.
    + intros x l' Hx. split; [by apply P4|by apply (Hno x)].
    + intros x l' Hx [Hb|(Hb & q & Hq)]%below_succ; [by apply (P5 x l')|].
      pose proof (P3 x l' Hx Hb) as Hx'. exfalso. apply (Hno x l' Hx'), below_succ. right. eauto.
    + intros x l' j Hx Hb. apply (P8 x l'); [done|]. intros ?. apply Hb, below_succ. by left.
  - intros j Hj. apply H0. lia.
  - intros j Hj. apply H1. lia.
Qed.

Lemma emptied_skip f l n s g s' g' m :
  emptied f l n s g s' g' m → lab g f = Some l → 0 ≤ n < 512 → present (entry_at m f n) = false →
  emptied f l (n + 1) s g s' g' m.
Proof.
  intros (W & Hp & Hm & H0 & H1) Hl Hn P. apply emptied_next; try done.
  - intros j Hj. destruct (decide (j = n)) as [->|]; [done|]. apply H0. lia.
  - intros j Hj. apply H1. lia.
Qed.

(** ** The last level *)

Lemma fl_drop_sub s g d x : x ∈ fl g → x ∈ fl_drop s g d.
Proof. unfold fl_drop. destruct (_ =? _); set_solver. Qed.

(** Dropping the reference held by the next entry of a last-level table. *)
Lemma emptied_clear f l n s g s1 g1 m e :
  emptied f l n s g s1 g1 m → lab g f = Some l → length (l_path l) = 3%nat → l_owner l ≠ K →
  0 ≤ n < 512 → entry_at m f n = e → present e = true →
  ∃ s2 g2 m2, page_decref (frame e) s1 = Ok ((), s2) ∧ phys s2 = phys s1 ∧ lab g2 = lab g1 ∧
    emptied f l (n + 1) s g s2 g2 m2.
Proof.
  intros HE Hl H3 Ho Hn He P. pose proof (emptied_lab _ _ _ _ _ _ _ _ HE Hl) as Hl1.
  destruct HE as (W & Hp & Hm & H0 & H1).
  assert (uleaf K g1 f = true) as Hu by (by eapply uleaf_intro).
  destruct (clear_entry K s1 g1 m f n e W Hu Hn He P) as (q & c & Hrun & Hrefs & W2).
  set (s2 := set_con c _) in *. set (g2 := write_ghost g1 _) in *.
  exists s2, g2, (wr64 m (f * 4096 + 8 * n) 0). split; [done|]. split; [done|]. split; [done|].
  apply emptied_next; [done| | | | |done|done].
  - destruct Hp as [P1 P2 P3 P4 P5 P6 P7 P8 P9 P10].
    constructor; try done.
    + intros x l' Hx Hb. by apply fl_drop_sub, (P5 x l').
    + intros x Hx. by apply fl_drop_sub, P6.
    + intros Ht d Hd Hdn Hld. assert (d ∉ fl g1) as Hdn1 by (intros ?; by apply Hdn, fl_drop_sub).
      specialize (P10 Ht d Hd Hdn1 Hld). rewrite Hrefs. unfold delta. rewrite P. cbn [andb].
      destruct (Z.eqb_spec (frame e) d) as [<-|]; [|lia].
      cbn [g2 write_ghost fl] in Hdn. unfold fl_drop in Hdn.
      destruct (Z.eqb_spec (refs s1 (frame e)) 1); [set_solver|lia].
  - intros x l' j Hx Hne Hj. rewrite entry_wr_ne by (done || congruence). by apply (Hm x l').
  - intros j Hj. destruct (decide (j = n)) as [->|]; [by rewrite entry_wr_eq|].
    rewrite entry_wr_ne by (lia || (intros [= ?]; lia)). apply H0. lia.
  - intros j Hj. rewrite entry_wr_ne by (lia || (intros [= ?]; lia)). apply H1. lia.
Qed.

(** The indexes in a label are indexes of table entries. *)
Lemma label_range s g x o p j q :
  wf K s g → lab g x = Some (Lab o (p ++ j :: q)) → 0 ≤ j < 512.
Proof.
  intros W Hx. replace (p ++ j :: q) with ((p ++ [j]) ++ q) in Hx by (by rewrite <- app_assoc).
  apply (ancestor s g) in Hx as [y Hy]; [|done]. by apply (wf_back _ _ _ W _ _ _ _ Hy).
Qed.

(** Nothing has been done yet. *)
Lemma emptied_0 f l s g : wf K s g → lab g f = Some l → emptied f l 0 s g s g (phys s).
Proof.
  intros W Hl. unfold emptied. rewrite set_phys_same. split_and!; try done; [|intros; lia].
  apply pruned_refl. intros x [o' p'] Hx (Ho & j & q & Hp & Hj). cbn in Ho, Hp. subst.
  apply (label_range s g) in Hx; [lia|done].
Qed.

(** ** One level *)

Lemma emptied_range f l n s g s' g' m x :
  emptied f l n s g s' g' m → build_ok s → in_range s x → build_ok s' ∧ in_range s' x ∧ bld s' = bld s.
Proof.
  intros (_ & Hp & _) Hb Hx. unfold build_ok, in_range.
  by rewrite (pr_bld _ _ _ _ _ _ Hp), (pr_cnt _ _ _ _ _ _ Hp).
Qed.

(** The loop over the entries of a table; [J] relates the real memory to the
    one the invariant is kept for. *)
Lemma level_loop (J : mem → mstate T → Prop) n f l s g body :
  wf K s g → lab g f = Some l → (n ≤ 512)%nat → J (phys s) s →
  (∀ i s1 g1 m1 e, 0 ≤ i < Z.of_nat n → emptied f l i s g s1 g1 m1 → J m1 s1 →
     entry_at m1 f i = e → present e = true →
     ∃ s2 g2 m2, body i e s1 = Ok ((), s2) ∧ emptied f l (i + 1) s g s2 g2 m2 ∧ J m2 s2) →
  ∃ s' g' m, Task.for_present (VADDR (bld s) (f * 4096)) n body s = Ok ((), s') ∧
    emptied f l (Z.of_nat n) s g s' g' m ∧ J m s'.
Proof.
  intros W Hl Hn HJ Hstep. pose proof (wf_build _ _ _ W) as Hb.
  destruct (wf_lab _ _ _ W f l Hl) as (Hfr & _).
  pose (I := λ (dn : list Z) s', ∃ g' m, emptied f l (Z.of_nat (length dn)) s g s' g' m ∧ J m s').
  assert (wp (Task.for_present (VADDR (bld s) (f * 4096)) n body) (λ _ s', I (zseq 0 n) s') s) as Hwp.
  { unfold Task.for_present. apply (wp_mfor _ _ I); [| |done].
    - exists g, (phys s). split; [by apply emptied_0|done].
    - intros dn i rest s1 [-> Hlt]%zseq_split (g1 & m1 & HE & HJ1). unfold I. rewrite length_app, Nat2Z.inj_add.
      change (Z.of_nat (length [_])) with 1. rewrite Z.add_0_l in *. set (i := Z.of_nat (length dn)) in *.
      destruct (emptied_range _ _ _ _ _ _ _ _ f HE Hb Hfr) as (Hb1 & Hf1 & Hbld).
      apply wp_bind. rewrite <- Hbld. eapply wp_eq; [apply kread_entry; [done|done|lia]|].
      pose proof HE as (_ & _ & _ & _ & Hge). destruct (Hge i ltac:(lia)) as [E1 E2]. rewrite E2, <- E1.
      change (has_flag ?e PTE_P) with (present e). destruct (present (entry_at m1 f i)) eqn:P; cbn [negb].
      + destruct (Hstep i s1 g1 m1 _ ltac:(lia) HE HJ1 eq_refl P) as (s2 & g2 & m2 & Hrun & HE2 & HJ2).
        eapply wp_eq; [done|]. eauto.
      + apply wp_ret. exists g1, m1. split; [|done]. apply emptied_skip; [done|done|lia|done]. }
  apply wp_ok in Hwp as ([] & s' & Hrun & g' & m & HE & HJ'). rewrite zseq_length in HE. eauto 10.
Qed.

Lemma destroy_pt_spec o : o ≠ K → empties Task.destroy_pt 3 o.
Proof.
  intros Ho s g f l W Hl Hlo H3.
  destruct (level_loop (λ _ s', phys s' = phys s) 512 f l s g (λ _ e, page_decref (pa2page (PTE_ADDR e))))
    as (s' & g' & m & Hrun & HE & _); [done|done|lia|done| |by eauto 10].
  intros i s1 g1 m1 e Hi HE Hph He P. rewrite pa2page_frame by (rewrite <- He; apply entry_range).
  destruct (emptied_clear f l i s g s1 g1 m1 e) as (s2 & g2 & m2 & ? & ? & ? & ?); try done; [congruence|].
  exists s2, g2, m2. split_and!; try done. congruence.
Qed.

(** ** The levels above *)

(** The labels below slot [i] are the child's and those below the child. *)
Lemma below_child s g l i x l' :
  wf K s g → uslot l i → lab g x = Some l' →
  below l (i + 1) l' ↔ below l i l' ∨ (¬ below l i l' ∧ (l' = child K l i ∨ below (child K l i) 512 l')).
Proof.
  intros W Hus Hx. rewrite child_uslot by done. rewrite below_succ. split.
  - intros [?|(Hn & [|j q] & ->)]; [by left|right..]; (split; [done|]); [by left|right].
    split; [done|]. exists j, q. split; [cbn; by rewrite <- app_assoc|].
    change (l_path l ++ i :: j :: q) with (l_path l ++ [i] ++ j :: q) in Hx. rewrite app_assoc in Hx.
    apply (label_range s g) in Hx; [lia|done].
  - intros [?|(Hn & [->|(Ho & j & q & Hp & _)])]; [by left|right..]; (split; [done|]).
    + by exists [].
    + exists (j :: q). destruct l'; cbn in *. by rewrite Ho, Hp, <- app_assoc.
Qed.

Section drop.
Context (f i c : Z) (l : label) s g s1 g1 s2 g2 (m2 : mem) s3.
Let lc := child K l i.
Hypothesis HE : emptied f l i s g s1 g1 (phys s1).
Hypothesis Hl : lab g f = Some l.
Hypothesis Hlen : (length (l_path l) < 3)%nat.
Hypothesis Hi : 0 ≤ i < 512.
Hypothesis Hus : uslot l i.
Hypothesis Hlc : lab g1 c = Some lc.
Hypothesis HC : emptied c lc 512 s1 g1 s2 g2 m2.
Hypothesis Hb3 : bld s3 = bld s2.
Hypothesis Hc3 : pages_cnt s3 = pages_cnt s2.
Hypothesis Hph3 : phys s3 = wr64 (phys s2) (f * 4096 + 8 * i) 0.
Hypothesis Hr3 : ∀ d, d ≠ c → refs s3 d = refs s2 d.
Let g3 := shrink_ghost g2 c.

Lemma drop_wf1 : wf K s1 g1.
Proof. destruct HE as (W1 & _). by rewrite set_phys_same in W1. Qed.

Lemma drop_lc_below : below l (i + 1) lc.
Proof. apply below_succ. right. unfold lc. rewrite child_uslot by done.
  split; [|by exists []]. intros (_ & j & q & Hq & Hj). cbn in Hq.
  apply app_inv_head in Hq. injection Hq as E _. rewrite E in Hj. by apply Z.lt_irrefl in Hj.
Qed.

Lemma drop_c x l' : lab g x = Some l' → ¬ below l (i + 1) l' → x ≠ c.
Proof.
  intros Hx Hn ->. pose proof HE as (_ & Hp1 & _).
  destruct (pr_sub _ _ _ _ _ _ Hp1 c lc Hlc) as [Hlc' _]. rewrite Hlc' in Hx. injection Hx as <-.
  by apply Hn, drop_lc_below.
Qed.

Lemma drop_keep x l' :
  lab g x = Some l' → ¬ below l (i + 1) l' →
  lab g1 x = Some l' ∧ lab g2 x = Some l' ∧ lab g3 x = Some l' ∧ ¬ below lc 512 l'.
Proof.
  intros Hx Hn. pose proof HE as (_ & Hp1 & _). pose proof HC as (_ & Hp2 & _).
  assert (lab g1 x = Some l') as Hx1.
  { apply (pr_keep _ _ _ _ _ _ Hp1); [done|]. intros ?. apply Hn, below_succ. by left. }
  assert (¬ below lc 512 l') as Hnc.
  { intros Hb. apply Hn, (below_child s1 g1 l i x l' drop_wf1 Hus Hx1). right. split; [|by right].
    intros ?. apply Hn, below_succ. by left. }
  assert (lab g2 x = Some l') as Hx2 by (by apply (pr_keep _ _ _ _ _ _ Hp2)).
  split_and!; try done. cbn. rewrite fn_lookup_insert_ne; [done|]. symmetry. by apply (drop_c x l').
Qed.

Lemma drop_ent x l' j :
  lab g x = Some l' → ¬ below l (i + 1) l' → 0 ≤ j < 512 →
  entry_at (phys s3) x j = if decide ((x, j) = (f, i)) then 0 else entry_at (phys s1) x j.
Proof.
  intros Hx Hn Hj. destruct (drop_keep x l' Hx Hn) as (Hx1 & _ & _ & Hnc). rewrite Hph3.
  destruct (decide _) as [[= -> ->]|Hne]; [by rewrite entry_wr_eq|].
  rewrite entry_wr_ne by (done || congruence). pose proof HC as (_ & Hp2 & _).
  by apply (pr_ent _ _ _ _ _ _ Hp2 x l'); [| |apply (drop_c x l')|].
Qed.

Lemma drop_pruned : pruned (below l (i + 1)) f s g s3 g3.
Proof.
  pose proof HE as (_ & Hp1 & _). pose proof HC as (W2 & Hp2 & _). pose proof drop_wf1 as W1.
  constructor.
  - rewrite Hb3, (pr_bld _ _ _ _ _ _ Hp2). apply Hp1.
  - rewrite Hc3, (pr_cnt _ _ _ _ _ _ Hp2). apply Hp1.
  - intros x l' Hx Hn. by apply (drop_keep x l').
  - intros x l' [Hx Hne]%shrink_lab. destruct (pr_sub _ _ _ _ _ _ Hp2 x l' Hx) as [Hx1 Hn2].
    destruct (pr_sub _ _ _ _ _ _ Hp1 x l' Hx1) as [Hx0 Hn1]. split; [done|].
    intros [?|(_ & [->|?])]%(below_child s1 g1 l i x l' W1 Hus Hx1); [done| |done].
    apply Hne. by apply (wf_inj _ _ _ W1) with lc.
  - intros x l' Hx Hb. cbn. destruct (decide (x = c)) as [->|Hne]; [by left|right].
    assert (below l i l' ∨ ¬ below l i l') as [Hb1|Hb1].
    { apply below_succ in Hb as [?|[? _]]; auto. }
    { by apply (pr_fl _ _ _ _ _ _ Hp2), (pr_gone _ _ _ _ _ _ Hp1 x l'). }
    pose proof (pr_keep _ _ _ _ _ _ Hp1 x l' Hx Hb1) as Hx1.
    apply (below_child s1 g1 l i x l' W1 Hus Hx1) in Hb as [?|(_ & [->|Hb])]; [done| |].
    + exfalso. apply Hne. by apply (wf_inj _ _ _ W1) with lc.
    + by apply (pr_gone _ _ _ _ _ _ Hp2 x l').
  - intros x Hx. right. by apply (pr_fl _ _ _ _ _ _ Hp2), (pr_fl _ _ _ _ _ _ Hp1).
  - cbn. rewrite (pr_pins _ _ _ _ _ _ Hp2). apply Hp1.
  - intros x l' j Hx Hn Hf Hj. rewrite (drop_ent x l' j) by done. rewrite decide_False by congruence.
    apply (pr_ent _ _ _ _ _ _ Hp1 x l'); [done| |done|done]. intros ?. apply Hn, below_succ. by left.
  - intros x Hx. assert (lab g1 (x / 4096) = None) as Hx1.
    { destruct (lab g1 (x / 4096)) as [l'|] eqn:E; [|done].
      apply (pr_sub _ _ _ _ _ _ Hp1) in E as [E _]. congruence. }
    rewrite Hph3, wr64_out.
    + rewrite (pr_mem _ _ _ _ _ _ Hp2) by done. by apply (pr_mem _ _ _ _ _ _ Hp1).
    + assert (x / 4096 ≠ f) by congruence. dlia.
  - intros Ht d Hd Hdn Hld. cbn in Hdn, Hld. apply not_elem_of_cons in Hdn as [Hdc Hdn].
    rewrite fn_lookup_insert_ne in Hld by done. rewrite Hr3 by done.
    apply (pr_tight _ _ _ _ _ _ Hp2 (pr_tight _ _ _ _ _ _ Hp1 Ht)); [|done|done].
    unfold in_range in *. by rewrite <- Hc3.
Qed.
End drop.

(** After the subtree of the child [c] of slot [i] is emptied, the entry is
    cleared and [c] is given back. *)
Lemma emptied_drop f l i s g s1 g1 c s2 g2 m2 :
  wf K s g → emptied f l i s g s1 g1 (phys s1) → lab g f = Some l → (length (l_path l) < 3)%nat →
  0 ≤ i < 512 → uslot l i →
  present (entry_at (phys s1) f i) = true → frame (entry_at (phys s1) f i) = c →
  lab g1 c = Some (child K l i) → emptied c (child K l i) 512 s1 g1 s2 g2 m2 →
  ∃ s3 g3, Task.drop_table (VADDR (bld s) (f * 4096)) i (c * 4096) s2 = Ok ((), s3) ∧
    emptied f l (i + 1) s g s3 g3 (phys s3).
Proof.
  intros W HE Hl Hlen Hi Hus P Hfr Hlc HC. pose proof (wf_build _ _ _ W) as Hb.
  destruct (wf_lab _ _ _ W f l Hl) as (Hf & _).
  destruct (emptied_range _ _ _ _ _ _ _ _ f HE Hb Hf) as (Hb1 & Hf1 & Hbld1).
  destruct (emptied_range _ _ _ _ _ _ _ _ f HC Hb1 Hf1) as (Hb2 & Hf2 & Hbld2).
  pose proof HE as (_ & _ & _ & H01 & H11). pose proof HC as (W2 & Hp2 & Hm2 & H02 & _).
  pose proof (drop_keep f i c l s g s1 g1 s2 g2 m2 HE Hus Hlc HC f l Hl (below_not l _)) as (_ & Hl2 & _ & Hnc).
  pose proof (drop_c f i c l s g s1 g1 HE Hus Hlc f l Hl (below_not l _)) as Hfc.
  assert (∀ j, 0 ≤ j < 512 → entry_at m2 f j = entry_at (phys s1) f j) as Hm.
  { intros j Hj. rewrite (Hm2 f l j) by done.
    apply (pr_ent _ _ _ _ _ _ Hp2 f l); try done. by apply (emptied_lab _ _ _ _ _ _ _ _ HE). }
  unfold Task.drop_table, mbind, M_bind. rewrite <- Hbld1, <- Hbld2.
  rewrite kwrite_entry by done. set (s2w := set_phys _ s2).
  assert (pa2page (c * 4096) = c) as ->.
  { rewrite <- Hfr, <- PTE_ADDR_frame. apply pa2page_frame, entry_range. }
  destruct (drop_table_ok s2w g2 m2 f i c l) as (q & con & -> & W3); try done.
  { by rewrite Hm. } { by rewrite Hm. }
  set (s3 := set_con con _) in *. exists s3, (shrink_ghost g2 c). split; [done|].
  assert (phys s3 = wr64 (phys s2) (f * 4096 + 8 * i) 0) as Hph3 by done.
  assert (∀ d, d ≠ c → refs s3 d = refs s2 d) as Hr3.
  { intros d Hd. cbn. rewrite fn_lookup_insert_ne by done. done. }
  assert (∀ j, 0 ≤ j < 512 → entry_at (phys s3) f j =
    if decide ((f, j) = (f, i)) then 0 else entry_at (phys s1) f j) as Hent.
  { intros j Hj. by apply (drop_ent f i c l s g s1 g1 s2 g2 m2 s3 HE Hi Hus Hlc HC Hph3 f l j Hl (below_not l _)). }
  split; [|split_and!].
  - apply (wf_phys K (set_phys (shrink_mem m2 f i) s3)); [exact W3|]. cbn [phys set_phys].
    intros x l' j [Hx Hne]%shrink_lab Hj. rewrite Hph3. unfold shrink_mem.
    destruct (decide ((x, j) = (f, i))) as [[= -> ->]|Hd]; [by rewrite !entry_wr_eq|].
    rewrite !entry_wr_ne by (done || congruence). symmetry. by apply (Hm2 x l').
  - exact (drop_pruned f i c l s g s1 g1 s2 g2 m2 s3 HE Hl Hlen Hi Hus Hlc HC eq_refl eq_refl Hph3 Hr3).
  - done.
  - intros j Hj. rewrite Hent by lia. destruct (decide _); [done|]. apply H01.
    assert (j ≠ i) by congruence. lia.
  - intros j Hj. rewrite Hent by lia. rewrite decide_False by (intros [= ?]; lia).
    split; [apply H11; lia|apply H11; lia].
Qed.

(** A routine that empties the children gives a routine that empties the
    slots [0..n-1] of a table, as long as the present ones are its own. *)
Lemma level_spec D d n o s g f l :
  empties D (S d) o → wf K s g → lab g f = Some l → l_owner l = o → length (l_path l) = d → (d < 3)%nat →
  (n ≤ 512)%nat →
  (∀ i, 0 ≤ i < Z.of_nat n → present (entry_at (phys s) f i) = true → uslot l i) →
  ∃ s' g', Task.for_present (VADDR (bld s) (f * 4096)) n
      (λ i e, st ← get; D (VADDR (bld st) (PTE_ADDR e)) ;;
              Task.drop_table (VADDR (bld s) (f * 4096)) i (PTE_ADDR e)) s = Ok ((), s') ∧
    emptied f l (Z.of_nat n) s g s' g' (phys s').
Proof.
  intros HD W Hl Ho Hd H3 Hn Hus.
  edestruct (level_loop (λ m s', m = phys s') n f l s g) as (s' & g' & m & Hrun & HE & ->);
    [done|done|done|done| |by exists s', g'; split; [exact Hrun|]].
  intros i s1 g1 m1 e Hi HE -> He P. cbn beta. unfold mbind, M_bind, get.
  pose proof HE as (W1 & _ & _ & _ & H1). rewrite set_phys_same in W1.
  assert (uslot l i) as Hu by (apply Hus; [done|]; destruct (H1 i ltac:(lia)); congruence).
  pose proof (emptied_lab _ _ _ _ _ _ _ _ HE Hl) as Hl1.
  pose proof (wf_edge _ _ _ W1 f l i Hl1 ltac:(lia) ltac:(lia) ltac:(congruence)) as Hlc. rewrite He in Hlc.
  rewrite !PTE_ADDR_frame.
  destruct (HD s1 g1 (frame e) (child K l i) W1 Hlc) as (s2 & g2 & m2 & -> & HC).
  { rewrite child_uslot by done. done. }
  { rewrite child_path, length_app. cbn. lia. }
  destruct (emptied_drop f l i s g s1 g1 (frame e) s2 g2 m2) as (s3 & g3 & -> & HE3);
    try done; [lia|lia|congruence|congruence|]. eauto 10.
Qed.

Lemma inner_spec D d o :
  (0 < d < 3)%nat → empties D (S d) o →
  empties (λ tbl, Task.for_present tbl 512 (λ i e, st ← get; D (VADDR (bld st) (PTE_ADDR e)) ;;
    Task.drop_table tbl i (PTE_ADDR e))) d o.
Proof.
  intros Hd HD s g f l W Hl Ho Hlen.
  destruct (level_spec D d 512 o s g f l HD W Hl Ho Hlen) as (s' & g' & Hrun & HE); [lia|lia| |].
  - intros i _ _. left. intros E. rewrite E in Hlen. cbn in Hlen. lia.
  - exists s', g', (phys s'). split; [cbn beta; exact Hrun|].
    change 512 with (Z.of_nat 512). exact HE.
Qed.

Lemma destroy_pd_spec o : o ≠ K → empties Task.destroy_pd 2 o.
Proof.
  intros Ho. unfold Task.destroy_pd. change (Z.to_nat NPD_ENTRIES) with 512%nat.
  apply (inner_spec Task.destroy_pt); [lia|by apply destroy_pt_spec].
Qed.

Lemma destroy_pdp_spec o : o ≠ K → empties Task.destroy_pdp 1 o.
Proof.
  intros Ho. unfold Task.destroy_pdp. change (Z.to_nat NPDP_ENTRIES) with 512%nat. unfold PDPE_ADDR.
  apply (inner_spec Task.destroy_pd); [lia|by apply destroy_pd_spec].
Qed.

Lemma destroy_pml4_spec s g root o :
  wf K s g → lab g root = Some (Lab o []) → o ≠ K → present (entry_at (phys s) root KIDX) = false →
  ∃ s' g', Task.destroy_pml4 (VADDR (bld s) (root * 4096)) s = Ok ((), s') ∧
    emptied root (Lab o []) 3 s g s' g' (phys s').
Proof.
  intros W Hl Ho P. unfold Task.destroy_pml4, PML4E_ADDR.
  change (Z.to_nat (PML4_IDX USER_TOP + 1)) with 3%nat.
  apply (level_spec Task.destroy_pdp 0 3 o s g root (Lab o []) (destroy_pdp_spec o Ho) W Hl eq_refl eq_refl); [lia|lia|].
  - intros i Hi Hp. right. rewrite KIDX_val in *. assert (i ≠ 2) by congruence. lia.
Qed.

(** ** The root *)

(** Nothing is left of the tree but its root. *)
Definition bare g (o : Z) : Prop := ∀ x q, lab g x = Some (Lab o q) → q = [].

(** The tables of a task hang below the user slots of its root. *)
Lemma user_label_low s g x o i q : wf K s g → o ≠ K → lab g x = Some (Lab o (i :: q)) → i < KIDX.
Proof.
  intros W Ho Hx. destruct (Z.lt_ge_cases i KIDX) as [|Hi]; [done|exfalso].
  apply (ancestor s g x o [i] q) in Hx as [y Hy]; [|done].
  destruct (wf_back _ _ _ W y o [] i Hy) as (Hir & z & Hz & P & Hfr).
  pose proof (wf_edge _ _ _ W z (Lab o []) i Hz ltac:(cbn; lia) Hir P) as He.
  rewrite Hfr, Hy in He. unfold child in He. cbn in He.
  rewrite (proj2 (Z.leb_le KIDX i)) in He by done. cbn in He. congruence.
Qed.

Lemma emptied_bare s g root o s' g' :
  o ≠ K → lab g root = Some (Lab o []) → emptied root (Lab o []) 3 s g s' g' (phys s') → bare g' o.
Proof.
  intros Ho Hl (W & Hp & _) x [|i q] Hx; [done|exfalso]. rewrite set_phys_same in W.
  pose proof (user_label_low s' g' x o i q W Ho Hx) as Hi. rewrite KIDX_val in Hi.
  apply (pr_sub _ _ _ _ _ _ Hp) in Hx as [_ Hn]. apply Hn. split; [done|]. exists i, q. split; [done|lia].
Qed.

Section unroot.
Context s g (root o : Z).
Hypothesis W : wf K s g.
Hypothesis Hl : lab g root = Some (Lab o []).
Hypothesis Ho : o ≠ K.
Hypothesis Hbare : bare g o.

Lemma unroot_ok :
  ∃ s1, page_decref root s = Ok ((), s1) ∧ wf K s1 (shrink_ghost g root) ∧
    phys s1 = phys s ∧ bld s1 = bld s ∧ pages_cnt s1 = pages_cnt s ∧
    (∀ d, d ≠ root → refs s1 d = refs s d).
Proof.
  destruct (wf_lab _ _ _ W root _ Hl) as (Hr & _ & H1).
  assert (root ∉ fl g) as Hn by (intros Hin; destruct (wf_free _ _ _ W root Hin); congruence).
  destruct (page_decref_ok s root (fl g)) as (q & con & Hrun & Hcon & Hq);
    [exact (wf_alloc _ _ _ W)|done|done|lia|exact (wf_con _ _ _ W)|].
  set (s1 := set_con con _) in *. exists s1. split; [done|]. rewrite H1 in Hq. cbn in Hq.
  assert (∀ d, d ≠ root → refs s1 d = refs s d) as Href.
  { intros d Hd. cbn. by rewrite fn_lookup_insert_ne. }
  split; [|done]. constructor; cbn [lab fl pins shrink_ghost].
  - exact (wf_build _ _ _ W).
  - split; [done|]. intros x [->|Hx]%elem_of_cons; [done|]. by apply (wf_alloc _ _ _ W).
  - done.
  - intros x Hx. rewrite fn_insert_dec. destruct (decide (root = x)) as [<-|Hne].
    + split; [done|]. by apply (wf_tpin _ _ _ W _ _ Hl).
    + apply (wf_free _ _ _ W). set_solver.
  - intros f' l' [Hl' Hne]%shrink_lab. rewrite Href by done. by apply (wf_lab _ _ _ W).
  - intros f' l' [Hl' Hne]%shrink_lab. by apply (wf_tpin _ _ _ W f' l').
  - intros f' o' [Hl' Hne]%shrink_lab. by apply (wf_root _ _ _ W).
  - intros f1 f2 l' [H1' _]%shrink_lab [H2' _]%shrink_lab. by apply (wf_inj _ _ _ W) with l'.
  - intros f' l' j [Hl' Hne]%shrink_lab Hlen Hj P.
    pose proof (wf_edge _ _ _ W f' l' j Hl' Hlen Hj P) as Hlc. rewrite fn_lookup_insert_ne; [done|].
    intros E. assert (Some (Lab o []) = Some (child K l' j)) as [= Hch] by (rewrite <- Hl, E; exact Hlc).
    apply (f_equal l_path) in Hch. rewrite child_path in Hch. by destruct (l_path l').
  - intros f' o' q0 j [Hl' Hne]%shrink_lab.
    destruct (wf_back _ _ _ W _ _ _ _ Hl') as (Hj & f'' & Hf'' & P). split; [done|]. exists f''.
    split; [|done]. rewrite fn_lookup_insert_ne; [done|]. intros <-. rewrite Hl in Hf''.
    injection Hf'' as <- <-. by apply Hbare in Hl'.
  - intros f' j Hu Hj. assert (f' ≠ root) as Hf'.
    { intros ->. unfold uleaf in Hu. cbn in Hu. by rewrite fn_lookup_insert in Hu. }
    rewrite shrink_uleaf in Hu by done. pose proof (wf_leaf _ _ _ W f' j Hu Hj) as Hlf.
    change (phys s1) with (phys s).
    destruct (present (entry_at (phys s) f' j)); [|exact Hlf]. destruct Hlf as (Hrd & Hnd & Hld).
    split; [exact Hrd|]. split; [apply not_elem_of_cons; split; [congruence|done]|].
    rewrite fn_lookup_insert_ne; [done|congruence].
  - intros d Hd Hdn. rewrite fn_insert_dec. destruct (decide (root = d)) as [<-|Hne]; [set_solver|].
    intros Hld. rewrite Href by done.
    replace (ucount K (phys s1) (shrink_ghost g root) (pages_cnt s1) d)
      with (ucount K (phys s) g (pages_cnt s) d).
    + apply (wf_refs _ _ _ W); [done|set_solver|done].
    + apply zsum_ext. intros [f' j] _. unfold refers. cbn [fst snd]. change (phys s1) with (phys s).
      destruct (decide (f' = root)) as [->|Hf']; [|by rewrite shrink_uleaf].
      unfold uleaf. rewrite Hl. cbn. by rewrite fn_lookup_insert.
Qed.
End unroot.

(** ** The whole address space *)

(** Everything that belonged to the address space with root label [Lab o []]
    is gone and nothing else changed. *)
Record destroyed (o : Z) s g s' g' : Prop := {
  de_wf : wf K s' g';
  de_bld : bld s' = bld s;
  de_cnt : pages_cnt s' = pages_cnt s;
  de_tables x l : lab g x = Some l → l_owner l = o → x ∈ fl g';
  de_keep x l : lab g x = Some l → l_owner l ≠ o → lab g' x = Some l;
  de_sub x l : lab g' x = Some l → lab g x = Some l ∧ l_owner l ≠ o;
  de_fl x : x ∈ fl g → x ∈ fl g';
  de_pins : pins g' = pins g;
  de_tr r o' va : lab g r = Some (Lab o' []) → o' ≠ o → translate (phys s') r va = translate (phys s) r va;
  de_ent x l j : lab g x = Some l → l_owner l ≠ o → 0 ≤ j < 512 →
    entry_at (phys s') x j = entry_at (phys s) x j;
  de_mem x : lab g (x / 4096) = None → phys s' x = phys s x;
  de_tight : tight s g → tight s' g';
}.

Lemma not_below o l : l_owner l ≠ o → ¬ below (Lab o []) 3 l.
Proof. intros H [E _]. done. Qed.

Lemma owner_ne g f root o l :
  lab g f = Some l → lab g root = Some (Lab o []) → l_owner l ≠ o → f ≠ root.
Proof. intros Hl Hr Hne ->. rewrite Hr in Hl. injection Hl as <-. done. Qed.

Lemma walk_pruned o root s g s' g' f l path :
  o ≠ K → wf K s g → pruned (below (Lab o []) 3) root s g s' g' → lab g root = Some (Lab o []) →
  lab g f = Some l → l_owner l ≠ o → (length (l_path l) + length path ≤ 3)%nat →
  Forall (λ i, 0 ≤ i < 512) path →
  walk (entry_at (phys s')) f path = walk (entry_at (phys s)) f path ∧
  (∀ f', walk (entry_at (phys s)) f path = Some f' → ∃ l', lab g f' = Some l' ∧ l_owner l' ≠ o).
Proof.
  intros Ho W Hp Hroot. revert f l.
  induction path as [|i path IH]; intros f l Hl Hlo Hlen Hr; cbn [walk].
  { split; [done|]. intros f' [= <-]. eauto. }
  apply Forall_cons in Hr as [Hi Hr]. cbn [length] in Hlen.
  rewrite (pr_ent _ _ _ _ _ _ Hp f l i Hl (not_below o l Hlo)); [|by eapply owner_ne|done].
  destruct (present (entry_at (phys s) f i)) eqn:P; [|done].
  apply (IH _ (child K l i)); [apply (wf_edge _ _ _ W); [done|lia|done|done]| | |done].
  - unfold child. by destruct (_ && _).
  - rewrite child_path, length_app. cbn. lia.
Qed.

Lemma translate_pruned o root s g s' g' r o' va :
  o ≠ K → wf K s g → pruned (below (Lab o []) 3) root s g s' g' → lab g root = Some (Lab o []) →
  lab g r = Some (Lab o' []) → o' ≠ o → translate (phys s') r va = translate (phys s) r va.
Proof.
  intros Ho W Hp Hroot Hr Hne. unfold translate, leaf.
  destruct (walk_pruned o root s g s' g' r (Lab o' []) (table_path va)) as [-> Hf];
    try done; [apply table_path_ok|].
  destruct (walk (entry_at (phys s)) r (table_path va)) as [f|]; [|done]. cbn.
  destruct (Hf f eq_refl) as (l & Hl & Hlo).
  rewrite (pr_ent _ _ _ _ _ _ Hp f l _ Hl (not_below o l Hlo)); [done|by eapply owner_ne|apply PT_IDX_range].
Qed.

(** The loops of [task_destroy] followed by the release of the root. *)
Lemma destroy_space s g root o :
  wf K s g → lab g root = Some (Lab o []) → o ≠ K → present (entry_at (phys s) root KIDX) = false →
  ∃ s1 s' g', Task.destroy_pml4 (VADDR (bld s) (root * 4096)) s = Ok ((), s1) ∧
    page_decref root s1 = Ok ((), s') ∧ bld s1 = bld s ∧ destroyed o s g s' g'.
Proof.
  intros W Hl Ho P. destruct (destroy_pml4_spec s g root o W Hl Ho P) as (s1 & g1 & Hrun & HE).
  pose proof (emptied_bare s g root o s1 g1 Ho Hl HE) as Hbare.
  pose proof (emptied_lab _ _ _ _ _ _ _ _ HE Hl) as Hl1. destruct HE as (W1 & Hp & _).
  rewrite set_phys_same in W1.
  destruct (unroot_ok s1 g1 root o W1 Hl1 Ho Hbare) as (s' & Hrun' & W' & Hph & Hb & Hc & Href).
  exists s1, s', (shrink_ghost g1 root). split; [done|]. split; [done|]. split; [apply Hp|]. constructor.
  - done.
  - rewrite Hb. apply Hp.
  - rewrite Hc. apply Hp.
  - intros x [o' q] Hx Hxo. cbn in Hxo. subst o'. cbn. destruct (decide (x = root)) as [->|Hne]; [by left|right].
    destruct q as [|i q]; [by destruct Hne; apply (wf_inj _ _ _ W) with (Lab o [])|].
    apply (pr_gone _ _ _ _ _ _ Hp x _ Hx). split; [done|]. exists i, q. split; [done|].
    pose proof (user_label_low s g x o i q W Ho Hx) as Hi. rewrite KIDX_val in Hi. lia.
  - intros x l Hx Hlo. cbn. rewrite fn_lookup_insert_ne by (symmetry; by eapply owner_ne).
    apply (pr_keep _ _ _ _ _ _ Hp); [done|]. by apply not_below.
  - intros x [o' q] [Hx Hne]%shrink_lab. pose proof (pr_sub _ _ _ _ _ _ Hp x _ Hx) as [Hx0 _].
    split; [done|]. cbn. intros ->. pose proof (Hbare x q Hx) as ->. apply Hne.
    by apply (wf_inj _ _ _ W1) with (Lab o []).
  - intros x Hx. right. by apply (pr_fl _ _ _ _ _ _ Hp).
  - apply Hp.
  - intros r o' va Hr Hne. rewrite Hph. by apply (translate_pruned o root s g s1 g1 r o').
  - intros x l j Hx Hlo Hj. rewrite Hph.
    apply (pr_ent _ _ _ _ _ _ Hp x l); [done|by apply not_below|by eapply owner_ne|done].
  - intros x Hx. rewrite Hph. by apply (pr_mem _ _ _ _ _ _ Hp).
  - intros Ht d Hd Hdn Hld. cbn in Hdn, Hld. apply not_elem_of_cons in Hdn as [Hdc Hdn].
    rewrite fn_lookup_insert_ne in Hld by done. rewrite Href by done.
    apply (pr_tight _ _ _ _ _ _ Hp Ht); [|done|done]. unfold in_range in *. by rewrite <- Hc.
Qed.

End destroy.
