(* ===== verification/TaskProofs.v ===== *)
(** Creating and destroying tasks.

    [kwf] is the invariant of the task table and the memory manager together:
    the free list holds unused slots, every slot with an address space owns a
    page-table tree of its own whose root shares the kernel's slots, and no two
    slots share a tree.  [task_init] establishes the free list; [task_new] and
    [task_destroy] preserve the invariant. *)

From Stdlib Require Import String.
From S2P Require Import Prelude Memory Queue Mmu Console Map AllocProofs Walk MapWf.
From S2P Require Import LookupProofs InsertProofs Gdt Context Task SchedProofs DestroyProofs.
Import Mmu Map Task.

Section task.
Context {T : Type} `{!Console T, !ConsoleLaws T} (K : Z).
Implicit Types (k : kstate T) (g : ghost) (tl : list Z).

(** The kernel's linear map covers 32 GB. *)
Definition kernel_build (s : mstate T) : Prop := bld s = kernel64 ∧ pages_cnt s * 4096 ≤ 2 ^ 35.

Lemma VADDR_kernel (s : mstate T) p :
  kernel_build s → in_range s p → VADDR (bld s) (p * 4096) = p * 4096 + KERNEL_BASE.
Proof.
  intros [-> Hc] [Hp0 Hp]. unfold VADDR, kernel64, KERNEL_BASE. cbn [ptr_bits vaddr_base].
  apply Z.mod_small. lia.
Qed.

Record kwf k g tl : Prop := {
  kw_wf : wf K (mm k) g;
  kw_build : kernel_build (mm k);
  kw_K : lab g K = Some (Lab K []);
  kw_config : config_pml4 k = VADDR (bld (mm k)) (K * 4096);
  (** roots share the kernel's slots, of which the first one is unused *)
  kw_shared r o i : lab g r = Some (Lab o []) → KIDX ≤ i < 512 →
    entry_at (phys (mm k)) r i = entry_at (phys (mm k)) K i;
  kw_gap : present (entry_at (phys (mm k)) K KIDX) = false;
  kw_free : Lst.lrep (free_tasks k) tl;
  kw_slots i : i ∈ tl → 0 ≤ i < TASK_MAX_CNT ∧ pml4 (tasks k i) = NULL;
  kw_task i : 0 ≤ i < TASK_MAX_CNT → pml4 (tasks k i) ≠ NULL →
    ∃ r, pml4 (tasks k i) = VADDR (bld (mm k)) (r * 4096) ∧ lab g r = Some (Lab r []) ∧ r ≠ K;
  kw_inj i j : 0 ≤ i < TASK_MAX_CNT → 0 ≤ j < TASK_MAX_CNT → pml4 (tasks k i) ≠ NULL →
    pml4 (tasks k i) = pml4 (tasks k j) → i = j;
}.

Lemma liftm_ok {A} (m : M (mstate T) A) k a s :
  m (mm k) = Ok (a, s) → liftm m k = Ok (a, set_mm s k).
Proof. intros H. unfold liftm, zoom. by rewrite H. Qed.

Lemma kprintf_ok fmt ap k :
  fmt_ok fmt ap = true → con_ok (con (mm k)) →
  ∃ c, kprintf fmt ap k = Ok ((), set_mm (set_con c (mm k)) k) ∧ con_ok c.
Proof.
  intros Hf Hc. destruct (printf_zoom (mm k) fmt ap Hf Hc) as (c & H & Hc'). exists c.
  split; [|done]. by apply liftm_ok.
Qed.

Lemma wp_kprintf fmt ap k (Q : () → kstate T → Prop) :
  fmt_ok fmt ap = true → con_ok (con (mm k)) →
  (∀ c, con_ok c → Q () (set_mm (set_con c (mm k)) k)) → wp (kprintf fmt ap) Q k.
Proof. intros Hf Hc HQ. destruct (kprintf_ok fmt ap k Hf Hc) as (c & H & Hc'). eapply wp_eq; [exact H|auto]. Qed.

(** ** Destruction *)

Lemma wf_con_any s g c : con_ok c → wf K s g → wf K (set_con c s) g.
Proof. intros Hc []. by constructor. Qed.

Lemma destroyed_con o s g s' g' c : con_ok c → destroyed K o s g s' g' → destroyed K o s g (set_con c s') g'.
Proof. intros Hc []. constructor; try done. by apply wf_con_any. Qed.

Lemma root_pa s g r l : wf K s g → lab g r = Some l → pa2page (PADDR (bld s) (VADDR (bld s) (r * 4096))) = r.
Proof.
  intros W Hr. destruct (wf_lab _ _ _ W r l Hr) as (Hrr & _). pose proof (wf_build _ _ _ W) as Hb.
  pose proof (PADDR_page s r Hb Hrr) as Hp. unfold page2kva in Hp. rewrite page2pa_ok in Hp by done. rewrite Hp.
  rewrite <- (page2pa_ok s r) by done. by apply pa2page_page2pa.
Qed.

(** Where [task_destroy] leaves the processor. *)
Definition cr3_after k (i : Z) : Z :=
  if cr3 k =? PADDR (bld (mm k)) (pml4 (tasks k i))
  then PADDR (bld (mm k)) (config_pml4 k) else cr3 k.

(** The result of [task_destroy] on slot [i], whose root is in frame [r]. *)
Record task_destroyed k g tl (i r : Z) k' g' : Prop := {
  td_pml4 : pml4 (tasks k i) = VADDR (bld (mm k)) (r * 4096);
  td_root : lab g r = Some (Lab r []);
  td_kernel : r ≠ K;
  td_mm : destroyed K r (mm k) g (mm k') g';
  td_free : Lst.lrep (free_tasks k') (i :: tl);
  td_task : tasks k' i = set_state TASK_STATE_FREE (set_pml4 NULL (tasks k i));
  td_other j : j ≠ i → tasks k' j = tasks k j;
  td_cpu : cpu_task k' = if decide (cpu_task k = Some (TSlot i)) then None else cpu_task k;
  td_cr3 : cr3 k' = cr3_after k i;
  td_config : config_pml4 k' = config_pml4 k;
  td_next : next_task_idx k' = next_task_idx k;
  td_last : last_task_id k' = last_task_id k;
}.

(** Never on the address space that was destroyed. *)
Lemma cr3_after_ne k g tl i r :
  kwf k g tl → pml4 (tasks k i) = VADDR (bld (mm k)) (r * 4096) → lab g r = Some (Lab r []) → r ≠ K →
  cr3_after k i ≠ r * 4096.
Proof.
  intros Hk Hr Hl HrK. pose proof (kw_wf _ _ _ Hk) as W. unfold cr3_after.
  assert (∀ x l, lab g x = Some l → PADDR (bld (mm k)) (VADDR (bld (mm k)) (x * 4096)) = x * 4096) as Hpa.
  { intros x l Hx. destruct (wf_lab _ _ _ W x l Hx) as (Hxr & _).
    pose proof (PADDR_entry (mm k) x 0 (wf_build _ _ _ W) Hxr ltac:(lia)) as E. by rewrite !Z.add_0_r in E. }
  rewrite Hr, (Hpa r _ Hl), (kw_config _ _ _ Hk), (Hpa K _ (kw_K _ _ _ Hk)).
  destruct (Z.eqb_spec (cr3 k) (r * 4096)); [lia|done].
Qed.

(** The two conditional loads of [cr3]. *)
Lemma lcr3_if (b : bool) v k : (b = true → cr3 k = v) → (if negb b then lcr3 v else mret ()) k = Ok ((), set_cr3 v k).
Proof. intros H. destruct b; cbn; [|done]. rewrite <- H by done. by destruct k. Qed.

Lemma task_destroy_ok k g tl i :
  kwf k g tl → 0 ≤ i < TASK_MAX_CNT → pml4 (tasks k i) ≠ NULL →
  ∃ k' g' r, task_destroy (TSlot i) k = Ok ((), k') ∧ task_destroyed k g tl i r k' g'.
Proof.
  intros Hk Hi Hp. destruct (kw_task _ _ _ Hk i Hi Hp) as (r & Hr & Hlr & HrK).
  pose proof (kw_wf _ _ _ Hk) as W.
  assert (present (entry_at (phys (mm k)) r KIDX) = false) as Hgap.
  { rewrite (kw_shared _ _ _ Hk r r) by (rewrite ?KIDX_val; done || lia). apply Hk. }
  destruct (destroy_space K (mm k) g r r W Hlr HrK Hgap) as (s1 & s2 & g' & Hd & Hdec & Hb & HD).
  assert (i ∉ tl) as Hni. { intros Hin. by apply (kw_slots _ _ _ Hk) in Hin as [_ ?]. }
  assert (config_pml4 k ≠ pml4 (tasks k i)) as Hck.
  { rewrite Hr, (kw_config _ _ _ Hk). destruct (wf_lab _ _ _ W r _ Hlr) as (Hrr & _).
    destruct (wf_lab _ _ _ W K _ (kw_K _ _ _ Hk)) as (HKr & _).
    rewrite !VADDR_kernel by (done || apply Hk). lia. }
  set (Q := λ (_ : ()) k', ∃ g', task_destroyed k g tl i r k' g').
  assert (wp (task_destroy (TSlot i)) Q k) as Hwp; [|apply wp_ok in Hwp as ([] & k' & ? & g'' & ?); by eauto].
  unfold task_destroy. apply wp_bind. eapply wp_eq; [by apply get_slot_ok|].
  rewrite (proj2 (Z.eqb_neq _ _)) by done.
  apply wp_bind, wp_massert; [by apply bool_decide_eq_true|]. apply wp_bind, wp_get. apply wp_bind.
  set (ct := if decide (cpu_task k = Some (TSlot i)) then None else cpu_task k).
  eapply (wp_eq _ _ _ () (set_cpu_task ct k)).
  { unfold ct. destruct (decide _); [done|by destruct k]. }
  apply wp_bind, wp_gets, wp_bind, wp_gets. cbn [cr3 mm set_cpu_task].
  set (pa := PADDR (bld (mm k)) (pml4 (tasks k i))).
  apply wp_bind. eapply wp_eq; [apply lcr3_if; intros ?; bools; done|].
  apply wp_bind. eapply wp_eq; [apply liftm_ok; cbn [mm set_cr3 set_cpu_task]; rewrite Hr; exact Hd|].
  cbn [mm set_cr3 set_cpu_task].
  apply wp_bind. eapply (wp_eq _ _ _ () (set_cr3 (cr3_after k i) (set_mm s1 (set_cpu_task ct k)))).
  { unfold cr3_after. fold pa. destruct (cr3 k =? pa) eqn:E; cbn [negb]; [|done].
    unfold mbind, M_bind. cbn. by rewrite (proj2 (Z.eqb_neq _ _)). }
  assert (pa2page pa = r) as ->. { unfold pa. rewrite Hr. by apply (root_pa (mm k) g r _ W Hlr). }
  apply wp_bind. eapply wp_eq; [apply liftm_ok; cbn [mm set_cr3 set_cpu_task set_mm]; exact Hdec|].
  apply wp_bind. eapply wp_eq; [by apply upd_slot_ok|]. apply wp_bind, wp_modify.
  apply wp_bind. eapply wp_eq; [by apply upd_slot_ok|].
  apply wp_kprintf; [reflexivity|exact (wf_con _ _ _ (de_wf _ _ _ _ _ _ HD))|]. intros c Hcon.
  exists g'. constructor; cbn [mm set_mm set_tasks set_free_tasks set_cr3 set_cpu_task tasks free_tasks cpu_task cr3
    config_pml4 next_task_idx last_task_id]; try done.
  - by apply destroyed_con.
  - apply Lst.insert_head_rep; [apply Hk|done].
  - by rewrite !fn_lookup_insert.
  - intros j Hj. by rewrite !fn_lookup_insert_ne.
Qed.

Lemma task_destroyed_kwf k g tl i r k' g' :
  kwf k g tl → 0 ≤ i < TASK_MAX_CNT → pml4 (tasks k i) ≠ NULL → task_destroyed k g tl i r k' g' →
  kwf k' g' (i :: tl).
Proof.
  intros Hk Hi Hp TD. pose proof (td_mm _ _ _ _ _ _ _ TD) as D. pose proof (td_kernel _ _ _ _ _ _ _ TD) as HrK.
  pose proof (de_bld _ _ _ _ _ _ D) as Hb. pose proof (td_other _ _ _ _ _ _ _ TD) as Hoth.
  assert (∀ j, pml4 (tasks k' j) ≠ NULL → j ≠ i ∧ tasks k' j = tasks k j) as Hj.
  { intros j Hj. assert (j ≠ i) as Hne by (intros ->; by rewrite (td_task _ _ _ _ _ _ _ TD) in Hj). auto. }
  assert (∀ x l j, lab g x = Some l → l_owner l ≠ r → 0 ≤ j < 512 →
    entry_at (phys (mm k')) x j = entry_at (phys (mm k)) x j) as He by apply (de_ent _ _ _ _ _ _ D).
  assert (∀ j, KIDX ≤ j < 512 → entry_at (phys (mm k')) K j = entry_at (phys (mm k)) K j) as HeK.
  { intros j Hr. apply (He K (Lab K [])); [apply Hk|by cbn; congruence|rewrite KIDX_val in Hr; lia]. }
  constructor.
  - exact (de_wf _ _ _ _ _ _ D).
  - unfold kernel_build. rewrite Hb, (de_cnt _ _ _ _ _ _ D). exact (kw_build _ _ _ Hk).
  - apply (de_keep _ _ _ _ _ _ D); [exact (kw_K _ _ _ Hk)|cbn; congruence].
  - rewrite (td_config _ _ _ _ _ _ _ TD), Hb. exact (kw_config _ _ _ Hk).
  - intros x o j Hx Hr. apply (de_sub _ _ _ _ _ _ D) in Hx as [Hx Ho].
    rewrite (He x (Lab o [])) by (done || rewrite KIDX_val in Hr; lia). rewrite HeK by done.
    by apply (kw_shared _ _ _ Hk x o).
  - rewrite HeK by (rewrite KIDX_val; lia). exact (kw_gap _ _ _ Hk).
  - exact (td_free _ _ _ _ _ _ _ TD).
  - intros j [->|Hin]%elem_of_cons.
    + split; [done|]. by rewrite (td_task _ _ _ _ _ _ _ TD).
    + destruct (kw_slots _ _ _ Hk j Hin) as [Hr H0]. split; [done|].
      destruct (decide (j = i)) as [->|Hne]; [done|]. by rewrite Hoth.
  - intros j Hr Hpj. destruct (Hj j Hpj) as [Hne E]. rewrite E in *.
    destruct (kw_task _ _ _ Hk j Hr Hpj) as (rj & Hrj & Hlj & HK). exists rj. rewrite Hb. split_and!; try done.
    apply (de_keep _ _ _ _ _ _ D); [done|]. cbn. intros ->. apply Hne.
    apply (kw_inj _ _ _ Hk); try done. by rewrite Hrj, (td_pml4 _ _ _ _ _ _ _ TD).
  - intros j1 j2 H1 H2 Hp1 Heq. destruct (Hj j1 Hp1) as [_ E1]. assert (pml4 (tasks k' j2) ≠ NULL) as Hp2 by congruence.
    destruct (Hj j2 Hp2) as [_ E2]. rewrite E1 in *. rewrite E2 in *. by apply (kw_inj _ _ _ Hk).
Qed.

(** ** Creation *)

Section newroot.
Context (s : mstate T) (g : ghost) (p : Z) (fl' : list Z) (q : Lst.queue) (r : Z → Z).
Hypothesis W : wf K s g.
Hypothesis HK : lab g K = Some (Lab K []).
Hypothesis Hfl : fl g = p :: fl'.
Hypothesis Hq : Lst.lrep q fl'.
Hypothesis Hr : ∀ d, r d = if decide (p = d) then 1 else refs s d.

Definition root_phys : mem :=
  mem_move (mem_fill (phys s) (p * 4096) Byte.x00 4096) (p * 4096 + 16) (K * 4096 + 16) 4080.
Definition root_state : mstate T := set_phys root_phys (set_refs r (set_free q s)).
Definition root_ghost : ghost := Ghost (<[p := Some (Lab p [])]> (lab g)) fl' (pins g).

Lemma root_p : in_range s p ∧ lab g p = None ∧ p ∉ fl' ∧ p ≠ K.
Proof.
  clear q r Hq Hr.
  destruct (wf_alloc _ _ _ W) as [Hrep Hin]. rewrite Hfl in *.
  apply Lst.lrep_nodup, NoDup_cons in Hrep as [Hp _].
  destruct (wf_free _ _ _ W p) as [Hlp _]; [rewrite Hfl; set_solver|].
  split_and!; [apply Hin; set_solver|done|done|]. intros E. congruence.
Qed.

(** The new root: empty user slots, the kernel's shared slots. *)
Lemma root_entry_p i : 0 ≤ i < 512 →
  entry_at root_phys p i = if KIDX <=? i then entry_at (phys s) K i else 0.
Proof.
  intros Hi. destruct root_p as (_ & _ & _ & HpK). unfold entry_at, root_phys. rewrite KIDX_val.
  destruct (Z.leb_spec 2 i).
  - rewrite rd64_move_in by lia. rewrite rd64_fill_out by lia. f_equal. lia.
  - rewrite rd64_move_out by lia. apply rd64_fill_zero; lia.
Qed.

Lemma root_entry_old f i : 0 ≤ i < 512 → f ≠ p → entry_at root_phys f i = entry_at (phys s) f i.
Proof.
  intros Hi Hf. unfold entry_at, root_phys. rewrite rd64_move_out by lia. apply rd64_fill_out. lia.
Qed.

Lemma root_mem x : x / 4096 ≠ p → root_phys x = phys s x.
Proof.
  intros Hx. unfold root_phys. rewrite mem_move_out, mem_fill_out by dlia. done.
Qed.

Lemma root_lab f l : lab root_ghost f = Some l → f = p ∧ l = Lab p [] ∨ f ≠ p ∧ lab g f = Some l.
Proof. cbn. rewrite fn_insert_dec. destruct (decide (p = f)) as [<-|]; [intros [= <-]|]; auto. Qed.

Lemma root_lab_old f l : lab g f = Some l → f ≠ p ∧ lab root_ghost f = Some l.
Proof.
  intros Hf. destruct root_p as (_ & Hp & _). assert (f ≠ p) by congruence.
  cbn. by rewrite fn_lookup_insert_ne.
Qed.

Lemma root_uleaf f : uleaf K root_ghost f = if decide (f = p) then false else uleaf K g f.
Proof.
  unfold uleaf. cbn. rewrite fn_insert_dec. destruct (decide (p = f)) as [<-|Hne].
  - by rewrite decide_True.
  - by rewrite decide_False.
Qed.

Lemma root_ucount d :
  ucount K root_phys root_ghost (pages_cnt s) d = ucount K (phys s) g (pages_cnt s) d.
Proof.
  apply zsum_ext. intros [f i] [_ Hi]%cells_elem. unfold refers. cbn [fst snd]. rewrite root_uleaf.
  destruct (decide (f = p)) as [E|Hne]; [|by rewrite root_entry_old].
  unfold uleaf. rewrite E. destruct root_p as (_ & -> & _). done.
Qed.

Lemma root_edge f l i :
  lab root_ghost f = Some l → (length (l_path l) < 3)%nat → 0 ≤ i < 512 →
  present (entry_at root_phys f i) = true →
  lab root_ghost (frame (entry_at root_phys f i)) = Some (child K l i).
Proof.
  intros [[-> ->]|[Hf Hl]]%root_lab Hlen Hi P.
  - rewrite root_entry_p in * by done. destruct (Z.leb_spec KIDX i) as [Hki|]; [|done].
    apply root_lab_old. pose proof (wf_edge _ _ _ W K _ i HK ltac:(cbn; lia) Hi P) as He. rewrite He.
    unfold child. cbn. by rewrite (proj2 (Z.leb_le KIDX i)).
  - rewrite root_entry_old in * by done. by apply root_lab_old, (wf_edge _ _ _ W).
Qed.

Lemma root_wf : wf K root_state root_ghost.
Proof.
  destruct root_p as (Hpr & Hpl & Hpn & HpK). constructor; cbn [lab fl pins root_ghost].
  - apply W.
  - split; [done|]. intros x Hx. apply (wf_alloc _ _ _ W). rewrite Hfl. set_solver.
  - apply W.
  - intros x Hx. rewrite fn_lookup_insert_ne by (by intros ->). apply (wf_free _ _ _ W). rewrite Hfl. set_solver.
  - intros f l. cbn [refs root_state set_phys set_refs]. rewrite fn_insert_dec, Hr.
    destruct (decide (p = f)) as [<-|]; [intros [= <-]; split_and!; [apply Hpr..|cbn; lia|done]|].
    apply (wf_lab _ _ _ W).
  - intros f l [[-> ->]|[Hf Hl]]%root_lab; [|by apply (wf_tpin _ _ _ W f l)].
    apply (wf_free _ _ _ W). rewrite Hfl. set_solver.
  - intros f o [[-> [= ->]]|[Hf Hl]]%root_lab; [done|]. by apply (wf_root _ _ _ W).
  - intros f1 f2 l [[-> ->]|[Hf1 H1]]%root_lab [[-> E]|[Hf2 H2]]%root_lab.
    + done.
    + by apply (wf_root _ _ _ W) in H2.
    + subst l. by apply (wf_root _ _ _ W) in H1.
    + by apply (wf_inj _ _ _ W) with l.
  - exact root_edge.
  - intros f o q0 i [[-> E]|[Hf Hl]]%root_lab; [by destruct q0|].
    destruct (wf_back _ _ _ W _ _ _ _ Hl) as (Hi & f' & Hf' & P). split; [done|]. exists f'.
    destruct (root_lab_old _ _ Hf') as [Hne Hl']. split; [done|].
    cbn [phys root_state set_phys]. by rewrite root_entry_old.
  - intros f i. rewrite root_uleaf. destruct (decide (f = p)) as [|Hne]; [done|]. intros Hu Hi.
    cbn [phys root_state set_phys]. rewrite root_entry_old by done.
    pose proof (wf_leaf _ _ _ W f i Hu Hi) as Hlf. rewrite Hfl in Hlf.
    destruct (present (entry_at (phys s) f i)); [|exact Hlf]. destruct Hlf as (? & Hn & ?).
    split_and!; [done|set_solver|]. rewrite fn_lookup_insert_ne; [done|set_solver].
  - intros d Hd Hn. cbn [refs root_state set_phys set_refs phys pages_cnt set_free]. rewrite fn_insert_dec, Hr.
    destruct (decide (p = d)) as [|Hpd]; [done|]. intros Hld. rewrite root_ucount.
    apply (wf_refs _ _ _ W); [done| |done]. rewrite Hfl. set_solver.
Qed.

(** User addresses are unmapped in the new space, kernel addresses are as in
    the kernel's own. *)
Lemma walk_root f l path :
  lab g f = Some l → (length (l_path l) + length path ≤ 3)%nat → Forall (λ i, 0 ≤ i < 512) path →
  walk (entry_at root_phys) f path = walk (entry_at (phys s)) f path ∧
  (∀ f', walk (entry_at (phys s)) f path = Some f' → f' ≠ p).
Proof.
  revert f l. induction path as [|i path IH]; intros f l Hl Hlen Hp; cbn [walk].
  { split; [done|]. intros f' [= <-]. by apply (root_lab_old f l). }
  apply Forall_cons in Hp as [Hi Hp]. cbn [length] in Hlen.
  rewrite root_entry_old by (done || by apply (root_lab_old f l)).
  destruct (present (entry_at (phys s) f i)) eqn:P; [|done].
  apply (IH _ (child K l i)); [apply (wf_edge _ _ _ W); [done|lia|done|done]| |done].
  rewrite child_path, length_app. cbn. lia.
Qed.

Lemma translate_root_old f o va :
  lab g f = Some (Lab o []) → translate root_phys f va = translate (phys s) f va.
Proof.
  intros Hf. unfold translate, leaf.
  destruct (walk_root f _ (table_path va) Hf) as [-> Hp]; [cbn; lia|apply table_path_ok|].
  destruct (walk (entry_at (phys s)) f (table_path va)) as [f'|]; [|done]. cbn.
  rewrite root_entry_old; [done|apply PT_IDX_range|by apply Hp].
Qed.

Lemma translate_root va :
  translate root_phys p va = if PML4_IDX va <? KIDX then None else translate (phys s) K va.
Proof.
  rewrite <- (translate_root_old K K) by done. unfold translate, leaf, table_path. cbn [walk].
  pose proof (PML4_IDX_range va) as Hi. rewrite root_entry_p by done.
  destruct root_p as (_ & _ & _ & HpK). rewrite (root_entry_old K) by (done || congruence).
  destruct (Z.ltb_spec (PML4_IDX va) KIDX).
  - by rewrite (proj2 (Z.leb_gt KIDX _)).
  - by rewrite (proj2 (Z.leb_le KIDX _)).
Qed.
End newroot.

(** The task structure [task_new] prepares, before the address space. *)
Definition fresh_task k (nm : list Z) : task :=
  MkTask Context.zero_context TASK_STATE_DONT_RUN (u32 (last_task_id k + 1)) (strncpy_str TASK_NAME_SIZE nm) NULL.

(** What [task_new] does to everything but the memory manager. *)
Record slot_taken k (t : Z) (tk : task) tl' k' : Prop := {
  sl_task : tasks k' t = tk;
  sl_other j : j ≠ t → tasks k' j = tasks k j;
  sl_free : Lst.lrep (free_tasks k') tl';
  sl_last : last_task_id k' = u32 (last_task_id k + 1);
  sl_config : config_pml4 k' = config_pml4 k;
  sl_cpu : cpu_task k' = cpu_task k;
  sl_cr3 : cr3 k' = cr3 k;
  sl_next : next_task_idx k' = next_task_idx k;
}.

Ltac upd_step := apply wp_bind; eapply wp_eq; [by apply upd_slot_ok|].

(** The part of [task_new] before the page is allocated. *)
Lemma take_slot k t tl' (f : Z → M (kstate T) (option Z)) nm Q :
  Lst.lrep (free_tasks k) (t :: tl') → 0 ≤ t < TASK_MAX_CNT →
  (∀ k', slot_taken k t (fresh_task k nm) tl' k' → mm k' = mm k →
    wp (f t) Q k') →
  wp (slot_at t ;;
      q ← deref (Lst.LIST_REMOVE t (free_tasks k));
      modify (set_free_tasks (Lst.set_entry t Lst.null_entry q)) ;;
      upd_task (TSlot t) (λ _, zero_task) ;;
      upd_task (TSlot t) (set_name (strncpy_str TASK_NAME_SIZE nm)) ;;
      modify (λ k, set_last_task_id (u32 (last_task_id k + 1)) k) ;;
      n ← gets last_task_id;
      upd_task (TSlot t) (set_id n) ;;
      upd_task (TSlot t) (set_state TASK_STATE_DONT_RUN) ;;
      f t) Q k.
Proof.
  intros Hrep Ht Hf. destruct (Lst.remove_rep t (free_tasks k) [] tl' Hrep) as (q & Hq & Hrep').
  pose proof (Lst.lrep_nodup _ _ Hrep) as [Hnt _]%NoDup_cons.
  apply wp_bind. eapply wp_eq; [by apply slot_at_ok|].
  apply wp_bind, (wp_deref _ q); [done|]. apply wp_bind, wp_modify.
  upd_step. upd_step. apply wp_bind, wp_modify. apply wp_bind, wp_gets. upd_step. upd_step.
  apply Hf; [|done]. constructor; cbn [tasks set_tasks set_free_tasks set_last_task_id free_tasks last_task_id
    config_pml4 cpu_task cr3 next_task_idx]; try done.
  - by rewrite !fn_lookup_insert.
  - intros j Hj. by rewrite !fn_lookup_insert_ne.
  - by apply lrep_set_entry.
Qed.

Lemma task_new_full k g nm :
  kwf k g [] → ∃ c, task_new nm k = Ok (None, set_mm (set_con c (mm k)) k) ∧ con_ok c.
Proof.
  intros Hk. unfold task_new, mbind, M_bind, get. rewrite (Lst.lrep_first _ _ (kw_free _ _ _ Hk)). cbn [head].
  edestruct (kprintf_ok ("Can't create task `%s': no more free tasks" ++ nl) [AStr nm]) as (c & -> & Hc);
    [reflexivity|exact (wf_con _ _ _ (kw_wf _ _ _ Hk))|]. eauto.
Qed.

(** Out of pages: the slot has already left the free list and is not put back. *)
Lemma task_new_nomem k g t tl' nm :
  kwf k g (t :: tl') → fl g = [] →
  ∃ k', task_new nm k = Ok (None, k') ∧ slot_taken k t (fresh_task k nm) tl' k' ∧
    ∃ c, mm k' = set_con c (mm k) ∧ con_ok c.
Proof.
  intros Hk Hfl. pose proof (kw_wf _ _ _ Hk) as W. pose proof (kw_free _ _ _ Hk) as Hrep.
  destruct (kw_slots _ _ _ Hk t) as [Ht _]; [set_solver|].
  assert (wp (task_new nm) (λ r k', r = None ∧ slot_taken k t (fresh_task k nm) tl' k' ∧
    ∃ c, mm k' = set_con c (mm k) ∧ con_ok c) k) as Hwp.
  { unfold task_new. apply wp_bind, wp_get. rewrite (Lst.lrep_first _ _ Hrep). cbn [head].
    eapply (take_slot k t tl' (λ t, pg ← liftm page_alloc; _)); [done|done|]. intros k1 Hsl Hmm.
    apply wp_bind. eapply wp_eq.
    { apply liftm_ok. rewrite Hmm. apply page_alloc_none. rewrite <- Hfl. apply W. }
    apply wp_bind, wp_kprintf; [reflexivity|exact (wf_con _ _ _ W)|]. intros c Hc. apply wp_ret.
    split; [done|]. split; [|by exists c]. destruct Hsl. by constructor. }
  apply wp_ok in Hwp as (a & k' & ? & -> & ?). eauto.
Qed.

(** The new task: slot [t], root in frame [p]. *)
Record task_created k g (t p : Z) tl' fl' nm k' : Prop := {
  tc_free : fl g = p :: fl';
  tc_slot : slot_taken k t (set_pml4 (VADDR (bld (mm k)) (p * 4096)) (fresh_task k nm)) tl' k';
  tc_kwf : kwf k' (root_ghost g p fl') tl';
  tc_tr va : translate (phys (mm k')) p va =
    if PML4_IDX va <? KIDX then None else translate (phys (mm k)) K va;
  tc_old r o va : lab g r = Some (Lab o []) → translate (phys (mm k')) r va = translate (phys (mm k)) r va;
  tc_refs d : refs (mm k') d = if decide (p = d) then 1 else refs (mm k) d;
  tc_cnt : pages_cnt (mm k') = pages_cnt (mm k);
  tc_mem x : x / 4096 ≠ p → phys (mm k') x = phys (mm k) x;
}.

Lemma created_kwf k g t p tl' fl' nm k' q r :
  kwf k g (t :: tl') → fl g = p :: fl' → Lst.lrep q fl' →
  (∀ d, r d = if decide (p = d) then 1 else refs (mm k) d) →
  slot_taken k t (set_pml4 (VADDR (bld (mm k)) (p * 4096)) (fresh_task k nm)) tl' k' →
  mm k' = root_state (mm k) p q r → kwf k' (root_ghost g p fl') tl'.
Proof.
  intros Hk Hfl Hq Hr Hsl Hmm. pose proof (kw_wf _ _ _ Hk) as W. pose proof (kw_K _ _ _ Hk) as HK.
  destruct (root_p (mm k) g p fl' W HK Hfl) as (Hpr & Hpl & _ & HpK).
  pose proof (λ f i, root_entry_old (mm k) p f i) as Hold.
  pose proof (λ i, root_entry_p (mm k) g p fl' W HK Hfl i) as Hnew.
  destruct (kw_slots _ _ _ Hk t) as [Ht _]; [set_solver|].
  pose proof (Lst.lrep_nodup _ _ (kw_free _ _ _ Hk)) as [Hnt _]%NoDup_cons.
  assert (∀ j rj, 0 ≤ j < TASK_MAX_CNT → j ≠ t → pml4 (tasks k j) = VADDR (bld (mm k)) (rj * 4096) →
    lab g rj = Some (Lab rj []) → pml4 (tasks k j) ≠ VADDR (bld (mm k)) (p * 4096)) as Hnp.
  { intros j rj Hj Hjt Hrj Hlj E. rewrite Hrj in E. destruct (wf_lab _ _ _ W rj _ Hlj) as (Hrr & _).
    rewrite !VADDR_kernel in E by (done || exact (kw_build _ _ _ Hk)).
    assert (rj = p) as -> by lia. congruence. }
  constructor; rewrite ?Hmm.
  - apply (root_wf (mm k) g p fl' q r W HK Hfl Hq Hr).
  - exact (kw_build _ _ _ Hk).
  - apply (root_lab_old (mm k) g p fl' W HK Hfl K _ HK).
  - rewrite (sl_config _ _ _ _ _ Hsl). exact (kw_config _ _ _ Hk).
  - intros x o i Hx Hi. cbn [phys root_state set_phys]. rewrite KIDX_val in Hi.
    rewrite (Hold K) by (lia || congruence). apply root_lab in Hx as [[-> _]|[Hne Hx]].
    + rewrite Hnew by lia. rewrite KIDX_val, (proj2 (Z.leb_le 2 i)) by lia. done.
    + rewrite Hold by (done || lia). apply (kw_shared _ _ _ Hk x o); [done|rewrite KIDX_val; lia].
  - cbn [phys root_state set_phys]. rewrite Hold by (rewrite ?KIDX_val; lia || congruence). exact (kw_gap _ _ _ Hk).
  - exact (sl_free _ _ _ _ _ Hsl).
  - intros j Hj. destruct (kw_slots _ _ _ Hk j) as [Hjr Hj0]; [set_solver|]. split; [done|].
    rewrite (sl_other _ _ _ _ _ Hsl); [done|]. by intros ->.
  - intros j Hj Hp. destruct (decide (j = t)) as [->|Hne].
    + exists p. rewrite (sl_task _ _ _ _ _ Hsl). split_and!; [done| |done]. cbn. by rewrite fn_lookup_insert.
    + rewrite (sl_other _ _ _ _ _ Hsl) in * by done.
      destruct (kw_task _ _ _ Hk j Hj Hp) as (rj & Hrj & Hlj & HjK). exists rj. split_and!; [done| |done].
      apply (root_lab_old (mm k) g p fl' W HK Hfl rj _ Hlj).
  - intros j1 j2 H1 H2 Hp1 Heq. destruct (decide (j1 = t)) as [->|Hn1], (decide (j2 = t)) as [->|Hn2]; [done|..].
    + rewrite (sl_task _ _ _ _ _ Hsl), (sl_other _ _ _ _ _ Hsl j2) in * by done. exfalso.
      destruct (kw_task _ _ _ Hk j2 H2) as (rj & Hrj & Hlj & _); [congruence|]. cbn in Heq.
      by apply (Hnp j2 rj).
    + rewrite (sl_task _ _ _ _ _ Hsl), (sl_other _ _ _ _ _ Hsl j1) in * by done. exfalso.
      destruct (kw_task _ _ _ Hk j1 H1) as (rj & Hrj & Hlj & _); [done|]. cbn in Heq. by apply (Hnp j1 rj).
    + rewrite !(sl_other _ _ _ _ _ Hsl) in * by done. by apply (kw_inj _ _ _ Hk).
Qed.

Lemma task_new_ok k g t tl' p fl' nm :
  kwf k g (t :: tl') → fl g = p :: fl' →
  ∃ k', task_new nm k = Ok (Some t, k') ∧ task_created k g t p tl' fl' nm k'.
Proof.
  intros Hk Hfl. pose proof (kw_wf _ _ _ Hk) as W. pose proof (kw_free _ _ _ Hk) as Hrep.
  pose proof (kw_K _ _ _ Hk) as HK. pose proof (wf_build _ _ _ W) as Hb.
  destruct (kw_slots _ _ _ Hk t) as [Ht _]; [set_solver|].
  destruct (root_p (mm k) g p fl' W HK Hfl) as (Hpr & Hpl & _ & HpK).
  pose proof (wf_alloc _ _ _ W) as Hal. rewrite Hfl in Hal.
  destruct (page_alloc_some (mm k) p fl' Hal) as (q & Hpa & Hq & _).
  set (r := <[p := u32 (<[p := 0]> (refs (mm k)) p + 1)]> (<[p := 0]> (refs (mm k)))).
  assert (∀ d, r d = if decide (p = d) then 1 else refs (mm k) d) as Hr.
  { intros d. unfold r. rewrite fn_lookup_insert, !fn_insert_dec. by destruct (decide (p = d)). }
  assert (wp (task_new nm) (λ a k', a = Some t ∧ mm k' = root_state (mm k) p q r ∧
    slot_taken k t (set_pml4 (VADDR (bld (mm k)) (p * 4096)) (fresh_task k nm)) tl' k') k) as Hwp.
  { unfold task_new. apply wp_bind, wp_get. rewrite (Lst.lrep_first _ _ Hrep). cbn [head].
    eapply (take_slot k t tl' (λ t, pg ← liftm page_alloc; _)); [done|done|]. intros k1 Hsl Hmm.
    apply wp_bind. eapply wp_eq; [apply liftm_ok; rewrite Hmm; exact Hpa|].
    apply wp_bind. eapply wp_eq; [apply liftm_ok, page_incref_ok; exact Hpr|].
    apply wp_bind, wp_gets. cbn [mm set_mm bld set_refs set_free].
    assert (page2kva (bld (mm k)) p = VADDR (bld (mm k)) (p * 4096)) as Htbl
      by (unfold page2kva; by rewrite page2pa_ok).
    rewrite Htbl. upd_step.
    apply wp_bind. eapply wp_eq; [apply liftm_ok; reflexivity|].
    apply wp_bind. eapply wp_eq; [apply liftm_ok; reflexivity|]. apply wp_ret. split; [done|].
    cbn [mm set_mm set_tasks bld set_phys set_refs set_free phys refs]. split.
    - rewrite (kw_config _ _ _ Hk), <- Htbl, PADDR_page, Htbl by done.
      change (PML4_IDX USER_TOP) with 2.
      rewrite !PADDR_entry by (done || apply (wf_lab _ _ _ W _ _ HK)). done.
    - destruct Hsl as [S1 S2 S3 S4 S5 S6 S7 S8]. constructor; try done.
      + cbn. rewrite fn_lookup_insert, S1. done.
      + intros j Hj. cbn. rewrite fn_lookup_insert_ne by done. by apply S2. }
  apply wp_ok in Hwp as (a & k' & Hrun & -> & Hmm & Hsl). exists k'. split; [done|].
  constructor; [done|done|by eapply created_kwf| | | | |]; rewrite Hmm.
  - intros va. by apply (translate_root (mm k) g p fl' W HK Hfl).
  - intros x o va Hx. by apply (translate_root_old (mm k) g p fl' W HK Hfl x o).
  - exact Hr.
  - done.
  - intros x Hx. by apply root_mem.
Qed.

(** ** Initialisation *)

Lemma init_loop k l :
  Lst.lrep (free_tasks k) [] → NoDup l → (∀ i, i ∈ l → 0 ≤ i < TASK_MAX_CNT) →
  wp (mfor l init_slot) (λ _ k', Lst.lrep (free_tasks k') (reverse l) ∧
    k' = set_tasks (tasks k') (set_free_tasks (free_tasks k') k) ∧
    ∀ i, i ∈ l → tasks k' i = set_state TASK_STATE_FREE (tasks k i)) k.
Proof.
  intros H0 Hnd Hr. apply (wp_mfor l _ (λ dn k', Lst.lrep (free_tasks k') (reverse dn) ∧
    k' = set_tasks (tasks k') (set_free_tasks (free_tasks k') k) ∧ ∀ i, tasks k' i = if decide (i ∈ dn) then set_state TASK_STATE_FREE (tasks k i) else tasks k i)).
  - split; [done|]. split; [by destruct k|]. intros i. rewrite decide_False; [done|]. by intros ?%elem_of_nil.
  - intros dn i rest k1 Hl (Hrep & Hmm & Hts). rewrite Hl in Hnd. apply NoDup_app in Hnd as (_ & Hdis & _).
    assert (i ∉ dn) as Hni by (intros Hin; apply (Hdis i Hin), elem_of_cons; by left).
    assert (0 ≤ i < TASK_MAX_CNT) as Hi by (apply Hr; rewrite Hl; apply elem_of_app; right; apply elem_of_cons; by left).
    apply wp_bind, wp_modify. eapply wp_eq; [by apply upd_slot_ok|]. split; [|split; [by rewrite Hmm|]].
    + cbn [free_tasks set_tasks set_free_tasks]. rewrite reverse_snoc.
      apply Lst.insert_head_rep; [done|]. by rewrite elem_of_reverse.
    + intros j. cbn [tasks set_tasks set_free_tasks]. rewrite fn_insert_dec, !Hts.
      assert (j ∈ dn ++ [i] ↔ j ∈ dn ∨ j = i) as Hj by (rewrite elem_of_app, list_elem_of_singleton; done).
      rewrite (decide_False (P := i ∈ dn)) by done. destruct (decide (i = j)) as [<-|Hne].
      * by rewrite decide_True by (apply Hj; by right).
      * destruct (decide (j ∈ dn)); [by rewrite decide_True by (apply Hj; by left)|].
        rewrite decide_False; [done|]. intros [?|?]%Hj; congruence.
  - intros k1 (Hrep & Hmm & Hts). split_and!; try done. intros i Hi. by rewrite Hts, decide_True.
Qed.

Lemma task_init_state k :
  Lst.lrep (free_tasks k) [] →
  ∃ k', task_init k = Ok ((), k') ∧ Lst.lrep (free_tasks k') slots ∧
    (∀ i, 0 ≤ i < TASK_MAX_CNT → tasks k' i = set_state TASK_STATE_FREE (tasks k i)) ∧
    k' = set_self_task zero_task (set_cpu_task (Some TSelf) (set_tasks (tasks k') (set_free_tasks (free_tasks k') k))).
Proof.
  intros H0.
  assert (∀ i, i ∈ reverse slots ↔ 0 ≤ i < TASK_MAX_CNT) as Hin
    by (intros i; rewrite elem_of_reverse; apply slots_elem).
  assert (wp (mfor (reverse slots) init_slot) (λ _ k', Lst.lrep (free_tasks k') slots ∧
    k' = set_tasks (tasks k') (set_free_tasks (free_tasks k') k) ∧ ∀ i, i ∈ reverse slots → tasks k' i = set_state TASK_STATE_FREE (tasks k i)) k) as Hw.
  { eapply wp_mono; [apply (init_loop k (reverse slots) H0); [|intros i; apply Hin]|].
    - rewrite reverse_Permutation. apply zseq_NoDup.
    - intros [] k' (Hrep & H). by rewrite reverse_involutive in Hrep. }
  destruct (proj1 (wp_ok _ _ _) Hw) as ([] & k1 & Hrun & Hrep & Hmm & Hts).
  exists (set_self_task zero_task (set_cpu_task (Some TSelf) k1)).
  split; [unfold task_init, mbind, M_bind; rewrite Hrun; reflexivity|].
  clear Hw Hrun. cbn [free_tasks tasks cpu_task self_task mm set_self_task set_cpu_task].
  split; [exact Hrep|]. split; [|by rewrite Hmm]. intros i Hi. apply Hts, Hin, Hi.
Qed.

Lemma task_init_ok k :
  Lst.lrep (free_tasks k) [] →
  ∃ k', task_init k = Ok ((), k') ∧ Lst.lrep (free_tasks k') slots ∧
    (∀ i, 0 ≤ i < TASK_MAX_CNT → tasks k' i = set_state TASK_STATE_FREE (tasks k i)) ∧
    cpu_task k' = Some TSelf ∧ self_task k' = zero_task ∧ mm k' = mm k.
Proof.
  intros H. destruct (task_init_state k H) as (k' & ? & ? & ? & E). exists k'. do 3 (split; [assumption|]).
  rewrite E. repeat split.
Qed.

End task.
