(* ===== verification/Syscall.v ===== *)
(** System calls: kernel/syscall.c with the numbers of stdlib/syscall.h.

    [sys_fork] walks the parent's tables with four nested loops and shares
    every present page with the child; pages that are writable or already
    copy-on-write become read-only and copy-on-write in both.  [syscall] ends in
    [task_run] or [schedule], so its result is the task that is resumed. *)

From Stdlib Require Import String.
From S2P Require Import Prelude Memory Queue Mmu Console Map Walk Gdt Context Task.
Import Mmu Map Task.

Module Syscall.

Definition SYSCALL_PUTS : Z := 0.
Definition SYSCALL_EXIT : Z := 1.
Definition SYSCALL_FORK : Z := 2.
Definition SYSCALL_YIELD : Z := 3.

Section syscall.
Context {T : Type} `{!Console T}.

(** The permissions a shared page gets in both address spaces, if they change. *)
Definition cow_perm (perm : Z) : Z := Z.land (Z.lor perm PTE_COW) (Z.lnot PTE_W).

Definition share_cow (perm : Z) : bool := has_flag perm PTE_W || has_flag perm PTE_COW.

Definition task_share_page (dest src : tptr) (va perm : Z) : M (kstate T) Z :=
  st ← get_task src;
  '(pg, _) ← liftm (page_lookup (pml4 st) va);
  massert (bool_decide (is_Some pg)) ;;
  p ← deref pg;
  dt ← get_task dest;
  r ← (if share_cow perm then
         let perm := cow_perm perm in
         r ← liftm (page_insert (pml4 st) p va perm);
         if negb (r =? 0) then mret (-1)
         else r ← liftm (page_insert (pml4 dt) p va perm); mret (if negb (r =? 0) then -1 else 0)
       else
         r ← liftm (page_insert (pml4 dt) p va perm); mret (if negb (r =? 0) then -1 else 0));
  if negb (r =? 0) then mret (-1)
  else
    k ← get;
    ref ← liftm (get_ref p);
    kprintf ("share page %p (va: %p): refs: %d" ++ nl)
      [AInt (page_ptr (mm k) p); AInt va; AInt ref] ;;
    mret 0.

(** One loop of the walk: [f] on the present entries, until it returns. *)
Definition fork_loop (tbl : Z) (n : nat) (f : Z → Z → M (kstate T) (option Z)) : M (kstate T) (option Z) :=
  mfor_ret (zseq 0 n) (λ i,
    e ← liftm (kread (tbl + 8 * i));
    if negb (has_flag e PTE_P) then mret None else f i e).

Definition fork_pt (child task : tptr) (i j k pte : Z) : M (kstate T) (option Z) :=
  fork_loop pte (Z.to_nat NPT_ENTRIES) (λ l e,
    let perm := Z.land e PTE_FLAGS_MASK in
    r ← task_share_page child task (PAGE_ADDR i j k l 0) perm;
    if negb (r =? 0) then task_destroy child ;; mret (Some (-1)) else mret None).

Definition fork_pd (child task : tptr) (i j pde : Z) : M (kstate T) (option Z) :=
  fork_loop pde (Z.to_nat NPD_ENTRIES) (λ k e,
    b ← kbld; fork_pt child task i j k (VADDR b (PTE_ADDR e))).

Definition fork_pdp (child task : tptr) (i pdpe : Z) : M (kstate T) (option Z) :=
  fork_loop pdpe (Z.to_nat NPDP_ENTRIES) (λ j e,
    b ← kbld; fork_pd child task i j (VADDR b (PDPE_ADDR e))).

Definition sys_fork (task : tptr) : M (kstate T) Z :=
  c ← task_new (codes "child");
  match c with
  | None => mret (-1)
  | Some ci =>
      let child := TSlot ci in
      t ← get_task task;
      upd_task child (set_context (context t)) ;;
      upd_task child (λ c, set_context (Context.set_gprs
        (Context.set_rax 0 (Context.c_gprs (context c))) (context c)) c) ;;
      r ← fork_loop (pml4 t) (Z.to_nat (PML4_IDX USER_TOP + 1)) (λ i e,
            b ← kbld; fork_pdp child task i (VADDR b (PML4E_ADDR e)));
      match r with
      | Some v => mret v
      | None =>
          upd_task child (set_state TASK_STATE_READY) ;;
          ct ← get_task child;
          mret (i32 (id ct))
      end
  end.

(** The string a [%s] argument points to, read through [cr3]. *)
Fixpoint vstring (fuel : nat) (va : Z) : M (kstate T) (list Z) :=
  match fuel with
  | O => fail EFuel
  | S fuel' =>
      b ← vload8 va;
      if b2z b =? 0 then mret [] else l ← vstring fuel' (va + 1); mret (b2z b :: l)
  end.

(** Bound on the length of a printed user string. *)
Definition user_string_max : nat := Z.to_nat 65536.

Definition syscall (task : tptr) : M (kstate T) tptr :=
  t ← get_task task;
  let g := Context.c_gprs (context t) in
  let nr := u32 (Context.rax g) in
  let return_ (ret : Z) :=
    upd_task task (λ t, set_context (Context.set_gprs
      (Context.set_rax (u64 ret) (Context.c_gprs (context t))) (context t)) t) ;;
    task_run task in
  if nr =? SYSCALL_PUTS then
    s ← vstring user_string_max (Context.rbx g);
    kprintf "task [%d]: %s" [AInt (id t); AStr s] ;;
    return_ 0
  else if nr =? SYSCALL_EXIT then
    kprintf ("task [%d] exited with value `%d'" ++ nl) [AInt (id t); AInt (Context.rbx g)] ;;
    task_destroy task ;;
    schedule
  else if nr =? SYSCALL_FORK then
    ret ← sys_fork task;
    return_ ret
  else if nr =? SYSCALL_YIELD then schedule
  else fail EPanic.  (* panic("unknown syscall `%u'") *)

End syscall.
End Syscall.
