(* ===== verification/ForkProofs.v ===== *)
(** [sys_fork]: the child gets a copy-on-write image of the parent's address
    space.

    The walk over the parent's tables is described by one counter: a virtual
    page number below which all pages are shared already.  [shared] is what holds
    in every state of the walk, [progress] adds what the two address spaces
    translate to. *)

From Stdlib Require Import String.
From S2P Require Import Prelude Memory Queue Mmu Console Map AllocProofs Walk MapWf.
From S2P Require Import LookupProofs InsertProofs Gdt Context Task SchedProofs DestroyProofs.
From S2P Require Import TaskProofs Syscall.
Import Mmu Map Task Syscall.

(** ** Virtual page numbers *)

(** The number of the page with the given table indexes. *)
Definition vpn_of (path : list Z) : Z := foldl (λ a i, a * 512 + i) 0 path.
Definition vpn (va : Z) : Z := vpn_of (full_path va).

(** The first page under slot [n] of the table with index path [path]. *)
Definition first_page (path : list Z) (n : Z) : Z :=
  (vpn_of path * 512 + n) * 512 ^ (3 - Z.of_nat (length path)).

Definition path_ok (path : list Z) : Prop := (length path ≤ 3)%nat ∧ Forall (λ i, 0 ≤ i < 512) path.

Lemma first_page_start q i : (length q ≤ 2)%nat → first_page (q ++ [i]) 0 = first_page q i.
Proof.
  intros Hq. unfold first_page, vpn_of. rewrite foldl_app, length_app. cbn [foldl length].
  assert (length q = 0 ∨ length q = 1 ∨ length q = 2)%nat as [->|[->| ->]] by lia; cbn; lia.
Qed.

Lemma first_page_end q i : (length q ≤ 2)%nat → first_page (q ++ [i]) 512 = first_page q (i + 1).
Proof.
  intros Hq. unfold first_page, vpn_of. rewrite foldl_app, length_app. cbn [foldl length].
  assert (length q = 0 ∨ length q = 1 ∨ length q = 2)%nat as [->|[->| ->]] by lia; cbn; lia.
Qed.

Lemma first_page_mono path n : first_page path n ≤ first_page path (n + 1).
Proof.
  unfold first_page. apply Z.mul_le_mono_nonneg_r; [|lia]. apply Z.pow_nonneg. lia.
Qed.

(** The pages under slot [n] are those whose path goes through it. *)
Lemma in_slot path n va :
  path_ok path → 0 ≤ n < 512 → first_page path n ≤ vpn va < first_page path (n + 1) →
  ∃ rest, full_path va = path ++ n :: rest.
Proof.
  intros [Hlen Hp] Hn. unfold first_page, vpn, vpn_of, full_path, table_path.
  pose proof (PML4_IDX_range va). pose proof (PDP_IDX_range va). pose proof (PD_IDX_range va).
  pose proof (PT_IDX_range va). destruct path as [|a [|b [|c [|d path]]]]; cbn in Hlen; [..|lia]; cbn;
    repeat (apply Forall_cons in Hp as [? Hp]); intros Hr; change (Z.pow_pos 512 3) with 134217728 in *;
    change (Z.pow_pos 512 2) with 262144 in *; change (Z.pow_pos 512 1) with 512 in *.
  - eexists. do 2 f_equal. lia.
  - eexists. f_equal; [|f_equal]; lia || reflexivity.
  - eexists. f_equal; [|f_equal; [|f_equal]]; lia || reflexivity.
  - eexists. f_equal; [|f_equal; [|f_equal; [|f_equal]]]; lia || reflexivity.
Qed.

Lemma vpn_inj va va' : vpn va = vpn va' → full_path va = full_path va'.
Proof.
  unfold vpn, vpn_of, full_path, table_path. cbn.
  pose proof (PML4_IDX_range va). pose proof (PDP_IDX_range va). pose proof (PD_IDX_range va).
  pose proof (PT_IDX_range va). pose proof (PML4_IDX_range va'). pose proof (PDP_IDX_range va').
  pose proof (PD_IDX_range va'). pose proof (PT_IDX_range va'). intros E.
  f_equal; [|f_equal; [|f_equal; [|f_equal]]]; lia.
Qed.

(** ** Walks and labels *)

Section fork.
Context {T : Type} `{!Console T, !ConsoleLaws T} (K : Z).
Implicit Types (s : mstate T) (k : kstate T) (g : ghost) (tl : list Z).

(** A table is found by walking its path. *)
Lemma walk_of_label s g root o f path :
  wf K s g → lab g root = Some (Lab o []) → lab g f = Some (Lab o path) →
  walk (entry_at (phys s)) root path = Some f.
Proof.
  intros W Hr. revert f. induction path as [|i path IH] using rev_ind; intros f Hf.
  - cbn. f_equal. by eapply (wf_inj _ _ _ W).
  - destruct (wf_back _ _ _ W _ _ _ _ Hf) as (_ & f' & Hf' & P & E).
    rewrite walk_app, (IH f' Hf'). cbn. by rewrite P, E.
Qed.

Lemma leaf_walk_none ent root path i : walk ent root (path ++ [i]) = None → leaf ent root path i = None.
Proof.
  rewrite walk_app. unfold leaf. destruct (walk ent root path) as [f|]; [|done]. cbn. by destruct (present (ent f i)).
Qed.

(** Nothing is mapped under an absent slot. *)
Lemma translate_absent s g root o f path n va rest :
  wf K s g → lab g root = Some (Lab o []) → lab g f = Some (Lab o path) →
  present (entry_at (phys s) f n) = false → full_path va = path ++ n :: rest →
  translate (phys s) root va = None.
Proof.
  intros W Hr Hf P Hp. apply leaf_walk_none. fold (full_path va). rewrite Hp, walk_app.
  rewrite (walk_of_label s g root o f path W Hr Hf). cbn. by rewrite P.
Qed.

Lemma translate_leaf s g root o f va :
  wf K s g → lab g root = Some (Lab o []) → lab g f = Some (Lab o (table_path va)) →
  present (entry_at (phys s) f (PT_IDX va)) = true →
  translate (phys s) root va = Some (entry_at (phys s) f (PT_IDX va)).
Proof.
  intros W Hr Hf P. unfold translate, leaf. rewrite (walk_of_label s g root o f _ W Hr Hf). cbn. by rewrite P.
Qed.

(** ** The invariant of the kernel under changes of user mappings *)

Lemma kwf_mm k g tl s' g' :
  kwf K k g tl → wf K s' g' → bld s' = bld (mm k) → pages_cnt s' = pages_cnt (mm k) →
  (∀ f l, lab g f = Some l → lab g' f = Some l) →
  (∀ r o, lab g' r = Some (Lab o []) → lab g r = Some (Lab o [])) →
  (∀ r o i, lab g r = Some (Lab o []) → KIDX ≤ i < 512 →
     entry_at (phys s') r i = entry_at (phys (mm k)) r i) →
  kwf K (set_mm s' k) g' tl.
Proof.
  intros [H1 [H2 H2'] H3 H4 H5 H6 H7 H8 H9 H10] W Hb Hc Hl Hr He.
  constructor; cbn [mm set_mm tasks config_pml4 free_tasks]; try done.
  - split; [by rewrite Hb|by rewrite Hc].
  - by apply Hl.
  - by rewrite Hb.
  - intros r o i Hro Hi. apply Hr in Hro. rewrite (He r o) by done. rewrite (He K K) by done. by apply (H5 r o).
  - rewrite (He K K); [done|done|]. rewrite KIDX_val. lia.
  - intros i Hi Hp. destruct (H9 i Hi Hp) as (r & Hpr & Hlr & HrK). exists r. rewrite Hb. auto.
Qed.

(** Room for one more reference to any page: a page has at most one reference
    per table entry, besides its pins. *)
Definition refs_fit (s : mstate T) g : Prop := ∀ d, 512 * pages_cnt s + pins g d + 1 < 2 ^ 32.

Lemma ucount_le m g cnt d : 0 ≤ cnt → ucount K m g cnt d ≤ 512 * cnt.
Proof.
  intros Hc. unfold ucount.
  assert (∀ l, zsum (refers K m g d) l ≤ Z.of_nat (length l)) as H.
  { induction l as [|x l IH]; [done|]. rewrite zsum_cons. cbn [length].
    assert (refers K m g d x ≤ 1); [unfold refers; destruct (_ && _); lia|lia]. }
  etransitivity; [apply H|]. unfold cells.
  assert (∀ fs : list Z, length (fs ≫= λ f, pair f <$> zseq 0 512) = (length fs * 512)%nat) as Hl.
  { induction fs as [|f fs IH]; [done|]. rewrite bind_cons, length_app, length_fmap, zseq_length, IH. cbn [length]. lia. }
  rewrite Hl, zseq_length. lia.
Qed.

Lemma refs_fit_ok s g p :
  wf K s g → refs_fit s g → in_range s p → p ∉ fl g → lab g p = None → refs s p + 1 < 2 ^ 32.
Proof.
  intros W Hf Hp Hn Hl. destruct (wf_refs _ _ _ W p Hp Hn Hl) as (-> & _ & _).
  pose proof (ucount_le (phys s) g (pages_cnt s) p ltac:(destruct Hp; lia)). specialize (Hf p). lia.
Qed.

(** ** Entries of shared pages *)

(** The entry both address spaces have for a shared page. *)
Definition cow (e : Z) : Z :=
  let perm := Z.land e PTE_FLAGS_MASK in
  frame e * 4096 + Z.lor (if share_cow perm then cow_perm perm else perm) PTE_P.

Lemma perm_range e : 0 ≤ Z.land e PTE_FLAGS_MASK < 4096.
Proof.
  change PTE_FLAGS_MASK with (Z.ones 12). rewrite Z.land_ones by done. apply Z.mod_pos_bound. done.
Qed.

Lemma cow_perm_range perm : 0 ≤ perm < 4096 → 0 ≤ cow_perm perm < 4096.
Proof.
  intros H. unfold cow_perm. apply (land_bound _ _ 12); [done|]. apply (lor_bound _ _ 12); done.
Qed.

Lemma entry_parts e :
  0 ≤ e < 2 ^ 64 → present e = true → e = frame e * 4096 + Z.lor (Z.land e PTE_FLAGS_MASK) PTE_P.
Proof.
  intros He P. assert (Z.lor (Z.land e PTE_FLAGS_MASK) PTE_P = e mod 4096) as ->.
  { change PTE_FLAGS_MASK with (Z.ones 12). change 4096 with (2 ^ 12).
    rewrite <- (Z.land_ones e 12) by done. apply Z.bits_inj'. intros n Hn.
    rewrite Z.lor_spec, Z.land_spec. change PTE_P with (2 ^ 0). rewrite Z.pow2_bits_eqb by done.
    destruct (Z.eqb_spec 0 n) as [<-|]; [|apply orb_false_r].
    rewrite present_bit in P. by rewrite P. }
  rewrite frame_alt by done. dlia.
Qed.

(** A shared page keeps its frame and its other permissions; it is not writable. *)
Lemma frame_cow e : 0 ≤ e → frame e * 4096 < 2 ^ 63 → 0 ≤ frame e → frame (cow e) = frame e ∧ present (cow e) = true.
Proof.
  intros H0 H1 H2. unfold cow. set (q := if share_cow _ then _ else _).
  assert (0 ≤ Z.lor q PTE_P < 4096) as Hq.
  { apply (lor_bound _ _ 12); [done| |done]. unfold q. destruct (share_cow _); [apply cow_perm_range|]; apply perm_range. }
  split; [by apply frame_mk|]. apply present_mk. rewrite Z.lor_spec. apply orb_true_r.
Qed.

(** What a fork leaves alone: the kernel's tables, the pins and the
    processor's state; [t] is the child's slot, [p] its root. *)
Record fork_rest k g (t p : Z) k' g' : Prop := {
  fr_cnt : pages_cnt (mm k') = pages_cnt (mm k);
  fr_pins : pins g' = pins g;
  fr_klab f l : lab g f = Some l → l_owner l = K → lab g' f = Some l;
  fr_kern f l i : lab g f = Some l → l_owner l = K → 0 ≤ i < 512 →
    entry_at (phys (mm k')) f i = entry_at (phys (mm k)) f i;
  fr_cpu : cpu_task k ≠ Some (TSlot t) → cpu_task k' = cpu_task k;
  fr_cr3 : cr3 k ≠ p * 4096 → cr3 k' = cr3 k;
  fr_next : next_task_idx k' = next_task_idx k;
}.

(** ** Sharing one page *)

Section share.
(** The state when the walk starts: slot [pi] is the parent with root [r], slot
    [ci] the child with root [c]. *)
Context k1 g1 tl (pi ci r c : Z).
Hypothesis Hk1 : kwf K k1 g1 tl.
Hypothesis Hpi : 0 ≤ pi < TASK_MAX_CNT.
Hypothesis Hci : 0 ≤ ci < TASK_MAX_CNT.
Hypothesis Hpr : pml4 (tasks k1 pi) = VADDR (bld (mm k1)) (r * 4096).
Hypothesis Hpc : pml4 (tasks k1 ci) = VADDR (bld (mm k1)) (c * 4096).
Hypothesis Hr : lab g1 r = Some (Lab r []).
Hypothesis Hc : lab g1 c = Some (Lab c []).
Hypothesis HrK : r ≠ K.
Hypothesis HcK : c ≠ K.
Hypothesis Hrc : r ≠ c.
Hypothesis Hfit : refs_fit (mm k1) g1.

Record shared k g : Prop := {
  fs_kwf : kwf K k g tl;
  fs_set : k = set_mm (mm k) k1;
  fs_bld : bld (mm k) = bld (mm k1);
  fs_cnt : pages_cnt (mm k) = pages_cnt (mm k1);
  fs_lab f l : lab g1 f = Some l → lab g f = Some l;
  fs_none d : lab g1 d = None → d ∉ fl g1 → lab g d = None;
  fs_fl d : d ∈ fl g → d ∈ fl g1;
  fs_pins : pins g = pins g1;
  fs_other x o va : lab g1 x = Some (Lab o []) → (x ≠ r ∧ x ≠ c ∨ KIDX ≤ PML4_IDX va) →
    translate (phys (mm k)) x va = translate (phys (mm k1)) x va;
  fs_mem x : lab g1 (x / 4096) = None → x / 4096 ∉ fl g1 → phys (mm k) x = phys (mm k1) x;
  fs_roots x o : lab g x = Some (Lab o []) → lab g1 x = Some (Lab o []);
  fs_kern f l i : lab g1 f = Some l → l_owner l = K → 0 ≤ i < 512 →
    entry_at (phys (mm k)) f i = entry_at (phys (mm k1)) f i;
}.

Lemma shared_refl : shared k1 g1.
Proof. constructor; auto. by destruct k1. Qed.

Lemma shared_con k g cn : con_ok cn → shared k g → shared (set_mm (set_con cn (mm k)) k) g.
Proof.
  intros Hcn [H1 H2 H3 H4 H5 H6 H7 H8 H9 H10 H11 H12]. constructor; try done.
  - apply (kwf_mm k g tl); try done. apply wf_con_any; [done|apply H1].
  - cbn [mm set_mm]. rewrite H2. reflexivity.
Qed.

(** The two ways a step changes the memory manager. *)
Lemma shared_step k g s' g' root va :
  shared k g → (root = r ∨ root = c) → PML4_IDX va < KIDX →
  wf K s' g' → bld s' = bld (mm k) → pages_cnt s' = pages_cnt (mm k) →
  (∀ f l, lab g f = Some l → lab g' f = Some l) → (∀ d, lab g d = None → d ∉ fl g → lab g' d = None) →
  (∀ f l, lab g' f = Some l → lab g f = Some l ∨ l_path l ≠ []) →
  (∀ x o i, lab g x = Some (Lab o []) → KIDX ≤ i < 512 → entry_at (phys s') x i = entry_at (phys (mm k)) x i) →
  (∀ d, d ∈ fl g' → d ∈ fl g) → pins g' = pins g →
  (∀ x o va', lab g x = Some (Lab o []) → ¬ same_page root va x va' →
     translate (phys s') x va' = translate (phys (mm k)) x va') →
  (∀ x, lab g (x / 4096) = None → x / 4096 ∉ fl g → phys s' x = phys (mm k) x) →
  (∀ f l i, lab g f = Some l → l_owner l = K → 0 ≤ i < 512 → entry_at (phys s') f i = entry_at (phys (mm k)) f i) →
  shared (set_mm s' k) g'.
Proof.
  intros [H1 H2 H3 H4 H5 H6 H7 H8 H9 H10 H11 H12] Hroot Hva W' Hb Hcn Hl Hn Hnew Htop Hfl Hp Ht Hm Hkn.
  constructor; cbn [mm set_mm].
  - apply (kwf_mm k g tl); try done. intros x o Hx. by destruct (Hnew _ _ Hx) as [?|?].
  - rewrite H2. done.
  - by rewrite Hb.
  - by rewrite Hcn.
  - auto.
  - intros d Hd Hd'. apply Hn; [auto|]. intros Hin. by apply Hd', H7.
  - auto.
  - by rewrite Hp.
  - intros x o va' Hx Hor. rewrite (Ht x o); [by apply (H9 x o)|by apply H5|]. intros [<- E].
    assert (PML4_IDX va = PML4_IDX va') by (unfold full_path, table_path in E; cbn in E; congruence).
    destruct Hor as [[? ?]|?]; [destruct Hroot; congruence|lia].
  - intros x Hx Hx'. rewrite Hm; [by apply H10|by apply H6|]. intros Hin. by apply Hx', H7.
  - intros x o Hx. destruct (Hnew _ _ Hx) as [?|?]; [by apply H11|done].
  - intros f l i Hf Ho Hi. rewrite (Hkn f l) by auto. by apply (H12 f l).
Qed.

Lemma shared_rest k g : shared k g → fork_rest k1 g1 ci c k g.
Proof.
  intros S. constructor; try (intros; rewrite (fs_set _ _ S); done).
  - exact (fs_cnt _ _ S).
  - exact (fs_pins _ _ S).
  - intros f l Hf _. by apply (fs_lab _ _ S).
  - exact (fs_kern _ _ S).
Qed.

(** Tables stay where they are. *)
Definition mono g g' : Prop := ∀ f l, lab g f = Some l → lab g' f = Some l.

Lemma insert_step k g root va p perm (Q : Z → kstate T → Prop) :
  shared k g → (root = r ∨ root = c) → PML4_IDX va < KIDX →
  in_range (mm k) p → 0 < p → p ∉ fl g → lab g p = None → 0 ≤ perm < 4096 →
  (∀ e, translate (phys (mm k)) root va = Some e → frame e = p) →
  (∀ s' g', shared (set_mm s' k) g' → mono g g' →
     (∀ x o va', lab g x = Some (Lab o []) → ¬ same_page root va x va' →
        translate (phys s') x va' = translate (phys (mm k)) x va') →
     in_range s' p → p ∉ fl g' → lab g' p = None →
     translate (phys s') root va = Some (p * 4096 + Z.lor perm PTE_P) → Q 0 (set_mm s' k)) →
  (∀ s' g', shared (set_mm s' k) g' → mono g g' →
     (∀ x o va', lab g x = Some (Lab o []) → translate (phys s') x va' = translate (phys (mm k)) x va') →
     Q (-1) (set_mm s' k)) →
  wp (liftm (page_insert (VADDR (bld (mm k1)) (root * 4096)) p va perm)) Q k.
Proof.
  intros S Hroot Hva Hp Hp0 Hpn Hpl Hperm He Hok Hfail. pose proof (kw_wf _ _ _ _ (fs_kwf _ _ S)) as W.
  assert (lab g root = Some (Lab root [])) as Hlr by (destruct Hroot as [-> | ->]; by apply (fs_lab _ _ S)).
  assert (root ≠ K) as HK by (destruct Hroot; congruence).
  assert (refs (mm k) p + 1 < 2 ^ 32) as Href.
  { apply (refs_fit_ok (mm k) g p); try done. intros d. rewrite (fs_cnt _ _ S), (fs_pins _ _ S). apply Hfit. }
  destruct (page_insert_spec K (mm k) g root root va p perm W) as (ret & s' & g' & Hrun & H); try done.
  rewrite <- (fs_bld _ _ S). eapply wp_eq; [by apply liftm_ok|].
  destruct H as [(-> & E & Ad & _)|(-> & I)].
  - apply (Hfail s' g'); [|exact (ext_lab _ _ _ _ _ E)|exact (ext_tr _ _ _ _ _ E)]. destruct (ext_fl _ _ _ _ _ E) as [nw F].
    apply (shared_step k g s' g' root va); try done.
    + exact (ext_wf _ _ _ _ _ E).
    + exact (ext_bld _ _ _ _ _ E).
    + exact (ext_cnt _ _ _ _ _ E).
    + exact (ext_lab _ _ _ _ _ E).
    + exact (ext_none _ _ _ _ _ E).
    + intros f l Hf. destruct (Ad f l Hf) as [?|[? _]]; auto.
    + intros x o i Hx Hi. by apply (ext_top K (mm k) g s' g' root va x o).
    + intros d Hd. rewrite F. set_solver.
    + exact (ext_pins _ _ _ _ _ E).
    + intros x o va' Hx _. by apply (ext_tr _ _ _ _ _ E x o).
    + exact (ext_mem _ _ _ _ _ E).
    + intros f l i Hf Ho Hi. exact (ext_kern K (mm k) g s' g' root va f l i W E Ad Hva HK Hf Ho Hi).
  - assert (∀ d, d ∈ fl g' → d ∈ fl g) as Hfl.
    { intros d Hd. destruct (in_free _ _ _ _ _ _ _ _ _ I d Hd) as [?|(e & Ht & -> & _ & Hne)]; [done|].
      by apply He in Ht. }
    apply (Hok s' g').
    + apply (shared_step k g s' g' root va); try done.
      * exact (in_wf _ _ _ _ _ _ _ _ _ I).
      * exact (in_bld _ _ _ _ _ _ _ _ _ I).
      * exact (in_cnt _ _ _ _ _ _ _ _ _ I).
      * exact (in_lab _ _ _ _ _ _ _ _ _ I).
      * exact (in_none _ _ _ _ _ _ _ _ _ I).
      * intros f l Hf. destruct (in_new _ _ _ _ _ _ _ _ _ I f l Hf) as [?|[? _]]; auto.
      * exact (in_top _ _ _ _ _ _ _ _ _ I).
      * exact (in_pins _ _ _ _ _ _ _ _ _ I).
      * exact (in_other _ _ _ _ _ _ _ _ _ I).
      * exact (in_mem _ _ _ _ _ _ _ _ _ I).
      * exact (in_kern _ _ _ _ _ _ _ _ _ I).
    + exact (in_lab _ _ _ _ _ _ _ _ _ I).
    + exact (in_other _ _ _ _ _ _ _ _ _ I).
    + unfold in_range. rewrite (in_cnt _ _ _ _ _ _ _ _ _ I). exact Hp.
    + auto.
    + by apply (in_none _ _ _ _ _ _ _ _ _ I).
    + exact (in_tr _ _ _ _ _ _ _ _ _ I).
Qed.

Lemma get_shared k g i : shared k g → 0 ≤ i < TASK_MAX_CNT → get_task (TSlot i) k = Ok (tasks k1 i, k).
Proof. intros S Hi. rewrite get_slot_ok by done. by rewrite (fs_set _ _ S). Qed.

Lemma root_shared k g root :
  shared k g → (root = r ∨ root = c) → lab g root = Some (Lab root []) ∧ root ≠ K.
Proof. intros S [-> | ->]; split; try done; by apply (fs_lab _ _ S). Qed.

Lemma user_shared k g root va :
  shared k g → (root = r ∨ root = c) → PML4_IDX va < KIDX → user_va K g root root va.
Proof. intros S Hroot Hva. by destruct (root_shared k g root S Hroot). Qed.

(** Translations of the two address spaces. *)
Local Notation "'tr' k x va" := (translate (phys (mm k)) x va) (at level 10, k, x, va at level 9).

Lemma shared_range k g k' g' p : shared k g → shared k' g' → in_range (mm k) p → in_range (mm k') p.
Proof. intros S S'. unfold in_range. by rewrite (fs_cnt _ _ S), (fs_cnt _ _ S'). Qed.

(** What sharing the page at [va], whose entry was [e], does. *)
Definition share_post k g (va e : Z) (ret : Z) k' : Prop := ∃ g', shared k' g' ∧ mono g g' ∧
  (∀ va', PML4_IDX va' < KIDX → full_path va' ≠ full_path va →
     tr k' r va' = tr k r va' ∧ tr k' c va' = tr k c va') ∧
  (ret = 0 ∧ tr k' r va = Some (cow e) ∧ tr k' c va = Some (cow e) ∨
   ret = -1 ∧ (tr k' r va = Some e ∨ tr k' r va = Some (cow e))).

Lemma share_insert k g va e :
  shared k g → PML4_IDX va < KIDX → tr k r va = Some e → tr k c va = None → 0 < frame e →
  let perm := Z.land e PTE_FLAGS_MASK in
  wp (if share_cow perm then
        r0 ← liftm (page_insert (VADDR (bld (mm k1)) (r * 4096)) (frame e) va (cow_perm perm));
        if negb (r0 =? 0) then mret (-1)
        else r0 ← liftm (page_insert (VADDR (bld (mm k1)) (c * 4096)) (frame e) va (cow_perm perm));
             mret (if negb (r0 =? 0) then -1 else 0)
      else
        r0 ← liftm (page_insert (VADDR (bld (mm k1)) (c * 4096)) (frame e) va perm);
        mret (if negb (r0 =? 0) then -1 else 0))
    (λ ret k', share_post k g va e ret k' ∧ in_range (mm k') (frame e)) k.
Proof.
  intros S Hva Ht Hcn Hp0 perm. pose proof (kw_wf _ _ _ _ (fs_kwf _ _ S)) as W.
  pose proof (user_shared k g r va S (or_introl eq_refl) Hva) as U.
  pose proof (proj1 (root_shared k g r S (or_introl eq_refl))) as Hlr.
  pose proof (proj1 (root_shared k g c S (or_intror eq_refl))) as Hlc.
  destruct (mapped_page K (mm k) g r r va e W U Ht) as (f & _ & He & P & _ & _ & Hp & Hpn & Hpl & _).
  pose proof (entry_range (phys (mm k)) f (PT_IDX va)) as Her. rewrite He in Her.
  pose proof (perm_range e) as Hperm. fold perm in Hperm.
  assert (∀ x y va', x ≠ y ∨ full_path va' ≠ full_path va → ¬ same_page x va y va') as Hns
    by (intros x y va' H [? ?]; destruct H; congruence).
  destruct (share_cow perm) eqn:Hsc.
  - assert (frame e * 4096 + Z.lor (cow_perm perm) PTE_P = cow e) as Hv by (unfold cow; fold perm; by rewrite Hsc).
    apply wp_bind. eapply (insert_step k g r); try done; [by left|by apply cow_perm_range|by rewrite Ht; intros ? [= ->]| |].
    + intros s1 g2 S1 M1 Ho1 Hp1 Hpn1 Hpl1 Ht1. rewrite Hv in Ht1. cbn [negb Z.eqb].
      apply wp_bind. eapply (insert_step (set_mm s1 k) g2 c); try done; [by right|by apply cow_perm_range| | |].
      * cbn [mm set_mm]. intros e'. rewrite (Ho1 c c) by auto. by rewrite Hcn.
      * intros s2 g3 S2 M2 Ho2 Hp2 _ _ Ht2. rewrite Hv in Ht2. cbn [mm set_mm] in *. split; [|done]. exists g3.
        split; [done|]. split; [intros f' l' Hf'; by apply M2, M1|].
        pose proof (root_shared _ _ r S1 (or_introl eq_refl)) as [Hlr1 _].
        pose proof (root_shared _ _ c S1 (or_intror eq_refl)) as [Hlc1 _]. split.
        -- intros va' Hva' Hne. rewrite (Ho2 r r), (Ho2 c c), (Ho1 r r), (Ho1 c c) by auto. done.
        -- left. split; [done|]. rewrite (Ho2 r r) by auto. auto.
      * intros s2 g3 S2 M2 Ho2. cbn [mm set_mm] in *. split; [|].
        -- exists g3. split; [done|]. split; [intros f' l' Hf'; by apply M2, M1|]. pose proof (root_shared _ _ r S1 (or_introl eq_refl)) as [Hlr1 _].
           pose proof (root_shared _ _ c S1 (or_intror eq_refl)) as [Hlc1 _]. split.
           ++ intros va' Hva' Hne. rewrite (Ho2 r r), (Ho2 c c), (Ho1 r r), (Ho1 c c) by auto. done.
           ++ right. split; [done|]. right. by rewrite (Ho2 r r).
        -- exact (shared_range _ _ _ _ _ S S2 Hp).
    + intros s1 g2 S1 M1 Ho1. cbn [negb Z.eqb]. apply wp_ret. cbn [mm set_mm] in *. split.
      * exists g2. split; [done|]. split; [done|]. split; [intros va' _ _; by rewrite (Ho1 r r), (Ho1 c c)|].
        right. split; [done|]. left. by rewrite (Ho1 r r).
      * exact (shared_range _ _ _ _ _ S S1 Hp).
  - assert (cow e = e) as Hv by (unfold cow; fold perm; rewrite Hsc; symmetry; by apply entry_parts).
    apply wp_bind. eapply (insert_step k g c); try done; [by right|by rewrite Hcn| |].
    + intros s1 g2 S1 M1 Ho1 Hp1 _ _ Ht1. cbn [mm set_mm] in *. split; [|done]. exists g2. split; [done|]. split; [done|].
      unfold perm in Ht1. rewrite <- entry_parts in Ht1 by done. split.
      * intros va' Hva' Hne. rewrite (Ho1 r r), (Ho1 c c) by auto. done.
      * left. rewrite Hv. split; [done|]. rewrite (Ho1 r r) by auto. auto.
    + intros s1 g2 S1 M1 Ho1. cbn [mm set_mm] in *. split.
      * exists g2. split; [done|]. split; [done|]. split; [intros va' _ _; by rewrite (Ho1 r r), (Ho1 c c)|].
        right. split; [done|]. left. by rewrite (Ho1 r r).
      * exact (shared_range _ _ _ _ _ S S1 Hp).
Qed.

Lemma set_mm_same k : set_mm (mm k) k = k.
Proof. by destruct k. Qed.

Lemma share_page_ok k g va e :
  shared k g → PML4_IDX va < KIDX → tr k r va = Some e → tr k c va = None → 0 < frame e →
  wp (task_share_page (TSlot ci) (TSlot pi) va (Z.land e PTE_FLAGS_MASK)) (share_post k g va e) k.
Proof.
  intros S Hva Ht Hcn Hp0. pose proof (kw_wf _ _ _ _ (fs_kwf _ _ S)) as W. unfold task_share_page.
  apply wp_bind. eapply wp_eq; [by apply (get_shared k g)|]. rewrite Hpr.
  apply wp_bind. eapply wp_eq.
  { apply liftm_ok. rewrite <- (fs_bld _ _ S). apply (page_lookup_ok K (mm k) g r r va W); [|by left].
    by apply (fs_lab _ _ S). }
  rewrite Ht, set_mm_same. cbn [fmap option_fmap option_map].
  apply wp_bind, wp_massert; [by apply bool_decide_eq_true|].
  apply wp_bind. eapply wp_deref; [done|].
  apply wp_bind. eapply wp_eq; [by apply (get_shared k g)|]. rewrite Hpc.
  apply wp_bind. eapply wp_mono; [by apply (share_insert k g va e)|].
  intros ret k' [(g' & S' & Mg & Ho & H) Hin]. destruct H as [(-> & H1 & H2)|(-> & H1)]; cbn [negb Z.eqb].
  - apply wp_bind, wp_get. apply wp_bind. eapply wp_eq; [by apply liftm_ok, get_ref_ok|]. rewrite set_mm_same.
    apply wp_bind, wp_kprintf; [done|exact (wf_con _ _ _ (kw_wf _ _ _ _ (fs_kwf _ _ S')))|].
    intros cn Hc'. apply wp_ret. exists g'. split; [by apply shared_con|]. split; [done|]. split; [exact Ho|].
    left. split; [done|]. split; [exact H1|exact H2].
  - apply wp_ret. exists g'. split; [done|]. split; [done|]. split; [exact Ho|]. right. split; [done|exact H1].
Qed.

(** ** The walk *)

(** Page 0 is mapped nowhere in the parent. *)
Hypothesis Hpos : ∀ va e, PML4_IDX va < KIDX → tr k1 r va = Some e → 0 < frame e.

(** All pages below number [n] are shared. *)
Record progress (n : Z) k g : Prop := {
  pg_shared : shared k g;
  pg_parent va : PML4_IDX va < KIDX → tr k r va = if vpn va <? n then cow <$> tr k1 r va else tr k1 r va;
  pg_child va : PML4_IDX va < KIDX → tr k c va = if vpn va <? n then cow <$> tr k1 r va else None;
}.

Lemma progress_absent path f n k g :
  path_ok path → 0 ≤ n < 512 → progress (first_page path n) k g → lab g f = Some (Lab r path) →
  present (entry_at (phys (mm k)) f n) = false → progress (first_page path (n + 1)) k g.
Proof.
  intros Hp Hn [S Hpa Hch] Hf P. pose proof (first_page_mono path n) as Hm.
  assert (∀ va, PML4_IDX va < KIDX → first_page path n ≤ vpn va < first_page path (n + 1) → tr k1 r va = None) as H0.
  { intros va Hva Hr'. destruct (in_slot path n va Hp Hn Hr') as [rest Hfp].
    pose proof (Hpa va Hva) as E. rewrite (proj2 (Z.ltb_ge _ _)) in E by lia. rewrite <- E.
    exact (translate_absent (mm k) g r r f path n va rest (kw_wf _ _ _ _ (fs_kwf _ _ S)) (fs_lab _ _ S _ _ Hr) Hf P Hfp). }
  constructor; [done|..]; intros va Hva; [rewrite (Hpa va Hva)|rewrite (Hch va Hva)];
    destruct (Z.ltb_spec (vpn va) (first_page path n)), (Z.ltb_spec (vpn va) (first_page path (n + 1)));
    try done; try lia; by rewrite (H0 va Hva) by lia.
Qed.

(** One page more. *)
Lemma progress_page n va e k g k' g' :
  progress n k g → vpn va = n → PML4_IDX va < KIDX → tr k1 r va = Some e → shared k' g' →
  (∀ va', PML4_IDX va' < KIDX → full_path va' ≠ full_path va →
     tr k' r va' = tr k r va' ∧ tr k' c va' = tr k c va') →
  tr k' r va = Some (cow e) → tr k' c va = Some (cow e) → progress (n + 1) k' g'.
Proof.
  intros [S Hpa Hch] Hn Hva He S' Ho H1 H2.
  assert (∀ va', PML4_IDX va' < KIDX → full_path va' ≠ full_path va → (vpn va' <? n + 1) = (vpn va' <? n)) as Hlt.
  { intros va' _ Hne. assert (vpn va' ≠ n) by (intros E; apply Hne, vpn_inj; congruence).
    destruct (Z.ltb_spec (vpn va') n), (Z.ltb_spec (vpn va') (n + 1)); lia || done. }
  constructor; [done|..]; intros va' Hva'; destruct (decide (full_path va' = full_path va)) as [E|Hne].
  - assert (vpn va' = n) as En by (unfold vpn in *; congruence).
    rewrite (translate_full _ _ _ _ E), H1, (translate_full _ _ _ _ E), He, En.
    by rewrite (proj2 (Z.ltb_lt _ _)) by lia.
  - rewrite (proj1 (Ho va' Hva' Hne)), Hlt by done. by apply Hpa.
  - assert (vpn va' = n) as En by (unfold vpn in *; congruence).
    rewrite (translate_full _ _ _ _ E), H2, (translate_full _ _ _ _ E), He, En.
    by rewrite (proj2 (Z.ltb_lt _ _)) by lia.
  - rewrite (proj2 (Ho va' Hva' Hne)), Hlt by done. by apply Hch.
Qed.

(** ** Failure: the child is destroyed again *)

Record fork_failed k' g' : Prop := {
  ff_kwf : kwf K k' g' (ci :: tl);
  ff_parent va : PML4_IDX va < KIDX → tr k' r va = tr k1 r va ∨ tr k' r va = cow <$> tr k1 r va;
  ff_other x o va : lab g1 x = Some (Lab o []) → x ≠ c → x ≠ r ∨ KIDX ≤ PML4_IDX va → tr k' x va = tr k1 x va;
  ff_mem x : lab g1 (x / 4096) = None → x / 4096 ∉ fl g1 → phys (mm k') x = phys (mm k1) x;
  ff_task : state (tasks k' ci) = TASK_STATE_FREE;
  ff_tasks j : j ≠ ci → tasks k' j = tasks k1 j;
  ff_rest : fork_rest k1 g1 ci c k' g';
  ff_roots x o : lab g' x = Some (Lab o []) → lab g1 x = Some (Lab o []) ∧ x ≠ c;
}.

Lemma child_root k g : shared k g → pml4 (tasks k ci) = VADDR (bld (mm k)) (c * 4096) ∧ pml4 (tasks k ci) ≠ NULL ∧
  ∀ x, lab g x = Some (Lab x []) → VADDR (bld (mm k)) (x * 4096) = VADDR (bld (mm k)) (c * 4096) → x = c.
Proof.
  intros S. pose proof (kw_wf _ _ _ _ (fs_kwf _ _ S)) as W. pose proof (kw_build _ _ _ _ (fs_kwf _ _ S)) as Hb.
  assert (pml4 (tasks k ci) = VADDR (bld (mm k)) (c * 4096)) as E.
  { rewrite (fs_bld _ _ S), <- Hpc. by rewrite (fs_set _ _ S). }
  destruct (wf_lab _ _ _ W c _ (fs_lab _ _ S _ _ Hc)) as (Hcr & _). rewrite E. split; [done|].
  pose proof (VADDR_kernel (mm k) c Hb Hcr) as Ec. split.
  - rewrite Ec. unfold NULL, KERNEL_BASE. destruct Hcr. lia.
  - intros x Hx Ex. destruct (wf_lab _ _ _ W x _ Hx) as (Hxr & _). rewrite Ec, VADDR_kernel in Ex by done. lia.
Qed.

Lemma fork_fail n k g k' va e :
  progress n k g → PML4_IDX va < KIDX → tr k1 r va = Some e → share_post k g va e (-1) k' →
  wp (task_destroy (TSlot ci)) (λ _ k'', ∃ g'', fork_failed k'' g'') k'.
Proof.
  intros [S Hpa Hch] Hva He (g' & S' & _ & Ho & H). destruct H as [(? & _)|(_ & H)]; [done|].
  destruct (child_root k' g' S') as (Ec & Hn & Hinj).
  destruct (task_destroy_ok K k' g' tl ci (fs_kwf _ _ S') Hci Hn) as (k'' & g'' & x & Hrun & TD).
  eapply wp_eq; [exact Hrun|]. exists g''. pose proof (td_mm _ _ _ _ _ _ _ _ TD) as D.
  pose proof (td_pml4 _ _ _ _ _ _ _ _ TD) as Ex. rewrite Ec in Ex.
  pose proof (Hinj x (td_root _ _ _ _ _ _ _ _ TD) (eq_sym Ex)) as ->.
  pose proof (kw_wf _ _ _ _ (fs_kwf _ _ S')) as W'.
  assert (∀ x o va, lab g1 x = Some (Lab o []) → x ≠ c → tr k'' x va = tr k' x va) as Htr.
  { intros x o va' Hx Hxc. pose proof (fs_lab _ _ S' _ _ Hx) as Hx'. apply (de_tr _ _ _ _ _ _ D x o); [done|].
    by rewrite <- (wf_root _ _ _ W' _ _ Hx'). }
  constructor.
  - by eapply task_destroyed_kwf; [apply S'|..].
  - intros va' Hva'. rewrite (Htr r r) by done. destruct (decide (full_path va' = full_path va)) as [E|Hne].
    + rewrite !(translate_full _ _ _ _ E), He. exact H.
    + rewrite (proj1 (Ho va' Hva' Hne)), (Hpa va' Hva'). destruct (vpn va' <? n); auto.
  - intros x o va' Hx Hxc Hor. rewrite (Htr x o) by done. apply (fs_other _ _ S' x o); [done|].
    destruct Hor; auto.
  - intros x Hx Hx'. rewrite (de_mem _ _ _ _ _ _ D) by (by apply (fs_none _ _ S')). by apply (fs_mem _ _ S').
  - by rewrite (td_task _ _ _ _ _ _ _ _ TD).
  - intros j Hj. rewrite (td_other _ _ _ _ _ _ _ _ TD) by done. by rewrite (fs_set _ _ S').
  - assert (cpu_task k' = cpu_task k1 ∧ cr3 k' = cr3 k1 ∧ next_task_idx k' = next_task_idx k1) as (E1 & E2 & E3)
      by (by rewrite (fs_set _ _ S')).
    constructor.
    + rewrite (de_cnt _ _ _ _ _ _ D). exact (fs_cnt _ _ S').
    + rewrite (de_pins _ _ _ _ _ _ D). exact (fs_pins _ _ S').
    + intros f l Hf Hown. apply (de_keep _ _ _ _ _ _ D); [by apply (fs_lab _ _ S')|congruence].
    + intros f l i Hf Hown Hi. rewrite (de_ent _ _ _ _ _ _ D f l i (fs_lab _ _ S' _ _ Hf) ltac:(congruence) Hi).
      by apply (fs_kern _ _ S' f l).
    + intros Hcpu. rewrite (td_cpu _ _ _ _ _ _ _ _ TD), decide_False by congruence. done.
    + intros Hcr. rewrite (td_cr3 _ _ _ _ _ _ _ _ TD). unfold cr3_after. rewrite Ec.
      destruct (wf_lab _ _ _ W' c _ (fs_lab _ _ S' _ _ Hc)) as (Hcr' & _).
      pose proof (PADDR_entry (mm k') c 0 (wf_build _ _ _ W') Hcr' ltac:(lia)) as Ep. rewrite !Z.add_0_r in Ep.
      rewrite Ep, E2, (proj2 (Z.eqb_neq _ _)) by done. done.
    + by rewrite (td_next _ _ _ _ _ _ _ _ TD).
  - intros x o Hx. destruct (de_sub _ _ _ _ _ _ D x _ Hx) as [Hx' Hown]. cbn in Hown. split; [by apply (fs_roots _ _ S')|].
    intros ->. rewrite (fs_lab _ _ S' _ _ Hc) in Hx'. congruence.
Qed.

(** ** The four loops *)

Definition loop_post (n : Z) g (res : option Z) k' : Prop :=
  match res with
  | None => ∃ g', mono g g' ∧ progress n k' g'
  | Some v => v = -1 ∧ ∃ g', fork_failed k' g'
  end.

Lemma loop_ok path f (cnt : nat) body k g :
  path_ok path → (cnt ≤ 512)%nat → progress (first_page path 0) k g → lab g f = Some (Lab r path) →
  (∀ i k' g', 0 ≤ i < Z.of_nat cnt → progress (first_page path i) k' g' → lab g' f = Some (Lab r path) →
     present (entry_at (phys (mm k')) f i) = true →
     wp (body i (entry_at (phys (mm k')) f i)) (loop_post (first_page path (i + 1)) g') k') →
  wp (fork_loop (VADDR (bld (mm k1)) (f * 4096)) cnt body) (loop_post (first_page path (Z.of_nat cnt)) g) k.
Proof.
  intros Hp Hcnt Hpg Hf Hbody. unfold fork_loop.
  apply (wp_mfor_ret _ _ (λ dn k', ∃ g', mono g g' ∧ progress (first_page path (Z.of_nat (length dn))) k' g')).
  - exists g. split; [by intros ? ?|done].
  - intros dn i rest k' Hl (g' & Mg & Hpg'). destruct (zseq_split 0 cnt dn i rest Hl) as (Hi & _).
    assert (Z.of_nat (length dn) = i ∧ 0 ≤ i < Z.of_nat cnt) as [En Hir].
    { apply (f_equal length) in Hl. rewrite zseq_length, length_app in Hl. cbn in Hl. lia. }
    pose proof (Mg _ _ Hf) as Hf'. pose proof (kw_wf _ _ _ _ (fs_kwf _ _ (pg_shared _ _ _ Hpg'))) as W'.
    apply wp_bind. eapply wp_eq.
    { apply liftm_ok. rewrite <- (fs_bld _ _ (pg_shared _ _ _ Hpg')). apply kread_entry; [apply W'| |lia].
      by apply (wf_lab _ _ _ W' _ _ Hf'). }
    rewrite set_mm_same. rewrite En in Hpg'. rewrite length_app. cbn [length].
    replace (Z.of_nat (length dn + 1)) with (i + 1) by lia.
    change (has_flag (entry_at (phys (mm k')) f i) PTE_P) with (present (entry_at (phys (mm k')) f i)).
    destruct (present (entry_at (phys (mm k')) f i)) eqn:P; cbn [negb].
    + eapply wp_mono; [by apply (Hbody i k' g')|]. intros [v|] k''; [done|].
      intros (g'' & Mg' & Hpg''). exists g''. split; [|done]. intros x l Hx. by apply Mg', Mg.
    + apply wp_ret. exists g'. split; [done|]. eapply progress_absent; try done. lia.
  - intros k' (g' & Mg & Hpg'). rewrite zseq_length in Hpg'. by exists g'.
Qed.

Lemma fork_pt_ok i j m f k g :
  path_ok [i; j; m] → i < KIDX → progress (first_page [i; j; m] 0) k g → lab g f = Some (Lab r [i; j; m]) →
  wp (fork_pt (TSlot ci) (TSlot pi) i j m (VADDR (bld (mm k1)) (f * 4096)))
    (loop_post (first_page [i; j; m] 512) g) k.
Proof.
  intros Hp Hi Hpg Hf. apply (loop_ok [i; j; m] f 512); [done|done|done|done|].
  intros l k' g' Hl Hpg' Hf' P. change (Z.of_nat 512) with 512 in Hl. pose proof Hpg' as [S Hpa Hch].
  destruct Hp as [_ Hpr']. rewrite !Forall_cons in Hpr'. destruct Hpr' as (H1 & H2 & H3 & _).
  destruct (PAGE_ADDR_indexes i j m l 0) as (I1 & I2 & I3 & I4 & _); [done..|lia|].
  set (va := PAGE_ADDR i j m l 0) in *. set (e := entry_at (phys (mm k')) f l) in *.
  assert (vpn va = first_page [i; j; m] l) as Hn.
  { unfold vpn, full_path, table_path, first_page, vpn_of. rewrite I1, I2, I3, I4. cbn. lia. }
  assert (PML4_IDX va < KIDX) as Hva by lia.
  assert (tr k' r va = Some e) as Ht.
  { unfold e. rewrite <- I4. apply (translate_leaf (mm k') g' r r).
    - apply (fs_kwf _ _ S).
    - by apply (fs_lab _ _ S).
    - unfold table_path. by rewrite I1, I2, I3.
    - by rewrite I4. }
  pose proof (Hpa va Hva) as E1. pose proof (Hch va Hva) as E2. rewrite Hn, Z.ltb_irrefl in E1, E2.
  rewrite Ht in E1. apply wp_bind.
  eapply wp_mono; [apply (share_page_ok k' g' va e); try done; by apply (Hpos va)|].
  intros ret k'' Hsp. destruct (decide (ret = 0)) as [->|Hne].
  - cbn [negb Z.eqb]. apply wp_ret. destruct Hsp as (g'' & S'' & Mg & Ho & [(_ & Hr'' & Hc'')|(? & _)]); [|done].
    exists g''. split; [done|].
    replace (first_page [i; j; m] (l + 1)) with (first_page [i; j; m] l + 1) by (unfold first_page; cbn; lia).
    by apply (progress_page _ va e k' g').
  - assert (ret = -1) as -> by (destruct Hsp as (? & _ & _ & _ & [(? & _)|(? & _)]); done).
    cbn [negb Z.eqb]. apply wp_bind. eapply wp_mono; [by eapply (fork_fail _ k' g' k'' va e)|].
    intros [] k3 Hff. apply wp_ret. split; [done|exact Hff].
Qed.

(** A loop over an inner table, given the loop of the next level. *)
Lemma inner_ok path f (cnt : nat) body k g :
  path_ok path → (length path ≤ 2)%nat → (cnt ≤ 512)%nat → (path = [] → cnt = 3%nat) →
  progress (first_page path 0) k g → lab g f = Some (Lab r path) →
  (∀ i f' k' g', 0 ≤ i < Z.of_nat cnt → uslot (Lab r path) i → progress (first_page (path ++ [i]) 0) k' g' →
     lab g' f' = Some (Lab r (path ++ [i])) →
     wp (body i (VADDR (bld (mm k1)) (f' * 4096))) (loop_post (first_page (path ++ [i]) 512) g') k') →
  wp (fork_loop (VADDR (bld (mm k1)) (f * 4096)) cnt (λ i e, b ← kbld; body i (VADDR b (PTE_ADDR e))))
    (loop_post (first_page path (Z.of_nat cnt)) g) k.
Proof.
  intros Hp Hlen Hcnt Htop Hpg Hf Hbody. apply (loop_ok path f cnt); [done..|].
  intros i k' g' Hi Hpg' Hf' P. pose proof (pg_shared _ _ _ Hpg') as S.
  pose proof (kw_wf _ _ _ _ (fs_kwf _ _ S)) as W.
  assert (uslot (Lab r path) i) as Hus.
  { destruct path as [|a path]; [right|by left]. assert (f = r) as ->
      by (eapply (wf_inj _ _ _ W); [done|by apply (fs_lab _ _ S)]).
    destruct (decide (i < KIDX)) as [?|Hge]; [done|]. exfalso. rewrite (Htop eq_refl) in Hi.
    assert (i = KIDX) as -> by (rewrite KIDX_val in *; lia).
    rewrite (kw_shared _ _ _ _ (fs_kwf _ _ S) r r) in P; [|by apply (fs_lab _ _ S)|by rewrite KIDX_val].
    by rewrite (kw_gap _ _ _ _ (fs_kwf _ _ S)) in P. }
  apply wp_bind, wp_gets. rewrite (fs_bld _ _ S), VADDR_entry.
  rewrite <- (first_page_end path i) by lia. apply (Hbody i); [done|done| |].
  - by rewrite first_page_start by lia.
  - rewrite (wf_edge _ _ _ W f _ i Hf'); [by rewrite child_uslot|cbn; lia|lia|done].
Qed.

Lemma path_ok_snoc path i : path_ok path → (length path ≤ 2)%nat → 0 ≤ i < 512 → path_ok (path ++ [i]).
Proof.
  intros [_ Hp] Hlen Hi. split; [rewrite length_app; cbn; lia|]. apply Forall_app. split; [done|by apply Forall_singleton].
Qed.

Lemma fork_pd_ok i j f k g :
  path_ok [i; j] → i < KIDX → progress (first_page [i; j] 0) k g → lab g f = Some (Lab r [i; j]) →
  wp (fork_pd (TSlot ci) (TSlot pi) i j (VADDR (bld (mm k1)) (f * 4096))) (loop_post (first_page [i; j] 512) g) k.
Proof.
  intros Hp Hi Hpg Hf. pose proof (inner_ok [i; j] f 512 (fork_pt (TSlot ci) (TSlot pi) i j) k g Hp) as H.
  change (Z.of_nat 512) with 512 in H. unfold fork_pd. change (Z.to_nat NPD_ENTRIES) with 512%nat.
  apply H; [reflexivity|reflexivity|discriminate|exact Hpg|exact Hf|].
  intros m f' k' g' Hm _ Hpg' Hf'. apply (fork_pt_ok i j m f' k' g'); [|exact Hi|exact Hpg'|exact Hf'].
  apply (path_ok_snoc [i; j] m Hp); [reflexivity|exact Hm].
Qed.

Lemma fork_pdp_ok i f k g :
  path_ok [i] → i < KIDX → progress (first_page [i] 0) k g → lab g f = Some (Lab r [i]) →
  wp (fork_pdp (TSlot ci) (TSlot pi) i (VADDR (bld (mm k1)) (f * 4096))) (loop_post (first_page [i] 512) g) k.
Proof.
  intros Hp Hi Hpg Hf. pose proof (inner_ok [i] f 512 (fork_pd (TSlot ci) (TSlot pi) i) k g Hp) as H.
  change (Z.of_nat 512) with 512 in H. unfold fork_pdp. change (Z.to_nat NPDP_ENTRIES) with 512%nat.
  apply H; [cbn; lia|reflexivity|discriminate|exact Hpg|exact Hf|].
  intros j f' k' g' Hj _ Hpg' Hf'. apply (fork_pd_ok i j f' k' g'); [|exact Hi|exact Hpg'|exact Hf'].
  apply (path_ok_snoc [i] j Hp); [cbn; lia|exact Hj].
Qed.

(** The whole walk, from a child without user mappings. *)
Lemma fork_walk_ok :
  (∀ va, PML4_IDX va < KIDX → tr k1 c va = None) →
  wp (fork_loop (pml4 (tasks k1 pi)) (Z.to_nat (PML4_IDX USER_TOP + 1)) (λ i e,
        b ← kbld; fork_pdp (TSlot ci) (TSlot pi) i (VADDR b (PML4E_ADDR e))))
    (λ res k', match res with
      | None => ∃ g', shared k' g' ∧ ∀ va, PML4_IDX va < KIDX →
          tr k' r va = cow <$> tr k1 r va ∧ tr k' c va = cow <$> tr k1 r va
      | Some v => v = -1 ∧ ∃ g', fork_failed k' g'
      end) k1.
Proof.
  intros H0. rewrite Hpr. change (Z.to_nat (PML4_IDX USER_TOP + 1)) with 3%nat.
  assert (∀ va, 0 ≤ vpn va ∧ (PML4_IDX va < KIDX → vpn va < first_page [] 3)) as Hv.
  { intros va. rewrite KIDX_val. unfold vpn, vpn_of, full_path, table_path, first_page. cbn.
    pose proof (PML4_IDX_range va). pose proof (PDP_IDX_range va). pose proof (PD_IDX_range va).
    pose proof (PT_IDX_range va). lia. }
  eapply wp_mono; [apply (inner_ok [] r 3 (fork_pdp (TSlot ci) (TSlot pi)) k1 g1); [| | |done| |done|]|].
  - split; [cbn; lia|constructor].
  - cbn; lia.
  - lia.
  - constructor; [apply shared_refl|..]; intros va Hva; change (first_page [] 0) with 0;
      rewrite (proj2 (Z.ltb_ge _ _)) by apply Hv; auto.
  - intros i f' k' g' Hi [?|Hu] Hpg' Hf'; [done|]. apply (fork_pdp_ok i f' k' g'); [|exact Hu|exact Hpg'|exact Hf'].
    split; [cbn; lia|]. rewrite Forall_singleton. lia.
  - intros [v|] k'; cbn [loop_post]; [done|]. intros (g' & _ & [S Hpa Hch]). exists g'. split; [done|].
    intros va Hva. rewrite (Hpa va Hva), (Hch va Hva). change (Z.of_nat 3) with 3.
    rewrite (proj2 (Z.ltb_lt _ _)) by (by apply Hv). done.
Qed.
End share.

(** ** The system call *)

(** Changing other fields of a task keeps the invariant. *)
Lemma kwf_upd k g tl i f :
  kwf K k g tl → (∀ t, pml4 (f t) = pml4 t) →
  kwf K (set_tasks (<[i := f (tasks k i)]> (tasks k)) k) g tl.
Proof.
  intros [H1 H2 H3 H4 H5 H6 H7 H8 H9 H10] Hf.
  assert (∀ j, pml4 (<[i := f (tasks k i)]> (tasks k) j) = pml4 (tasks k j)) as E.
  { intros j. rewrite fn_insert_dec. destruct (decide (i = j)) as [->|]; [apply Hf|done]. }
  constructor; cbn [mm set_tasks tasks config_pml4 free_tasks]; try done.
  - intros j Hj. rewrite E. auto.
  - intros j. rewrite E. auto.
  - intros j1 j2. rewrite !E. auto.
Qed.

Definition rax0 (c : Context.task_context) : Context.task_context :=
  Context.set_gprs (Context.set_rax 0 (Context.c_gprs c)) c.

(** The addresses of tasks other than the parent and the child, and kernel
    addresses, translate as before; no page in use was modified; no other slot
    changed. *)
Record fork_frame k g (t r : Z) k' : Prop := {
  fk_other x o va : lab g x = Some (Lab o []) → x ≠ r ∨ KIDX ≤ PML4_IDX va →
    translate (phys (mm k')) x va = translate (phys (mm k)) x va;
  fk_mem x : lab g (x / 4096) = None → x / 4096 ∉ fl g → phys (mm k') x = phys (mm k) x;
  fk_tasks j : j ≠ t → tasks k' j = tasks k j;
}.

(** The result of [sys_fork] for the parent with root [r] and the child in slot
    [t] with root [p]. *)
Definition fork_result k g (t : Z) tl' (p pi r : Z) (ret : Z) k' g' : Prop :=
  fork_frame k g t r k' ∧ fork_rest k g t p k' g' ∧
  (ret = i32 (u32 (last_task_id k + 1)) ∧ kwf K k' g' tl' ∧
   tasks k' t = MkTask (rax0 (context (tasks k pi))) TASK_STATE_READY (u32 (last_task_id k + 1))
                  (codes "child") (VADDR (bld (mm k)) (p * 4096)) ∧
   (∀ va, PML4_IDX va < KIDX →
      translate (phys (mm k')) r va = cow <$> translate (phys (mm k)) r va ∧
      translate (phys (mm k')) p va = cow <$> translate (phys (mm k)) r va) ∧
   (∀ va, KIDX ≤ PML4_IDX va → translate (phys (mm k')) p va = translate (phys (mm k)) K va) ∧
   (∀ x o, lab g' x = Some (Lab o []) → lab g x = Some (Lab o []) ∨ x = p) ∨
   ret = -1 ∧ kwf K k' g' (t :: tl') ∧ state (tasks k' t) = TASK_STATE_FREE ∧
   (∀ va, PML4_IDX va < KIDX →
      translate (phys (mm k')) r va = translate (phys (mm k)) r va ∨
      translate (phys (mm k')) r va = cow <$> translate (phys (mm k)) r va) ∧
   (∀ x o, lab g' x = Some (Lab o []) → lab g x = Some (Lab o []))).

(** The same seen from before the child was created. *)
Lemma rest_created k g t tl' p fl' nm k0 k1 k' g' :
  kwf K k g (t :: tl') → task_created K k g t p tl' fl' nm k0 → mm k1 = mm k0 →
  cpu_task k1 = cpu_task k0 → cr3 k1 = cr3 k0 → next_task_idx k1 = next_task_idx k0 →
  fork_rest k1 (root_ghost g p fl') t p k' g' → fork_rest k g t p k' g'.
Proof.
  intros Hk TC Emm E1 E2 E3 [R1 R2 R3 R4 R5 R6 R7]. destruct (tc_slot _ _ _ _ _ _ _ _ _ TC) as [_ _ _ _ _ S1 S2 S3].
  pose proof (root_lab_old K (mm k) g p fl' (kw_wf _ _ _ _ Hk) (kw_K _ _ _ _ Hk) (tc_free _ _ _ _ _ _ _ _ _ TC)) as Hold.
  constructor.
  - by rewrite R1, Emm, (tc_cnt _ _ _ _ _ _ _ _ _ TC).
  - done.
  - intros f l Hf Ho. apply R3; [|done]. by apply Hold.
  - intros f l i Hf Ho Hi. destruct (Hold _ _ Hf) as [Hne Hf']. rewrite (R4 f l i Hf' Ho Hi), Emm.
    apply rd64_ext. intros x Hx. apply (tc_mem _ _ _ _ _ _ _ _ _ TC). dlia.
  - by rewrite E1, S1 in R5.
  - by rewrite E2, S2 in R6.
  - by rewrite R7, E3.
Qed.

Lemma sys_fork_ok k g t tl' p fl' pi r :
  kwf K k g (t :: tl') → fl g = p :: fl' → 0 ≤ pi < TASK_MAX_CNT →
  pml4 (tasks k pi) ≠ NULL → pml4 (tasks k pi) = VADDR (bld (mm k)) (r * 4096) →
  lab g r = Some (Lab r []) → r ≠ K → refs_fit (mm k) g →
  (∀ va e, PML4_IDX va < KIDX → translate (phys (mm k)) r va = Some e → 0 < frame e) →
  wp (sys_fork (TSlot pi)) (λ ret k', ∃ g', fork_result k g t tl' p pi r ret k' g') k.
Proof.
  intros Hk Hfl Hpi Hn Hpr Hr HrK Hfit Hpos. pose proof (kw_wf _ _ _ _ Hk) as W.
  destruct (kw_slots _ _ _ _ Hk t) as [Ht Htn]; [by left|].
  assert (t ≠ pi) as Htp by congruence.
  destruct (task_new_ok K k g t tl' p fl' (codes "child") Hk Hfl) as (k0 & Hrun & TC).
  pose proof (tc_slot _ _ _ _ _ _ _ _ _ TC) as Sl. pose proof (tc_kwf _ _ _ _ _ _ _ _ _ TC) as Hk0.
  pose proof (root_p K (mm k) g p fl' W (kw_K _ _ _ _ Hk) Hfl) as (Hpr' & Hpl & Hpn & HpK).
  assert (bld (mm k0) = bld (mm k)) as Hb0.
  { destruct (kw_build _ _ _ _ Hk0) as [-> _], (kw_build _ _ _ _ Hk) as [-> _]. done. }
  unfold sys_fork. apply wp_bind. eapply wp_eq; [exact Hrun|].
  apply wp_bind. eapply wp_eq; [by apply get_slot_ok|].
  apply wp_bind. eapply wp_eq; [by apply upd_slot_ok|]. apply wp_bind. eapply wp_eq; [by apply upd_slot_ok|].
  cbn [tasks set_tasks]. rewrite fn_lookup_insert. cbn [context set_context].
  set (k1 := set_tasks _ _).
  assert (kwf K k1 (root_ghost g p fl') tl') as Hk1.
  { pose proof (kwf_upd k0 _ tl' t (set_context (context (tasks k0 pi))) Hk0 ltac:(done)) as H1.
    pose proof (kwf_upd _ _ tl' t (λ c, set_context (rax0 (context c)) c) H1 ltac:(done)) as H2.
    cbn [tasks set_tasks] in H2. rewrite fn_lookup_insert in H2. exact H2. }
  assert (tasks k1 pi = tasks k pi) as Epi.
  { cbn. rewrite !fn_lookup_insert_ne by done. by apply (sl_other _ _ _ _ _ Sl). }
  assert (mm k1 = mm k0) as Emm by done.
  assert (tasks k1 t = MkTask (rax0 (context (tasks k pi))) TASK_STATE_DONT_RUN (u32 (last_task_id k + 1))
    (codes "child") (VADDR (bld (mm k)) (p * 4096))) as Et.
  { cbn. rewrite fn_lookup_insert, (sl_task _ _ _ _ _ Sl), (sl_other _ _ _ _ _ Sl) by done. done. }
  replace (tasks k0 pi) with (tasks k1 pi) by (rewrite Epi; symmetry; by apply (sl_other _ _ _ _ _ Sl)).
  assert (lab (root_ghost g p fl') p = Some (Lab p [])) as Hlp by (cbn; by rewrite fn_lookup_insert).
  destruct (root_lab_old K (mm k) g p fl' W (kw_K _ _ _ _ Hk) Hfl r _ Hr) as [Hrp Hr0].
  assert (∀ x l, lab g x = Some l → x ≠ p ∧ lab (root_ghost g p fl') x = Some l) as Hold
    by (intros x l; apply (root_lab_old K (mm k) g p fl' W (kw_K _ _ _ _ Hk) Hfl)).
  assert (∀ x, lab g x = None → x ∉ fl g → x ≠ p ∧ lab (root_ghost g p fl') x = None ∧ x ∉ fl') as Hdata.
  { intros x Hx Hxn. rewrite Hfl in Hxn. apply not_elem_of_cons in Hxn as [? ?]. cbn.
    rewrite fn_lookup_insert_ne by done. auto. }
  assert (pml4 (tasks k1 pi) = VADDR (bld (mm k1)) (r * 4096)) as A1 by (by rewrite Epi, Emm, Hb0).
  assert (pml4 (tasks k1 t) = VADDR (bld (mm k1)) (p * 4096)) as A2 by (by rewrite Et, Emm, Hb0).
  assert (refs_fit (mm k1) (root_ghost g p fl')) as A3.
  { intros d. rewrite Emm. pose proof (tc_cnt _ _ _ _ _ _ _ _ _ TC) as ->. apply Hfit. }
  pose proof (λ x o va H, tc_old _ _ _ _ _ _ _ _ _ TC x o va H) as Htr0.
  assert (∀ va e, PML4_IDX va < KIDX → translate (phys (mm k1)) r va = Some e → 0 < frame e) as A4.
  { intros va e Hva. rewrite Emm, (Htr0 r r va Hr). by apply Hpos. }
  assert (∀ va, PML4_IDX va < KIDX → translate (phys (mm k1)) p va = None) as A5.
  { intros va Hva. rewrite Emm, (tc_tr _ _ _ _ _ _ _ _ _ TC). by rewrite (proj2 (Z.ltb_lt _ _)). }
  pose proof (fork_walk_ok k1 (root_ghost g p fl') tl' pi t r p Hk1 Hpi Ht A1 A2 Hr0 Hlp HrK HpK Hrp A3 A4 A5) as Hwalk.
  apply wp_bind. eapply wp_mono; [exact Hwalk|]. clear Hwalk.
  assert (∀ j, j ≠ t → tasks k1 j = tasks k j) as Hts.
  { intros j Hj. cbn. rewrite !fn_lookup_insert_ne by done. by apply (sl_other _ _ _ _ _ Sl). }
  assert (∀ x, lab g (x / 4096) = None → x / 4096 ∉ fl g → phys (mm k1) x = phys (mm k) x) as Hm0.
  { intros x Hx Hxn. rewrite Emm. apply (tc_mem _ _ _ _ _ _ _ _ _ TC). by apply Hdata. }
  assert (∀ k' g', fork_rest k1 (root_ghost g p fl') t p k' g' → fork_rest k g t p k' g') as Hrest.
  { intros k' g'. apply (rest_created k g t tl' p fl' (codes "child") k0 k1); done. }
  clearbody k1. intros [v|] k2.
  - intros (-> & g2 & FF). apply wp_ret. exists g2. split; [constructor|].
    + intros x o va Hx Hor. destruct (Hold x _ Hx) as [Hxp Hx0].
      rewrite (ff_other _ _ _ _ _ _ _ _ FF x o va Hx0 Hxp Hor), Emm. by apply (Htr0 x o).
    + intros x Hx Hxn. destruct (Hdata _ Hx Hxn) as (_ & Hx0 & Hxf).
      rewrite (ff_mem _ _ _ _ _ _ _ _ FF x Hx0 Hxf). by apply Hm0.
    + intros j Hj. rewrite (ff_tasks _ _ _ _ _ _ _ _ FF j Hj). by apply Hts.
    + split; [exact (Hrest k2 g2 (ff_rest _ _ _ _ _ _ _ _ FF))|].
      right. split; [done|]. split; [exact (ff_kwf _ _ _ _ _ _ _ _ FF)|].
      split; [exact (ff_task _ _ _ _ _ _ _ _ FF)|]. split.
      * intros va Hva. rewrite <- (Htr0 r r va Hr), <- Emm. by apply (ff_parent _ _ _ _ _ _ _ _ FF).
      * intros x o Hx. destruct (ff_roots _ _ _ _ _ _ _ _ FF x o Hx) as [Hx0 Hxp].
        apply (root_lab g p fl') in Hx0 as [[? _]|[_ ?]]; done.
  - intros (g2 & S & Htr). assert (tasks k2 = tasks k1) as E2 by (by rewrite (fs_set _ _ _ _ _ _ _ S)).
    apply wp_bind. eapply wp_eq; [by apply upd_slot_ok|]. apply wp_bind. eapply wp_eq; [by apply get_slot_ok|].
    cbn [tasks set_tasks]. rewrite fn_lookup_insert, E2, Et. apply wp_ret. exists g2. split; [constructor|].
    + intros x o va Hx Hor. destruct (Hold x _ Hx) as [Hxp Hx0]. cbn [mm set_tasks].
      rewrite (fs_other _ _ _ _ _ _ _ S x o va Hx0), Emm; [by apply (Htr0 x o)|]. destruct Hor; auto.
    + intros x Hx Hxn. destruct (Hdata _ Hx Hxn) as (_ & Hx0 & Hxf). cbn [mm set_tasks].
      rewrite (fs_mem _ _ _ _ _ _ _ S x Hx0 Hxf). by apply Hm0.
    + intros j Hj. cbn [tasks set_tasks]. rewrite fn_lookup_insert_ne by done. by apply Hts.
    + split; [destruct (Hrest k2 g2 (shared_rest _ _ _ _ _ _ _ _ S)) as []; by constructor|].
      left. split; [done|]. split.
      { pose proof (kwf_upd k2 g2 tl' t (set_state TASK_STATE_READY) (fs_kwf _ _ _ _ _ _ _ S) ltac:(done)) as H.
        rewrite E2, Et in H. exact H. }
      split; [cbn [tasks set_tasks]; by rewrite fn_lookup_insert|]. cbn [mm set_tasks]. split.
      * intros va Hva. rewrite <- (Htr0 r r va Hr), <- Emm. by apply Htr.
      * split.
        -- intros va Hva. rewrite (fs_other _ _ _ _ _ _ _ S p p va Hlp), Emm by (by right).
           rewrite (tc_tr _ _ _ _ _ _ _ _ _ TC). by rewrite (proj2 (Z.ltb_ge _ _)).
        -- intros x o Hx. apply (fs_roots _ _ _ _ _ _ _ S), (root_lab g p fl') in Hx as [[? _]|[_ ?]]; auto.
Qed.
End fork.

(** ** The flags of shared entries *)

(** The flags of an entry built from a frame and flag bits. *)
Lemma mk_flag f q n : 0 ≤ n < 12 → 0 ≤ q < 4096 → has_flag (f * 4096 + q) (2 ^ n) = has_flag q (2 ^ n).
Proof.
  intros Hn Hq. rewrite !has_flag_bit by lia. change 4096 with (2 ^ 12) in *.
  rewrite <- (lor_add_disjoint f q 12) by lia. rewrite Z.lor_spec, Z.shiftl_spec_low by lia. done.
Qed.

Lemma perm_flag e n : 0 ≤ n < 12 → has_flag (Z.land e PTE_FLAGS_MASK) (2 ^ n) = has_flag e (2 ^ n).
Proof.
  intros Hn. rewrite !has_flag_bit by lia. change PTE_FLAGS_MASK with (Z.ones 12).
  rewrite Z.land_spec, Z.ones_spec_low by lia. apply andb_true_r.
Qed.

(** The flag bits of a shared page. *)
Definition shared_perm (q : Z) : Z := Z.lor (if share_cow q then cow_perm q else q) PTE_P.

Lemma shared_perm_range q : 0 ≤ q < 4096 → 0 ≤ shared_perm q < 4096.
Proof.
  intros H. apply (lor_bound _ _ 12); [done| |done]. destruct (share_cow q); [by apply cow_perm_range|done].
Qed.

Lemma share_cow_bits q : share_cow q = Z.testbit q 1 || Z.testbit q 11.
Proof.
  unfold share_cow. change PTE_W with (2 ^ 1). change PTE_COW with (2 ^ 11). by rewrite !has_flag_bit.
Qed.

Lemma shared_perm_bit q n :
  0 ≤ n → Z.testbit (shared_perm q) n =
  (n =? 0) || (Z.testbit q n || share_cow q && (n =? 11)) && negb (n =? 1).
Proof.
  intros Hn. unfold shared_perm. rewrite Z.lor_spec. change PTE_P with (2 ^ 0). rewrite Z.pow2_bits_eqb by done.
  rewrite (Z.eqb_sym 0 n), orb_comm. f_equal. pose proof (share_cow_bits q) as Hs. destruct (share_cow q).
  - unfold cow_perm. rewrite Z.land_spec, Z.lor_spec, Z.lnot_spec by done.
    change PTE_W with (2 ^ 1). change PTE_COW with (2 ^ 11). rewrite !Z.pow2_bits_eqb by done.
    by rewrite (Z.eqb_sym 11 n), (Z.eqb_sym 1 n).
  - destruct (Z.eqb_spec n 1) as [->|]; [|by rewrite orb_false_r, andb_true_r].
    rewrite andb_false_r. by destruct (Z.testbit q 1).
Qed.

Lemma shared_perm_idem q : shared_perm (shared_perm q) = shared_perm q.
Proof.
  apply Z.bits_inj'. intros n Hn. rewrite !shared_perm_bit by done. rewrite (share_cow_bits (shared_perm q)), !shared_perm_bit by done.
  cbn [Z.eqb Pos.eqb orb andb negb]. rewrite !share_cow_bits.
  destruct (Z.eqb_spec n 0); [done|]. destruct (Z.eqb_spec n 1) as [->|]; [by rewrite !andb_false_r|].
  destruct (n =? 11); destruct (Z.testbit q 1), (Z.testbit q 11), (Z.testbit q n); done.
Qed.

Lemma cow_flags e :
  0 ≤ e < 2 ^ 63 →
  frame (cow e) = frame e ∧ present (cow e) = true ∧ has_flag (cow e) PTE_W = false ∧
  has_flag (cow e) PTE_U = has_flag e PTE_U ∧
  has_flag (cow e) PTE_COW = has_flag e PTE_W || has_flag e PTE_COW ∧
  cow (cow e) = cow e.
Proof.
  intros He. set (q := Z.land e PTE_FLAGS_MASK).
  pose proof (perm_range e) as Hq. fold q in Hq. pose proof (shared_perm_range q Hq) as Hs.
  assert (0 ≤ frame e ∧ frame e * 4096 < 2 ^ 63) as [H1 H2] by (rewrite frame_alt by lia; dlia).
  change (cow e) with (frame e * 4096 + shared_perm q).
  change PTE_W with (2 ^ 1). change PTE_U with (2 ^ 2). change PTE_COW with (2 ^ 11).
  rewrite !mk_flag by done. rewrite <- (perm_flag e 1), <- (perm_flag e 2), <- (perm_flag e 11) by done. fold q.
  assert (frame (frame e * 4096 + shared_perm q) = frame e) as Hf by (apply frame_mk; lia).
  rewrite !has_flag_bit, !shared_perm_bit, share_cow_bits by done. cbn [Z.eqb Pos.eqb orb andb negb].
  split_and!; [done| |by rewrite andb_false_r| | |].
  - apply present_mk. by rewrite shared_perm_bit.
  - by rewrite andb_false_r, orb_false_r, andb_true_r.
  - destruct (Z.testbit q 1), (Z.testbit q 11); done.
  - unfold cow at 1. fold (shared_perm (Z.land (frame e * 4096 + shared_perm q) PTE_FLAGS_MASK)). rewrite Hf. f_equal.
    assert (Z.land (frame e * 4096 + shared_perm q) PTE_FLAGS_MASK = shared_perm q) as ->.
    { change PTE_FLAGS_MASK with (Z.ones 12). rewrite Z.land_ones by done. change (2 ^ 12) with 4096.
      by rewrite mod_add_small. }
    apply shared_perm_idem.
Qed.
