(* ===== verification/Thread.v ===== *)
(** Kernel threads: kernel/thread.c.

    A thread is a task whose code is a kernel function: [thread_create] maps a
    stack page, pushes the argument data and a null return address through the
    new address space and fills the context; [thread_run] makes it READY.  The
    addresses of [thread_foo], of the task structure and of the function are
    parameters: they are chosen by the linker. *)

From Stdlib Require Import String.
From S2P Require Import Prelude Memory Queue Mmu Console Map Walk Gdt Context Task.
Import Mmu Map Task.

Module Thread.

Section thread.
Context {T : Type} `{!Console T}.
(** The address of [thread_foo], and of the slots of the task table. *)
Context (thread_foo : Z) (task_addr : Z → Z).

(** [*(uintptr_t * )va = v]. *)
Definition vstore64 (va v : Z) : M (kstate T) () :=
  mfor (zseq 0 8) (λ i, vstore8 (va + i) (z2b (Z.shiftr v (8 * i)))).

Definition thread_context (ctx : Context.task_context) (rdi rsi rdx rip rsp : Z) : Context.task_context :=
  let g := Context.c_gprs ctx in
  Context.set_rip rip (Context.set_segs Gdt.GD_KT Gdt.GD_KD Gdt.GD_KD Gdt.GD_KD rsp
    (Context.set_gprs
       (Context.Gprs (Context.rax g) (Context.rbx g) (Context.rcx g) rdx rdi rsi (Context.rbp g)
          (Context.r8 g) (Context.r9 g) (Context.r10 g) (Context.r11 g) (Context.r12 g) (Context.r13 g)
          (Context.r14 g) (Context.r15 g)) ctx)).

(** [data] of 0 is NULL. *)
Definition thread_create (nm : list Z) (foo data size : Z) : M (kstate T) (option Z) :=
  r ← task_new nm;
  match r with
  | None => mret None
  | Some t =>
      let cleanup := task_destroy (TSlot t) ;; mret None in
      pg ← liftm page_alloc;
      match pg with
      | None =>
          kprintf ("Can't create thread `%s': no memory for stack" ++ nl) [AStr nm] ;; cleanup
      | Some stack =>
          tk ← get_task (TSlot t);
          r ← liftm (page_insert (pml4 tk) stack (USER_STACK_TOP - PAGE_SIZE) (Z.lor PTE_U PTE_W));
          if negb (r =? 0) then
            kprintf ("Can't create thread `%s': page_insert(stack) failed" ++ nl) [AStr nm] ;; cleanup
          else
            old ← rcr3;
            b ← kbld;
            lcr3 (PADDR b (pml4 tk)) ;;
            let data_ptr := ROUND_DOWN (u64 (USER_STACK_TOP - size)) 8 in
            (if data =? NULL then mret () else vmemcpy data_ptr data size) ;;
            let top := if data =? NULL then USER_STACK_TOP else data_ptr in
            let arg := if data =? NULL then NULL else data_ptr in
            let sp := u64 (top - 8) in
            vstore64 sp 0 ;;
            lcr3 old ;;
            upd_task (TSlot t) (λ tk, set_context
              (thread_context (context tk) (task_addr t) foo arg thread_foo sp) tk) ;;
            mret (Some t)
      end
  end.

Definition thread_run (p : tptr) : M (kstate T) () :=
  t ← get_task p;
  massert (bool_decide (state t = TASK_STATE_DONT_RUN)) ;;
  upd_task p (set_state TASK_STATE_READY).

End thread.
End Thread.
