(* ===== verification/Monitor.v ===== *)
(** The kernel monitor: kernel/monitor.c.

    The monitor owns the command line in row 24 of the terminal.  Each key press
    edits that line; Enter reads it back from the text buffer, splits it into
    words in place and runs a command.  The state is the kernel state (whose
    console is the terminal), the position of the command line's cursor and the
    static buffer of [terminal_read_command]. *)

From Stdlib Require Import Ascii String.
From S2P Require Import Prelude Memory Cstring Queue Mmu Console Terminal Map Walk Gdt Context.
From S2P Require Import Task.
Import Mmu Map Task.

Module Monitor.

Definition COMMAND_LINE_PROMPT : string := "-> ".
Definition COMMAND_LINE_PROMPT_LEN : Z := 3.
Definition KEY_BACKSPACE : Z := 0xE.

(** The key map, in source order; unlisted keys are 0. *)
Definition scancodes : list Z :=
  [0; 0] ++ codes "1234567890-=" ++ [0; 9] ++ codes "qwertyuiop[]" ++ [10] ++
  [0] ++ codes "asdfghjkl;'`" ++ [0] ++ codes "\zxcvbnm,./" ++ [0] ++ codes "*" ++ [0] ++ codes " ".

Definition scancode_char (scancode : Z) : Z := default 0 (scancodes !! Z.to_nat scancode).

Record monitor := Monitor {
  kern : kstate Term.terminal;
  command_line_position : Term.position;
  command_buffer : Z → Z;
}.

Definition set_kern k m := Monitor k (command_line_position m) (command_buffer m).
Definition set_clp p m := Monitor (kern m) p (command_buffer m).
Definition set_cmdbuf b m := Monitor (kern m) (command_line_position m) b.

Definition liftk {A} (x : M (kstate Term.terminal) A) : M monitor A := zoom kern set_kern x.
Definition liftt {A} (x : M Term.terminal A) : M monitor A := liftk (liftm (zoom con set_con x)).

Definition mprintf (fmt : string) (ap : list arg) : M monitor () := liftt (Term.terminal_printf fmt ap).

Definition monitor_init : M monitor () :=
  modify (set_clp (Term.Position Term.TERMINAL_ROW_COUNT 0)) ;;
  p ← liftt Term.terminal_position;
  c ← gets command_line_position;
  liftt (Term.terminal_set_position c) ;;
  mprintf "%s" [AStr (codes COMMAND_LINE_PROMPT)] ;;
  c' ← liftt Term.terminal_position;
  modify (set_clp c') ;;
  liftt (Term.terminal_set_position p).

(** ** Commands *)

(** A C string in a buffer, of at most [n] characters. *)
Fixpoint cstring (n : nat) (b : Z → Z) (i : Z) : list Z :=
  match n with
  | O => []
  | S n' => if b i =? 0 then [] else b i :: cstring n' b (i + 1)
  end.

(** The loop that splits [command] in place: the buffer, the starts of the
    words so far and whether the last one is still open ([argv[argc] != NULL]). *)
Record split := Split { s_buf : Z → Z; s_argv : list Z; s_open : bool }.

Definition split_char (s : split) (p : Z) : split :=
  let c := s_buf s p in
  if negb (s_open s) then
    if c =? chr " " then s else Split (s_buf s) (s_argv s ++ [p]) true
  else
    if negb (c =? chr " ") then s else Split (<[p := 0]> (s_buf s)) (s_argv s) false.

(** The loop runs up to the first NUL of the original string: the NULs it
    writes are behind it. *)
Definition split_command (command : list Z) : split :=
  foldl split_char (Split (λ i, default 0 (command !! Z.to_nat i)) [] false)
    (zseq 0 (length command)).

Definition words (command : list Z) : list (list Z) :=
  let s := split_command command in
  (λ p, cstring (length command) (s_buf s) p) <$> s_argv s.

(** Strings of the table and the words, in a memory for the library functions. *)
Definition str_mem (l : list Z) : mem := λ i, z2b (if i <? 0 then 0 else default 0 (l !! Z.to_nat i)).
Definition str_eq (a b : list Z) : bool :=
  bool_decide (Cstring.strcmp (S (length a)) (λ i, if i <? 1024 then str_mem a i else str_mem b (i - 1024)) 0 1024 = Some 0).

Inductive command := CClear | CHelp | CPs | CKill.

Definition monitor_command : list (string * string * command) :=
  [ ("clear", "clear screen", CClear);
    ("help", "show this message", CHelp);
    ("ps", "show running processes", CPs);
    ("kill", "kill process by id", CKill) ]%string.

Definition help_command_handler : M monitor () :=
  mprintf ("Available commands:" ++ nl) [] ;;
  mfor monitor_command (λ c,
    mprintf ("`%s': %s" ++ nl) [AStr (codes (fst (fst c))); AStr (codes (snd (fst c)))]).

Definition clear_command_handler : M monitor () := liftt Term.terminal_clear ;; monitor_init.

Definition ps_command_handler : M monitor () := liftk task_list.

Definition kill_command_handler (argv : list (list Z)) : M monitor () :=
  match argv with
  | [_; w] =>
      n ← deref (Cstring.atoi (S (length w)) (str_mem w) 0);
      liftk (task_kill (u32 n))
  | _ => mprintf ("Usage: kill <task_id>" ++ nl) []
  end.

Definition run_command (c : command) (argv : list (list Z)) : M monitor () :=
  match c with
  | CClear => clear_command_handler
  | CHelp => help_command_handler
  | CPs => ps_command_handler
  | CKill => kill_command_handler argv
  end.

Definition find_command (name : list Z) : option command :=
  snd <$> head (filter (λ c, str_eq name (codes (fst (fst c)))) monitor_command).

(** The 256-byte copy keeps at most 255 characters. *)
Definition monitor_process_command (b : Z → Z) : M monitor () :=
  let argv := words (cstring 255 b 0) in
  match argv with
  | w :: _ =>
      match find_command w with
      | Some c => run_command c argv
      | None => mprintf ("unknown command: `%s'" ++ nl) [AStr w] ;; help_command_handler
      end
  | [] => mprintf ("unknown command: `%s'" ++ nl) [AStr []] ;; help_command_handler
  end.

(** ** Keys *)

Definition set_column (c : Z) (p : Term.position) : Term.position := Term.Position (Term.p_row p) (u8 c).

(** The switch on the key: the command when Enter was pressed. *)
Definition edit_line (scancode : Z) (clp : Term.position) : M monitor (option (Z → Z)) :=
  let code := u8 (scancode_char scancode) in
  if (scancode =? KEY_BACKSPACE) && (COMMAND_LINE_PROMPT_LEN <? Term.p_column clp) then
    let clp' := set_column (Term.p_column clp - 1) clp in
    modify (set_clp clp') ;;
    liftt (Term.terminal_set_position clp') ;;
    liftt (Term.terminal_put (chr " ")) ;;
    mret None
  else if code =? 10 then
    m ← get;
    t ← liftt get;
    let b := Term.terminal_read_command COMMAND_LINE_PROMPT_LEN (command_buffer m) t in
    modify (set_cmdbuf b) ;;
    liftt Term.terminal_clear_line ;;
    mret (Some b)
  else if negb (code =? 0) then
    if Term.p_column clp <? Term.TERMINAL_COL_COUNT - 1 then
      modify (set_clp (set_column (Term.p_column clp + 1) clp)) ;;
      liftt (Term.terminal_put code) ;;
      mret None
    else mret None
  else mret None.

Definition monitor_process_key_press (scancode : Z) : M monitor () :=
  p ← liftt Term.terminal_position;
  clp ← gets command_line_position;
  liftt (Term.terminal_set_position clp) ;;
  cmd ← edit_line scancode clp;
  match cmd with
  | Some b =>
      mprintf "%s" [AStr (codes COMMAND_LINE_PROMPT)] ;;
      clp' ← liftt Term.terminal_position;
      modify (set_clp clp') ;;
      liftt (Term.terminal_set_position p) ;;
      monitor_process_command b
  | None => liftt (Term.terminal_set_position p)
  end.

End Monitor.
