(* ===== verification/Interrupt.v ===== *)
(** Interrupts: kernel/interrupt/interrupt.c, timer.c and keyboard.c with the
    register layouts of apic.h, ioapic.h and pic.h.

    The machine state adds to the monitor's state the processor tables the code
    fills (IDT, TSS descriptors, TSS), the device registers it writes and the
    byte the keyboard port returns.  The handlers end in [task_run] or
    [schedule], so [interrupt_handler] returns the task that is resumed.  The
    addresses of the entry stubs, of the TSS array and the result of [cpuid] are
    parameters. *)

From Stdlib Require Import Ascii String.
From S2P Require Import Prelude Memory Queue Mmu Console Terminal Map Walk Gdt Context Task.
From S2P Require Import Syscall Monitor.
Import Mmu Map Task.

Module Interrupt.

Definition INTERRUPT_VECTOR_DIV_BY_ZERO : Z := 0.
Definition INTERRUPT_VECTOR_DEBUG : Z := 1.
Definition INTERRUPT_VECTOR_NMI : Z := 2.
Definition INTERRUPT_VECTOR_BREAKPOINT : Z := 3.
Definition INTERRUPT_VECTOR_OVERFLOW : Z := 4.
Definition INTERRUPT_VECTOR_BOUND_RANGE : Z := 5.
Definition INTERRUPT_VECTOR_IVALID_OPCODE : Z := 6.
Definition INTERRUPT_VECTOR_DEVICE_NOT_AVAILABLE : Z := 7.
Definition INTERRUPT_VECTOR_DOUBLE_FAULT : Z := 8.
Definition INTERRUPT_VECTOR_INVALID_TSS : Z := 10.
Definition INTERRUPT_VECTOR_SEGMENT_NOT_PRESENT : Z := 11.
Definition INTERRUPT_VECTOR_STACK : Z := 12.
Definition INTERRUPT_VECTOR_GENERAL_PROTECTION : Z := 13.
Definition INTERRUPT_VECTOR_PAGE_FAULT : Z := 14.
Definition INTERRUPT_VECTOR_X86_FP_INSTRUCTION : Z := 16.
Definition INTERRUPT_VECTOR_ALIGNMENT_CHECK : Z := 17.
Definition INTERRUPT_VECTOR_MACHINE_CHECK : Z := 18.
Definition INTERRUPT_VECTOR_SIMD_FP : Z := 19.
Definition INTERRUPT_VECTOR_SECURITY_EXCEPTION : Z := 30.
Definition INTERRUPT_VECTOR_TIMER : Z := 32.
Definition INTERRUPT_VECTOR_KEYBOARD : Z := 33.
Definition INTERRUPT_VECTOR_SYSCALL : Z := 34.

Definition interrupt_name : list (Z * string) :=
  [ (INTERRUPT_VECTOR_DIV_BY_ZERO, "divide by zero");
    (INTERRUPT_VECTOR_DEBUG, "debug");
    (INTERRUPT_VECTOR_NMI, "nmi");
    (INTERRUPT_VECTOR_BREAKPOINT, "breakpoint");
    (INTERRUPT_VECTOR_OVERFLOW, "overflow");
    (INTERRUPT_VECTOR_BOUND_RANGE, "bound range");
    (INTERRUPT_VECTOR_IVALID_OPCODE, "invalid opcode");
    (INTERRUPT_VECTOR_DEVICE_NOT_AVAILABLE, "device not available");
    (INTERRUPT_VECTOR_DOUBLE_FAULT, "double fault");
    (INTERRUPT_VECTOR_INVALID_TSS, "invalid tss");
    (INTERRUPT_VECTOR_SEGMENT_NOT_PRESENT, "segment not present");
    (INTERRUPT_VECTOR_STACK, "stack");
    (INTERRUPT_VECTOR_GENERAL_PROTECTION, "general protection");
    (INTERRUPT_VECTOR_PAGE_FAULT, "page fault");
    (INTERRUPT_VECTOR_X86_FP_INSTRUCTION, "x86 floating point instruction");
    (INTERRUPT_VECTOR_ALIGNMENT_CHECK, "alignment check");
    (INTERRUPT_VECTOR_MACHINE_CHECK, "machine check");
    (INTERRUPT_VECTOR_SIMD_FP, "simd floating point");
    (INTERRUPT_VECTOR_SECURITY_EXCEPTION, "security exception");
    (INTERRUPT_VECTOR_TIMER, "timer");
    (INTERRUPT_VECTOR_KEYBOARD, "keyboard");
    (INTERRUPT_VECTOR_SYSCALL, "syscall") ]%string.

(** A NULL name in [%s] is undefined behaviour. *)
Definition name_of (num : Z) : option string :=
  snd <$> head (filter (λ p, fst p = num) interrupt_name).

(** ** Page faults *)

Definition PAGE_FAULT_ERROR_CODE_P : Z := Z.shiftl 1 0.
Definition PAGE_FAULT_ERROR_CODE_R_W : Z := Z.shiftl 1 1.
Definition PAGE_FAULT_ERROR_CODE_U_S : Z := Z.shiftl 1 2.
Definition PAGE_FAULT_ERROR_CODE_RSV : Z := Z.shiftl 1 3.
Definition PAGE_FAULT_ERROR_CODE_I_D : Z := Z.shiftl 1 4.

Definition tab : string := String "009" EmptyString.

Section fault.
Context {T : Type} `{!Console T}.

(** The [fail] label: report, destroy the task, schedule. *)
Definition page_fault_fail (task : tptr) (va : Z) (pte : option Z) : M (kstate T) tptr :=
  t ← get_task task;
  let code := Context.error_code (context t) in
  kprintf ("Page fault at `%lx', opration: %s, accessed by: %s" ++ nl)
    [AInt va; AStr (codes (if has_flag code PAGE_FAULT_ERROR_CODE_R_W then "write" else "read"));
     AStr (codes (if has_flag code PAGE_FAULT_ERROR_CODE_U_S then "user" else "supervisor"))] ;;
  match pte with
  | Some a =>
      e ← liftm (kread a);
      if has_flag e PTE_COW then kprintf (tab ++ "page is copy on write" ++ nl) [] else mret ()
  | None => mret ()
  end ;;
  (if negb (has_flag code PAGE_FAULT_ERROR_CODE_P) then
     kprintf (tab ++ "page is not present" ++ nl) [] else mret ()) ;;
  (if has_flag code PAGE_FAULT_ERROR_CODE_RSV then
     kprintf (tab ++ "check reserved fields inside page tables" ++ nl) [] else mret ()) ;;
  (if has_flag code PAGE_FAULT_ERROR_CODE_I_D then
     kprintf (tab ++ "fault was because of instruction fetch" ++ nl) [] else mret ()) ;;
  task_destroy task ;;
  schedule.

(** [va] is the content of [cr2]. *)
Definition page_fault_handler (task : tptr) (va : Z) : M (kstate T) tptr :=
  t ← get_task task;
  '(_, pte) ← liftm (page_lookup (pml4 t) va);
  match pte with
  | None => page_fault_fail task va None
  | Some a =>
      if negb (has_flag (Context.error_code (context t)) PAGE_FAULT_ERROR_CODE_R_W) then
        page_fault_fail task va pte
      else
        e ← liftm (kread a);
        if negb (has_flag e PTE_COW) then page_fault_fail task va pte
        else
          let perm := Z.land e PTE_FLAGS_MASK in
          massert (has_flag e PTE_P) ;;
          new ← liftm page_alloc;
          match new with
          | None =>
              kprintf ("page_fault_handler: can't allocate page" ++ nl) [] ;;
              page_fault_fail task va pte
          | Some p =>
              k ← get;
              kprintf ("page fault: va = %p, new page: %p" ++ nl) [AInt va; AInt (page_ptr (mm k) p)] ;;
              r ← liftm (page_insert (pml4 t) p KERNEL_TEMP (Z.lor perm PTE_W));
              if negb (r =? 0) then page_fault_fail task va pte
              else
                vmemcpy KERNEL_TEMP (ROUND_DOWN va PAGE_SIZE) PAGE_SIZE ;;
                e' ← liftm (kread a);
                r ← liftm (page_insert (pml4 t) p (ROUND_DOWN va PAGE_SIZE)
                             (Z.lor (Z.land e' PTE_FLAGS_MASK) PTE_W));
                if negb (r =? 0) then page_fault_fail task va pte
                else
                  liftm (page_remove (pml4 t) KERNEL_TEMP) ;;
                  task_run task
          end
  end.

End fault.

(** ** The machine *)

Definition APIC_OFFSET_LVT_TIMER : Z := 0x00000320.
Definition APIC_OFFSET_DCR : Z := 0x000003e0.
Definition APIC_OFFSET_ICR : Z := 0x00000380.
Definition APIC_OFFSET_EOI : Z := 0x000000b0.
Definition APIC_DCR_NODIV : Z := 11.
Definition TIMER_INITIAL_COUNT : Z := 60000000.
Definition TIMER_PERIODIC : Z := Z.shiftl 1 17.
Definition KEYBOARD_KEY_RELEASED : Z := 0x80.
Definition CPU_MAX_CNT : Z := 32.
Definition PIC1_DATA : Z := 0x21.
Definition PIC2_DATA : Z := 0xA1.
Definition IOAPICVER : Z := 1.
Definition IOREDTBL_BASE : Z := 0x10.

Record machine := Machine {
  mon : Monitor.monitor;
  apic : list (Z * Z);          (* writes to local APIC registers, latest first *)
  ioapic : Z → Z;               (* I/O APIC registers *)
  ports : list (Z * Z);         (* outb, latest first *)
  kbd : Z;                      (* what port 0x60 returns *)
  cr2 : Z;
  idt : Z → option Gdt.gate;
  tss_descs : Z → option Gdt.tss_desc;  (* by GDT index *)
  tss_rsp0 : Z; tss_ist1 : Z;   (* tss[0] *)
  tr : Z;
  apic_msr : Z;                 (* the register IA32_APIC_BASE *)
}.

Definition set_mon v m := Machine v (apic m) (ioapic m) (ports m) (kbd m) (cr2 m) (idt m) (tss_descs m)
  (tss_rsp0 m) (tss_ist1 m) (tr m) (apic_msr m).
Definition set_apic v m := Machine (mon m) v (ioapic m) (ports m) (kbd m) (cr2 m) (idt m) (tss_descs m)
  (tss_rsp0 m) (tss_ist1 m) (tr m) (apic_msr m).
Definition set_ioapic v m := Machine (mon m) (apic m) v (ports m) (kbd m) (cr2 m) (idt m) (tss_descs m)
  (tss_rsp0 m) (tss_ist1 m) (tr m) (apic_msr m).
Definition set_ports v m := Machine (mon m) (apic m) (ioapic m) v (kbd m) (cr2 m) (idt m) (tss_descs m)
  (tss_rsp0 m) (tss_ist1 m) (tr m) (apic_msr m).
Definition set_idt v m := Machine (mon m) (apic m) (ioapic m) (ports m) (kbd m) (cr2 m) v (tss_descs m)
  (tss_rsp0 m) (tss_ist1 m) (tr m) (apic_msr m).
Definition set_tss_descs v m := Machine (mon m) (apic m) (ioapic m) (ports m) (kbd m) (cr2 m) (idt m) v
  (tss_rsp0 m) (tss_ist1 m) (tr m) (apic_msr m).
Definition set_tss a b m := Machine (mon m) (apic m) (ioapic m) (ports m) (kbd m) (cr2 m) (idt m) (tss_descs m)
  a b (tr m) (apic_msr m).
Definition set_tr v m := Machine (mon m) (apic m) (ioapic m) (ports m) (kbd m) (cr2 m) (idt m) (tss_descs m)
  (tss_rsp0 m) (tss_ist1 m) v (apic_msr m).
Definition set_apic_msr v m := Machine (mon m) (apic m) (ioapic m) (ports m) (kbd m) (cr2 m) (idt m) (tss_descs m)
  (tss_rsp0 m) (tss_ist1 m) (tr m) v.

Definition liftmon {A} (x : M Monitor.monitor A) : M machine A := zoom mon set_mon x.
Definition liftk {A} (x : M (kstate Term.terminal) A) : M machine A := liftmon (Monitor.liftk x).

Definition APIC_WRITE (reg v : Z) : M machine () := modify (λ m, set_apic ((reg, u32 v) :: apic m) m).
Definition IOAPIC_WRITE (reg v : Z) : M machine () := modify (λ m, set_ioapic (<[reg := u32 v]> (ioapic m)) m).
Definition IOAPIC_READ (reg : Z) : M machine Z := gets (λ m, ioapic m reg).
Definition outb (port v : Z) : M machine () := modify (λ m, set_ports ((port, u8 v) :: ports m) m).
Definition ltr (sel : Z) : M machine () := modify (set_tr sel).
Definition rcr2 : M machine Z := gets cr2.

(** ** Timer and keyboard *)

Definition timer_init : M machine Z :=
  APIC_WRITE APIC_OFFSET_ICR TIMER_INITIAL_COUNT ;;
  APIC_WRITE APIC_OFFSET_DCR APIC_DCR_NODIV ;;
  APIC_WRITE APIC_OFFSET_LVT_TIMER (Z.lor TIMER_PERIODIC INTERRUPT_VECTOR_TIMER) ;;
  mret 0.

Definition timer_handler : M machine tptr := APIC_WRITE APIC_OFFSET_EOI 0 ;; liftk schedule.

Definition keyboard_handler (task : tptr) : M machine tptr :=
  scancode ← gets (λ m, u8 (kbd m));
  (if has_flag scancode KEYBOARD_KEY_RELEASED then mret ()
   else liftmon (Monitor.monitor_process_key_press scancode)) ;;
  APIC_WRITE APIC_OFFSET_EOI 0 ;;
  t ← liftk (get_task task);
  if decide (state t = TASK_STATE_READY) then liftk (task_run task) else liftk schedule.

(** ** [interrupt_handler] *)

Definition dump_format : string :=
  "Task dump:" ++ nl ++
  tab ++ "rax: %lx, rbx: %lx, rcx: %lx, rdx: %lx" ++ nl ++
  tab ++ "rdi: %lx, rsi: %lx, rsp: %lx" ++ nl ++
  tab ++ "r8:  %lx, r9:  %lx, r10: %lx, r11: %lx" ++ nl ++
  tab ++ "r12: %lx, r13: %lx, r14: %lx, r15: %lx" ++ nl ++
  tab ++ "cs: %x, ss: %x, ds: %x, es: %x, fs: %x, gs: %x" ++ nl ++
  tab ++ "rip: %lx, rfalgs: %lb" ++ nl.

Definition dump_args (c : Context.task_context) : list arg :=
  let g := Context.c_gprs c in
  AInt <$> [ Context.rax g; Context.rbx g; Context.rcx g; Context.rdx g; Context.rdi g; Context.rsi g;
    Context.rsp c; Context.r8 g; Context.r9 g; Context.r10 g; Context.r11 g; Context.r12 g; Context.r13 g;
    Context.r14 g; Context.r15 g; Context.cs c; Context.ss c; Context.ds c; Context.es c; Context.fs c;
    Context.gs c; Context.rip c; Context.rflags c ].

(** The end of the handler, reached by [break] and by unlisted vectors. *)
Definition unhandled_interrupt (ctx : Context.task_context) : M machine tptr :=
  nm ← deref (name_of (Context.interrupt_number ctx));
  liftk (kprintf (nl ++ "unhandled interrupt: %s (%u)" ++ nl)
    [AStr (codes nm); AInt (Context.interrupt_number ctx)]) ;;
  liftk (kprintf dump_format (dump_args ctx)) ;;
  k ← liftk get;
  task ← deref (cpu_task k);
  liftk (task_destroy task) ;;
  liftk schedule.

Definition interrupt_handler (ctx : Context.task_context) : M machine tptr :=
  k ← liftk get;
  task ← deref (cpu_task k);
  liftk (upd_task task (set_context ctx)) ;;
  liftk (upd_task task (set_state TASK_STATE_READY)) ;;
  let num := Context.interrupt_number ctx in
  if num =? INTERRUPT_VECTOR_BREAKPOINT then
    if has_flag (Context.cs ctx) Gdt.GDT_DPL_U then liftk (task_run task) else liftk schedule
  else if num =? INTERRUPT_VECTOR_PAGE_FAULT then
    va ← rcr2; liftk (page_fault_handler task va)
  else if num =? INTERRUPT_VECTOR_SYSCALL then liftk (Syscall.syscall task)
  else if num =? INTERRUPT_VECTOR_TIMER then timer_handler
  else if num =? INTERRUPT_VECTOR_KEYBOARD then keyboard_handler task
  else unhandled_interrupt ctx.

(** ** Initialisation *)

Section init.
(** The addresses of the entry stubs and of [tss[j]], and [ebx] of [cpuid(1)],
    [None] when the instruction is not supported. *)
Context (stub : Z → Z) (tss_addr : Z → Z) (cpuid_ebx : option Z).

(** Vector, interrupt stack table index and privilege level, in source order. *)
Definition idt_entries : list (Z * Z * Z) :=
  [ (INTERRUPT_VECTOR_DIV_BY_ZERO, 0, Gdt.IDT_DPL_S);
    (INTERRUPT_VECTOR_DEBUG, 0, Gdt.IDT_DPL_S);
    (INTERRUPT_VECTOR_NMI, 0, Gdt.IDT_DPL_S);
    (INTERRUPT_VECTOR_BREAKPOINT, 1, Gdt.IDT_DPL_U);
    (INTERRUPT_VECTOR_OVERFLOW, 0, Gdt.IDT_DPL_S);
    (INTERRUPT_VECTOR_BOUND_RANGE, 0, Gdt.IDT_DPL_S);
    (INTERRUPT_VECTOR_IVALID_OPCODE, 0, Gdt.IDT_DPL_S);
    (INTERRUPT_VECTOR_DEVICE_NOT_AVAILABLE, 0, Gdt.IDT_DPL_S);
    (INTERRUPT_VECTOR_DOUBLE_FAULT, 0, Gdt.IDT_DPL_S);
    (INTERRUPT_VECTOR_INVALID_TSS, 0, Gdt.IDT_DPL_S);
    (INTERRUPT_VECTOR_SEGMENT_NOT_PRESENT, 0, Gdt.IDT_DPL_S);
    (INTERRUPT_VECTOR_STACK, 0, Gdt.IDT_DPL_S);
    (INTERRUPT_VECTOR_GENERAL_PROTECTION, 0, Gdt.IDT_DPL_S);
    (INTERRUPT_VECTOR_PAGE_FAULT, 0, Gdt.IDT_DPL_S);
    (INTERRUPT_VECTOR_X86_FP_INSTRUCTION, 0, Gdt.IDT_DPL_S);
    (INTERRUPT_VECTOR_ALIGNMENT_CHECK, 0, Gdt.IDT_DPL_S);
    (INTERRUPT_VECTOR_MACHINE_CHECK, 0, Gdt.IDT_DPL_S);
    (INTERRUPT_VECTOR_SIMD_FP, 0, Gdt.IDT_DPL_S);
    (INTERRUPT_VECTOR_SECURITY_EXCEPTION, 0, Gdt.IDT_DPL_S);
    (INTERRUPT_VECTOR_TIMER, 1, Gdt.IDT_DPL_S);
    (INTERRUPT_VECTOR_KEYBOARD, 1, Gdt.IDT_DPL_S);
    (INTERRUPT_VECTOR_SYSCALL, 0, Gdt.IDT_DPL_U) ].

Definition idt_init : M machine () :=
  mfor idt_entries (λ '(v, ist, dpl),
    modify (λ m, set_idt (<[v := Some (Gdt.INTERRUPT_GATE Gdt.GD_KT (stub v) ist dpl)]> (idt m)) m)).

Definition tss_init : M machine () :=
  mfor (zseq 0 (Z.to_nat CPU_MAX_CNT)) (λ j,
    let idx := Z.shiftr Gdt.GD_TSS 3 + 2 * j in
    modify (λ m, set_tss_descs (<[idx := Some (Gdt.SEGMENT_TSS (tss_addr j) (Gdt.SIZEOF_TSS - 1)
      Gdt.TYPE_AVAILABLE_TSS Gdt.TSS_DPL_S)]> (tss_descs m)) m)).

(** Map the pages of [top - size, top) in the kernel's address space. *)
Definition map_stack (top size : Z) : M machine () :=
  mfor (zseq 0 (Z.to_nat (size / PAGE_SIZE))) (λ n,
    let addr := top - size + n * PAGE_SIZE in
    pg ← liftk (liftm page_alloc);
    match pg with
    | None => fail EPanic
    | Some p =>
        c ← liftk (gets cpu_pml4);
        r ← liftk (liftm (page_insert c p addr PTE_W));
        massert (r =? 0)
    end).

Definition ioapic_init : M machine Z :=
  match cpuid_ebx with
  | None => liftk (kprintf ("cpuid failed" ++ nl) []) ;; mret (-1)
  | Some local_apic_id =>
      liftk (kprintf ("Local APIC ID: %x" ++ nl) [AInt (Z.land (Z.shiftr local_apic_id 24) 0xFF)]) ;;
      ver ← IOAPIC_READ IOAPICVER;
      liftk (kprintf ("[IOAPIC] Maximum Redirection Entry: %u" ++ nl) [AInt (Z.shiftr ver 16 + 1)]) ;;
      IOAPIC_WRITE IOREDTBL_BASE INTERRUPT_VECTOR_TIMER ;;
      IOAPIC_WRITE (IOREDTBL_BASE + 1) local_apic_id ;;
      IOAPIC_WRITE (IOREDTBL_BASE + 2) INTERRUPT_VECTOR_KEYBOARD ;;
      IOAPIC_WRITE (IOREDTBL_BASE + 3) local_apic_id ;;
      mret 0
  end.

(** [rdmsr], [btsl $11, %eax], [wrmsr]. *)
Definition apic_enable : M machine () := modify (λ m, set_apic_msr (Z.lor (apic_msr m) (Z.shiftl 1 11)) m).

Definition interrupt_init : M machine () :=
  idt_init ;;
  tss_init ;;
  map_stack INTERRUPT_STACK_TOP INTERRUPT_STACK_SIZE ;;
  map_stack EXCEPTION_STACK_TOP EXCEPTION_STACK_SIZE ;;
  modify (set_tss EXCEPTION_STACK_TOP INTERRUPT_STACK_TOP) ;;
  ltr Gdt.GD_TSS ;;
  outb PIC1_DATA 0xff ;;
  outb PIC2_DATA 0xff ;;
  apic_enable ;;
  r ← ioapic_init;
  massert (r =? 0).

Definition interrupt_enable : M machine () :=
  r ← timer_init; massert (r =? 0).

End init.
End Interrupt.
