(* ===== verification/FaultProofs.v ===== *)
(** The page fault handler resolves copy-on-write faults.

    The handler maps a fresh page at [KERNEL_TEMP], a page of the kernel part of
    the address space whose page table is shared by all tasks, copies the
    faulting page there byte by byte, maps the copy over the faulting page and
    unmaps the temporary page.  The file has the operations on the temporary
    page, the copy loop and the handler as a whole. *)

From Stdlib Require Import String.
From S2P Require Import Prelude Memory Queue Mmu Console Map AllocProofs Walk MapWf.
From S2P Require Import LookupProofs InsertProofs KmapProofs Gdt Context Task SchedProofs.
From S2P Require Import DestroyProofs TaskProofs.
From S2P Require Import Syscall ForkProofs Terminal Monitor Interrupt.
Import Mmu Map Task.

Section fault.
Context {T : Type} `{!Console T, !ConsoleLaws T} (K : Z).
Implicit Types (s : mstate T) (k : kstate T) (g : ghost).

(** ** The temporary page *)

Definition temp_path : list Z := table_path KERNEL_TEMP.
Definition temp_idx : Z := PT_IDX KERNEL_TEMP.

(** The table of the temporary page is one of the kernel's. *)
Lemma temp_label s g r f :
  wf K s g → lab g r = Some (Lab r []) → walk (entry_at (phys s)) r temp_path = Some f → lab g f = Some (Lab K temp_path).
Proof.
  intros W Hr Hw.
  pose proof (walk_label K s g r (Lab r []) temp_path f W Hr ltac:(cbn; lia) (table_path_ok _) Hw) as H.
  rewrite H. vm_compute. reflexivity.
Qed.

Lemma temp_remove s g r f v :
  wf K s g → lab g r = Some (Lab r []) → walk (entry_at (phys s)) r temp_path = Some f →
  entry_at (phys s) f temp_idx = v → present v = true →
  in_range s (frame v) → frame v ∉ fl g → 1 < refs s (frame v) < 2 ^ 32 →
  ∃ q c, page_remove (VADDR (bld s) (r * 4096)) KERNEL_TEMP s =
    Ok ((), set_shot (KERNEL_TEMP :: shot s) (set_phys (wr64 (phys s) (f * 4096 + 8 * temp_idx) 0)
              (set_con c (set_free q (set_refs (<[frame v := refs s (frame v) - 1]> (refs s)) s))))) ∧
    con_ok c ∧ Lst.lrep q (fl g).
Proof.
  intros W Hr Hw He P Hp Hpn Hrf. pose proof (wf_build _ _ _ W) as Hb.
  destruct (wf_lab _ _ _ W f _ (temp_label s g r f W Hr Hw)) as (Hf & _).
  pose proof (PT_IDX_range KERNEL_TEMP) as Hi. fold temp_idx in Hi.
  pose proof (entry_range (phys s) f temp_idx) as Hv. rewrite He in Hv.
  unfold page_remove, page_lookup, mbind, M_bind.
  rewrite (mmap_lookup_present K s g r r KERNEL_TEMP f) by done. fold temp_idx.
  rewrite kread_entry by done. rewrite He. change (has_flag v PTE_P) with (present v). rewrite P.
  cbn [mret M_ret]. rewrite pa2page_frame by done.
  destruct (page_decref_ok s (frame v) (fl g)) as (q & c & -> & Hc & Hq); [apply W|done|done|lia|apply W|].
  rewrite (proj2 (Z.eqb_neq (refs s (frame v)) 1)) in Hq by lia. exists q, c. split; [|done]. cbn [deref].
  set (s1 := set_con c _). change (bld s) with (bld s1).
  assert (build_ok s1 ∧ in_range s1 f) as [Hb1 Hf1] by done.
  unfold mret, M_ret. rewrite kwrite_entry by done. done.
Qed.

(** ** The copy *)

Lemma page_path va i :
  va mod 4096 = 0 → 0 ≤ va → va + 4096 ≤ 2 ^ 64 → 0 ≤ i < 4096 →
  full_path (va + i) = full_path va ∧ u64 (va + i) = va + i ∧ (va + i) mod 4096 = i.
Proof.
  intros Ha H0 H1 Hi. split; [|split; [apply u64_small; lia|dlia]].
  unfold full_path, table_path. rewrite !PML4_IDX_alt, !PDP_IDX_alt, !PD_IDX_alt, !PT_IDX_alt.
  rewrite !u64_small by lia. cbn [app]. f_equal; [|f_equal; [|f_equal; [|f_equal]]]; dlia.
Qed.

Lemma copy_page k g r src dst es ed :
  wf K (mm k) g → lab g r = Some (Lab r []) → cr3 k = r * 4096 →
  src mod 4096 = 0 → 0 ≤ src → src + 4096 ≤ 2 ^ 64 → dst mod 4096 = 0 → 0 ≤ dst → dst + 4096 ≤ 2 ^ 64 →
  translate (phys (mm k)) r src = Some es → translate (phys (mm k)) r dst = Some ed →
  lab g (frame ed) = None → frame es ≠ frame ed →
  wp (vmemcpy dst src PAGE_SIZE) (λ _ k', ∃ m, k' = set_mm (set_phys m (mm k)) k ∧
    ∀ x, m x = mem_move (phys (mm k)) (frame ed * 4096) (frame es * 4096) 4096 x) k.
Proof.
  intros W Hr Hcr S1 S2 S3 D1 D2 D3 Hs Hd Hl Hne. unfold vmemcpy. change PAGE_SIZE with 4096.
  apply (wp_mfor _ _ (λ dn k', ∃ m, k' = set_mm (set_phys m (mm k)) k ∧
    ∀ x, m x = mem_move (phys (mm k)) (frame ed * 4096) (frame es * 4096) (Z.of_nat (length dn)) x)).
  - exists (phys (mm k)). rewrite set_phys_same, set_mm_same. split; [done|]. intros x.
    symmetry. apply mem_move_out. cbn. lia.
  - intros dn i rest k' Hz (m & -> & Hm).
    destruct (zseq_split _ _ _ _ _ Hz) as [Hi Hlen]. rewrite Z.add_0_l in Hi.
    assert (0 ≤ i < 4096) as Hir by lia. rewrite <- Hi in Hm.
    assert (∀ va, translate m r va = translate (phys (mm k)) r va) as Htr.
    { intros va. apply (translate_same K (mm k) g m r r va W); [|done]. intros f l j Hf Hj.
      apply rd64_ext. intros x Hx. rewrite Hm. apply mem_move_out.
      assert (f ≠ frame ed) by congruence. lia. }
    destruct (page_path src i S1 S2 S3 Hir) as (Ps & Us & Ms). destruct (page_path dst i D1 D2 D3 Hir) as (Pd & Ud & Md).
    assert (∀ va e i', u64 (va + i) = va + i → (va + i) mod 4096 = i' → full_path (va + i) = full_path va →
      translate (phys (mm k)) r va = Some e →
      vtranslate (set_mm (set_phys m (mm k)) k) (u64 (va + i)) = Some (frame e * 4096 + i')) as Hvt.
    { intros va e i' -> Hmod Hfp He. unfold vtranslate. cbn [mm set_mm phys set_phys cr3]. rewrite Hcr.
      change PAGE_SIZE with 4096. rewrite Z.div_mul by lia. rewrite Htr, (translate_full _ _ _ _ Hfp), He.
      cbn. by rewrite Hmod. }
    apply wp_bind. unfold vload8. apply wp_bind, wp_get. apply wp_bind. eapply wp_deref; [by apply (Hvt src es i)|].
    apply wp_ret. unfold vstore8. apply wp_bind, wp_get. apply wp_bind. eapply wp_deref; [by apply (Hvt dst ed i)|].
    eapply wp_eq; [by apply liftm_ok|]. eexists. split; [reflexivity|]. intros x.
    cbn [mm set_mm phys set_phys]. rewrite length_app. cbn [length].
    rewrite fn_insert_dec, !Hm. destruct (decide _) as [<-|Hx].
    + rewrite (mem_move_out _ _ _ i) by lia. rewrite mem_move_in by lia. f_equal. lia.
    + unfold mem_move. destruct ((_ <=? x) && (x <? _ + i)) eqn:E1, ((_ <=? x) && (x <? _ + Z.of_nat _)) eqn:E2;
        bools; lia || done.
  - intros k' (m & -> & Hm). exists m. split; [done|]. intros x. rewrite Hm, zseq_length. done.
Qed.

(** ** Stages of the handler *)

Lemma wf_set_free s g q : Lst.lrep q (fl g) → wf K s g → wf K (set_free q s) g.
Proof.
  intros Hq [W1 W2 W3 W4 W5 W6 W7 W8 W9 W10 W11 W12]. constructor; try done. split; [done|]. apply W2.
Qed.

(** Only addresses of the temporary page go through its entry. *)
Lemma temp_only s g x o va f :
  wf K s g → lab g x = Some (Lab o []) → lab g f = Some (Lab K temp_path) →
  walk (entry_at (phys s)) x (table_path va) = Some f → PT_IDX va = temp_idx → full_path va = full_path KERNEL_TEMP.
Proof.
  intros W Hx Hf Hw Hi.
  pose proof (walk_label K s g x (Lab o []) (table_path va) f W Hx ltac:(cbn; lia) (table_path_ok va) Hw) as H.
  assert (descend K (Lab o []) (table_path va) = Lab K temp_path) as E by congruence.
  apply (f_equal l_path) in E. rewrite descend_path in E. cbn [l_path app] in E.
  unfold full_path. by rewrite E, Hi.
Qed.

(** A state in which the temporary page has the entry [v]. *)
Record temp_at s g (f v : Z) : Prop := {
  ta_lab : lab g f = Some (Lab K temp_path);
  ta_walk x o : lab g x = Some (Lab o []) → walk (entry_at (phys s)) x temp_path = Some f;
  ta_ent : entry_at (phys s) f temp_idx = v;
}.

Lemma temp_tr s g f v x o va :
  temp_at s g f v → lab g x = Some (Lab o []) → full_path va = full_path KERNEL_TEMP →
  translate (phys s) x va = if present v then Some v else None.
Proof.
  intros [Hf Hw He] Hx Hp. rewrite (translate_full _ _ _ _ Hp). unfold translate, leaf.
  fold temp_path temp_idx. rewrite (Hw x o Hx). cbn. by rewrite He.
Qed.

(** Changing that entry. *)
Section temp_write.
Context s g (f v v' : Z).
Hypothesis W : wf K s g.
Hypothesis Hta : temp_at s g f v.
Hypothesis Hv' : 0 ≤ v' < 2 ^ 64.
Let m := wr64 (phys s) (f * 4096 + 8 * temp_idx) v'.

Lemma temp_idx_range : 0 ≤ temp_idx < 512.
Proof. apply PT_IDX_range. Qed.

Lemma temp_write_wf : wf K (set_phys m s) g.
Proof. apply (kleaf_wf K s g f temp_idx v' temp_path W (ta_lab _ _ _ _ Hta)); [done|apply temp_idx_range]. Qed.

Lemma temp_write_at : temp_at (set_phys m s) g f v'.
Proof.
  constructor; [apply Hta| |].
  - intros x o Hx. cbn [phys set_phys]. unfold m, temp_path.
    rewrite (kleaf_walk K s g f temp_idx v' temp_path W (ta_lab _ _ _ _ Hta) eq_refl temp_idx_range x o KERNEL_TEMP Hx).
    by apply (ta_walk _ _ _ _ Hta x o).
  - cbn [phys set_phys]. unfold m. rewrite entry_wr_eq. by apply u64_small.
Qed.

Lemma temp_write_tr x o va :
  lab g x = Some (Lab o []) → full_path va ≠ full_path KERNEL_TEMP → translate m x va = translate (phys s) x va.
Proof.
  intros Hx Hne. unfold m.
  rewrite (kleaf_translate K s g f temp_idx v' temp_path W (ta_lab _ _ _ _ Hta) eq_refl temp_idx_range x o va Hx Hv').
  rewrite decide_False; [done|]. intros [Hw Hi]. apply Hne.
  exact (temp_only s g x o va f W Hx (ta_lab _ _ _ _ Hta) Hw Hi).
Qed.

Lemma temp_write_mem y : lab g (y / 4096) = None → m y = phys s y.
Proof.
  intros Hy. unfold m. apply wr64_out. pose proof temp_idx_range.
  assert (y / 4096 ≠ f) by (intros E; pose proof (ta_lab _ _ _ _ Hta); congruence). dlia.
Qed.

Lemma temp_write_inner f' l i :
  lab g f' = Some l → (length (l_path l) < 3)%nat ∨ l_owner l ≠ K → 0 ≤ i < 512 →
  entry_at m f' i = entry_at (phys s) f' i.
Proof.
  intros Hl Hor Hi. by apply (kleaf_ent K s g f temp_idx v' temp_path (ta_lab _ _ _ _ Hta) eq_refl temp_idx_range f' l).
Qed.
End temp_write.

(** A successful lookup cannot make [page_insert] fail. *)
Lemma page_insert_ret s g root o va f p perm ret s' :
  wf K s g → lab g root = Some (Lab o []) → walk (entry_at (phys s)) root (table_path va) = Some f →
  page_insert (VADDR (bld s) (root * 4096)) p va perm s = Ok (ret, s') → ret = 0.
Proof.
  intros W Hr Hw. unfold page_insert, mbind, M_bind. rewrite (mmap_lookup_present K s g root o va f) by done.
  unfold get. destruct (kread _ s) as [[e s1]|]; [|done]. destruct (_ =? _).
  - destruct (invlpg _ s1) as [[[] s2]|]; [|done]. destruct (kwrite _ _ s2) as [[[] s3]|]; [|done]. by intros [= <- _].
  - destruct (page_remove _ _ s1) as [[[] s2]|]; [|done]. destruct (kwrite _ _ s2) as [[[] s3]|]; [|done].
    destruct (page_incref _ s3) as [[[] s4]|]; [|done]. by intros [= <- _].
Qed.

(** *** Mapping the new page at the temporary address *)

Lemma stage_map s g r f p fl' q c0 perm :
  wf K s g → fl g = p :: fl' → Lst.lrep q fl' → con_ok c0 → temp_at s g f 0 →
  lab g r = Some (Lab r []) → 0 < p → 0 ≤ perm < 4096 →
  let v := p * 4096 + Z.lor perm 1 in
  let g3 := Ghost (lab g) fl' (<[p := 1]> (pins g)) in
  ∃ s3, page_insert (VADDR (bld s) (r * 4096)) p KERNEL_TEMP perm
          (set_con c0 (set_refs (<[p := 0]> (refs s)) (set_free q s))) = Ok (0, s3) ∧
    wf K s3 g3 ∧ temp_at s3 g3 f v ∧ bld s3 = bld s ∧ pages_cnt s3 = pages_cnt s ∧
    (∀ d, refs s3 d = if decide (p = d) then 1 else refs s d) ∧
    phys s3 = wr64 (phys s) (f * 4096 + 8 * temp_idx) v ∧ frame v = p ∧ present v = true ∧ 0 ≤ v < 2 ^ 64.
Proof.
  intros W Hfl Hq Hc Hta Hr Hp0 Hperm v g3.
  assert (p ∈ fl g) as Hpfl by (rewrite Hfl; by left). destruct (wf_free _ _ _ W p Hpfl) as [Hpl Hpp].
  assert (in_range s p) as Hp by (by apply (wf_alloc _ _ _ W)).
  assert (p ∉ fl') as Hpn.
  { pose proof (Lst.lrep_nodup _ _ (proj1 (wf_alloc _ _ _ W))) as Hnd. rewrite Hfl in Hnd. by apply NoDup_cons in Hnd as [? _]. }
  pose proof (build_bound s p (wf_build _ _ _ W) Hp) as (? & ? & ? & ?).
  assert (0 ≤ Z.lor perm 1 < 4096) as Hpm by (apply (lor_bound _ _ 12); lia).
  assert (0 ≤ v < 2 ^ 64) as Hv by (unfold v; lia).
  pose proof (alloc_wf K s g p fl' q W Hfl Hq) as W1. set (s1 := set_refs _ _) in *. set (g1 := Ghost _ _ _) in W1.
  pose proof (wf_con_any K s1 g1 c0 Hc W1) as W2. set (s2 := set_con c0 s1) in *.
  assert (temp_at s2 g1 f 0) as Hta2 by (destruct Hta; by constructor).
  assert (refs s2 p = 0) as Hr2 by (cbn; by rewrite fn_lookup_insert).
  exists (set_refs (<[p := u32 (refs s2 p + 1)]> (refs s2))
    (set_phys (wr64 (phys s2) (f * 4096 + 8 * temp_idx) v) s2)). split.
  { change (bld s) with (bld s2). unfold v. apply (page_insert_present K s2 g1 r r f KERNEL_TEMP p perm W2 Hr); try done.
    - by apply (ta_walk _ _ _ _ Hta2 r r).
    - apply (ta_ent _ _ _ _ Hta2). }
  rewrite Hr2. change (u32 (0 + 1)) with 1.
  pose proof (pin_wf K s2 g1 p 1 W2 Hp Hpn Hpl) as W3. cbn [pins g1 lab fl] in W3. rewrite Hpp, Hr2 in W3.
  specialize (W3 ltac:(lia) ltac:(lia)). change (0 + 1) with 1 in W3.
  assert (temp_at (set_refs (<[p := 1]> (refs s2)) s2) g3 f 0) as Hta3 by (destruct Hta2; by constructor).
  split; [exact (temp_write_wf _ _ f 0 v W3 Hta3)|]. split; [exact (temp_write_at _ _ f 0 v W3 Hta3 Hv)|].
  split_and!; try done.
  - intros d. cbn. rewrite !fn_insert_dec. by destruct (decide (p = d)).
  - apply frame_mk; lia.
  - apply present_mk. rewrite Z.lor_spec. apply orb_true_r.
  - apply Hv.
  - apply Hv.
Qed.

(** *** Mapping it at the faulting address and releasing the temporary one *)

Record remapped s g (r src p e perm f : Z) s' g' : Prop := {
  rp_wf : wf K s' g';
  rp_bld : bld s' = bld s;
  rp_cnt : pages_cnt s' = pages_cnt s;
  rp_lab x l : lab g x = Some l → lab g' x = Some l;
  rp_roots x o : lab g' x = Some (Lab o []) → lab g x = Some (Lab o []);
  rp_top x o i : lab g x = Some (Lab o []) → KIDX ≤ i < 512 → entry_at (phys s') x i = entry_at (phys s) x i;
  rp_tr : translate (phys s') r src = Some (p * 4096 + Z.lor perm 1);
  rp_other x o va : lab g x = Some (Lab o []) → full_path va ≠ full_path KERNEL_TEMP → ¬ same_page r src x va →
    translate (phys s') x va = translate (phys s) x va;
  rp_temp : temp_at s' g' f 0;
  rp_mem y : lab g (y / 4096) = None → y / 4096 ∉ fl g → phys s' y = phys s y;
  rp_new : refs s' p = 1;
  rp_old : refs s' (frame e) = refs s (frame e) - 1;
  rp_pins d : pins g' d = if decide (p = d) then 0 else pins g d;
  rp_kern x l i : lab g x = Some l → l_owner l = K → 0 ≤ i < 512 → (x, i) ≠ (f, temp_idx) →
    entry_at (phys s') x i = entry_at (phys s) x i;
}.

Lemma user_not_temp va : PML4_IDX va < KIDX → full_path va ≠ full_path KERNEL_TEMP.
Proof.
  intros Hva E. unfold full_path, table_path in E. cbn [app] in E. injection E as E _ _ _.
  rewrite E in Hva. vm_compute in Hva. done.
Qed.

(** Walks into the kernel's tables are the same when its entries are. *)
Lemma walk_kern s g m f l path :
  wf K s g → (∀ f l i, lab g f = Some l → l_owner l = K → 0 ≤ i < 512 → entry_at m f i = entry_at (phys s) f i) →
  lab g f = Some l → l_owner l = K → (length (l_path l) + length path ≤ 3)%nat →
  Forall (λ i, 0 ≤ i < 512) path → walk (entry_at m) f path = walk (entry_at (phys s)) f path.
Proof.
  intros W He. revert f l. induction path as [|i path IH]; intros f l Hf Hl Hlen Hp; cbn [walk]; [done|].
  cbn [length] in Hlen. apply Forall_cons in Hp as [Hi Hp]. rewrite (He f l) by done.
  destruct (present _) eqn:P; [|done]. apply (IH _ (child K l i)); [|by apply child_kernel| |done].
  - apply (wf_edge _ _ _ W); [done|lia|done|done].
  - rewrite child_path, length_app. cbn. lia.
Qed.

(** The temporary entry stays where it is when the kernel's tables do. *)
Lemma temp_at_kern s g s' g' f w :
  wf K s g → temp_at s g f w → lab g K = Some (Lab K []) →
  (∀ f l, lab g f = Some l → l_owner l = K → lab g' f = Some l) →
  (∀ x o, lab g' x = Some (Lab o []) → ∃ x0, lab g x0 = Some (Lab x0 []) ∧
     entry_at (phys s') x (PML4_IDX KERNEL_TEMP) = entry_at (phys s) x0 (PML4_IDX KERNEL_TEMP)) →
  (∀ f l i, lab g f = Some l → l_owner l = K → 0 ≤ i < 512 → entry_at (phys s') f i = entry_at (phys s) f i) →
  temp_at s' g' f w.
Proof.
  intros W [Hf Hw He] HK Hl Hr Hk. constructor.
  - by apply Hl.
  - intros x o Hx. destruct (Hr x o Hx) as (x0 & Hx0 & E). rewrite <- (Hw x0 x0 Hx0).
    unfold temp_path, table_path. cbn [walk]. rewrite E.
    destruct (present (entry_at (phys s) x0 (PML4_IDX KERNEL_TEMP))) eqn:P; [|done].
    pose proof (wf_edge _ _ _ W x0 (Lab x0 []) _ Hx0 ltac:(cbn; lia) (PML4_IDX_range KERNEL_TEMP) P) as Hc.
    assert (child K (Lab x0 []) (PML4_IDX KERNEL_TEMP) = Lab K [PML4_IDX KERNEL_TEMP]) as Ec by reflexivity.
    rewrite Ec in Hc.
    pose proof (table_path_ok KERNEL_TEMP) as [_ Hp]%Forall_cons.
    exact (walk_kern s g (phys s') _ _ [PDP_IDX KERNEL_TEMP; PD_IDX KERNEL_TEMP] W Hk Hc eq_refl ltac:(cbn; lia) Hp).
  - rewrite <- He. apply (Hk f (Lab K temp_path)); [done|done|apply PT_IDX_range].
Qed.

Lemma temp_at_inserted s g s' g' r va p v f w :
  wf K s g → inserted K s g s' g' r va p v → PML4_IDX va < KIDX → temp_at s g f w → lab g K = Some (Lab K []) →
  temp_at s' g' f w.
Proof.
  intros W I Hva Hta HK. apply (temp_at_kern s g); try done.
  - intros x l Hx _. by apply (in_lab _ _ _ _ _ _ _ _ _ I).
  - intros x o Hx. destruct (in_new _ _ _ _ _ _ _ _ _ I x _ Hx) as [Hx0|[? _]]; [|done]. exists x.
    pose proof (wf_root _ _ _ W x o Hx0) as E. subst o. split; [done|].
    apply (in_top _ _ _ _ _ _ _ _ _ I x x); [done|]. split; [|apply PML4_IDX_range]. vm_compute. discriminate.
  - exact (in_kern _ _ _ _ _ _ _ _ _ I).
Qed.

Lemma stage_remap s g r src p e perm f v :
  wf K s g → temp_at s g f v → frame v = p → present v = true → lab g K = Some (Lab K []) →
  lab g r = Some (Lab r []) → r ≠ K → PML4_IDX src < KIDX →
  in_range s p → 0 < p → p ∉ fl g → lab g p = None → refs s p = 1 → pins g p = 1 →
  translate (phys s) r src = Some e → frame e ≠ p → 0 ≤ perm < 4096 →
  ∃ s5 s6 g6, page_insert (VADDR (bld s) (r * 4096)) p src perm s = Ok (0, s5) ∧
    page_remove (VADDR (bld s) (r * 4096)) KERNEL_TEMP s5 = Ok ((), s6) ∧
    remapped s g r src p e perm f s6 g6.
Proof.
  intros W Hta Hfv Pv HK Hr HrK Hsrc Hp Hp0 Hpn Hpl Hrp Hpin Ht Hne Hperm.
  assert (user_va K g r r src) as U by done.
  destruct (mapped_page K s g r r src e W U Ht) as (fu & Hw & _ & _ & _ & _ & _ & Hen & _).
  destruct (page_insert_spec K s g r r src p perm W U Hp Hp0 Hpn Hpl ltac:(lia) Hperm) as (ret & s5 & g5 & Hrun & H).
  pose proof (page_insert_ret s g r r src fu p perm ret s5 W Hr Hw Hrun) as ->.
  destruct H as [(? & _)|(_ & I)]; [done|].
  assert (∀ x o, lab g5 x = Some (Lab o []) → lab g x = Some (Lab o [])) as Hroots.
  { intros x o Hx. by destruct (in_new _ _ _ _ _ _ _ _ _ I x _ Hx) as [?|[? _]]. }
  pose proof (temp_at_inserted s g s5 g5 r src p _ f v W I Hsrc Hta HK) as Hta5.
  pose proof (in_wf _ _ _ _ _ _ _ _ _ I) as W5. pose proof (in_lab _ _ _ _ _ _ _ _ _ I) as Hlab.
  assert (in_range s5 p) as Hp5 by (unfold in_range; by rewrite (in_cnt _ _ _ _ _ _ _ _ _ I)).
  assert (p ∉ fl g5) as Hpn5.
  { intros Hin. destruct (in_free _ _ _ _ _ _ _ _ _ I p Hin) as [?|(? & _ & _ & _ & ?)]; done. }
  assert (lab g5 p = None) as Hpl5 by (by apply (in_none _ _ _ _ _ _ _ _ _ I)).
  assert (refs s5 p = 2) as Hr5.
  { rewrite (in_refs _ _ _ _ _ _ _ _ _ I p Hpn), Ht, (proj2 (Z.eqb_neq _ _)), Z.eqb_refl by done. lia. }
  assert (pins g5 p = 1) as Hpin5 by (by rewrite (in_pins _ _ _ _ _ _ _ _ _ I)).
  assert (refs s5 (frame e) = refs s (frame e) - 1) as Hre.
  { rewrite (in_refs _ _ _ _ _ _ _ _ _ I _ Hen), Ht, Z.eqb_refl, (proj2 (Z.eqb_neq _ _)) by done. lia. }
  destruct (temp_remove s5 g5 r f v) as (q & c & Hrm & Hcn & Hq); try (rewrite ?Hfv, ?Hr5; done).
  { by apply Hlab. }
  { by apply (ta_walk _ _ _ _ Hta5 r r), Hlab. }
  { apply (ta_ent _ _ _ _ Hta5). }
  rewrite Hfv, Hr5 in Hrm. change (2 - 1) with 1 in Hrm.
  pose proof (pin_wf K s5 g5 p (-1) W5 Hp5 Hpn5 Hpl5 ltac:(lia) ltac:(lia)) as W6.
  rewrite Hr5, Hpin5 in W6. change (2 + -1) with 1 in W6. change (1 + -1) with 0 in W6.
  set (g6 := Ghost (lab g5) (fl g5) (<[p := 0]> (pins g5))) in *.
  apply (wf_set_free _ g6 q Hq) in W6. apply (wf_con_any K _ g6 c Hcn) in W6. set (sA := set_con c _) in *.
  assert (temp_at sA g6 f v) as HtaA by (destruct Hta5; by constructor).
  eexists s5, _, g6. split; [exact Hrun|]. rewrite <- (in_bld _ _ _ _ _ _ _ _ _ I). split; [exact Hrm|].
  assert (∀ x o va, lab g x = Some (Lab o []) → full_path va ≠ full_path KERNEL_TEMP →
    translate (wr64 (phys s5) (f * 4096 + 8 * temp_idx) 0) x va = translate (phys s5) x va) as Htw.
  { intros x o va Hx Hv. apply (temp_write_tr sA g6 f v 0 W6 HtaA ltac:(lia) x o va); [by apply Hlab|done]. }
  constructor.
  - exact (wf_shot K _ _ _ (temp_write_wf sA g6 f v 0 W6 HtaA)).
  - exact (in_bld _ _ _ _ _ _ _ _ _ I).
  - exact (in_cnt _ _ _ _ _ _ _ _ _ I).
  - exact Hlab.
  - exact Hroots.
  - intros x o i Hx Hi. rewrite <- (in_top _ _ _ _ _ _ _ _ _ I x o i Hx Hi).
    apply (temp_write_inner sA g6 f v 0 HtaA x (Lab o [])); [by apply Hlab|left; cbn; lia|rewrite KIDX_val in Hi; lia].
  - cbn [phys set_shot set_phys]. rewrite (Htw r r src Hr) by (by apply user_not_temp).
    exact (in_tr _ _ _ _ _ _ _ _ _ I).
  - intros x o va Hx Hv Hns. cbn [phys set_shot set_phys]. rewrite (Htw x o va Hx Hv).
    by apply (in_other _ _ _ _ _ _ _ _ _ I x o).
  - destruct (temp_write_at sA g6 f v 0 W6 HtaA ltac:(lia)). by constructor.
  - intros y Hy Hyn. rewrite <- (in_mem _ _ _ _ _ _ _ _ _ I y Hy Hyn). apply (temp_write_mem sA g6 f v 0 HtaA ltac:(lia) y).
    cbn [lab g6]. by apply (in_none _ _ _ _ _ _ _ _ _ I).
  - cbn. by rewrite fn_lookup_insert.
  - cbn. by rewrite fn_lookup_insert_ne.
  - intros d. cbn. by rewrite fn_insert_dec, (in_pins _ _ _ _ _ _ _ _ _ I).
  - intros x l i Hx Ho Hi Hxi. cbn [phys set_shot set_phys]. rewrite entry_wr_ne by (done || apply temp_idx_range || congruence).
    by apply (in_kern _ _ _ _ _ _ _ _ _ I x l).
Qed.

(** *** The copy leaves the tables alone *)

Lemma stage_copy s g p es m f v :
  wf K s g → temp_at s g f v → lab g p = None →
  (∀ x, m x = mem_move (phys s) (p * 4096) (es * 4096) 4096 x) →
  (∀ f' l i, lab g f' = Some l → 0 ≤ i < 512 → entry_at m f' i = entry_at (phys s) f' i) ∧
  wf K (set_phys m s) g ∧ temp_at (set_phys m s) g f v ∧
  (∀ x o va, lab g x = Some (Lab o []) → translate m x va = translate (phys s) x va).
Proof.
  intros W Hta Hp Hm.
  assert (∀ f' l i, lab g f' = Some l → 0 ≤ i < 512 → entry_at m f' i = entry_at (phys s) f' i) as He.
  { intros f' l i Hl Hi. apply rd64_ext. intros x Hx. rewrite Hm. apply mem_move_out.
    assert (f' ≠ p) by congruence. lia. }
  split; [done|]. split; [by apply wf_phys|]. split.
  - constructor; [apply Hta| |].
    + intros x o Hx. rewrite <- (ta_walk _ _ _ _ Hta x o Hx). cbn [phys set_phys].
      apply (walk_same K s g m x (Lab o [])); [done|by eauto|done|cbn; lia|apply table_path_ok].
    + cbn [phys set_phys]. rewrite (He f _ temp_idx (ta_lab _ _ _ _ Hta)) by apply PT_IDX_range. apply Hta.
  - intros x o va Hx. by apply (translate_same K s g m x o va).
Qed.

(** ** The handler *)

Record cow_done k g tl (i r va e p f : Z) k' g' : Prop := {
  cd_kwf : kwf K k' g' tl;
  cd_temp : temp_at (mm k') g' f 0;
  cd_tr : translate (phys (mm k')) r va = Some (p * 4096 + Z.lor (Z.lor (Z.land e PTE_FLAGS_MASK) PTE_W) PTE_P);
  cd_copy j : 0 ≤ j < 4096 → phys (mm k') (p * 4096 + j) = phys (mm k) (frame e * 4096 + j);
  cd_other x o va' : lab g x = Some (Lab o []) → ¬ same_page r va x va' →
    translate (phys (mm k')) x va' = translate (phys (mm k)) x va';
  cd_mem y : lab g (y / 4096) = None → y / 4096 ∉ fl g → phys (mm k') y = phys (mm k) y;
  cd_new : refs (mm k') p = 1;
  cd_old : refs (mm k') (frame e) = refs (mm k) (frame e) - 1;
  cd_task : tasks k' i = run_task (tasks k i);
  cd_tasks j : j ≠ i → tasks k' j = tasks k j;
  cd_cr3 : cr3 k' = cr3 k;
  cd_roots x o : lab g' x = Some (Lab o []) → lab g x = Some (Lab o []);
  cd_pins d : pins g' d = pins g d;
  cd_cnt : pages_cnt (mm k') = pages_cnt (mm k);
  cd_cpu : cpu_task k' = cpu_task k;
  cd_next : next_task_idx k' = next_task_idx k;
  cd_kern x l i : lab g x = Some l → l_owner l = K → 0 ≤ i < 512 →
    entry_at (phys (mm k')) x i = entry_at (phys (mm k)) x i;
}.

(** The memory manager's part, from the state before to the state after. *)
Lemma cow_done_intro k g tl i r va e p f s3 g3 m4 s6 g6 fl' v ts :
  kwf K k g tl → temp_at (mm k) g f 0 → lab g r = Some (Lab r []) → PML4_IDX va < KIDX →
  fl g = p :: fl' → lab g p = None → 0 ≤ v < 2 ^ 64 →
  in_range (mm k) (frame e) → lab g (frame e) = None → frame e ≠ p →
  let src := ROUND_DOWN va PAGE_SIZE in
  full_path src = full_path va → p ∉ fl' →
  g3 = Ghost (lab g) fl' (<[p := 1]> (pins g)) → bld s3 = bld (mm k) → pages_cnt s3 = pages_cnt (mm k) →
  (∀ d, refs s3 d = if decide (p = d) then 1 else refs (mm k) d) →
  phys s3 = wr64 (phys (mm k)) (f * 4096 + 8 * temp_idx) v →
  (∀ x, m4 x = mem_move (phys s3) (p * 4096) (frame e * 4096) 4096 x) →
  (∀ f' l i, lab g3 f' = Some l → 0 ≤ i < 512 → entry_at m4 f' i = entry_at (phys s3) f' i) →
  (∀ x o va, lab g3 x = Some (Lab o []) → translate m4 x va = translate (phys s3) x va) →
  remapped (set_phys m4 s3) g3 r src p e (Z.lor (Z.land e PTE_FLAGS_MASK) PTE_W) f s6 g6 →
  ts i = run_task (tasks k i) → (∀ j, j ≠ i → ts j = tasks k j) → (∀ j, pml4 (ts j) = pml4 (tasks k j)) →
  cow_done k g tl i r va e p f (set_tasks ts (set_mm s6 k)) g6.
Proof.
  intros Hk Hta Hr Hva Hfl Hpl Hv Her Hel Hne src Hfp Hpn -> Hb Hc Hrefs Hph Hm He4 Htr4 R Hti Htj Htp.
  pose proof (kw_wf _ _ _ _ Hk) as W.
  assert (∀ y, lab g (y / 4096) = None → phys s3 y = phys (mm k) y) as Hm3
    by (intros y Hy; rewrite Hph; exact (temp_write_mem (mm k) g f 0 v Hta Hv y Hy)).
  assert (∀ y, y / 4096 ≠ p → m4 y = phys s3 y) as Hm4 by (intros y Hy; rewrite Hm; apply mem_move_out; dlia).
  assert (kwf K (set_mm s6 k) g6 tl) as Hk6.
  { apply (kwf_mm K k g tl s6 g6 Hk).
    - apply R.
    - by rewrite (rp_bld _ _ _ _ _ _ _ _ _ _ R).
    - by rewrite (rp_cnt _ _ _ _ _ _ _ _ _ _ R).
    - exact (rp_lab _ _ _ _ _ _ _ _ _ _ R).
    - exact (rp_roots _ _ _ _ _ _ _ _ _ _ R).
    - intros x o j Hx Hj. assert (0 ≤ j < 512) as Hj0 by (rewrite KIDX_val in Hj; lia).
      rewrite (rp_top _ _ _ _ _ _ _ _ _ _ R x o j Hx Hj). cbn [phys set_phys]. rewrite (He4 x _ j Hx Hj0), Hph.
      apply (temp_write_inner (mm k) g f 0 v Hta x (Lab o [])); [done|left; cbn; lia|done]. }
  constructor; cbn [mm set_mm set_tasks tasks cr3]; try done.
  - destruct Hk6 as [H1 H2 H3 H4 H5 H6 H7 H8 H9 H10]. constructor; cbn [mm set_mm set_tasks tasks] in *; try done.
    + intros j Hj. rewrite Htp. auto.
    + intros j. rewrite Htp. auto.
    + intros j1 j2. rewrite !Htp. auto.
  - exact (rp_temp _ _ _ _ _ _ _ _ _ _ R).
  - rewrite <- (translate_full _ _ _ _ Hfp). exact (rp_tr _ _ _ _ _ _ _ _ _ _ R).
  - intros j Hj. assert ((p * 4096 + j) / 4096 = p) as Ep by dlia.
    rewrite (rp_mem _ _ _ _ _ _ _ _ _ _ R) by (by rewrite Ep). cbn [phys set_phys].
    rewrite Hm, mem_move_in by lia. rewrite Hm3; [f_equal; lia|].
    by replace ((frame e * 4096 + (p * 4096 + j - p * 4096)) / 4096) with (frame e) by dlia.
  - intros x o va' Hx Hns. destruct (decide (full_path va' = full_path KERNEL_TEMP)) as [E|E].
    + rewrite (temp_tr s6 g6 f 0 x o va' (rp_temp _ _ _ _ _ _ _ _ _ _ R) (rp_lab _ _ _ _ _ _ _ _ _ _ R _ _ Hx) E).
      by rewrite (temp_tr (mm k) g f 0 x o va' Hta Hx E).
    + rewrite (rp_other _ _ _ _ _ _ _ _ _ _ R x o va' Hx E);
        [|intros [? ?]; apply Hns; split; [done|by rewrite <- Hfp]].
      cbn [phys set_phys]. rewrite (Htr4 x o va' Hx), Hph.
      exact (temp_write_tr (mm k) g f 0 v W Hta Hv x o va' Hx E).
  - intros y Hy Hyn. rewrite Hfl in Hyn. apply not_elem_of_cons in Hyn as [Hyp Hyn].
    rewrite (rp_mem _ _ _ _ _ _ _ _ _ _ R y Hy Hyn). cbn [phys set_phys]. rewrite Hm4 by done. by apply Hm3.
  - exact (rp_new _ _ _ _ _ _ _ _ _ _ R).
  - rewrite (rp_old _ _ _ _ _ _ _ _ _ _ R). cbn [refs set_phys]. rewrite Hrefs, decide_False by congruence. done.
  - exact (rp_roots _ _ _ _ _ _ _ _ _ _ R).
  - intros d. rewrite (rp_pins _ _ _ _ _ _ _ _ _ _ R). cbn. rewrite fn_insert_dec. destruct (decide (p = d)) as [<-|]; [|done].
    symmetry. apply (wf_free _ _ _ W p). rewrite Hfl. by left.
  - by rewrite (rp_cnt _ _ _ _ _ _ _ _ _ _ R).
  - intros x l j Hx Ho Hj. destruct (decide ((x, j) = (f, temp_idx))) as [[= -> ->]|Hne'].
    + by rewrite (ta_ent _ _ _ _ (rp_temp _ _ _ _ _ _ _ _ _ _ R)), (ta_ent _ _ _ _ Hta).
    + rewrite (rp_kern _ _ _ _ _ _ _ _ _ _ R x l j Hx Ho Hj Hne'). cbn [phys set_phys].
      rewrite (He4 x l j Hx Hj), Hph. apply entry_wr_ne; [apply temp_idx_range|done|congruence].
Qed.

Lemma round_down va :
  0 ≤ va < 2 ^ 64 → let src := ROUND_DOWN va PAGE_SIZE in
  src mod 4096 = 0 ∧ 0 ≤ src ∧ src + 4096 ≤ 2 ^ 64 ∧ full_path src = full_path va.
Proof.
  intros Hva src. unfold src, ROUND_DOWN, PAGE_SIZE. assert ((va - va mod 4096) mod 4096 = 0) as H1 by dlia.
  assert (0 ≤ va - va mod 4096 ∧ va - va mod 4096 + 4096 ≤ 2 ^ 64) as [H2 H3] by dlia.
  split_and!; try done.
  destruct (page_path (va - va mod 4096) (va mod 4096) H1 H2 H3 ltac:(dlia)) as (H & _).
  replace (va - va mod 4096 + va mod 4096) with va in H by lia. done.
Qed.

Lemma cow_fault_ok k g tl i r va e p fl' f :
  kwf K k g tl → 0 ≤ i < TASK_MAX_CNT → pml4 (tasks k i) = VADDR (bld (mm k)) (r * 4096) →
  lab g r = Some (Lab r []) → r ≠ K → cr3 k = r * 4096 → temp_at (mm k) g f 0 →
  fl g = p :: fl' → 0 < p → 0 ≤ va < 2 ^ 64 → PML4_IDX va < KIDX →
  translate (phys (mm k)) r va = Some e → has_flag e PTE_COW = true →
  has_flag (Context.error_code (context (tasks k i))) Interrupt.PAGE_FAULT_ERROR_CODE_R_W = true →
  wp (Interrupt.page_fault_handler (TSlot i) va)
    (λ t k', t = TSlot i ∧ ∃ g', cow_done k g tl i r va e p f k' g') k.
Proof.
  intros Hk Hi Hpr Hr HrK Hcr Hta Hfl Hp0 Hva Hu Ht Hcow Hcode.
  pose proof (kw_wf _ _ _ _ Hk) as W. pose proof (wf_build _ _ _ W) as Hb.
  assert (user_va K g r r va) as U by done.
  destruct (mapped_page K (mm k) g r r va e W U Ht) as (fu & Hw & He & P & Hul & Hfur & Her & Hen & Hel & _).
  destruct (round_down va Hva) as (S1 & S2 & S3 & Sp). set (src := ROUND_DOWN va PAGE_SIZE) in *.
  assert (p ∈ fl g) as Hpfl by (rewrite Hfl; by left). destruct (wf_free _ _ _ W p Hpfl) as [Hpl _].
  assert (frame e ≠ p) as Hne by congruence.
  assert (in_range (mm k) p) as Hp by (by apply (wf_alloc _ _ _ W)).
  assert (p ∉ fl') as Hpn.
  { pose proof (Lst.lrep_nodup _ _ (proj1 (wf_alloc _ _ _ W))) as Hnd. rewrite Hfl in Hnd. by apply NoDup_cons in Hnd as [? _]. }
  assert (PML4_IDX src < KIDX) as Hsu.
  { unfold full_path, table_path in Sp. cbn [app] in Sp. injection Sp as -> _ _ _. done. }
  assert (0 ≤ Z.lor (Z.land e PTE_FLAGS_MASK) PTE_W < 4096) as Hperm.
  { apply (lor_bound _ _ 12); [done|apply perm_range|done]. }
  unfold Interrupt.page_fault_handler.
  apply wp_bind. eapply wp_eq; [by apply get_slot_ok|]. rewrite Hpr.
  apply wp_bind. eapply wp_eq; [apply liftm_ok, (page_lookup_ok K (mm k) g r r va W Hr); by left|].
  rewrite Ht, Hw, set_mm_same, Hcode. cbn [fmap option_fmap option_map negb].
  apply wp_bind. eapply wp_eq; [apply liftm_ok, kread_entry; [done|done|apply PT_IDX_range]|].
  rewrite He, Hcow, set_mm_same. cbn [negb]. apply wp_bind, wp_massert; [exact P|].
  pose proof (wf_alloc _ _ _ W) as Hal. rewrite Hfl in Hal.
  destruct (page_alloc_some (mm k) p fl' Hal) as (q & Hpa & Hq & _).
  apply wp_bind. eapply wp_eq; [apply liftm_ok; exact Hpa|]. apply wp_bind, wp_get.
  apply wp_bind, wp_kprintf; [done|apply W|]. intros c0 Hc0. cbn [mm set_mm].
  destruct (stage_map (mm k) g r f p fl' q c0 _ W Hfl Hq Hc0 Hta Hr Hp0 Hperm)
    as (s3 & Hins & W3 & Hta3 & Hb3 & Hc3 & Hr3 & Hph3 & Hfv & Pv & Hv).
  set (v := p * 4096 + _) in *. set (g3 := Ghost _ _ _) in *.
  apply wp_bind. eapply wp_eq; [apply liftm_ok; exact Hins|]. cbn [negb Z.eqb].
  change (set_mm s3 (set_mm _ _)) with (set_mm s3 k).
  assert (translate (phys s3) r src = Some e) as Hts.
  { rewrite Hph3, (temp_write_tr (mm k) g f 0 v W Hta Hv r r src Hr (user_not_temp src Hsu)).
    by rewrite (translate_full _ _ _ _ Sp). }
  apply wp_bind. eapply wp_mono.
  { apply (copy_page (set_mm s3 k) g3 r src KERNEL_TEMP e v W3 Hr Hcr S1 S2 S3); try done.
    - cbn [mm set_mm]. rewrite (temp_tr s3 g3 f v r r KERNEL_TEMP Hta3 Hr eq_refl). by rewrite Pv.
    - by rewrite Hfv.
    - by rewrite Hfv. }
  intros [] k4 (m4 & -> & Hm4). cbn [mm set_mm] in Hm4. rewrite Hfv in Hm4.
  destruct (stage_copy s3 g3 p (frame e) m4 f v W3 Hta3 Hpl Hm4) as (He4 & W4 & Hta4 & Htr4).
  destruct (uleaf_lab K g fu Hul) as (lu & Hlu & _ & Hou).
  apply wp_bind. eapply wp_eq.
  { apply liftm_ok. cbn [mm set_mm]. rewrite <- Hb3. change (bld s3) with (bld (set_phys m4 s3)).
    apply kread_entry; [apply W4|unfold in_range; cbn; rewrite Hc3; exact Hfur|apply PT_IDX_range]. }
  cbn [mm set_mm phys set_phys]. rewrite (He4 fu lu _ Hlu (PT_IDX_range va)), Hph3.
  rewrite (temp_write_inner (mm k) g f 0 v Hta fu lu (PT_IDX va) Hlu (or_intror Hou) (PT_IDX_range va)), He.
  destruct (stage_remap (set_phys m4 s3) g3 r src p e (Z.lor (Z.land e PTE_FLAGS_MASK) PTE_W) f v W4 Hta4 Hfv Pv)
    as (s5 & s6 & g6 & Hi5 & Hr6 & R); try done.
  { exact (kw_K _ _ _ _ Hk). }
  { unfold in_range. cbn. rewrite Hc3. exact Hp. }
  { cbn. by rewrite Hr3, decide_True. }
  { cbn. by rewrite fn_lookup_insert. }
  { cbn [phys set_phys]. by rewrite (Htr4 r r src Hr). }
  cbn [bld set_phys] in Hi5, Hr6. rewrite Hb3 in Hi5, Hr6.
  apply wp_bind. eapply wp_eq; [apply liftm_ok; exact Hi5|]. cbn [negb Z.eqb].
  apply wp_bind. eapply wp_eq; [apply liftm_ok; exact Hr6|].
  change (set_mm s6 _) with (set_mm s6 k).
  destruct (task_run_ok i (set_mm s6 k) Hi) as (ts & Hrun & Hti & Htj). eapply wp_eq; [exact Hrun|].
  split; [done|]. exists g6. eapply (cow_done_intro k g tl i r va e p f s3 g3 m4 s6 g6 fl' v ts); try done.
  intros j. destruct (decide (j = i)) as [->|Hj]; [by rewrite Hti|by rewrite Htj].
Qed.
End fault.
