(* ===== verification/IsolationProofs.v ===== *)
(** What a step of the kernel leaves to the tasks: their registers and their
    memory.

    [preserved] says that a task is still there with the same address space,
    the same registers and the same memory at every user address; [isolated]
    that this holds for every task but those in a given set, which may be
    gone, and that the only new task is a copy of the current one ([forked]).
    The three operations that touch address spaces while tasks exist are
    treated here: the destruction of a task, the private copy of a
    copy-on-write page and the sharing of pages by [sys_fork]. *)

From Stdlib Require Import String.
From S2P Require Import Prelude Memory Queue Mmu Console Map AllocProofs Walk MapWf.
From S2P Require Import LookupProofs InsertProofs Gdt Context Task SchedProofs DestroyProofs.
From S2P Require Import TaskProofs Syscall ForkProofs Interrupt FaultProofs.
Import Mmu Map Task Syscall.

Section isolation.
Context {T : Type} `{!Console T, !ConsoleLaws T} (K : Z).
Implicit Types (k : kstate T) (g : ghost) (tl : list Z) (i j : Z).

(** The byte task [j] finds at address [va], and whether it may read and write
    there; a page shared copy-on-write counts as writable. *)
Definition cell : Type := byte * bool * bool.

Definition cell_of (m : mem) (va e : Z) : cell :=
  (m (frame e * PAGE_SIZE + va mod PAGE_SIZE), has_flag e PTE_U, has_flag e PTE_W || has_flag e PTE_COW).

Definition task_cell k j (va : Z) : option cell :=
  cell_of (phys (mm k)) va <$> translate (phys (mm k)) (PADDR (bld (mm k)) (pml4 (tasks k j)) / PAGE_SIZE) va.

(** The registers [task_run] loads: interrupts are always enabled. *)
Definition resumable (c : Context.task_context) : Context.task_context :=
  Context.set_rflags (Z.lor (Context.rflags c) RFLAGS_IF) c.

Definition rax_of k j : Z := Context.rax (Context.c_gprs (context (tasks k j))).

(** Task [j] is as before; the result register of task [i] is in [V]. *)
Record preserved (V : Z → Prop) i k k' j : Prop := {
  pr_pml4 : pml4 (tasks k' j) = pml4 (tasks k j);
  pr_id : id (tasks k' j) = id (tasks k j);
  pr_regs : resumable (rax0 (context (tasks k' j))) = resumable (rax0 (context (tasks k j)));
  pr_rax : j ≠ i → rax_of k' j = rax_of k j;
  pr_val : j = i → V (rax_of k' j);
  pr_mem va : PML4_IDX va < KIDX → task_cell k' j va = task_cell k j va;
}.

(** Task [c] is a copy of task [i], with 0 in the result register. *)
Record forked i k k' c : Prop := {
  fo_pml4 : pml4 (tasks k' c) ≠ NULL;
  fo_regs : resumable (context (tasks k' c)) = resumable (rax0 (context (tasks k i)));
  fo_mem va : PML4_IDX va < KIDX → task_cell k' c va = task_cell k i va;
}.

(** Every task is preserved, those in [D] may be gone instead; a new task is
    in [N] and a copy of [i]. *)
Record isolated (N D V : Z → Prop) i k k' : Prop := {
  is_old j : 0 ≤ j < TASK_MAX_CNT → pml4 (tasks k j) ≠ NULL → preserved V i k k' j ∨ D j ∧ pml4 (tasks k' j) = NULL;
  is_new j : 0 ≤ j < TASK_MAX_CNT → pml4 (tasks k j) = NULL → pml4 (tasks k' j) = NULL ∨ N j ∧ forked i k k' j;
}.

(** ** Steps that do not touch memory *)

(** The same memory and the same tasks, up to their state. *)
Record light k k' : Prop := {
  li_phys : phys (mm k') = phys (mm k);
  li_bld : bld (mm k') = bld (mm k);
  li_pml4 j : pml4 (tasks k' j) = pml4 (tasks k j);
  li_id j : id (tasks k' j) = id (tasks k j);
  li_regs j : resumable (context (tasks k' j)) = resumable (context (tasks k j));
}.

Lemma resumable_rax c c' : resumable c = resumable c' →
  resumable (rax0 c) = resumable (rax0 c') ∧ Context.rax (Context.c_gprs c) = Context.rax (Context.c_gprs c').
Proof.
  unfold resumable, rax0, Context.set_rflags, Context.set_gprs. cbn -[Z.lor]. intros [= ? ? ? ? ? ? ? ? ? ? ? ? ? ? ?].
  split; congruence.
Qed.

Lemma light_cell k k' j va : light k k' → task_cell k' j va = task_cell k j va.
Proof. intros [H1 H2 H3 _ _]. unfold task_cell. by rewrite H1, H2, H3. Qed.

Lemma preserved_after V i k k1 k2 j : preserved V i k k1 j → light k1 k2 → preserved V i k k2 j.
Proof.
  intros [A1 A2 A3 A4 A5 A6] L. pose proof L as [_ _ B1 B2 B3]. destruct (resumable_rax _ _ (B3 j)) as [B4 B5].
  constructor; [congruence|congruence|congruence| | |].
  - intros Hj. rewrite <- A4 by done. exact B5.
  - intros Hj. unfold rax_of in *. rewrite B5. auto.
  - intros va Hva. rewrite (light_cell k1 k2) by done. auto.
Qed.

Lemma preserved_before V i k k1 k2 j : light k k1 → preserved V i k1 k2 j → preserved V i k k2 j.
Proof.
  intros L [A1 A2 A3 A4 A5 A6]. pose proof L as [_ _ B1 B2 B3]. destruct (resumable_rax _ _ (B3 j)) as [B4 B5].
  constructor; [congruence|congruence|congruence| |done|].
  - intros Hj. rewrite A4 by done. exact B5.
  - intros va Hva. rewrite A6 by done. by apply light_cell.
Qed.

Lemma isolated_mono (N N' D D' V V' : Z → Prop) i k k' :
  (∀ j, N j → N' j) → (∀ j, D j → D' j) → (∀ v, V v → V' v) → isolated N D V i k k' → isolated N' D' V' i k k'.
Proof.
  intros HN HD HV [H1 H2]. constructor.
  - intros j Hj Hn. destruct (H1 j Hj Hn) as [[A1 A2 A3 A4 A5 A6]|[? ?]]; [left; constructor|]; auto.
  - intros j Hj Hn. destruct (H2 j Hj Hn) as [?|[? ?]]; auto.
Qed.

Lemma isolated_after N D V i k k1 k2 : isolated N D V i k k1 → light k1 k2 → isolated N D V i k k2.
Proof.
  intros [H1 H2] L. constructor; intros j Hj Hn.
  - destruct (H1 j Hj Hn) as [P|[HD Hnil]]; [left; by eapply preserved_after|].
    right. split; [done|]. by rewrite (li_pml4 _ _ L).
  - destruct (H2 j Hj Hn) as [Hnil|[HN [F1 F2 F3]]]; [left; by rewrite (li_pml4 _ _ L)|].
    right. split; [done|]. constructor; [by rewrite (li_pml4 _ _ L)|by rewrite (li_regs _ _ L)|].
    intros va Hva. rewrite (light_cell k1 k2) by done. auto.
Qed.

Lemma isolated_before N D V i k k1 k2 : light k k1 → isolated N D V i k1 k2 → isolated N D V i k k2.
Proof.
  intros L [H1 H2]. constructor; intros j Hj Hn; rewrite <- (li_pml4 _ _ L j) in Hn.
  - destruct (H1 j Hj Hn) as [P|H]; [left|by right]. by eapply preserved_before.
  - destruct (H2 j Hj Hn) as [Hnil|[HN [F1 F2 F3]]]; [by left|right]. split; [done|].
    destruct (resumable_rax _ _ (li_regs _ _ L i)) as [E _]. constructor; [done|congruence|].
    intros va Hva. rewrite F3 by done. by apply light_cell.
Qed.

Lemma light_refl k : light k k.
Proof. by constructor. Qed.

Lemma isolated_refl N D i k : isolated N D (eq (rax_of k i)) i k k.
Proof. constructor; intros j _ Hn; left; [|done]. by constructor; [..|intros ->|]. Qed.

Lemma isolated_light N D i k k' : light k k' → isolated N D (eq (rax_of k i)) i k k'.
Proof. intros L. eapply isolated_after; [apply isolated_refl|done]. Qed.

(** A value is returned to task [i]. *)
Lemma isolated_return N D V i k k1 v :
  pml4 (tasks k i) ≠ NULL → isolated N D V i k k1 →
  isolated N D (eq v) i k (set_tasks (<[i := set_context (Context.set_gprs
    (Context.set_rax v (Context.c_gprs (context (tasks k1 i)))) (context (tasks k1 i))) (tasks k1 i)]> (tasks k1)) k1).
Proof.
  intros Hi [H1 H2]. set (k2 := set_tasks _ k1).
  assert (∀ j, j ≠ i → tasks k2 j = tasks k1 j) as Ho by (intros j Hj; cbn; by rewrite fn_lookup_insert_ne).
  assert (tasks k2 i = set_context (Context.set_gprs (Context.set_rax v (Context.c_gprs (context (tasks k1 i))))
    (context (tasks k1 i))) (tasks k1 i)) as Ei by (cbn; by rewrite fn_lookup_insert).
  assert (∀ j, pml4 (tasks k2 j) = pml4 (tasks k1 j)) as Hp.
  { intros j. destruct (decide (j = i)) as [->|]; [by rewrite Ei|by rewrite Ho]. }
  assert (∀ j va, task_cell k2 j va = task_cell k1 j va) as Hc by (intros j va; unfold task_cell; by rewrite Hp).
  constructor; intros j Hj Hn; rewrite Hp.
  - destruct (H1 j Hj Hn) as [[A1 A2 A3 A4 A5 A6]|H]; [left|by right].
    destruct (decide (j = i)) as [->|Hne].
    + constructor; rewrite ?Hp, ?Ei; try done; [unfold rax_of; by rewrite Ei|intros va Hva; rewrite Hc; auto].
    + unfold rax_of in *. constructor; unfold rax_of; rewrite ?Ho by done; try done. intros va Hva. rewrite Hc. auto.
  - destruct (H2 j Hj Hn) as [?|[HN [F1 F2 F3]]]; [by left|right]. split; [done|].
    assert (j ≠ i) as Hne by congruence. constructor; rewrite ?Hp, ?Ho by done; try done. intros va Hva. rewrite Hc. auto.
Qed.

Lemma light_tasks k k' :
  phys (mm k') = phys (mm k) → bld (mm k') = bld (mm k) → (∀ j, tasks k' j = tasks k j) → light k k'.
Proof. intros H1 H2 H3. constructor; try done; intros; by rewrite H3. Qed.

Lemma resumable_idem c : resumable (resumable c) = resumable c.
Proof. unfold resumable, Context.set_rflags. cbn -[Z.lor]. by rewrite <- Z.lor_assoc, Z.lor_diag. Qed.

Lemma light_run k k' n :
  mm k' = mm k → tasks k' n = run_task (tasks k n) → (∀ j, j ≠ n → tasks k' j = tasks k j) → light k k'.
Proof.
  intros Em Hn Ho.
  assert (∀ j, tasks k' j = run_task (tasks k j) ∨ tasks k' j = tasks k j) as Hj.
  { intros j. destruct (decide (j = n)) as [->|]; auto. }
  constructor; [by rewrite Em|by rewrite Em|..]; intros j; destruct (Hj j) as [->| ->]; try done.
  apply (resumable_idem (context (tasks k j))).
Qed.

(** ** The root of a task *)

Lemma task_root_of k g tl j :
  kwf K k g tl → 0 ≤ j < TASK_MAX_CNT → pml4 (tasks k j) ≠ NULL →
  ∃ r, pml4 (tasks k j) = VADDR (bld (mm k)) (r * 4096) ∧ lab g r = Some (Lab r []) ∧ r ≠ K ∧
    PADDR (bld (mm k)) (pml4 (tasks k j)) / PAGE_SIZE = r.
Proof.
  intros Hk Hj Hn. destruct (kw_task _ _ _ _ Hk j Hj Hn) as (r & Hr & Hl & HrK). exists r.
  split; [done|]. split; [done|]. split; [done|]. pose proof (kw_wf _ _ _ _ Hk) as W.
  destruct (wf_lab _ _ _ W r _ Hl) as (Hrr & _).
  pose proof (PADDR_entry (mm k) r 0 (wf_build _ _ _ W) Hrr ltac:(lia)) as Ep. rewrite !Z.add_0_r in Ep.
  change PAGE_SIZE with 4096. rewrite Hr, Ep. by apply Z.div_mul.
Qed.

Lemma same_build k g tl k' g' tl' : kwf K k g tl → kwf K k' g' tl' → bld (mm k') = bld (mm k).
Proof. intros Hk Hk'. destruct (kw_build _ _ _ _ Hk') as [-> _], (kw_build _ _ _ _ Hk) as [-> _]. done. Qed.

(** An entry that shows the same memory. *)
Definition alike (e e' : Z) : Prop :=
  frame e' = frame e ∧ has_flag e' PTE_U = has_flag e PTE_U ∧
  has_flag e' PTE_W || has_flag e' PTE_COW = has_flag e PTE_W || has_flag e PTE_COW.

(** Memory behind corresponding entries: the pages of a task are neither tables nor free. *)
Lemma cell_same k g tl r r' va (fe : Z → Z) m' :
  kwf K k g tl → lab g r = Some (Lab r []) → r ≠ K → PML4_IDX va < KIDX →
  translate m' r' va = fe <$> translate (phys (mm k)) r va →
  (∀ e, translate (phys (mm k)) r va = Some e → alike e (fe e)) →
  (∀ x, lab g (x / 4096) = None → x / 4096 ∉ fl g → m' x = phys (mm k) x) →
  cell_of m' va <$> translate m' r' va = cell_of (phys (mm k)) va <$> translate (phys (mm k)) r va.
Proof.
  intros Hk Hr HrK Hva Ht Hf Hm. rewrite Ht. pose proof (kw_wf _ _ _ _ Hk) as W.
  destruct (translate (phys (mm k)) r va) as [e|] eqn:E; [|done]. cbn. destruct (Hf e eq_refl) as (H1 & H2 & H3).
  destruct (mapped_page K (mm k) g r r va e W) as (_ & _ & _ & _ & _ & _ & _ & Hn & Hl & _); [done|done|].
  unfold cell_of. rewrite H1, H2, H3. change PAGE_SIZE with 4096.
  assert ((frame e * 4096 + va mod 4096) / 4096 = frame e) as Ed by dlia. by rewrite Hm by (by rewrite Ed).
Qed.

Lemma alike_refl e : alike e e.
Proof. done. Qed.

(** The memory of task [j] in [k], seen by task [j'] after a change of the kernel state. *)
Lemma mem_same k g tl k' g' tl' j (fe : Z → Z) :
  kwf K k g tl → kwf K k' g' tl' → 0 ≤ j < TASK_MAX_CNT → pml4 (tasks k j) ≠ NULL →
  pml4 (tasks k' j) = pml4 (tasks k j) →
  (∀ r va, pml4 (tasks k j) = VADDR (bld (mm k)) (r * 4096) → lab g r = Some (Lab r []) → r ≠ K → PML4_IDX va < KIDX →
     translate (phys (mm k')) r va = translate (phys (mm k)) r va ∨
     translate (phys (mm k')) r va = fe <$> translate (phys (mm k)) r va ∧
     ∀ e, translate (phys (mm k)) r va = Some e → alike e (fe e)) →
  (∀ x, lab g (x / 4096) = None → x / 4096 ∉ fl g → phys (mm k') x = phys (mm k) x) →
  ∀ va, PML4_IDX va < KIDX → task_cell k' j va = task_cell k j va.
Proof.
  intros Hk Hk' Hj Hn Hp Ht Hm va Hva. destruct (task_root_of k g tl j Hk Hj Hn) as (r & Hr & Hl & HrK & Er).
  unfold task_cell. rewrite (same_build k g tl k' g' tl' Hk Hk'), Hp, Er.
  destruct (Ht r va Hr Hl HrK Hva) as [E|[E Hf]].
  - apply (cell_same k g tl r r va (λ e, e)); try done. by rewrite E, option_fmap_id.
  - by apply (cell_same k g tl r r va fe).
Qed.

(** ** Destroying a task *)

Lemma destroy_isolated k g tl i r k' g' i0 :
  kwf K k g tl → kwf K k' g' (i :: tl) → task_destroyed K k g tl i r k' g' →
  isolated (λ _, False) (λ j, j = i) (λ v, i ≠ i0 ∧ v = rax_of k i0) i0 k k'.
Proof.
  intros Hk Hk' TD. pose proof (td_other _ _ _ _ _ _ _ _ TD) as Ho. pose proof (td_mm _ _ _ _ _ _ _ _ TD) as D.
  constructor; intros j Hj Hn; cycle 1.
  { left. destruct (decide (j = i)) as [->|Hne]; [by rewrite (td_task _ _ _ _ _ _ _ _ TD)|by rewrite Ho]. }
  destruct (decide (j = i)) as [->|Hne].
  { right. split; [done|]. by rewrite (td_task _ _ _ _ _ _ _ _ TD). }
  left. pose proof (Ho j Hne) as Ht. constructor; unfold rax_of; rewrite ?Ht; try done; [by intros <-|].
  apply (mem_same k g tl k' g' (i :: tl) j (λ e, e)); try done; [by rewrite Ht| |].
  - intros r' va Hr' Hl' HrK' Hva. left. apply (de_tr _ _ _ _ _ _ D r' r'); [done|]. intros ->. destruct Hne.
    assert (0 ≤ i < TASK_MAX_CNT) as Hi by (by apply (kw_slots _ _ _ _ Hk' i); left).
    apply (kw_inj _ _ _ _ Hk); [done|done|done|]. by rewrite Hr', (td_pml4 _ _ _ _ _ _ _ _ TD).
  - intros x Hx _. by apply (de_mem _ _ _ _ _ _ D).
Qed.

(** ** Copy on write *)

(** The entry of the private copy. *)
Lemma copy_flags p e :
  0 ≤ p → p * 4096 < 2 ^ 63 → has_flag e PTE_COW = true →
  let v := p * 4096 + Z.lor (Z.lor (Z.land e PTE_FLAGS_MASK) PTE_W) PTE_P in
  frame v = p ∧ has_flag v PTE_U = has_flag e PTE_U ∧ has_flag v PTE_W || has_flag v PTE_COW = true.
Proof.
  intros Hp Hb Hc v. set (q := Z.land e PTE_FLAGS_MASK) in *. pose proof (perm_range e) as Hq. fold q in Hq.
  assert (0 ≤ Z.lor (Z.lor q PTE_W) PTE_P < 2 ^ 12) as Hr.
  { apply (lor_bound _ _ 12); [done| |done]. by apply (lor_bound _ _ 12). }
  split; [by apply frame_mk|]. split.
  - change (has_flag v (2 ^ 2) = has_flag e (2 ^ 2)). unfold v. rewrite mk_flag by done.
    rewrite <- (perm_flag e 2) by done. fold q. rewrite !has_flag_bit, !Z.lor_spec by done. by rewrite !orb_false_r.
  - assert (has_flag v (2 ^ 1) = true) as E; [|by change PTE_W with (2 ^ 1); rewrite E].
    unfold v. rewrite mk_flag, has_flag_bit, !Z.lor_spec by done. change (Z.testbit PTE_W 1) with true. by rewrite orb_true_r.
Qed.

Lemma cow_isolated k g tl i r va e p f k' g' :
  kwf K k g tl → 0 ≤ i < TASK_MAX_CNT → pml4 (tasks k i) = VADDR (bld (mm k)) (r * 4096) → p ∈ fl g →
  lab g r = Some (Lab r []) → PML4_IDX va < KIDX → translate (phys (mm k)) r va = Some e → has_flag e PTE_COW = true →
  cow_done K k g tl i r va e p f k' g' → isolated (λ _, False) (λ _, False) (eq (rax_of k i)) i k k'.
Proof.
  intros Hk Hi Hpr Hp Hr Hva He Hc D. pose proof (kw_wf _ _ _ _ Hk) as W.
  assert (∀ j, tasks k' j = run_task (tasks k j) ∨ tasks k' j = tasks k j) as Ht.
  { intros j. destruct (decide (j = i)) as [->|Hne]; [left; exact (cd_task _ _ _ _ _ _ _ _ _ _ _ _ D)|right; by apply (cd_tasks _ _ _ _ _ _ _ _ _ _ _ _ D)]. }
  assert (∀ j, pml4 (tasks k' j) = pml4 (tasks k j)) as Hpm by (intros j; by destruct (Ht j) as [->| ->]).
  constructor; intros j Hj Hn; left; [|by rewrite Hpm].
  assert (rax_of k' j = rax_of k j) as Hrax by (unfold rax_of; by destruct (Ht j) as [->| ->]).
  constructor; [done|by destruct (Ht j) as [->| ->]| |done|by intros ->|].
  { destruct (Ht j) as [->| ->]; [|done]. apply (resumable_idem (rax0 (context (tasks k j)))). }
  intros va' Hva'. destruct (task_root_of k g tl j Hk Hj Hn) as (rj & Hrj & Hlj & HjK & Ej).
  unfold task_cell. rewrite (same_build k g tl k' g' tl Hk (cd_kwf _ _ _ _ _ _ _ _ _ _ _ _ D)), Hpm, Ej.
  destruct (decide (rj = r ∧ full_path va' = full_path va)) as [[-> E]|Hne].
  - rewrite !(translate_full _ _ _ _ E), (cd_tr _ _ _ _ _ _ _ _ _ _ _ _ D), He. cbn. f_equal.
    destruct (proj2 (wf_alloc _ _ _ W) p Hp) as [H1 H2]. destruct (kw_build _ _ _ _ Hk) as [_ Hb].
    destruct (copy_flags p e H1 ltac:(lia) Hc) as (F1 & F2 & F3). unfold cell_of. rewrite F1, F2, F3, Hc, orb_true_r.
    change PAGE_SIZE with 4096. rewrite (cd_copy _ _ _ _ _ _ _ _ _ _ _ _ D); [done|dlia].
  - apply (cell_same k g tl rj rj va' (λ e, e)); try done; [|exact (cd_mem _ _ _ _ _ _ _ _ _ _ _ _ D)].
    rewrite (cd_other _ _ _ _ _ _ _ _ _ _ _ _ D rj rj va' Hlj) by (intros [? ?]; apply Hne; done).
    by rewrite option_fmap_id.
Qed.

(** ** Sharing pages *)

Lemma entry_fits k g tl r va e :
  kwf K k g tl → lab g r = Some (Lab r []) → r ≠ K → PML4_IDX va < KIDX →
  translate (phys (mm k)) r va = Some e → 0 ≤ e < 2 ^ 63.
Proof.
  intros Hk Hr HrK Hva Ht. pose proof (kw_wf _ _ _ _ Hk) as W.
  destruct (mapped_page K (mm k) g r r va e W) as (x & _ & He & _ & _ & _ & [H1 H2] & _); [done|done|].
  destruct (kw_build _ _ _ _ Hk) as [_ Hb]. pose proof (entry_range (phys (mm k)) x (PT_IDX va)) as R. rewrite He in R.
  rewrite frame_alt in H1, H2 by done. dlia.
Qed.

Lemma cow_alike k g tl r va e :
  kwf K k g tl → lab g r = Some (Lab r []) → r ≠ K → PML4_IDX va < KIDX →
  translate (phys (mm k)) r va = Some e → alike e (cow e).
Proof.
  intros Hk Hr HrK Hva Ht. destruct (cow_flags e (entry_fits k g tl r va e Hk Hr HrK Hva Ht)) as (H1 & _ & H3 & H4 & H5 & _).
  split; [done|]. split; [done|]. by rewrite H3, H5.
Qed.

(** The result of [sys_fork]: one new task, or none. *)
Lemma fork_isolated k g t tl' p i r ret k' g' fl' :
  kwf K k g (t :: tl') → fl g = p :: fl' → 0 ≤ i < TASK_MAX_CNT → pml4 (tasks k i) = VADDR (bld (mm k)) (r * 4096) →
  lab g r = Some (Lab r []) → r ≠ K → pml4 (tasks k i) ≠ NULL → fork_result K k g t tl' p i r ret k' g' →
  isolated (λ c, c = t ∧ ret = i32 (id (tasks k' t))) (λ _, False) (eq (rax_of k i)) i k k' ∧
  (ret = -1 ∧ pml4 (tasks k' t) = NULL ∨ pml4 (tasks k' t) ≠ NULL).
Proof.
  intros Hk Hfl Hi Hpr Hr HrK Hni ([F1 F2 F3] & _ & H). destruct (kw_slots _ _ _ _ Hk t) as [Ht0 Ht]; [by left|].
  assert (∃ tl'', kwf K k' g' tl'') as (tl'' & Hk') by (destruct H as [(_ & ? & _)|(_ & ? & _)]; eauto).
  pose proof (kw_wf _ _ _ _ Hk) as W.
  assert (pml4 (tasks k' t) = NULL ∧ ret = -1 ∨ (ret = i32 (id (tasks k' t)) ∧ forked i k k' t)) as Hnew.
  { destruct H as [(-> & _ & H2 & H3 & _)|(-> & Hk'' & _)].
    - right. rewrite H2. split; [done|].
      destruct (proj2 (wf_alloc _ _ _ W) p) as [? ?]; [rewrite Hfl; by left|].
      assert (pml4 (tasks k' t) ≠ NULL) as Hnn.
      { rewrite H2. cbn. rewrite (VADDR_kernel (mm k) p (kw_build _ _ _ _ Hk)) by done. unfold NULL, KERNEL_BASE. lia. }
      constructor; [done|by rewrite H2|].
      intros va Hva. destruct (task_root_of k g _ i Hk Hi Hni) as (ri & Hri & _ & _ & Ei).
      destruct (task_root_of k' g' tl'' t Hk' Ht0 Hnn) as (rt & Hrt & _ & _ & Et).
      assert (ri = r) as ->.
      { rewrite <- Ei, Hpr. destruct (wf_lab _ _ _ W r _ Hr) as (Hrr & _).
        pose proof (PADDR_entry (mm k) r 0 (wf_build _ _ _ W) Hrr ltac:(lia)) as Ep. rewrite !Z.add_0_r in Ep.
        change PAGE_SIZE with 4096. rewrite Ep. by apply Z.div_mul. }
      assert (rt = p) as ->.
      { rewrite <- Et, H2, (same_build k g _ k' g' tl'' Hk Hk'). cbn [pml4].
        pose proof (PADDR_entry (mm k) p 0 (wf_build _ _ _ W) ltac:(split; done) ltac:(lia)) as Ep. rewrite !Z.add_0_r in Ep.
        change PAGE_SIZE with 4096. rewrite Ep. by apply Z.div_mul. }
      unfold task_cell. rewrite Ei, Et. apply (cell_same k g (t :: tl') r p va cow); try done; [by apply H3|].
      intros e He. by apply (cow_alike k g (t :: tl') r va).
    - left. split; [|done]. by destruct (kw_slots _ _ _ _ Hk'' t) as [_ ?]; [left|]. }
  split; cycle 1.
  { destruct Hnew as [[? ?]|[_ Fo]]; [by left|right; by apply Fo]. }
  constructor; intros j Hj Hn; cycle 1.
  { destruct (decide (j = t)) as [->|Hne]; [destruct Hnew as [[? _]|[? ?]]; auto|left; by rewrite F3]. }
  left. assert (j ≠ t) as Hjt by congruence. pose proof (F3 j Hjt) as Hjk.
  constructor; unfold rax_of; rewrite ?Hjk; try done; [by intros ->|].
  apply (mem_same k g (t :: tl') k' g' tl'' j cow); try done; [by rewrite Hjk|].
  intros rj va Hrj Hlj HjK Hva. destruct (decide (rj = r)) as [->|Hne]; [|left; apply (F1 rj rj); auto].
  assert (∀ e, translate (phys (mm k)) r va = Some e → alike e (cow e)) as Hfr.
  { intros e He. by apply (cow_alike k g (t :: tl') r va). }
  destruct H as [(_ & _ & _ & H & _)|(_ & _ & _ & H & _)].
  - right. split; [by apply H|done].
  - destruct (H va Hva) as [->|E]; auto.
Qed.
End isolation.
