(* ===== verification/TrapProofs.v ===== *)
(** The invariant of the running system.

    [kinv] extends the invariant of the task table ([kwf]) by what the handlers
    rely on: the kernel's temporary page is unmapped, page 0 is never given
    out, kernel entries are neither user-accessible nor copy-on-write, and a
    page that some user entry maps writable is mapped by that entry only
    ([views_ok]).  [entered] is the state in which a handler runs on behalf of
    task [i], [running] the state in which task [i] runs in user mode.  Every
    handler leads from [entered] to [running] or stops for a stated reason. *)

From Stdlib Require Import String.
From S2P Require Import Prelude Memory Queue Mmu Console Map AllocProofs Walk MapWf.
From S2P Require Import LookupProofs InsertProofs KmapProofs Gdt Context Task SchedProofs.
From S2P Require Import DestroyProofs TaskProofs Syscall ForkProofs Interrupt FaultProofs.
From S2P Require Import IsolationProofs.
Import Mmu Map Task Syscall.

Section trap.
Context {T : Type} `{!Console T, !ConsoleLaws T} (K : Z).
Implicit Types (k : kstate T) (s : mstate T) (g : ghost) (tl : list Z) (m : mem).

(** ** Looking up any address *)

Lemma page_lookup_absent s root va :
  build_ok s → in_range s root → present (entry_at (phys s) root (PML4_IDX va)) = false →
  page_lookup (VADDR (bld s) (root * 4096)) va s = Ok (None, None, s).
Proof.
  intros Hb Hr P. unfold page_lookup, mmap_lookup, lookup_level, mbind, M_bind.
  rewrite kread_entry by (done || apply PML4_IDX_range).
  change (has_flag ?e PML4E_P) with (present e). rewrite P. done.
Qed.

Lemma page_lookup_any s g root va :
  wf K s g → lab g root = Some (Lab root []) →
  page_lookup (VADDR (bld s) (root * 4096)) va s =
  Ok (frame <$> translate (phys s) root va,
      (λ f, VADDR (bld s) (f * 4096) + 8 * PT_IDX va) <$> walk (entry_at (phys s)) root (table_path va), s).
Proof.
  intros W Hr. destruct (present (entry_at (phys s) root (PML4_IDX va))) eqn:P.
  - apply (page_lookup_ok K s g root root va W Hr). by right; right.
  - rewrite page_lookup_absent; [|apply W|apply (wf_lab _ _ _ W _ _ Hr)|done].
    unfold translate, leaf, table_path. cbn [walk]. by rewrite P.
Qed.

(** ** The user's view of memory *)

Definition user_root g (r : Z) : Prop := lab g r = Some (Lab r []) ∧ r ≠ K.

(** Task address space [r] maps [va] with entry [e]. *)
Definition uview m g (r va e : Z) : Prop :=
  user_root g r ∧ PML4_IDX va < KIDX ∧ translate m r va = Some e.

Record views_ok m g : Prop := {
  vo_pos r va e : uview m g r va e → 0 < frame e;
  vo_excl r va e r' va' e' : uview m g r va e → uview m g r' va' e' →
    has_flag e PTE_W = true → frame e' = frame e → r' = r ∧ full_path va' = full_path va;
}.

Lemma views_sub m g m' g' :
  views_ok m g → (∀ r va e, uview m' g' r va e → uview m g r va e) → views_ok m' g'.
Proof. intros [H1 H2] Hs. constructor; eauto. Qed.

(** The leaf entries of kernel addresses. *)
Definition kleaf_ok m : Prop := ∀ va x,
  KIDX ≤ PML4_IDX va → walk (entry_at m) K (table_path va) = Some x →
  has_flag (entry_at m x (PT_IDX va)) PTE_COW = false ∧ has_flag (entry_at m x (PT_IDX va)) PTE_U = false.

Definition kernel_same g m m' : Prop := ∀ x l i,
  lab g x = Some l → l_owner l = K → 0 ≤ i < 512 → entry_at m' x i = entry_at m x i.

Lemma kernel_walk s g va x :
  wf K s g → lab g K = Some (Lab K []) → walk (entry_at (phys s)) K (table_path va) = Some x →
  lab g x = Some (Lab K (table_path va)).
Proof.
  intros W HK Hw.
  pose proof (walk_label K s g K (Lab K []) (table_path va) x W HK ltac:(cbn; lia) (table_path_ok va) Hw) as H.
  rewrite H. f_equal. unfold table_path, descend, child. cbn. repeat case_match; done.
Qed.

Lemma kleaf_same s g m' :
  wf K s g → lab g K = Some (Lab K []) → kernel_same g (phys s) m' → kleaf_ok (phys s) → kleaf_ok m'.
Proof.
  intros W HK Hs Hok va x Hva Hw.
  rewrite (walk_kern K s g m' K (Lab K [])) in Hw; [|done|exact Hs|done|done|cbn; lia|apply table_path_ok].
  rewrite (Hs x _ _ (kernel_walk s g va x W HK Hw) eq_refl (PT_IDX_range va)). by apply Hok.
Qed.

(** ** The invariant *)

Definition alive k : Prop := ∀ i, 0 ≤ i < TASK_MAX_CNT →
  state (tasks k i) = TASK_STATE_READY ∨ state (tasks k i) = TASK_STATE_RUN → pml4 (tasks k i) ≠ NULL.

Record kinv k g tl (f : Z) : Prop := {
  ki_kwf : kwf K k g tl;
  ki_temp : temp_at K (mm k) g f 0;
  ki_fit : refs_fit (mm k) g;
  ki_zero : 0 < pins g 0;
  ki_views : views_ok (phys (mm k)) g;
  ki_kern : kleaf_ok (phys (mm k));
  ki_next : 0 ≤ next_task_idx k ≤ TASK_MAX_CNT;
  ki_alive : alive k;
}.

(** How the invariant is carried over a step of the kernel. *)
Lemma kinv_step k g tl f k' g' tl' :
  kinv k g tl f → kwf K k' g' tl' → pages_cnt (mm k') = pages_cnt (mm k) → (∀ d, pins g' d = pins g d) →
  (∀ x l, lab g x = Some l → l_owner l = K → lab g' x = Some l) → kernel_same g (phys (mm k)) (phys (mm k')) →
  views_ok (phys (mm k')) g' → 0 ≤ next_task_idx k' ≤ TASK_MAX_CNT → alive k' → kinv k' g' tl' f.
Proof.
  intros [I1 I2 I3 I4 I5 I6 I7 I8] Hk Hc Hp Hl Hs Hv Hn Ha.
  pose proof (kw_wf _ _ _ _ I1) as W. pose proof (kw_K _ _ _ _ I1) as HK.
  constructor; [done| | | |done| |done|done].
  - apply (temp_at_kern K (mm k) g); try done. intros x o Hx. exists K. split; [done|].
    pose proof (PML4_IDX_range KERNEL_TEMP) as R. rewrite (kw_shared _ _ _ _ Hk x o); [|done|].
    + by apply (Hs K (Lab K [])).
    + split; [vm_compute; discriminate|apply R].
  - intros d. rewrite Hc, Hp. apply I3.
  - by rewrite Hp.
  - by apply (kleaf_same (mm k) g).
Qed.

(** ** Console output and changes of the task table *)

Lemma kinv_con k g tl f c : con_ok c → kinv k g tl f → kinv (set_mm (set_con c (mm k)) k) g tl f.
Proof.
  intros Hc I. apply (kinv_step k g tl f); try done; try apply I.
  apply (kwf_mm K k g tl); try done; [apply I|]. apply wf_con_any; [done|]. apply I.
Qed.

Lemma kinv_upd k g tl f i fn :
  (∀ t, pml4 (fn t) = pml4 t) →
  (state (fn (tasks k i)) = TASK_STATE_READY ∨ state (fn (tasks k i)) = TASK_STATE_RUN → pml4 (tasks k i) ≠ NULL) →
  kinv k g tl f → kinv (set_tasks (<[i := fn (tasks k i)]> (tasks k)) k) g tl f.
Proof.
  intros Hp Ha I. apply (kinv_step k g tl f); try done; try apply I.
  - apply kwf_upd; [apply I|done].
  - intros j Hj. cbn [tasks set_tasks]. rewrite fn_insert_dec. destruct (decide (i = j)) as [<-|].
    + rewrite Hp. exact Ha.
    + by apply (ki_alive _ _ _ _ I).
Qed.

Record running k g tl (f i : Z) : Prop := {
  ru_inv : kinv k g tl f;
  ru_slot : 0 ≤ i < TASK_MAX_CNT;
  ru_cpu : cpu_task k = Some (TSlot i);
  ru_run : state (tasks k i) = TASK_STATE_RUN;
  ru_only j : 0 ≤ j < TASK_MAX_CNT → j ≠ i → state (tasks k j) ≠ TASK_STATE_RUN;
  ru_cr3 : cr3 k = PADDR (bld (mm k)) (pml4 (tasks k i));
}.

Record entered k g tl (f i : Z) : Prop := {
  en_inv : kinv k g tl f;
  en_slot : 0 ≤ i < TASK_MAX_CNT;
  en_cpu : cpu_task k = Some (TSlot i);
  en_ready : state (tasks k i) = TASK_STATE_READY;
  en_norun : no_run k;
  en_cr3 : cr3 k = PADDR (bld (mm k)) (pml4 (tasks k i));
}.

Lemma entered_con k g tl f i c : con_ok c → entered k g tl f i → entered (set_mm (set_con c (mm k)) k) g tl f i.
Proof. intros Hc [H1 H2 H3 H4 H5 H6]. constructor; try done. by apply kinv_con. Qed.

Lemma entered_conok k g tl f i : entered k g tl f i → con_ok (con (mm k)).
Proof. intros E. apply (wf_con _ _ _ (kw_wf _ _ _ _ (ki_kwf _ _ _ _ (en_inv _ _ _ _ _ E)))). Qed.

Lemma entered_printf k g tl f i fmt ap (Q : () → kstate T → Prop) :
  fmt_ok fmt ap = true → entered k g tl f i →
  (∀ c, con_ok c → let k' := set_mm (set_con c (mm k)) k in entered k' g tl f i → Q () k') →
  wp (kprintf fmt ap) Q k.
Proof.
  intros Hf E HQ. apply wp_kprintf; [done|exact (entered_conok k g tl f i E)|]. intros c Hc.
  apply HQ; [done|]. by apply entered_con.
Qed.

(** The current task's address space. *)
Lemma current_root k g tl f i :
  kinv k g tl f → 0 ≤ i < TASK_MAX_CNT →
  state (tasks k i) = TASK_STATE_READY ∨ state (tasks k i) = TASK_STATE_RUN →
  cr3 k = PADDR (bld (mm k)) (pml4 (tasks k i)) → pml4 (tasks k i) ≠ NULL ∧
  ∃ r, pml4 (tasks k i) = VADDR (bld (mm k)) (r * 4096) ∧ user_root g r ∧ cr3 k = r * 4096.
Proof.
  intros I Hi Hs Hcr. pose proof (ki_kwf _ _ _ _ I) as Hk. pose proof (ki_alive _ _ _ _ I i Hi Hs) as Hn.
  split; [done|]. destruct (kw_task _ _ _ _ Hk i Hi Hn) as (r & Hr & Hl & HrK).
  exists r. split; [done|]. split; [done|]. pose proof (kw_wf _ _ _ _ Hk) as W.
  destruct (wf_lab _ _ _ W r _ Hl) as (Hrr & _).
  pose proof (PADDR_entry (mm k) r 0 (wf_build _ _ _ W) Hrr ltac:(lia)) as Ep. rewrite !Z.add_0_r in Ep.
  by rewrite Hcr, Hr.
Qed.

Lemma entered_root k g tl f i :
  entered k g tl f i → pml4 (tasks k i) ≠ NULL ∧
  ∃ r, pml4 (tasks k i) = VADDR (bld (mm k)) (r * 4096) ∧ user_root g r ∧ cr3 k = r * 4096.
Proof.
  intros E. apply (current_root k g tl f i); [exact (en_inv _ _ _ _ _ E)|exact (en_slot _ _ _ _ _ E)| |exact (en_cr3 _ _ _ _ _ E)].
  left. exact (en_ready _ _ _ _ _ E).
Qed.

Lemma running_root k g tl f i :
  running k g tl f i → pml4 (tasks k i) ≠ NULL ∧
  ∃ r, pml4 (tasks k i) = VADDR (bld (mm k)) (r * 4096) ∧ user_root g r ∧ cr3 k = r * 4096.
Proof.
  intros R. apply (current_root k g tl f i); [exact (ru_inv _ _ _ _ _ R)|exact (ru_slot _ _ _ _ _ R)| |exact (ru_cr3 _ _ _ _ _ R)].
  right. exact (ru_run _ _ _ _ _ R).
Qed.

(** A change of the current task's registers. *)
Lemma entered_context k g tl f i (fn : task → task) :
  (∀ t, pml4 (fn t) = pml4 t) → (∀ t, state (fn t) = state t) → entered k g tl f i →
  entered (set_tasks (<[i := fn (tasks k i)]> (tasks k)) k) g tl f i.
Proof.
  intros Hp Hs E. pose proof (proj1 (entered_root k g tl f i E)) as Hn. destruct E as [H1 H2 H3 H4 H5 H6].
  constructor; cbn [tasks set_tasks cpu_task cr3 mm]; try done.
  - by apply kinv_upd.
  - by rewrite fn_lookup_insert, Hs.
  - intros j Hj. cbn [tasks set_tasks]. rewrite fn_insert_dec. destruct (decide (i = j)) as [<-|]; [rewrite Hs|]; auto.
  - by rewrite fn_lookup_insert, Hp.
Qed.

(** ** Leaving the kernel *)

(** The handler ended: some task runs, and memory and registers are those of
    [k0]. *)
Definition switched k0 (f : Z) (t : tptr) k : Prop :=
  (∃ i g tl, t = TSlot i ∧ running k g tl f i) ∧ light k0 k ∧ mm k = mm k0.

(** The handler ended: some task runs, and since [k0] no task was disturbed
    but those of [D], which may have been destroyed; the tasks of [N] may be new. *)
Definition resumed k0 (N D V : Z → Prop) (i0 f : Z) (t : tptr) k : Prop :=
  (∃ i g tl, t = TSlot i ∧ running k g tl f i) ∧ isolated N D V i0 k0 k.

Abbreviation nobody := (λ _ : Z, False).

Lemma resumed_before k0 k1 N D V i0 f t k : light k0 k1 → resumed k1 N D V i0 f t k → resumed k0 N D V i0 f t k.
Proof. intros L [R HI]. split; [done|]. by eapply isolated_before. Qed.

Lemma resumed_after k0 k1 N D V i0 f t k : isolated N D V i0 k0 k1 → switched k1 f t k → resumed k0 N D V i0 f t k.
Proof. intros HI [R [L _]]. split; [done|]. by eapply isolated_after. Qed.

Lemma switched_resumed k N D i0 f t k' : switched k f t k' → resumed k N D (eq (rax_of k i0)) i0 f t k'.
Proof. intros [R [L _]]. split; [done|]. by apply isolated_light. Qed.

Lemma kwf_tasks k g tl k' :
  kwf K k g tl → mm k' = mm k → (∀ j, pml4 (tasks k' j) = pml4 (tasks k j)) →
  free_tasks k' = free_tasks k → config_pml4 k' = config_pml4 k → kwf K k' g tl.
Proof.
  intros [H1 H2 H3 H4 H5 H6 H7 H8 H9 H10] Em Ep Ef Ec.
  constructor; rewrite ?Em, ?Ef, ?Ec; try done.
  - intros i Hi. rewrite Ep. auto.
  - intros i. rewrite Ep. auto.
  - intros i j. rewrite !Ep. auto.
Qed.

Lemma run_task_pml4 (ts ts' : Z → task) i :
  ts' i = run_task (ts i) → (∀ j, j ≠ i → ts' j = ts j) → ∀ j, pml4 (ts' j) = pml4 (ts j).
Proof. intros Hi Hj j. destruct (decide (j = i)) as [->|]; [by rewrite Hi|by rewrite Hj]. Qed.

(** From a state without running task to one that runs [i]. *)
Lemma run_ok k g tl f i k' :
  kinv k g tl f → no_run k → 0 ≤ i < TASK_MAX_CNT → pml4 (tasks k i) ≠ NULL →
  mm k' = mm k → tasks k' i = run_task (tasks k i) → (∀ j, j ≠ i → tasks k' j = tasks k j) →
  free_tasks k' = free_tasks k → config_pml4 k' = config_pml4 k → 0 ≤ next_task_idx k' ≤ TASK_MAX_CNT →
  cpu_task k' = Some (TSlot i) → cr3 k' = PADDR (bld (mm k)) (pml4 (tasks k i)) → running k' g tl f i.
Proof.
  intros I Hnr Hi Hn Em Hti Htj Ef Ec Hx Hcpu Hcr. pose proof (run_task_pml4 _ _ i Hti Htj) as Hp.
  constructor; try done.
  - apply (kinv_step k g tl f); rewrite ?Em; try done; try apply I.
    + apply (kwf_tasks k); try done. apply I.
    + intros j Hj Hs. rewrite Hp. destruct (decide (j = i)) as [->|Hne]; [done|]. rewrite Htj in Hs by done.
      by apply (ki_alive _ _ _ _ I).
  - by rewrite Hti.
  - intros j Hj Hne. rewrite Htj by done. by apply Hnr.
  - by rewrite Hcr, Em, Hp.
Qed.

Lemma schedule_out k g tl f :
  kinv k g tl f → no_run k →
  wpe schedule (switched k f) (λ e, e = EPanic ∧ ∀ j, 0 ≤ j < TASK_MAX_CNT → ¬ ready (tasks k j)) k.
Proof.
  intros I Hnr. pose proof (ki_next _ _ _ _ I) as Hx. pose proof (schedule_ok k (conj Hx Hnr)) as Hs.
  unfold wpe. destruct (next_ready (tasks k) (next_task_idx k)) as [i|] eqn:N.
  - destruct Hs as (k' & -> & [S1 S2 S3 S4 S5 S6 S7 S8 S9 S10 S11]).
    destruct (next_ready_first _ _ _ Hx N) as (Hi & Hr & _). split; [|split; [by apply (light_run k k' i)|done]].
    exists i, g, tl. split; [done|]. apply (run_ok k); try done.
    + apply (ki_alive _ _ _ _ I); [done|by left].
    + unfold TASK_MAX_CNT in *. lia.
  - rewrite Hs. split; [done|]. intros j Hj Hr.
    destruct (next_ready_some (tasks k) (next_task_idx k) j Hx Hj Hr). congruence.
Qed.

(** With the current task READY a next task is always found. *)
Lemma schedule_entered k g tl f i (E : err → Prop) : entered k g tl f i → wpe schedule (switched k f) E k.
Proof.
  intros En. eapply wpe_mono; [apply (schedule_out k g tl f); apply En|done|].
  intros e [_ H]. destruct (H i (en_slot _ _ _ _ _ En) (en_ready _ _ _ _ _ En)).
Qed.

Lemma task_run_entered k g tl f i : entered k g tl f i → wp (task_run (TSlot i)) (switched k f) k.
Proof.
  intros E. destruct (entered_root k g tl f i E) as (Hn & _). destruct E as [H1 H2 H3 H4 H5 H6].
  destruct (task_run_ok i k H2) as (ts & Hrun & Hi & Hj). eapply wp_eq; [exact Hrun|].
  split; [|split; [by apply (light_run k _ i)|done]]. exists i, g, tl. split; [done|]. apply (run_ok k); try done. apply H1.
Qed.

(** ** Destroying a task *)

Lemma destroy_kinv k g tl f i :
  kinv k g tl f → 0 ≤ i < TASK_MAX_CNT → pml4 (tasks k i) ≠ NULL →
  ∃ k' g' r, task_destroy (TSlot i) k = Ok ((), k') ∧ task_destroyed K k g tl i r k' g' ∧ kinv k' g' (i :: tl) f.
Proof.
  intros I Hi Hn. pose proof (ki_kwf _ _ _ _ I) as Hk.
  destruct (task_destroy_ok K k g tl i Hk Hi Hn) as (k' & g' & r & Hrun & TD). exists k', g', r.
  split; [done|]. split; [done|]. pose proof (td_mm _ _ _ _ _ _ _ _ TD) as D.
  pose proof (td_kernel _ _ _ _ _ _ _ _ TD) as HrK. apply (kinv_step k g tl f); try done.
  - by eapply task_destroyed_kwf.
  - exact (de_cnt _ _ _ _ _ _ D).
  - by rewrite (de_pins _ _ _ _ _ _ D).
  - intros x l Hx Ho. apply (de_keep _ _ _ _ _ _ D); [done|congruence].
  - intros x l j Hx Ho Hj. apply (de_ent _ _ _ _ _ _ D x l); [done|congruence|done].
  - apply (views_sub _ _ _ _ (ki_views _ _ _ _ I)). intros x va e ([Hx HxK] & Hva & Ht).
    destruct (de_sub _ _ _ _ _ _ D x _ Hx) as [Hx' Ho]. split; [done|]. split; [done|].
    rewrite <- Ht. symmetry. by apply (de_tr _ _ _ _ _ _ D x x).
  - rewrite (td_next _ _ _ _ _ _ _ _ TD). exact (ki_next _ _ _ _ I).
  - intros j Hj. destruct (decide (j = i)) as [->|Hne].
    + rewrite (td_task _ _ _ _ _ _ _ _ TD). by intros [?|?].
    + rewrite (td_other _ _ _ _ _ _ _ _ TD) by done. by apply (ki_alive _ _ _ _ I).
Qed.

(** No other task can run. *)
Definition last_task k (i : Z) : Prop := ∀ j, 0 ≤ j < TASK_MAX_CNT → j ≠ i → ¬ ready (tasks k j).

Lemma kill_entered k g tl f i :
  entered k g tl f i → wpe (task_destroy (TSlot i) ;; schedule) (resumed k nobody (λ j, j = i) nobody i f) (λ e, e = EPanic ∧ last_task k i) k.
Proof.
  intros E. destruct (entered_root k g tl f i E) as (Hn & _).
  destruct (destroy_kinv k g tl f i) as (k' & g' & r & Hrun & TD & I); [apply E|exact (en_slot _ _ _ _ _ E)|done|].
  apply wpe_step. eapply wp_eq; [exact Hrun|]. pose proof (td_other _ _ _ _ _ _ _ _ TD) as Ho.
  assert (isolated nobody (λ j, j = i) nobody i k k') as HI.
  { eapply isolated_mono; [| | |exact (destroy_isolated K k g tl i r k' g' i (ki_kwf _ _ _ _ (en_inv _ _ _ _ _ E)) (ki_kwf _ _ _ _ I) TD)];
      [done|done|]. by intros v [? _]. }
  eapply wpe_mono; [apply (schedule_out k' g' (i :: tl) f I)|intros t k2; by apply resumed_after|].
  - intros j Hj. destruct (decide (j = i)) as [->|Hne]; [by rewrite (td_task _ _ _ _ _ _ _ _ TD)|].
    rewrite Ho by done. by apply (en_norun _ _ _ _ _ E).
  - intros e [-> H]. split; [done|]. intros j Hj Hne. rewrite <- Ho by done. auto.
Qed.

(** ** Output *)

(** Only the console changed. *)
Definition quiet k k' : Prop := ∃ c, con_ok c ∧ k' = set_mm (set_con c (mm k)) k.

Lemma quiet_refl k : con_ok (con (mm k)) → quiet k k.
Proof. intros H. exists (con (mm k)). split; [done|]. by destruct k as [[] ? ? ? ? ? ? ? ? ?]. Qed.

Lemma quiet_trans k1 k2 k3 : quiet k1 k2 → quiet k2 k3 → quiet k1 k3.
Proof. intros (c & _ & ->) (c' & Hc & ->). by exists c'. Qed.

Lemma quiet_conok k k' : quiet k k' → con_ok (con (mm k')).
Proof. by intros (c & Hc & ->). Qed.

Lemma quiet_entered k k' g tl f i : quiet k k' → entered k g tl f i → entered k' g tl f i.
Proof. intros (c & Hc & ->). by apply entered_con. Qed.

Lemma quiet_light k k' : quiet k k' → light k k'.
Proof. intros (c & _ & ->). by apply light_tasks. Qed.

Lemma quiet_tasks k k' : quiet k k' → tasks k' = tasks k.
Proof. by intros (c & _ & ->). Qed.

Lemma wp_quiet fmt ap k0 k : fmt_ok fmt ap = true → quiet k0 k → wp (kprintf fmt ap) (λ _, quiet k0) k.
Proof.
  intros Hf Hq. apply wp_kprintf; [done|by eapply quiet_conok|]. intros c Hc. eapply quiet_trans; [exact Hq|]. by exists c.
Qed.

Lemma print_if (b : bool) fmt ap k :
  fmt_ok fmt ap = true → con_ok (con (mm k)) →
  wp (if b then kprintf fmt ap else mret ()) (λ _, quiet k) k.
Proof.
  intros Hf Hc. pose proof (quiet_refl k Hc). destruct b; [by apply wp_quiet|by apply wp_ret].
Qed.

(** An optional message before the rest. *)
Lemma wpe_print {A} (b : bool) fmt ap (rest : M (kstate T) A) Q E k0 k :
  fmt_ok fmt ap = true → quiet k0 k → (∀ k', quiet k0 k' → wpe rest Q E k') →
  wpe ((if b then kprintf fmt ap else mret ()) ;; rest) Q E k.
Proof.
  intros Hf Hq Hr. apply wpe_step. eapply wp_mono; [apply print_if; [done|by eapply quiet_conok]|].
  intros [] k' Hq'. apply Hr. by eapply quiet_trans.
Qed.

(** ** Page faults *)

(** The address of an entry of some table. *)
Definition pte_at k (a : Z) : Prop :=
  ∃ x j, a = VADDR (bld (mm k)) (x * 4096) + 8 * j ∧ in_range (mm k) x ∧ 0 ≤ j < 512.

Lemma fault_fail_out k g tl f i va pte :
  entered k g tl f i → (∀ a, pte = Some a → pte_at k a) →
  wpe (Interrupt.page_fault_fail (TSlot i) va pte) (resumed k nobody (λ j, j = i) nobody i f) (λ e, e = EPanic ∧ last_task k i) k.
Proof.
  intros E Hpte. unfold Interrupt.page_fault_fail.
  apply wpe_step. eapply wp_eq; [apply get_slot_ok; exact (en_slot _ _ _ _ _ E)|].
  pose proof (quiet_refl k (entered_conok k g tl f i E)) as Q0.
  assert (∀ k1, quiet k k1 → wpe (task_destroy (TSlot i) ;; schedule) (resumed k nobody (λ j, j = i) nobody i f) (λ e, e = EPanic ∧ last_task k i) k1) as Hend.
  { intros k1 Hq. eapply wpe_mono; [apply (kill_entered k1 g tl f i); by eapply quiet_entered|intros t k2; by apply resumed_before, quiet_light|].
    intros e [-> H]. split; [done|]. unfold last_task in *. by rewrite <- (quiet_tasks _ _ Hq). }
  apply (wpe_print true _ _ _ _ _ k); [by destruct (has_flag _ _), (has_flag _ _)|done|]. intros k1 Q1.
  apply wpe_step. eapply (wp_mono _ (λ _, quiet k)).
  { destruct pte as [a|]; [|by apply wp_ret]. destruct (Hpte a eq_refl) as (x & j & -> & Hx & Hj).
    destruct Q1 as (c & Hc & ->). apply wp_bind. eapply wp_eq.
    { apply liftm_ok, (kread_entry (set_con c (mm k)) x j); [|done|done].
      apply (wf_build _ _ _ (kw_wf _ _ _ _ (ki_kwf _ _ _ _ (en_inv _ _ _ _ _ E)))). }
    eapply wp_mono; [apply print_if; [reflexivity|done]|]. intros [] k2 Hq. eapply quiet_trans; [|exact Hq]. by exists c. }
  intros [] k2 Q2. do 3 (eapply (wpe_print _ _ _ _ _ _ k); [reflexivity|eassumption|]; intros).
  by apply Hend.
Qed.

Lemma pte_walk k g root va x :
  wf K (mm k) g → lab g root = Some (Lab root []) → walk (entry_at (phys (mm k))) root (table_path va) = Some x →
  in_range (mm k) x ∧ lab g x = Some (descend K (Lab root []) (table_path va)).
Proof.
  intros W Hr Hw.
  pose proof (walk_label K (mm k) g root (Lab root []) (table_path va) x W Hr ltac:(cbn; lia) (table_path_ok va) Hw) as H.
  split; [|done]. apply (wf_lab _ _ _ W x _ H).
Qed.

(** A copy-on-write entry is a present entry of a user page. *)
Lemma cow_is_user k g tl f root va x :
  kinv k g tl f → user_root g root → walk (entry_at (phys (mm k))) root (table_path va) = Some x →
  has_flag (entry_at (phys (mm k)) x (PT_IDX va)) PTE_COW = true →
  PML4_IDX va < KIDX ∧ translate (phys (mm k)) root va = Some (entry_at (phys (mm k)) x (PT_IDX va)).
Proof.
  intros I [Hr HrK] Hw Hc. pose proof (ki_kwf _ _ _ _ I) as Hk. pose proof (kw_wf _ _ _ _ Hk) as W.
  destruct (pte_walk k g root va x W Hr Hw) as [Hx Hl].
  destruct (Z.lt_ge_cases (PML4_IDX va) KIDX) as [Hva|Hva].
  - split; [done|]. unfold translate, leaf. rewrite Hw. cbn [mbind option_bind].
    assert (uleaf K g x = true) as Hu.
    { apply (uleaf_intro K g x _ Hl); [by rewrite descend_path|]. unfold table_path. by rewrite descend_user. }
    pose proof (wf_leaf _ _ _ W x (PT_IDX va) Hu (PT_IDX_range va)) as H. destruct (present _); [done|].
    rewrite H in Hc. done.
  - exfalso. destruct (ki_kern _ _ _ _ I va x Hva) as [H _]; [|congruence].
    rewrite <- Hw. unfold table_path. cbn [walk].
    rewrite (kw_shared _ _ _ _ Hk root root); [done|done|]. split; [done|apply PML4_IDX_range].
Qed.

(** The write permission of a copied page is exclusive: the page was free. *)
Lemma cow_views k g tl f i r va e p k' g' :
  kinv k g tl f → user_root g r → PML4_IDX va < KIDX → p ∈ fl g → 0 < p →
  cow_done K k g tl i r va e p f k' g' → views_ok (phys (mm k')) g'.
Proof.
  intros I [Hr HrK] Hva Hp Hp0 D. pose proof (kw_wf _ _ _ _ (ki_kwf _ _ _ _ I)) as W.
  destruct (ki_views _ _ _ _ I) as [V1 V2]. set (v := p * 4096 + Z.lor (Z.lor (Z.land e PTE_FLAGS_MASK) PTE_W) PTE_P).
  assert (in_range (mm k) p) as Hpr by (by apply (wf_alloc _ _ _ W)).
  assert (frame v = p) as Hfv.
  { destruct Hpr as [H1 H2]. destruct (kw_build _ _ _ _ (ki_kwf _ _ _ _ I)) as [_ Hb]. apply frame_mk; [lia|lia|].
    apply (lor_bound _ _ 12); [done| |done]. apply (lor_bound _ _ 12); [done|apply perm_range|done]. }
  assert (∀ x va' e', uview (phys (mm k')) g' x va' e' →
    same_page r va x va' ∧ e' = v ∨ uview (phys (mm k)) g x va' e' ∧ frame e' ≠ p) as Hold.
  { intros x va' e' ([Hx HxK] & Hva' & Ht). pose proof (cd_roots _ _ _ _ _ _ _ _ _ _ _ _ D x x Hx) as Hx0.
    destruct (decide (x = r ∧ full_path va' = full_path va)) as [[-> E]|Hne].
    - left. rewrite (translate_full _ _ _ _ E), (cd_tr _ _ _ _ _ _ _ _ _ _ _ _ D) in Ht. split; [done|]. by injection Ht as <-.
    - right. rewrite (cd_other _ _ _ _ _ _ _ _ _ _ _ _ D x x va' Hx0) in Ht by (intros [? ?]; apply Hne; done).
      split; [done|]. destruct (mapped_page K (mm k) g x x va' e' W) as (_ & _ & _ & _ & _ & _ & _ & Hn & _); [done|done|].
      intros E. by rewrite E in Hn. }
  constructor.
  - intros x va' e' [[_ ->]|[H _]]%Hold; [by rewrite Hfv|by eapply V1].
  - intros x va1 e1 x' va2 e2 [[[<- E1] ->]|[H1 N1]]%Hold [[[<- E2] ->]|[H2 N2]]%Hold; intros Hw Hf.
    + by rewrite <- E1, <- E2.
    + by rewrite Hf, Hfv in N2.
    + by rewrite <- Hf, Hfv in N1.
    + by apply (V2 x va1 e1 x' va2 e2).
Qed.

Lemma cow_running k g tl f i r va e p k' g' :
  entered k g tl f i → pml4 (tasks k i) = VADDR (bld (mm k)) (r * 4096) → user_root g r → PML4_IDX va < KIDX → p ∈ fl g → 0 < p →
  cow_done K k g tl i r va e p f k' g' → running k' g' tl f i.
Proof.
  intros E Hpr Hr Hva Hp Hp0 D. pose proof (en_inv _ _ _ _ _ E) as I. destruct (entered_root k g tl f i E) as (Hn & _).
  pose proof (run_task_pml4 _ _ i (cd_task _ _ _ _ _ _ _ _ _ _ _ _ D) (cd_tasks _ _ _ _ _ _ _ _ _ _ _ _ D)) as Hpm.
  assert (bld (mm k') = bld (mm k)) as Hb.
  { destruct (kw_build _ _ _ _ (cd_kwf _ _ _ _ _ _ _ _ _ _ _ _ D)) as [-> _], (kw_build _ _ _ _ (ki_kwf _ _ _ _ I)) as [-> _]. done. }
  constructor.
  - assert (kwf K k' g' tl) as Hk' by exact (cd_kwf _ _ _ _ _ _ _ _ _ _ _ _ D).
    constructor; [done|exact (cd_temp _ _ _ _ _ _ _ _ _ _ _ _ D)| | | | | |].
    + intros d. rewrite (cd_cnt _ _ _ _ _ _ _ _ _ _ _ _ D), (cd_pins _ _ _ _ _ _ _ _ _ _ _ _ D). apply (ki_fit _ _ _ _ I).
    + rewrite (cd_pins _ _ _ _ _ _ _ _ _ _ _ _ D). apply (ki_zero _ _ _ _ I).
    + by eapply cow_views.
    + eapply (kleaf_same (mm k) g); [apply I|apply I|exact (cd_kern _ _ _ _ _ _ _ _ _ _ _ _ D)|apply I].
    + rewrite (cd_next _ _ _ _ _ _ _ _ _ _ _ _ D). exact (ki_next _ _ _ _ I).
    + intros j Hj Hs. rewrite Hpm. destruct (decide (j = i)) as [->|Hne]; [done|].
      rewrite (cd_tasks _ _ _ _ _ _ _ _ _ _ _ _ D) in Hs by done. by apply (ki_alive _ _ _ _ I).
  - exact (en_slot _ _ _ _ _ E).
  - rewrite (cd_cpu _ _ _ _ _ _ _ _ _ _ _ _ D). exact (en_cpu _ _ _ _ _ E).
  - by rewrite (cd_task _ _ _ _ _ _ _ _ _ _ _ _ D).
  - intros j Hj Hne. rewrite (cd_tasks _ _ _ _ _ _ _ _ _ _ _ _ D) by done. by apply (en_norun _ _ _ _ _ E).
  - rewrite (cd_cr3 _ _ _ _ _ _ _ _ _ _ _ _ D), Hb, Hpm. exact (en_cr3 _ _ _ _ _ E).
Qed.

(** Free pages are not page 0. *)
Lemma free_pos k g tl f p : kinv k g tl f → p ∈ fl g → 0 < p.
Proof.
  intros I Hp. pose proof (kw_wf _ _ _ _ (ki_kwf _ _ _ _ I)) as W. destruct (wf_free _ _ _ W p Hp) as [_ H0].
  destruct (proj2 (wf_alloc _ _ _ W) p Hp) as [H1 _]. pose proof (ki_zero _ _ _ _ I).
  destruct (decide (p = 0)) as [->|]; lia.
Qed.

(** The result of a page fault at [va]: a copy-on-write page was copied, or
    the task is gone. *)
Definition fault_result k (i va : Z) k' : Prop :=
  isolated nobody nobody (eq (rax_of k i)) i k k' ∧
    has_flag (Context.error_code (context (tasks k i))) Interrupt.PAGE_FAULT_ERROR_CODE_R_W = true ∧
    PML4_IDX va < KIDX ∧ (∃ e, translate (phys (mm k)) (cr3 k / PAGE_SIZE) va = Some e ∧ has_flag e PTE_COW = true) ∨
  isolated nobody (λ j, j = i) nobody i k k'.

Definition faulted k (i va f : Z) (t : tptr) k' : Prop :=
  (∃ i g tl, t = TSlot i ∧ running k' g tl f i) ∧ fault_result k i va k'.

Lemma faulted_killed k0 k i va f t k' : light k0 k → resumed k nobody (λ j, j = i) nobody i f t k' → faulted k0 i va f t k'.
Proof. intros L [H1 H2]. split; [done|]. right. by eapply isolated_before. Qed.

Lemma page_fault_out k g tl f i va :
  entered k g tl f i → 0 ≤ va < 2 ^ 64 →
  wpe (Interrupt.page_fault_handler (TSlot i) va) (faulted k i va f) (λ e, e = EPanic ∧ last_task k i) k.
Proof.
  intros E Hva. pose proof (en_inv _ _ _ _ _ E) as I. pose proof (ki_kwf _ _ _ _ I) as Hk. pose proof (kw_wf _ _ _ _ Hk) as W.
  destruct (entered_root k g tl f i E) as (Hn & r & Hpr & Hur & Hcr). pose proof Hur as [Hr HrK].
  set (code := has_flag (Context.error_code (context (tasks k i))) Interrupt.PAGE_FAULT_ERROR_CODE_R_W).
  assert (wp (Interrupt.page_fault_handler (TSlot i) va) (faulted k i va f) k ∨
    ∀ x, walk (entry_at (phys (mm k))) r (table_path va) = Some x → code = true →
      has_flag (entry_at (phys (mm k)) x (PT_IDX va)) PTE_COW = true →
      present (entry_at (phys (mm k)) x (PT_IDX va)) = true ∧ fl g = []) as [H|Hno].
  { destruct (walk (entry_at (phys (mm k))) r (table_path va)) as [x|] eqn:Hw; [|by right].
    destruct (has_flag (entry_at (phys (mm k)) x (PT_IDX va)) PTE_COW) eqn:Hc; [|right; intros ? [= <-]; congruence].
    destruct (cow_is_user k g tl f r va x I Hur Hw Hc) as [Hu Ht]. destruct (fl g) as [|p fl'] eqn:Hfl.
    { right. intros y [= <-] _ _. split; [|done]. unfold translate, leaf in Ht. rewrite Hw in Ht. cbn in Ht.
      by destruct (present _). }
    destruct code eqn:Hcode; [|right; congruence]. left.
    assert (p ∈ fl g) as Hp by (rewrite Hfl; by left). pose proof (free_pos k g tl f p I Hp) as Hp0.
    eapply wp_mono; [exact (cow_fault_ok K k g tl i r va _ p fl' f Hk (en_slot _ _ _ _ _ E) Hpr Hr HrK Hcr (ki_temp _ _ _ _ I) Hfl Hp0 Hva Hu Ht Hc Hcode)|].
    intros t k' (-> & g' & D). split.
    - exists i, g', tl. split; [done|]. by eapply cow_running.
    - left. split; [exact (cow_isolated K k g tl i r va _ p f k' g' Hk (en_slot _ _ _ _ _ E) Hpr Hp Hr Hu Ht Hc D)|].
      split; [done|]. split; [done|]. eexists. rewrite Hcr. change PAGE_SIZE with 4096. by rewrite Z.div_mul. }
  { by apply wpe_wp. }
  assert (∀ pte, (∀ a, pte = Some a → pte_at k a) →
    wpe (Interrupt.page_fault_fail (TSlot i) va pte) (faulted k i va f) (λ e, e = EPanic ∧ last_task k i) k) as Hff.
  { intros pte Hpte. eapply wpe_mono; [by apply (fault_fail_out k g tl f i va pte)|intros t k2; by apply faulted_killed, light_refl|done]. }
  unfold Interrupt.page_fault_handler. apply wpe_step. eapply wp_eq; [apply get_slot_ok; exact (en_slot _ _ _ _ _ E)|].
  rewrite Hpr. apply wpe_step. eapply wp_eq; [apply liftm_ok, (page_lookup_any (mm k) g r va W Hr)|].
  rewrite set_mm_same. destruct (walk (entry_at (phys (mm k))) r (table_path va)) as [x|] eqn:Hw; cbn [fmap option_fmap option_map].
  2: { by apply Hff. }
  destruct (pte_walk k g r va x W Hr Hw) as [Hx _]. specialize (Hno x eq_refl).
  assert (∀ a, Some (VADDR (bld (mm k)) (x * 4096) + 8 * PT_IDX va) = Some a → pte_at k a) as Hpte.
  { intros a [= <-]. exists x, (PT_IDX va). split; [done|]. split; [done|apply PT_IDX_range]. }
  fold code. destruct code; cbn [negb]; [|by apply Hff].
  apply wpe_step. eapply wp_eq; [apply liftm_ok, kread_entry; [apply W|done|apply PT_IDX_range]|]. rewrite set_mm_same.
  destruct (has_flag (entry_at (phys (mm k)) x (PT_IDX va)) PTE_COW); cbn [negb]; [|by apply Hff].
  destruct (Hno eq_refl eq_refl) as [P Hfl]. apply wpe_step, wp_massert; [exact P|].
  apply wpe_step. eapply wp_eq; [apply liftm_ok, page_alloc_none; rewrite <- Hfl; apply W|]. rewrite set_mm_same.
  apply (wpe_print true _ _ _ _ _ k); [reflexivity|apply quiet_refl; by eapply entered_conok|].
  intros k' Hq.
  eapply wpe_mono; [apply (fault_fail_out k' g tl f i); [by eapply quiet_entered|]|intros t k2; by apply faulted_killed, quiet_light|].
  - intros a Ha. by destruct Hq as (c & _ & ->); apply Hpte.
  - intros e [-> H]. split; [done|]. unfold last_task in *. by rewrite <- (quiet_tasks _ _ Hq).
Qed.

(** ** System calls *)

Lemma uview_range k g tl f r va e : kinv k g tl f → uview (phys (mm k)) g r va e → 0 ≤ e < 2 ^ 63.
Proof.
  intros I ([Hr HrK] & Hva & Ht). pose proof (ki_kwf _ _ _ _ I) as Hk. pose proof (kw_wf _ _ _ _ Hk) as W.
  destruct (mapped_page K (mm k) g r r va e W) as (x & _ & He & _ & _ & _ & [H1 H2] & _); [done|done|].
  destruct (kw_build _ _ _ _ Hk) as [_ Hb]. pose proof (entry_range (phys (mm k)) x (PT_IDX va)) as R. rewrite He in R.
  rewrite frame_alt in H1, H2 by done. dlia.
Qed.

(** Sharing a page read-only keeps write access exclusive. *)
Lemma fork_views k g tl f r p k' g' :
  kinv k g tl f → user_root g r →
  (∀ x o va, lab g x = Some (Lab o []) → x ≠ r ∨ KIDX ≤ PML4_IDX va →
     translate (phys (mm k')) x va = translate (phys (mm k)) x va) →
  (∀ x o, lab g' x = Some (Lab o []) → lab g x = Some (Lab o []) ∨ x = p) →
  (∀ va, PML4_IDX va < KIDX →
     translate (phys (mm k')) r va = cow <$> translate (phys (mm k)) r va ∧
     translate (phys (mm k')) p va = cow <$> translate (phys (mm k)) r va) →
  views_ok (phys (mm k')) g'.
Proof.
  intros I Hr Ho Hroots Ht. destruct (ki_views _ _ _ _ I) as [V1 V2].
  assert (∀ x va e', uview (phys (mm k')) g' x va e' →
    uview (phys (mm k)) g x va e' ∧ x ≠ r ∨
    ∃ e, uview (phys (mm k)) g r va e ∧ frame e' = frame e ∧ has_flag e' PTE_W = false) as Hold.
  { intros x va e' ([Hx HxK] & Hva & Htr).
    assert (∀ y, translate (phys (mm k')) y va = cow <$> translate (phys (mm k)) r va → y = x →
      ∃ e, uview (phys (mm k)) g r va e ∧ frame e' = frame e ∧ has_flag e' PTE_W = false) as Hcow.
    { intros y Hy ->. rewrite Hy in Htr. destruct (translate (phys (mm k)) r va) as [e|] eqn:E; [|done].
      injection Htr as <-. assert (uview (phys (mm k)) g r va e) as Hu by done. exists e. split; [done|].
      destruct (cow_flags e (uview_range k g tl f r va e I Hu)) as (H1 & _ & H3 & _). done. }
    destruct (Ht va Hva) as [Ht1 Ht2]. destruct (decide (x = r)) as [->|Hne]; [right; by apply (Hcow r)|].
    destruct (Hroots x x Hx) as [Hx0| ->]; [|right; by apply (Hcow p)].
    left. split; [|done]. split; [done|]. split; [done|]. rewrite <- Htr. symmetry. apply (Ho x x); auto. }
  constructor.
  - intros x va e' [[H _]|(e & H & -> & _)]%Hold; by eapply V1.
  - intros x va1 e1 x' va2 e2 [[H1 N1]|(e & H1 & F1 & W1)]%Hold [[H2 N2]|(e' & H2 & F2 & W2)]%Hold Hw Hf; try congruence.
    + by apply (V2 x va1 e1 x' va2 e2).
    + destruct (V2 x va1 e1 r va2 e' H1 H2 Hw ltac:(congruence)) as [E _]. congruence.
Qed.

(** A failed fork may have taken write access away from the parent. *)
Lemma unfork_views k g tl f r k' g' :
  kinv k g tl f → user_root g r →
  (∀ x o va, lab g x = Some (Lab o []) → x ≠ r ∨ KIDX ≤ PML4_IDX va →
     translate (phys (mm k')) x va = translate (phys (mm k)) x va) →
  (∀ x o, lab g' x = Some (Lab o []) → lab g x = Some (Lab o [])) →
  (∀ va, PML4_IDX va < KIDX →
     translate (phys (mm k')) r va = translate (phys (mm k)) r va ∨
     translate (phys (mm k')) r va = cow <$> translate (phys (mm k)) r va) →
  views_ok (phys (mm k')) g'.
Proof.
  intros I Hr Ho Hroots Ht. destruct (ki_views _ _ _ _ I) as [V1 V2].
  assert (∀ x va e', uview (phys (mm k')) g' x va e' →
    ∃ e, uview (phys (mm k)) g x va e ∧ frame e' = frame e ∧ (has_flag e' PTE_W = true → has_flag e PTE_W = true)) as Hold.
  { intros x va e' ([Hx HxK] & Hva & Htr). pose proof (Hroots x x Hx) as Hx0.
    assert (translate (phys (mm k')) x va = translate (phys (mm k)) x va ∨
      translate (phys (mm k')) x va = cow <$> translate (phys (mm k)) x va) as [E|E].
    { destruct (decide (x = r)) as [->|Hne]; [by apply Ht|left; apply (Ho x x); auto]. }
    - exists e'. split; [|done]. split; [done|]. split; [done|]. by rewrite <- E.
    - rewrite E in Htr. destruct (translate (phys (mm k)) x va) as [e|] eqn:Et; [|done]. injection Htr as <-.
      assert (uview (phys (mm k)) g x va e) as Hu by done. exists e. split; [done|].
      destruct (cow_flags e (uview_range k g tl f x va e I Hu)) as (H1 & _ & H3 & _). split; [done|congruence]. }
  constructor.
  - intros x va e' (e & H & -> & _)%Hold. by eapply V1.
  - intros x va1 e1 x' va2 e2 (e & H1 & F1 & W1)%Hold (e' & H2 & F2 & _)%Hold Hw Hf.
    apply (V2 x va1 e x' va2 e' H1 H2); [auto|congruence].
Qed.

(** A slot that was lost for lack of memory. *)
Lemma kwf_lost k g t tl' tk k' c :
  kwf K k g (t :: tl') → slot_taken k t tk tl' k' → pml4 tk = NULL → mm k' = set_con c (mm k) → con_ok c →
  kwf K k' g tl'.
Proof.
  intros [H1 H2 H3 H4 H5 H6 H7 H8 H9 H10] [S1 S2 S3 S4 S5 S6 S7 S8] Hn Em Hc.
  assert (pml4 (tasks k t) = NULL) as Hn0 by (apply H8; by left).
  assert (∀ j, pml4 (tasks k' j) = pml4 (tasks k j)) as Ep.
  { intros j. destruct (decide (j = t)) as [->|]; [by rewrite S1, Hn|by rewrite S2]. }
  constructor; rewrite ?Em; try done.
  - by apply wf_con_any.
  - by rewrite S5.
  - intros j Hj. rewrite Ep. apply H8. by right.
  - intros j. rewrite Ep. apply H9.
  - intros i j. rewrite !Ep. apply H10.
Qed.

Lemma fork_nomem k g t tl' f i :
  entered k g (t :: tl') f i → fl g = [] →
  wp (sys_fork (TSlot i)) (λ ret k', entered k' g tl' f i ∧ ret = -1 ∧ isolated nobody nobody (eq (rax_of k i)) i k k') k.
Proof.
  intros E Hfl. pose proof (en_inv _ _ _ _ _ E) as I. pose proof (ki_kwf _ _ _ _ I) as Hk.
  destruct (task_new_nomem K k g t tl' (codes "child") Hk Hfl) as (k' & Hrun & S & c & Em & Hc).
  destruct (entered_root k g _ f i E) as (Hn & _). destruct (kw_slots _ _ _ _ Hk t) as [_ Ht]; [by left|].
  assert (i ≠ t) as Hit by congruence.
  unfold sys_fork. apply wp_bind. eapply wp_eq; [exact Hrun|]. apply wp_ret.
  pose proof (kwf_lost k g t tl' _ k' c Hk S eq_refl Em Hc) as Hk'. destruct S as [S1 S2 S3 S4 S5 S6 S7 S8].
  split.
  2: { split; [done|]. constructor; intros j Hj Hnj; left.
    - assert (j ≠ t) as Hjt by congruence. pose proof (S2 j Hjt) as Ej.
      constructor; unfold rax_of; rewrite ?Ej; try done; [by intros ->|]. intros va _. unfold task_cell. by rewrite Ej, Em.
    - destruct (decide (j = t)) as [->|Hjt]; [by rewrite S1|by rewrite S2]. }
  constructor.
  - apply (kinv_step k g (t :: tl') f); rewrite ?Em; try done; try apply I.
    + rewrite S8. exact (ki_next _ _ _ _ I).
    + intros j Hj. destruct (decide (j = t)) as [->|Hne]; [rewrite S1; by intros [?|?]|].
      rewrite S2 by done. by apply (ki_alive _ _ _ _ I).
  - exact (en_slot _ _ _ _ _ E).
  - rewrite S6. exact (en_cpu _ _ _ _ _ E).
  - rewrite S2 by done. exact (en_ready _ _ _ _ _ E).
  - intros j Hj. destruct (decide (j = t)) as [->|Hne]; [by rewrite S1|]. rewrite S2 by done. by apply (en_norun _ _ _ _ _ E).
  - rewrite S7, S2, Em by done. exact (en_cr3 _ _ _ _ _ E).
Qed.

Lemma fork_entered k g t tl' f i r p fl' ret k' g' :
  entered k g (t :: tl') f i → pml4 (tasks k i) = VADDR (bld (mm k)) (r * 4096) → user_root g r →
  cr3 k = r * 4096 → fl g = p :: fl' → fork_result K k g t tl' p i r ret k' g' →
  ∃ tl'', entered k' g' tl'' f i.
Proof.
  intros E Hpr Hr Hcr Hfl ([F1 F2 F3] & [R1 R2 R3 R4 R5 R6 R7] & H). pose proof (en_inv _ _ _ _ _ E) as I.
  pose proof (ki_kwf _ _ _ _ I) as Hk. pose proof (kw_wf _ _ _ _ Hk) as W. destruct (entered_root k g _ f i E) as (Hn & _).
  destruct (kw_slots _ _ _ _ Hk t) as [_ Ht]; [by left|]. assert (i ≠ t) as Hit by congruence.
  assert (r ≠ p) as Hrp.
  { intros ->. destruct (wf_free _ _ _ W p) as [Hl _]; [rewrite Hfl; by left|]. destruct Hr as [Hr _]. congruence. }
  assert (∃ tl'', kwf K k' g' tl'' ∧ views_ok (phys (mm k')) g' ∧
    (state (tasks k' t) = TASK_STATE_READY ∧ pml4 (tasks k' t) ≠ NULL ∨ state (tasks k' t) = TASK_STATE_FREE)) as (tl'' & Hk' & Hv & Hst).
  { destruct H as [(_ & H1 & H2 & H3 & _ & H4)|(_ & H1 & H2 & H3 & H4)].
    - exists tl'. split; [done|]. split; [by apply (fork_views k g (t :: tl') f r p)|]. left. rewrite H2. split; [done|]. cbn.
      destruct (proj2 (wf_alloc _ _ _ W) p) as [? ?]; [rewrite Hfl; by left|].
      rewrite (VADDR_kernel (mm k) p (kw_build _ _ _ _ Hk)) by done. unfold NULL, KERNEL_BASE. lia.
    - exists (t :: tl'). split; [done|]. split; [by apply (unfork_views k g (t :: tl') f r)|]. by right. }
  assert (bld (mm k') = bld (mm k)) as Hb.
  { destruct (kw_build _ _ _ _ Hk') as [-> _], (kw_build _ _ _ _ Hk) as [-> _]. done. }
  exists tl''. constructor.
  - apply (kinv_step k g (t :: tl') f); try done.
    + by rewrite R2.
    + rewrite R7. exact (ki_next _ _ _ _ I).
    + intros j Hj Hs. destruct (decide (j = t)) as [->|Hne].
      * destruct Hst as [[_ ?]|Hst]; [done|]. rewrite Hst in Hs. by destruct Hs.
      * rewrite F3 in Hs |- * by done. by apply (ki_alive _ _ _ _ I).
  - exact (en_slot _ _ _ _ _ E).
  - rewrite R5; [exact (en_cpu _ _ _ _ _ E)|]. rewrite (en_cpu _ _ _ _ _ E). congruence.
  - rewrite F3 by done. exact (en_ready _ _ _ _ _ E).
  - intros j Hj. destruct (decide (j = t)) as [->|Hne]; [by destruct Hst as [[-> _]| ->]|]. rewrite F3 by done. by apply (en_norun _ _ _ _ _ E).
  - rewrite R6 by (rewrite Hcr; lia). rewrite F3, Hb by done. exact (en_cr3 _ _ _ _ _ E).
Qed.

(** A fork has failed, or there is one new task. *)
Definition fork_effect V (i : Z) k (ret : Z) k' : Prop :=
  ret = -1 ∧ isolated nobody nobody V i k k' ∨
  ∃ c, 0 ≤ c < TASK_MAX_CNT ∧ pml4 (tasks k c) = NULL ∧ pml4 (tasks k' c) ≠ NULL ∧ ret = i32 (id (tasks k' c)) ∧
    isolated (λ j, j = c) nobody V i k k'.

Lemma fork_out k g tl f i :
  entered k g tl f i →
  wp (sys_fork (TSlot i)) (λ ret k', (∃ g' tl', entered k' g' tl' f i) ∧ fork_effect (eq (rax_of k i)) i k ret k') k.
Proof.
  intros E. pose proof (en_inv _ _ _ _ _ E) as I. pose proof (ki_kwf _ _ _ _ I) as Hk.
  destruct (entered_root k g tl f i E) as (Hn & r & Hpr & Hr & Hcr). destruct tl as [|t tl'].
  - destruct (task_new_full K k g (codes "child") Hk) as (c & Hrun & Hc). unfold sys_fork. apply wp_bind.
    eapply wp_eq; [exact Hrun|]. apply wp_ret.
    split; [exists g, []; by apply entered_con|]. left. split; [done|]. apply isolated_light, quiet_light. by exists c.
  - destruct (fl g) as [|p fl'] eqn:Hfl.
    + eapply wp_mono; [by apply (fork_nomem k g t tl' f i)|]. intros ret k' (E' & Hret & HI). split; [by exists g, tl'|by left].
    + eapply wp_mono.
      { apply (sys_fork_ok K k g t tl' p fl' i r Hk Hfl (en_slot _ _ _ _ _ E) Hn Hpr); try apply Hr; [apply I|].
        intros va e Hva Ht. by apply (vo_pos _ _ (ki_views _ _ _ _ I) r va). }
      intros ret k' (g' & H). split; [exists g'; by eapply fork_entered|].
      destruct (fork_isolated K k g t tl' p i r ret k' g' fl' Hk Hfl (en_slot _ _ _ _ _ E) Hpr (proj1 Hr) (proj2 Hr) Hn H)
        as [HI [[-> Hnil]|Hnew]].
      * left. split; [done|]. destruct HI as [H1 H2]. constructor; [done|]. intros j Hj Hnj. left.
        destruct (H2 j Hj Hnj) as [?|[[-> _] _]]; done.
      * destruct (kw_slots _ _ _ _ Hk t) as [Ht Htn]; [by left|]. right. exists t. split; [done|]. split; [done|]. split; [done|].
        split; [destruct (is_new _ _ _ _ _ _ HI t Ht Htn) as [?|[[_ ?] _]]; done|].
        by eapply isolated_mono; [| | |exact HI]; [intros j [? _]|..].
Qed.

Lemma vload8_out va k : wpe (vload8 va) (λ _ k', k' = k) (λ e, e = EUndef) k.
Proof. unfold wpe, vload8, mbind, M_bind, get. by destruct (vtranslate k (u64 va)). Qed.

(** Reading the string of a system call changes nothing. *)
Lemma vstring_out n va k :
  wpe (vstring n va) (λ _ k', k' = k) (λ e, e = EUndef ∨ e = EFuel) k.
Proof.
  revert va. induction n as [|n IH]; intros va; [by right|]. cbn [vstring]. apply wpe_bind.
  eapply wpe_mono; [apply vload8_out| |intros e ->; by left]. cbn. intros b k' ->.
  destruct (_ =? 0); [done|]. apply wpe_bind. eapply wpe_mono; [apply IH| |done]. by cbn; intros l k' ->.
Qed.

(** Why a system call stops the machine. *)
Definition syscall_stop k (i : Z) (e : err) : Prop :=
  let nr := u32 (Context.rax (Context.c_gprs (context (tasks k i)))) in
  nr = SYSCALL_PUTS ∧ (e = EUndef ∨ e = EFuel) ∨
  nr = SYSCALL_EXIT ∧ e = EPanic ∧ last_task k i ∨
  SYSCALL_YIELD < nr ∧ e = EPanic.

(** The result of a system call: text on the console, the end of the task, a
    new task, or nothing. *)
Definition call_result k (i : Z) k' : Prop :=
  let nr := u32 (rax_of k i) in
  nr = SYSCALL_PUTS ∧ (∃ str k1,
    vstring user_string_max (Context.rbx (Context.c_gprs (context (tasks k i)))) k = Ok (str, k) ∧
    kprintf "task [%d]: %s" [AInt (id (tasks k i)); AStr str] k = Ok ((), k1) ∧ mm k' = mm k1) ∧
    isolated nobody nobody (eq (u64 0)) i k k' ∨
  nr = SYSCALL_EXIT ∧ isolated nobody (λ j, j = i) nobody i k k' ∨
  nr = SYSCALL_FORK ∧ (∃ ret, fork_effect (eq (u64 ret)) i k ret k') ∨
  nr = SYSCALL_YIELD ∧ isolated nobody nobody (eq (rax_of k i)) i k k'.

Definition called k (i f : Z) (t : tptr) k' : Prop :=
  (∃ i g tl, t = TSlot i ∧ running k' g tl f i) ∧ call_result k i k'.

(** Returning a value. *)
Lemma return_out k0 k g tl f i ret N V (E : err → Prop) :
  entered k g tl f i → pml4 (tasks k0 i) ≠ NULL → isolated N nobody V i k0 k →
  wpe (upd_task (TSlot i) (λ t, set_context (Context.set_gprs
      (Context.set_rax (u64 ret) (Context.c_gprs (context t))) (context t)) t) ;; task_run (TSlot i))
    (λ t k', resumed k0 N nobody (eq (u64 ret)) i f t k' ∧ mm k' = mm k ∧
       ∀ j, j ≠ i → id (tasks k' j) = id (tasks k j) ∧ pml4 (tasks k' j) = pml4 (tasks k j)) E k.
Proof.
  intros En Hn HI. apply wpe_wp, wp_bind. eapply wp_eq; [apply upd_slot_ok; exact (en_slot _ _ _ _ _ En)|].
  eapply wp_mono; [apply (task_run_entered _ g tl); by apply entered_context|]. intros t k' H.
  pose proof H as [_ [L Em]]. split; [|split; [exact Em|]].
  - eapply resumed_after; [|exact H]. by apply (isolated_return N nobody V).
  - intros j Hj. rewrite (li_id _ _ L), (li_pml4 _ _ L). cbn. by rewrite fn_lookup_insert_ne.
Qed.

Lemma syscall_out k g tl f i :
  entered k g tl f i → wpe (syscall (TSlot i)) (called k i f) (syscall_stop k i) k.
Proof.
  intros E. pose proof (proj1 (entered_root k g tl f i E)) as Hn.
  unfold syscall, called, call_result. generalize user_string_max as n. intros n.
  apply wpe_step. eapply wp_eq; [apply get_slot_ok; exact (en_slot _ _ _ _ _ E)|].
  change (u32 _) with (u32 (rax_of k i)). unfold syscall_stop. change (u32 (Context.rax _)) with (u32 (rax_of k i)).
  set (nr := u32 (rax_of k i)).
  pose proof (entered_conok k g tl f i E) as Hc.
  destruct (Z.eqb_spec nr SYSCALL_PUTS) as [E0|N0].
  { apply wpe_bind. pose proof (vstring_out n (Context.rbx (Context.c_gprs (context (tasks k i)))) k) as Hs.
    unfold wpe in Hs. destruct (vstring _ _ k) as [[str k']|e] eqn:Hstr; [|unfold wpe; rewrite Hstr; by left]. subst k'.
    apply wpe_wp. eapply wp_eq; [exact Hstr|]. apply wpe_step.
    pose proof (wp_quiet "task [%d]: %s" [AInt (id (tasks k i)); AStr str] k k eq_refl (quiet_refl k Hc)) as Hp.
    unfold wp in Hp. destruct (kprintf _ _ k) as [[[] k1]|e] eqn:Hpr; [|done]. eapply wp_eq; [exact Hpr|].
    eapply wpe_mono; [apply (return_out k k1 g tl f i 0 nobody (eq (rax_of k i)) (λ _, False)); [by eapply quiet_entered|done|]| |done].
    { apply isolated_light. by apply quiet_light. }
    intros t k' ([R HI] & Em & _). split; [done|]. left. split; [done|]. split; [|done]. by exists str, k1. }
  destruct (Z.eqb_spec nr SYSCALL_EXIT) as [E1|N1].
  { apply (wpe_print true _ _ _ _ _ k); [reflexivity|by apply quiet_refl|]. intros k' Hq.
    eapply wpe_mono; [apply (kill_entered k' g tl f i); by eapply quiet_entered| |].
    { intros t k2 H. destruct (resumed_before k k' _ _ _ i f t k2 (quiet_light _ _ Hq) H) as [H1 H2]. split; [done|]. right; by left. }
    intros e [-> H]. right; left. split; [done|]. split; [done|]. unfold last_task in *. by rewrite <- (quiet_tasks _ _ Hq). }
  destruct (Z.eqb_spec nr SYSCALL_FORK) as [E2|N2].
  { apply wpe_step. eapply wp_mono; [by apply (fork_out k g tl f i)|]. intros ret k1 [(g' & tl' & E') [[-> HI]|(c & Hc1 & Hc2 & Hc3 & Hc4 & HI)]].
    - eapply wpe_mono; [by apply (return_out k k1 g' tl' f i (-1) nobody (eq (rax_of k i)) (λ _, False))| |done].
      intros t k' ([R HI'] & _). split; [done|]. right; right; left. split; [done|]. exists (-1). by left.
    - assert (c ≠ i) as Hci by congruence.
      eapply wpe_mono; [by apply (return_out k k1 g' tl' f i ret (λ j, j = c) (eq (rax_of k i)) (λ _, False))| |done].
      intros t k' ([R HI'] & _ & Ho). destruct (Ho c Hci) as [Ho1 Ho2]. split; [done|]. right; right; left. split; [done|].
      exists ret. right. exists c. by rewrite Ho1, Ho2. }
  destruct (Z.eqb_spec nr SYSCALL_YIELD) as [E3|N3].
  { eapply wpe_mono; [by apply (schedule_entered k g tl f i (λ _, False))| |done].
    intros t k2 H. destruct (switched_resumed k nobody nobody i f t k2 H) as [H1 H2]. split; [done|]. by right; right; right. }
  right; right. split; [|done]. unfold SYSCALL_PUTS, SYSCALL_EXIT, SYSCALL_FORK, SYSCALL_YIELD in *.
  assert (0 ≤ nr) by (apply Z.mod_pos_bound; done). lia.
Qed.
End trap.
