(* ===== verification/LoadProofs.v ===== *)
(** Loading a program: the operations of [task_load_segment] on the address
    space of a task under construction.

    [loading] relates the memory manager's state to the one right after
    [task_new]: the kernel's tables, every other address space and all data
    outside the pages that were free then are unchanged, the task's user
    mappings are exactly the pages [mp], each a private page with permission
    7, and the user memory holds at least the bytes [img].  [map_one] is the
    allocation and insertion of one page, [store_one] the store of one byte
    through the task's page tables, [load_one] the read of a byte of the
    binary through the kernel part of the same tables. *)

From Stdlib Require Import String.
From S2P Require Import Prelude Memory Queue Mmu Console Map AllocProofs Walk MapWf.
From S2P Require Import LookupProofs InsertProofs KmapProofs Gdt Context Task SchedProofs.
From S2P Require Import DestroyProofs TaskProofs Syscall ForkProofs Interrupt FaultProofs.
From S2P Require Import TrapProofs.
Import Mmu Map Task.

(** ** User addresses *)

Definition in_user (va : Z) : Prop := 0 ≤ va < USER_TOP.

Lemma in_user_idx va : in_user va → PML4_IDX va < KIDX.
Proof.
  unfold in_user, USER_TOP. intros H. rewrite KIDX_val, PML4_IDX_alt, u64_small by lia. dlia.
Qed.

(** Addresses of a page have the table indexes of the page, and only they do. *)
Lemma same_page_iff v va :
  in_user v → in_user va → v mod 4096 = 0 → full_path va = full_path v ↔ v ≤ va < v + 4096.
Proof.
  unfold in_user, USER_TOP. intros Hv Hva Hm. unfold full_path, table_path.
  rewrite !PML4_IDX_alt, !PDP_IDX_alt, !PD_IDX_alt, !PT_IDX_alt, !u64_small by lia. cbn [app]. split.
  - intros [= E1 E2 E3 E4]. dlia.
  - intros H. f_equal; [|f_equal; [|f_equal; [|f_equal]]]; dlia.
Qed.

Lemma full_path_inj va va' :
  in_user va → in_user va' → full_path va = full_path va' → va mod 4096 = va' mod 4096 → va = va'.
Proof.
  intros H H' E Em. set (v := va' - va' mod 4096).
  assert (in_user v ∧ v mod 4096 = 0) as [Hv Hm] by (unfold in_user, v in *; dlia).
  pose proof (proj2 (same_page_iff v va' Hv H' Hm) ltac:(unfold v; dlia)) as E'. rewrite E' in E.
  apply (same_page_iff v va Hv H Hm) in E. unfold v in *. dlia.
Qed.

(** ** ELF images *)

(** The little-endian number in [n] bytes of an image. *)
Fixpoint le (image : Z → byte) (o : Z) (n : nat) : Z :=
  match n with
  | O => 0
  | S n' => b2z (image o) + 256 * le image (o + 1) n'
  end.

Lemma le_nonneg image o n : 0 ≤ le image o n.
Proof. revert o. induction n as [|n IH]; intros o; cbn [le]; [done|]. pose proof (b2z_range (image o)). specialize (IH (o + 1)). lia. Qed.

Lemma le_bound image o n : le image o n < 256 ^ Z.of_nat n.
Proof.
  revert o. induction n as [|n IH]; intros o; cbn [le]; [done|]. pose proof (b2z_range (image o)). specialize (IH (o + 1)).
  rewrite Nat2Z.inj_succ, Z.pow_succ_r by lia. lia.
Qed.

(** The header and the program headers of an image, as [task_load] reads them. *)
Section elf.
Context (image : Z → byte).

Definition eh_entry : Z := le image 24 8.
Definition eh_phoff : Z := le image 32 8.
Definition eh_phnum : Z := le image 56 2.

Definition ph_at (i : Z) : Z := eh_phoff + SIZEOF_PHEADER64 * i.
Definition ph_type (i : Z) : Z := le image (ph_at i) 4.
Definition ph_offset (i : Z) : Z := le image (ph_at i + 8) 8.
Definition ph_va (i : Z) : Z := le image (ph_at i + 16) 8.
Definition ph_filesz (i : Z) : Z := le image (ph_at i + 32) 8.
Definition ph_memsz (i : Z) : Z := le image (ph_at i + 40) 8.

(** The pages of segment [i] and its contents. *)
Definition seg_base (i : Z) : Z := ROUND_DOWN (ph_va i) PAGE_SIZE.
Definition seg_len (i : Z) : Z := ROUND_UP (ph_memsz i) PAGE_SIZE.
Definition seg_pages (i va : Z) : Prop := seg_base i ≤ va < seg_base i + seg_len i.
Definition seg_byte (i j : Z) : byte := if j <? ph_filesz i then image (ph_offset i + j) else Byte.x00.

(** A segment that can be loaded: inside the file, in as many pages as its
    size asks for, below the stack. *)
Record seg_ok (size i : Z) : Prop := {
  so_file : ph_offset i + ph_filesz i ≤ size;
  so_size : ph_filesz i ≤ ph_memsz i;
  so_fit : ph_va i mod PAGE_SIZE + ph_memsz i ≤ seg_len i;
  so_user : seg_base i + seg_len i ≤ USER_STACK_TOP - PAGE_SIZE;
}.

Definition is_load (i : Z) : Prop := 0 ≤ i < eh_phnum ∧ ph_type i = ELF_PHEADER_TYPE_LOAD.

Record elf_ok (size : Z) : Prop := {
  eo_header : 64 ≤ size;
  eo_table : ph_at eh_phnum ≤ size;
  eo_segs i : is_load i → ph_offset i ≤ size → seg_ok size i;
  eo_disjoint i j va : is_load i → is_load j → seg_pages i va → seg_pages j va → i = j;
}.
End elf.

Section load.
Context {T : Type} `{!Console T, !ConsoleLaws T} (K : Z).
Implicit Types (k : kstate T) (s : mstate T) (g : ghost) (tl : list Z) (m : mem).

(** The byte the address space [r] shows at [va]. *)
Definition ubyte m (r va : Z) : option byte :=
  e ← translate m r va; Some (m (frame e * 4096 + va mod 4096)).

Lemma kernel_translate k g tl r o va :
  kwf K k g tl → lab g r = Some (Lab o []) → KIDX ≤ PML4_IDX va →
  translate (phys (mm k)) r va = translate (phys (mm k)) K va.
Proof.
  intros Hk Hr Hva. unfold translate, leaf, table_path. cbn [walk].
  rewrite (kw_shared _ _ _ _ Hk r o); [done|done|]. split; [done|apply PML4_IDX_range].
Qed.

(** The state right after [task_new], with the processor on the new space. *)
Context (k1 : kstate T) (g0 : ghost) (tl : list Z) (f r : Z).

Record loading s g (mp : Z → Prop) (img : Z → option byte) : Prop := {
  lo_kwf : kwf K (set_mm s k1) g tl;
  lo_cnt : pages_cnt s = pages_cnt (mm k1);
  lo_pins d : pins g d = pins g0 d;
  lo_lab x l : lab g0 x = Some l → lab g x = Some l;
  lo_roots x o : lab g x = Some (Lab o []) → lab g0 x = Some (Lab o []);
  lo_kern : kernel_same K g0 (phys (mm k1)) (phys s);
  lo_views : views_ok K (phys s) g;
  lo_other x o va : lab g0 x = Some (Lab o []) → x ≠ r ∨ KIDX ≤ PML4_IDX va →
    translate (phys s) x va = translate (phys (mm k1)) x va;
  lo_mem x : lab g0 (x / 4096) = None → x / 4096 ∉ fl g0 → phys s x = phys (mm k1) x;
  lo_none d : lab g0 d = None → d ∉ fl g0 → lab g d = None;
  lo_fl d : d ∈ fl g → d ∈ fl g0;
  lo_user va e : PML4_IDX va < KIDX → translate (phys s) r va = Some e →
    frame e ∈ fl g0 ∧ e = frame e * 4096 + 7;
  lo_map va : in_user va → is_Some (translate (phys s) r va) ↔ mp va;
  lo_img va b : img va = Some b → in_user va ∧ ubyte (phys s) r va = Some b;
}.

Hypothesis I0 : kinv K k1 g0 tl f.
Hypothesis Hr : user_root K g0 r.

Lemma loading_start :
  (∀ va, PML4_IDX va < KIDX → translate (phys (mm k1)) r va = None) →
  loading (mm k1) g0 (λ _, False) (λ _, None).
Proof.
  intros Hno. constructor; rewrite ?set_mm_same; try done; try apply I0.
  - intros va e Hva Ht. rewrite Hno in Ht by done. done.
  - intros va Hva. rewrite Hno by (by apply in_user_idx). split; [by intros []|done].
Qed.

(** The invariant of the system holds throughout. *)
Lemma loading_kinv s g mp img : loading s g mp img → kinv K (set_mm s k1) g tl f.
Proof.
  intros L. apply (kinv_step K k1 g0 tl f); [exact I0|exact (lo_kwf _ _ _ _ L)|exact (lo_cnt _ _ _ _ L)|
    exact (lo_pins _ _ _ _ L)| |exact (lo_kern _ _ _ _ L)|exact (lo_views _ _ _ _ L)|exact (ki_next _ _ _ _ _ I0)|
    exact (ki_alive _ _ _ _ _ I0)].
  intros x l Hx _. by apply (lo_lab _ _ _ _ L).
Qed.

Lemma loading_root s g mp img : loading s g mp img → user_root K g r.
Proof. intros L. destruct Hr as [H1 H2]. split; [by apply (lo_lab _ _ _ _ L)|done]. Qed.

Lemma loading_con s g mp img c : con_ok c → loading s g mp img → loading (set_con c s) g mp img.
Proof.
  intros Hc [L1 L2 L3 L4 L5 L6 L7 L8 L9 L10 L11 L12 L13 L14]. constructor; try done.
  apply (kwf_mm K (set_mm s k1) g tl (set_con c s) g L1); try done. apply wf_con_any; [done|apply L1].
Qed.

Lemma loading_weaken s g mp img mp' img' :
  loading s g mp img → (∀ va, in_user va → mp va ↔ mp' va) → (∀ va b, img' va = Some b → img va = Some b) →
  loading s g mp' img'.
Proof.
  intros [L1 L2 L3 L4 L5 L6 L7 L8 L9 L10 L11 L12 L13 L14] Hmp Himg. constructor; try done.
  - intros va Hva. by rewrite L13, Hmp.
  - intros va b Hb. by apply L14, Himg.
Qed.

(** A page that user memory maps is not free and not a table. *)
Lemma loading_page s g mp img va e :
  loading s g mp img → PML4_IDX va < KIDX → translate (phys s) r va = Some e →
  frame e ∉ fl g ∧ lab g (frame e) = None.
Proof.
  intros L Hva Ht. destruct (loading_root s g mp img L) as [Hl HrK].
  destruct (mapped_page K s g r r va e (kw_wf _ _ _ _ (lo_kwf _ _ _ _ L))) as (_ & _ & _ & _ & _ & _ & _ & ? & ? & _); done.
Qed.

(** ** Mapping a page *)

(** The page that [page_alloc] gives out is no longer free. *)
Lemma loading_alloc s g mp img p fl' q :
  loading s g mp img → fl g = p :: fl' → Lst.lrep q fl' →
  loading (set_refs (<[p := 0]> (refs s)) (set_free q s)) (Ghost (lab g) fl' (pins g)) mp img.
Proof.
  intros L Hfl Hq. pose proof (lo_kwf _ _ _ _ L) as Hk. pose proof (kw_wf _ _ _ _ Hk) as W.
  destruct L as [L1 L2 L3 L4 L5 L6 L7 L8 L9 L10 L11 L12 L13 L14]. constructor; try done.
  - apply (kwf_mm K (set_mm s k1) g tl); try done. by apply (alloc_wf K s g p fl' q).
  - by apply (views_sub _ _ _ _ _ L7).
  - intros d Hd. apply L11. rewrite Hfl. by right.
Qed.

(** The translations of the other pages and the memory they map are kept. *)
Lemma ubyte_keep s s' va :
  translate (phys s') r va = translate (phys s) r va →
  (∀ e, translate (phys s) r va = Some e → ∀ o, 0 ≤ o < 4096 → phys s' (frame e * 4096 + o) = phys s (frame e * 4096 + o)) →
  ubyte (phys s') r va = ubyte (phys s) r va.
Proof.
  intros Ht Hm. unfold ubyte. rewrite Ht. destruct (translate (phys s) r va) as [e|]; [|done]. cbn.
  f_equal. apply Hm; [done|]. apply Z.mod_pos_bound. done.
Qed.

Lemma loading_ext s g mp img v s' g' :
  loading s g mp img → in_user v → ext K s g s' g' → adds r v g g' → loading s' g' mp img.
Proof.
  intros L Hv E Ad. pose proof (lo_kwf _ _ _ _ L) as Hk. pose proof (kw_wf _ _ _ _ Hk) as W.
  pose proof (loading_root s g mp img L) as [Hl HrK]. pose proof (in_user_idx v Hv) as Hi.
  assert (∀ x o, lab g' x = Some (Lab o []) → lab g x = Some (Lab o [])) as Hroots.
  { intros x o Hx. by destruct (Ad x _ Hx) as [?|[? _]]. }
  destruct (ext_fl _ _ _ _ _ E) as [nw Hnw].
  constructor.
  - apply (kwf_mm K (set_mm s k1) g tl s' g' Hk (ext_wf _ _ _ _ _ E) (ext_bld _ _ _ _ _ E) (ext_cnt _ _ _ _ _ E)
      (ext_lab _ _ _ _ _ E) Hroots). intros x o i Hx Hxi. by apply (ext_top K s g s' g' r v x o).
  - rewrite (ext_cnt _ _ _ _ _ E). exact (lo_cnt _ _ _ _ L).
  - intros d. rewrite (ext_pins _ _ _ _ _ E). exact (lo_pins _ _ _ _ L d).
  - intros x l Hx. by apply (ext_lab _ _ _ _ _ E), (lo_lab _ _ _ _ L).
  - intros x o Hx. by apply (lo_roots _ _ _ _ L), Hroots.
  - intros x l i Hx Ho Hxi. rewrite (ext_kern K s g s' g' r v x l i); try done; [|by apply (lo_lab _ _ _ _ L)].
    by apply (lo_kern _ _ _ _ L x l).
  - apply (views_sub _ _ _ _ _ (lo_views _ _ _ _ L)). intros x va e ([Hx HxK] & Hva & Ht).
    split; [split; [by apply Hroots|done]|]. split; [done|]. rewrite <- Ht. symmetry. by apply (ext_tr _ _ _ _ _ E x x), Hroots.
  - intros x o va Hx Hne. rewrite (ext_tr _ _ _ _ _ E x o); [|by apply (lo_lab _ _ _ _ L)].
    by apply (lo_other _ _ _ _ L x o).
  - intros x Hx Hn. rewrite (ext_mem _ _ _ _ _ E x); [by apply (lo_mem _ _ _ _ L)|by apply (lo_none _ _ _ _ L)|].
    by intros ?%(lo_fl _ _ _ _ L).
  - intros d Hd Hn. apply (ext_none _ _ _ _ _ E); [by apply (lo_none _ _ _ _ L)|]. by intros ?%(lo_fl _ _ _ _ L).
  - intros d Hd. apply (lo_fl _ _ _ _ L). rewrite Hnw. set_solver.
  - intros va e Hva. rewrite (ext_tr _ _ _ _ _ E r r va Hl). by apply (lo_user _ _ _ _ L).
  - intros va Hva. rewrite (ext_tr _ _ _ _ _ E r r va Hl). by apply (lo_map _ _ _ _ L).
  - intros va b Hb. destruct (lo_img _ _ _ _ L va b Hb) as [Hu Hub]. split; [done|]. rewrite <- Hub.
    apply ubyte_keep; [exact (ext_tr _ _ _ _ _ E r r va Hl)|]. intros e Ht o Ho.
    destruct (loading_page s g mp img va e L (in_user_idx va Hu) Ht) as [H1 H2].
    apply (ext_mem _ _ _ _ _ E); by replace ((frame e * 4096 + o) / 4096) with (frame e) by dlia.
Qed.

(** The new page is private: it was free. *)
Lemma loading_views s g mp img v p s' g' :
  loading s g mp img → in_user v → 0 < p < 2 ^ 40 → p ∉ fl g → lab g p = None →
  (∀ x va e, uview K (phys s) g x va e → frame e ≠ p) →
  inserted K s g s' g' r v p (p * 4096 + 7) → views_ok K (phys s') g'.
Proof.
  intros L Hv Hp Hpn Hpl Hfresh I. destruct (lo_views _ _ _ _ L) as [V1 V2].
  assert (frame (p * 4096 + 7) = p) as Hfv by (apply frame_mk; lia).
  assert (∀ x va e, uview K (phys s') g' x va e →
    same_page r v x va ∧ e = p * 4096 + 7 ∨ uview K (phys s) g x va e) as Hold.
  { intros x va e ([Hx HxK] & Hva & Ht).
    destruct (in_new _ _ _ _ _ _ _ _ _ I x _ Hx) as [Hx0|[Hbad _]]; [|by destruct Hbad].
    destruct (decide (r = x ∧ full_path v = full_path va)) as [[<- E]|Hne].
    - left. rewrite (translate_full _ _ _ _ (eq_sym E)), (in_tr _ _ _ _ _ _ _ _ _ I) in Ht. split; [done|congruence].
    - right. rewrite (in_other _ _ _ _ _ _ _ _ _ I x x) in Ht by (done || by intros [? ?]; apply Hne). done. }
  constructor.
  - intros x va e [[_ ->]|H]%Hold; [rewrite Hfv; lia|by eapply V1].
  - intros x va1 e1 x' va2 e2 [[[<- E1] ->]|H1]%Hold [[[<- E2] ->]|H2]%Hold Hw Hfr.
    + by rewrite <- E1, <- E2.
    + destruct (Hfresh _ _ _ H2). congruence.
    + destruct (Hfresh _ _ _ H1). congruence.
    + by apply (V2 x va1 e1 x' va2 e2).
Qed.

Lemma loading_inserted s g mp img v p s' g' :
  loading s g mp img → in_user v → v mod 4096 = 0 → (∀ va b, img va = Some b → ¬ v ≤ va < v + 4096) →
  0 < p < 2 ^ 40 → p ∉ fl g → lab g p = None → p ∈ fl g0 →
  (∀ x va e, uview K (phys s) g x va e → frame e ≠ p) →
  inserted K s g s' g' r v p (p * 4096 + 7) →
  loading s' g' (λ va, mp va ∨ v ≤ va < v + 4096) img.
Proof.
  intros L Hv Hvm Himg Hp Hpn Hpl Hp0 Hfresh I. pose proof (lo_kwf _ _ _ _ L) as Hk. pose proof (kw_wf _ _ _ _ Hk) as W.
  pose proof (loading_root s g mp img L) as [Hl HrK]. pose proof (in_user_idx v Hv) as Hi.
  assert (∀ x o, lab g' x = Some (Lab o []) → lab g x = Some (Lab o [])) as Hroots.
  { intros x o Hx. by destruct (in_new _ _ _ _ _ _ _ _ _ I x _ Hx) as [?|[? _]]. }
  assert (∀ va, full_path v ≠ full_path va → translate (phys s') r va = translate (phys s) r va) as Htr.
  { intros va Hne. apply (in_other _ _ _ _ _ _ _ _ _ I r r); [done|]. by intros [_ ?]. }
  constructor.
  - exact (kwf_mm K (set_mm s k1) g tl s' g' Hk (in_wf _ _ _ _ _ _ _ _ _ I) (in_bld _ _ _ _ _ _ _ _ _ I)
      (in_cnt _ _ _ _ _ _ _ _ _ I) (in_lab _ _ _ _ _ _ _ _ _ I) Hroots (in_top _ _ _ _ _ _ _ _ _ I)).
  - rewrite (in_cnt _ _ _ _ _ _ _ _ _ I). exact (lo_cnt _ _ _ _ L).
  - intros d. rewrite (in_pins _ _ _ _ _ _ _ _ _ I). exact (lo_pins _ _ _ _ L d).
  - intros x l Hx. by apply (in_lab _ _ _ _ _ _ _ _ _ I), (lo_lab _ _ _ _ L).
  - intros x o Hx. by apply (lo_roots _ _ _ _ L), Hroots.
  - intros x l i Hx Ho Hxi. rewrite (in_kern _ _ _ _ _ _ _ _ _ I x l i); try done; [|by apply (lo_lab _ _ _ _ L)].
    by apply (lo_kern _ _ _ _ L x l).
  - by eapply loading_views.
  - intros x o va Hx Hne. rewrite (in_other _ _ _ _ _ _ _ _ _ I x o); [by apply (lo_other _ _ _ _ L x o)|by apply (lo_lab _ _ _ _ L)|].
    intros [-> E]. destruct Hne as [?|Hva]; [done|]. unfold full_path, table_path in E. cbn [app] in E.
    injection E as E _ _ _. lia.
  - intros x Hx Hn. rewrite (in_mem _ _ _ _ _ _ _ _ _ I x); [by apply (lo_mem _ _ _ _ L)|by apply (lo_none _ _ _ _ L)|].
    by intros ?%(lo_fl _ _ _ _ L).
  - intros d Hd Hn. apply (in_none _ _ _ _ _ _ _ _ _ I); [by apply (lo_none _ _ _ _ L)|]. by intros ?%(lo_fl _ _ _ _ L).
  - intros d Hd. destruct (in_free _ _ _ _ _ _ _ _ _ I d Hd) as [?|(e & Ht & -> & _)]; [by apply (lo_fl _ _ _ _ L)|].
    by apply (lo_user _ _ _ _ L v e).
  - intros va e Hva Ht. destruct (decide (full_path v = full_path va)) as [E|Hne].
    + rewrite (translate_full _ _ _ _ (eq_sym E)), (in_tr _ _ _ _ _ _ _ _ _ I) in Ht. injection Ht as <-.
      by rewrite frame_mk by lia.
    + rewrite Htr in Ht by done. by apply (lo_user _ _ _ _ L va).
  - intros va Hva. pose proof (same_page_iff v va Hv Hva Hvm) as Hsp.
    destruct (decide (full_path v = full_path va)) as [E|Hne].
    + rewrite (translate_full _ _ _ _ (eq_sym E)), (in_tr _ _ _ _ _ _ _ _ _ I). split; [|by eauto].
      intros _. right. by apply Hsp.
    + rewrite Htr, (lo_map _ _ _ _ L va Hva) by done. split; [by left|]. intros [?|H]; [done|].
      destruct Hne. symmetry. by apply Hsp.
  - intros va b Hb. destruct (lo_img _ _ _ _ L va b Hb) as [Hu Hub]. split; [done|]. rewrite <- Hub.
    assert (full_path v ≠ full_path va) as Hne.
    { intros E. apply (Himg va b Hb). by apply (same_page_iff v va Hv Hu Hvm). }
    apply ubyte_keep; [by apply Htr|]. intros e Ht o Ho.
    destruct (loading_page s g mp img va e L (in_user_idx va Hu) Ht) as [H1 H2].
    apply (in_mem _ _ _ _ _ _ _ _ _ I); by replace ((frame e * 4096 + o) / 4096) with (frame e) by dlia.
Qed.

(** Allocating a page and mapping it at [v]. *)
Lemma map_one s g mp img v :
  loading s g mp img → in_user v → v mod 4096 = 0 → (∀ va b, img va = Some b → ¬ v ≤ va < v + 4096) →
  page_alloc s = Ok (None, s) ∨
  ∃ p s1 ret s2 g2, page_alloc s = Ok (Some p, s1) ∧
    page_insert (VADDR (bld s) (r * 4096)) p v (Z.lor PTE_U PTE_W) s1 = Ok (ret, s2) ∧
    (ret = -1 ∧ loading s2 g2 mp img ∨ ret = 0 ∧ loading s2 g2 (λ va, mp va ∨ v ≤ va < v + 4096) img).
Proof.
  intros L Hv Hvm Himg. pose proof (lo_kwf _ _ _ _ L) as Hk. pose proof (kw_wf _ _ _ _ Hk) as W. cbn [mm set_mm] in W.
  pose proof (wf_alloc _ _ _ W) as Hal. destruct (fl g) as [|p fl'] eqn:Hfl; [left; by apply page_alloc_none|right].
  destruct (page_alloc_some s p fl' Hal) as (q & Hpa & Hq & _).
  assert (p ∈ fl g) as Hp by (rewrite Hfl; by left). destruct (wf_free _ _ _ W p Hp) as [Hpl _].
  pose proof (free_pos K (set_mm s k1) g tl f p (loading_kinv s g mp img L) Hp) as Hp0.
  assert (in_range s p) as Hpr by (by apply (wf_alloc _ _ _ W)).
  assert (p ∉ fl') as Hpn.
  { pose proof (Lst.lrep_nodup _ _ (proj1 (wf_alloc _ _ _ W))) as Hnd. rewrite Hfl in Hnd. by apply NoDup_cons in Hnd as [? _]. }
  pose proof (loading_alloc s g mp img p fl' q L Hfl Hq) as L1. set (s1 := set_refs _ _) in *. set (g1 := Ghost _ _ _) in *.
  pose proof (kw_wf _ _ _ _ (lo_kwf _ _ _ _ L1)) as W1. cbn [mm set_mm] in W1.
  destruct (loading_root s1 g1 mp img L1) as [Hl1 HrK]. pose proof (in_user_idx v Hv) as Hi.
  destruct (page_insert_spec K s1 g1 r r v p (Z.lor PTE_U PTE_W)) as (ret & s2 & g2 & Hins & Hout); try done.
  { subst s1. cbn. by rewrite fn_lookup_insert. }
  exists p, s1, ret, s2, g2. split; [done|]. split; [exact Hins|].
  destruct Hout as [(-> & E & Ad & _)|[-> I]]; [left|right].
  - split; [done|]. by apply (loading_ext s1 g1 mp img v).
  - split; [done|]. change (p * 4096 + Z.lor (Z.lor PTE_U PTE_W) 1) with (p * 4096 + 7) in I.
    eapply loading_inserted; try done.
    + destruct (kw_build _ _ _ _ Hk) as [_ Hb]. cbn [mm set_mm] in Hb. destruct Hpr. lia.
    + by apply (lo_fl _ _ _ _ L).
    + intros x va e ([Hx HxK] & Hva & Ht) <-.
      destruct (mapped_page K s g x x va e W) as (_ & _ & _ & _ & _ & _ & _ & ? & _); done.
Qed.

(** ** Bytes *)

Context (b : Z) (size : Z) (image : Z → byte).

(** The program's bytes [image] are in kernel memory at [b], in pages that are
    neither free nor page tables. *)
Definition binary_at : Prop := ∀ j, 0 ≤ j < size →
  0 ≤ b + j < 2 ^ 64 ∧ KIDX ≤ PML4_IDX (b + j) ∧
  ∃ e, translate (phys (mm k1)) K (b + j) = Some e ∧ lab g0 (frame e) = None ∧ frame e ∉ fl g0 ∧
    phys (mm k1) (frame e * 4096 + (b + j) mod 4096) = image j.

Hypothesis Hcr : cr3 k1 = r * 4096.
Hypothesis Hbin : binary_at.

Lemma load_one s g mp img j :
  loading s g mp img → 0 ≤ j < size → vload8 (b + j) (set_mm s k1) = Ok (image j, set_mm s k1).
Proof.
  intros L Hj. destruct (Hbin j Hj) as (Hb & Hva & e & Ht & He & Hn & Hm).
  unfold vload8, mbind, M_bind, get, vtranslate. cbn [mm set_mm cr3]. change PAGE_SIZE with 4096.
  rewrite u64_small, Hcr, Z.div_mul by lia. destruct Hr as [Hl _].
  rewrite (lo_other _ _ _ _ L r r) by auto. rewrite (kernel_translate k1 g0 tl r r) by (done || apply I0). rewrite Ht. cbn.
  rewrite (lo_mem _ _ _ _ L), Hm; [done|..]; by replace ((frame e * 4096 + (b + j) mod 4096) / 4096) with (frame e) by dlia.
Qed.

Lemma store_one s g mp img va v :
  loading s g mp img → in_user va → mp va →
  ∃ s', vstore8 va v (set_mm s k1) = Ok ((), set_mm s' k1) ∧ loading s' g mp (<[va := Some v]> img).
Proof.
  intros L Hva Hm. pose proof (lo_kwf _ _ _ _ L) as Hk. pose proof (kw_wf _ _ _ _ Hk) as W. cbn [mm set_mm] in W.
  destruct (loading_root s g mp img L) as [Hl HrK]. pose proof (in_user_idx va Hva) as Hi.
  destruct (proj2 (lo_map _ _ _ _ L va Hva) Hm) as [e Ht]. destruct (loading_page s g mp img va e L Hi Ht) as [Hn Hel].
  destruct (lo_user _ _ _ _ L va e Hi Ht) as [Hfe He].
  set (a := frame e * 4096 + va mod 4096). assert (a / 4096 = frame e) as Ha by (unfold a; dlia).
  exists (set_phys (<[a := v]> (phys s)) s). split.
  { unfold vstore8, mbind, M_bind, get, vtranslate. cbn [mm set_mm cr3]. change PAGE_SIZE with 4096.
    unfold in_user, USER_TOP in Hva. rewrite u64_small, Hcr, Z.div_mul by lia. rewrite Ht. cbn. done. }
  assert (∀ x, x / 4096 ≠ frame e → (<[a := v]> (phys s)) x = phys s x) as Hmem.
  { intros x Hx. apply fn_lookup_insert_ne. congruence. }
  assert (∀ x l i, lab g x = Some l → 0 ≤ i < 512 → entry_at (<[a := v]> (phys s)) x i = entry_at (phys s) x i) as Hent.
  { intros x l i Hx Hxi. apply rd64_ext. intros y Hy. apply Hmem. assert (x ≠ frame e) by congruence. dlia. }
  assert (∀ x o va', lab g x = Some (Lab o []) → translate (<[a := v]> (phys s)) x va' = translate (phys s) x va') as Htr
    by (intros x o va' Hx; by apply (translate_same K s g _ x o)).
  destruct L as [L1 L2 L3 L4 L5 L6 L7 L8 L9 L10 L11 L12 L13 L14]. constructor; cbn [phys set_phys pages_cnt]; try done.
  - apply (kwf_mm K (set_mm s k1) g tl); try done; [by apply wf_phys|]. intros x o i Hx Hxi.
    apply (Hent x (Lab o [])); [done|]. rewrite KIDX_val in Hxi. lia.
  - intros x l i Hx Ho Hxi. rewrite (Hent x l) by auto. by apply (L6 x l).
  - apply (views_sub _ _ _ _ _ L7). intros x va' e' ([Hx HxK] & Hva' & Ht'). rewrite (Htr x x) in Ht' by done. done.
  - intros x o va' Hx Hne. rewrite (Htr x o) by auto. by apply (L8 x o).
  - intros x Hx Hxn. rewrite Hmem; [by apply L9|]. congruence.
  - intros va' e' Hva'. rewrite (Htr r r) by done. by apply L12.
  - intros va' Hva'. rewrite (Htr r r) by done. by apply L13.
  - intros va' v'. rewrite fn_insert_dec. destruct (decide (va = va')) as [<-|Hne].
    + intros [= <-]. split; [done|]. unfold ubyte. rewrite (Htr r r), Ht by done. cbn. fold a. by rewrite fn_lookup_insert.
    + intros Hb. destruct (L14 va' v' Hb) as [Hu Hub]. split; [done|]. rewrite <- Hub. unfold ubyte. rewrite (Htr r r) by done.
      destruct (translate (phys s) r va') as [e'|] eqn:Ht'; [|done]. cbn. f_equal. apply fn_lookup_insert_ne.
      intros E. apply Hne. apply full_path_inj; try done.
      * destruct (vo_excl _ _ _ L7 r va e r va' e') as [_ ?]; try done.
        -- split; [done|]. split; [|done]. by apply in_user_idx.
        -- rewrite He. change PTE_W with (2 ^ 1). rewrite mk_flag by lia. done.
        -- unfold a in E. dlia.
      * unfold a in E. dlia.
Qed.

(** ** Segments *)

Context (t : Z).
Hypothesis Ht : 0 ≤ t < TASK_MAX_CNT.
Hypothesis Hpm : pml4 (tasks k1 t) = VADDR (bld (mm k1)) (r * 4096).

Lemma vload_ok s g mp img o n :
  loading s g mp img → 0 ≤ o → o + Z.of_nat n ≤ size →
  vload (b + o) n (set_mm s k1) = Ok (le image o n, set_mm s k1).
Proof.
  intros L. revert o. induction n as [|n IH]; intros o Ho Hn; cbn [vload le]; [done|].
  unfold mbind, M_bind. rewrite (load_one s g mp img o L) by lia. rewrite <- Z.add_assoc, IH by lia. done.
Qed.

Lemma loading_bld s g mp img : loading s g mp img → bld s = bld (mm k1).
Proof.
  intros L. destruct (kw_build _ _ _ _ (lo_kwf _ _ _ _ L)) as [E _]. cbn [mm set_mm] in E.
  destruct (kw_build _ _ _ _ (ki_kwf _ _ _ _ _ I0)) as [E' _]. congruence.
Qed.

(** Bytes [n] of the image copied to [dst]. *)
Definition copy_img (dst off n : Z) (img : Z → option byte) (va : Z) : option byte :=
  if (dst <=? va) && (va <? dst + n) then Some (image (off + (va - dst))) else img va.

Lemma copy_ok s g mp img dst off n :
  loading s g mp img → 0 ≤ n → 0 ≤ off → off + n ≤ size →
  (∀ j, 0 ≤ j < n → in_user (dst + j) ∧ mp (dst + j)) →
  wp (vmemcpy dst (b + off) n) (λ _ k', ∃ s', k' = set_mm s' k1 ∧ loading s' g mp (copy_img dst off n img)) (set_mm s k1).
Proof.
  intros L Hn Ho Hsz Hd. unfold vmemcpy.
  apply (wp_mfor _ _ (λ dn k', ∃ s', k' = set_mm s' k1 ∧ loading s' g mp (copy_img dst off (Z.of_nat (length dn)) img))).
  - exists s. split; [done|]. eapply loading_weaken; [exact L|done|]. intros va v. unfold copy_img. cbn.
    destruct ((dst <=? va) && _) eqn:E; [bools; lia|done].
  - intros dn i rest k' Hz (s' & -> & L'). destruct (zseq_split _ _ _ _ _ Hz) as [Hi Hlen]. rewrite Z.add_0_l in Hi.
    assert (0 ≤ i < n) as Hin by lia. destruct (Hd i Hin) as [Hu Hm].
    apply wp_bind. eapply wp_eq; [rewrite <- Z.add_assoc; apply (load_one s' g mp _ (off + i) L'); lia|].
    destruct (store_one s' g mp _ (dst + i) (image (off + i)) L' Hu Hm) as (s2 & Hst & L2).
    eapply wp_eq; [exact Hst|]. exists s2. split; [done|]. eapply loading_weaken; [exact L2|done|].
    intros va v. unfold copy_img. rewrite length_app. cbn [length]. rewrite fn_insert_dec.
    destruct (decide (dst + i = va)) as [<-|Hne].
    + replace ((dst <=? dst + i) && (dst + i <? dst + Z.of_nat (length dn + 1))) with true by (symmetry; apply andb_true_intro; split; [apply Z.leb_le|apply Z.ltb_lt]; lia).
      by replace (dst + i - dst) with i by lia.
    + destruct ((dst <=? va) && (va <? dst + Z.of_nat (length dn + 1))) eqn:E1, ((dst <=? va) && (va <? dst + Z.of_nat (length dn))) eqn:E2;
        bools; done || lia.
  - intros k' (s' & -> & L'). exists s'. split; [done|]. rewrite zseq_length, Z2Nat.id in L' by done. done.
Qed.

Definition zero_img (dst n : Z) (img : Z → option byte) (va : Z) : option byte :=
  if (dst <=? va) && (va <? dst + n) then Some Byte.x00 else img va.

Lemma zero_ok s g mp img dst n :
  loading s g mp img → 0 ≤ n → (∀ j, 0 ≤ j < n → in_user (dst + j) ∧ mp (dst + j)) →
  wp (vmemset dst 0 n) (λ _ k', ∃ s', k' = set_mm s' k1 ∧ loading s' g mp (zero_img dst n img)) (set_mm s k1).
Proof.
  intros L Hn Hd. unfold vmemset.
  apply (wp_mfor _ _ (λ dn k', ∃ s', k' = set_mm s' k1 ∧ loading s' g mp (zero_img dst (Z.of_nat (length dn)) img))).
  - exists s. split; [done|]. eapply loading_weaken; [exact L|done|]. intros va v. unfold zero_img. cbn.
    destruct ((dst <=? va) && _) eqn:E; [bools; lia|done].
  - intros dn i rest k' Hz (s' & -> & L'). destruct (zseq_split _ _ _ _ _ Hz) as [Hi Hlen]. rewrite Z.add_0_l in Hi.
    assert (0 ≤ i < n) as Hin by lia. destruct (Hd i Hin) as [Hu Hm].
    destruct (store_one s' g mp _ (dst + i) (z2b 0) L' Hu Hm) as (s2 & Hst & L2).
    eapply wp_eq; [exact Hst|]. exists s2. split; [done|]. eapply loading_weaken; [exact L2|done|].
    intros va v. unfold zero_img. rewrite length_app. cbn [length]. rewrite fn_insert_dec.
    destruct (decide (dst + i = va)) as [<-|Hne].
    + by replace ((dst <=? dst + i) && (dst + i <? dst + Z.of_nat (length dn + 1))) with true by (symmetry; apply andb_true_intro; split; [apply Z.leb_le|apply Z.ltb_lt]; lia).
    + destruct ((dst <=? va) && (va <? dst + Z.of_nat (length dn + 1))) eqn:E1, ((dst <=? va) && (va <? dst + Z.of_nat (length dn))) eqn:E2;
        bools; done || lia.
  - intros k' (s' & -> & L'). exists s'. split; [done|]. rewrite zseq_length, Z2Nat.id in L' by done. done.
Qed.

(** A message. *)
Lemma loading_printf fmt ap s g mp img (Q : () → kstate T → Prop) :
  fmt_ok fmt ap = true → loading s g mp img → (∀ s', loading s' g mp img → Q () (set_mm s' k1)) →
  wp (kprintf fmt ap) Q (set_mm s k1).
Proof.
  intros Hf L HQ. apply wp_kprintf; [done|apply (wf_con _ _ _ (kw_wf _ _ _ _ (lo_kwf _ _ _ _ L)))|].
  intros c Hc. apply (HQ (set_con c s)). by apply loading_con.
Qed.

(** The outcome of a step of the loader: failure, or memory as described. *)
Definition load_post (mp : Z → Prop) (img : Z → option byte) (ok : bool) (k' : kstate T) : Prop :=
  ∃ s' g', k' = set_mm s' k1 ∧
    if ok then loading s' g' mp img else ∃ mp' img', loading s' g' mp' img'.

Lemma page_loop nm s g mp img base n :
  loading s g mp img → base mod 4096 = 0 → 0 ≤ base → base + Z.of_nat n * 4096 ≤ USER_TOP →
  (∀ va v, img va = Some v → ¬ base ≤ va < base + Z.of_nat n * 4096) →
  wp (mfor_ret (zseq 0 n) (λ n,
        let i := n * PAGE_SIZE in
        pg ← liftm page_alloc;
        match pg with
        | None => kprintf ("Can't load `%s': no more free pages" ++ nl) [AStr nm] ;; mret (Some (-1))
        | Some p =>
            tk ← get_task (TSlot t);
            r ← liftm (page_insert (pml4 tk) p (u64 (base + i)) (Z.lor PTE_U PTE_W));
            if negb (r =? 0) then
              kprintf ("Can't load `%s': page_insert failed" ++ nl) [AStr nm] ;; mret (Some (-1))
            else mret None
        end))
    (λ res k', (res = None ∨ res = Some (-1)) ∧
      load_post (λ va, mp va ∨ base ≤ va < base + Z.of_nat n * 4096) img (bool_decide (res = None)) k') (set_mm s k1).
Proof.
  intros L Hb Hb0 Hbn Himg.
  apply (wp_mfor_ret _ _ (λ dn k', load_post (λ va, mp va ∨ base ≤ va < base + Z.of_nat (length dn) * 4096) img true k')).
  - exists s, g. split; [done|]. eapply loading_weaken; [exact L| |done]. intros va _. cbn. split; [by left|].
    intros [?|?]; [done|lia].
  - intros dn i rest k' Hz (s' & g' & -> & L'). destruct (zseq_split _ _ _ _ _ Hz) as [Hi Hlen]. rewrite Z.add_0_l in Hi.
    change PAGE_SIZE with 4096. cbn zeta.
    assert (in_user (base + i * 4096)) as Hu by (unfold in_user, USER_TOP in *; lia).
    assert (u64 (base + i * 4096) = base + i * 4096) as -> by (unfold in_user, USER_TOP in Hu; apply u64_small; lia).
    destruct (map_one s' g' _ img (base + i * 4096) L' Hu) as [Hno|(p & s1 & ret & s2 & g2 & Hpa & Hins & Hout)].
    { dlia. }
    { intros va v Hv Hin. apply (Himg va v Hv). lia. }
    + apply wp_bind. eapply wp_eq; [apply liftm_ok; exact Hno|]. apply wp_bind.
      eapply (loading_printf _ _ s' g'); [done|exact L'|]. intros s2 L2. apply wp_ret.
      split; [by right|]. exists s2, g'. split; [done|]. rewrite bool_decide_false by done. eauto.
    + apply wp_bind. eapply wp_eq; [apply liftm_ok; exact Hpa|]. apply wp_bind. eapply wp_eq; [by apply get_slot_ok|].
      cbn [tasks set_mm]. rewrite Hpm, <- (loading_bld s' g' _ img L').
      apply wp_bind. eapply wp_eq; [apply liftm_ok; exact Hins|]. change (set_mm s2 (set_mm _ _)) with (set_mm s2 k1).
      destruct Hout as [[-> L2]|[-> L2]]; cbn [Z.eqb negb].
      * apply wp_bind. eapply (loading_printf _ _ s2 g2); [done|exact L2|]. intros s3 L3. apply wp_ret.
        split; [by right|]. exists s3, g2. split; [done|]. rewrite bool_decide_false by done. eauto.
      * apply wp_ret. exists s2, g2. split; [done|]. eapply loading_weaken; [exact L2| |done].
        intros va _. rewrite length_app. cbn [length]. split.
        -- intros [[?|?]|?]; [by left|right; lia|right; lia].
        -- intros [?|?]; [by left; left|]. destruct (decide (va < base + i * 4096)); [left; right; lia|right; lia].
  - intros k' (s' & g' & -> & L'). rewrite zseq_length in L'. split; [by left|]. exists s', g'. done.
Qed.

(** The user memory with segment [i]. *)
Definition seg_img (i : Z) (img : Z → option byte) (va : Z) : option byte :=
  if (ph_va image i <=? va) && (va <? ph_va image i + ph_memsz image i)
  then Some (seg_byte image i (va - ph_va image i)) else img va.

Lemma seg_bounds i :
  seg_ok image size i →
  seg_base image i mod 4096 = 0 ∧ 0 ≤ seg_base image i ∧ 0 ≤ seg_len image i ∧ seg_len image i mod 4096 = 0 ∧
  seg_base image i + seg_len image i ≤ USER_TOP ∧
  seg_base image i ≤ ph_va image i ∧ ph_va image i + ph_memsz image i ≤ seg_base image i + seg_len image i.
Proof.
  intros [_ _ H3 H4]. pose proof (le_nonneg image (ph_at image i + 16) 8) as Hv. fold (ph_va image i) in Hv.
  pose proof (le_nonneg image (ph_at image i + 40) 8) as Hm. fold (ph_memsz image i) in Hm.
  assert (0 ≤ seg_len image i ∧ seg_len image i mod 4096 = 0) as [Hl0 Hl].
  { unfold seg_len, ROUND_UP, ROUND_DOWN, PAGE_SIZE. pose proof (u64_range (ph_memsz image i + 4096 - 1)).
    generalize dependent (u64 (ph_memsz image i + 4096 - 1)). intros x Hx. dlia. }
  unfold seg_base, ROUND_DOWN, PAGE_SIZE, USER_STACK_TOP, USER_TOP in *. generalize dependent (seg_len image i). dlia.
Qed.

Lemma load_segment nm s g mp img i :
  loading s g mp img → 0 ≤ ph_at image i → ph_at image i + SIZEOF_PHEADER64 ≤ size → seg_ok image size i →
  (∀ va v, img va = Some v → ¬ seg_pages image i va) →
  wp (task_load_segment t nm b (b + ph_at image i))
    (λ ret k', (ret = 0 ∨ ret = -1) ∧
      load_post (λ va, mp va ∨ seg_pages image i va) (seg_img i img) (ret =? 0) k') (set_mm s k1).
Proof.
  intros L Ha Hsz Hok Himg. destruct (seg_bounds i Hok) as (B1 & B2 & B3 & B4 & B5 & B6 & B7).
  pose proof Hok as [O1 O2 O3 O4]. unfold SIZEOF_PHEADER64 in Hsz.
  pose proof (le_nonneg image (ph_at image i + 8) 8) as Hoff. fold (ph_offset image i) in Hoff.
  pose proof (le_nonneg image (ph_at image i + 32) 8) as Hfs. fold (ph_filesz image i) in Hfs.
  assert (∀ s' g' mp' img' o n, loading s' g' mp' img' → 0 ≤ o → o + Z.of_nat n ≤ 56 →
    vload (b + ph_at image i + o) n (set_mm s' k1) = Ok (le image (ph_at image i + o) n, set_mm s' k1)) as Hld.
  { intros s' g' mp' img' o n L' Ho Hn. rewrite <- Z.add_assoc. apply (vload_ok s' g' mp' img'); [done|lia|lia]. }
  unfold task_load_segment. apply wp_bind. eapply wp_eq; [by eapply (Hld s g mp img 16 8%nat)|]. fold (ph_va image i).
  apply wp_bind. eapply wp_eq; [by eapply (Hld s g mp img 40 8%nat)|]. fold (ph_memsz image i).
  fold (seg_base image i) (seg_len image i). cbn zeta.
  assert (seg_len image i = Z.of_nat (Z.to_nat (seg_len image i / PAGE_SIZE)) * 4096) as Elen.
  { rewrite Z2Nat.id by (apply Z.div_pos; [lia|done]). change PAGE_SIZE with 4096. dlia. }
  apply wp_bind. eapply wp_mono.
  { apply (page_loop nm s g mp img (seg_base image i)); try done.
    - rewrite <- Elen. done.
    - intros va v Hv. rewrite <- Elen. by apply (Himg va v). }
  rewrite <- Elen. intros res k' [[->| ->] (s1 & g1 & -> & L1)].
  2: { rewrite bool_decide_false in L1 by done. apply wp_ret. split; [by right|]. by exists s1, g1. }
  rewrite bool_decide_true in L1 by done.
  apply wp_bind. eapply wp_eq; [by eapply (Hld s1 g1 _ _ 8 8%nat)|]. fold (ph_offset image i).
  apply wp_bind. eapply wp_eq; [by eapply (Hld s1 g1 _ _ 32 8%nat)|]. fold (ph_filesz image i).
  assert (∀ j, 0 ≤ j < ph_memsz image i →
    in_user (ph_va image i + j) ∧ (mp (ph_va image i + j) ∨ seg_pages image i (ph_va image i + j))) as Hin.
  { intros j Hj. unfold in_user, seg_pages. split; [lia|right; lia]. }
  apply wp_bind. eapply wp_mono.
  { apply (copy_ok s1 g1 _ img (ph_va image i) (ph_offset image i) (ph_filesz image i) L1); try lia.
    intros j Hj. apply Hin. lia. }
  intros [] k2 (s2 & -> & L2). apply wp_bind.
  assert (u64 (ph_memsz image i - ph_filesz image i) = ph_memsz image i - ph_filesz image i) as ->.
  { apply u64_small. pose proof (le_bound image (ph_at image i + 40) 8). fold (ph_memsz image i) in *. change (256 ^ Z.of_nat 8) with (2 ^ 64) in *. lia. }
  eapply wp_mono.
  { apply (zero_ok s2 g1 _ _ (ph_va image i + ph_filesz image i) (ph_memsz image i - ph_filesz image i) L2); [lia|].
    intros j Hj. rewrite <- Z.add_assoc. apply Hin. lia. }
  intros [] k3 (s3 & -> & L3). apply wp_ret. split; [by left|]. exists s3, g1. split; [done|]. cbn [Z.eqb].
  eapply loading_weaken; [exact L3|done|]. intros va v. unfold seg_img, zero_img, copy_img, seg_byte.
  destruct ((ph_va image i <=? va) && (va <? ph_va image i + ph_memsz image i)) eqn:E1;
    destruct ((ph_va image i + ph_filesz image i <=? va) && _) eqn:E2;
    destruct ((ph_va image i <=? va) && (va <? ph_va image i + ph_filesz image i)) eqn:E3;
    destruct (va - ph_va image i <? ph_filesz image i) eqn:E4; bools; try done; lia.
Qed.

(** ** The program headers *)

Hypothesis Helf : elf_ok image size.

(** Everything a program asks for. *)
Definition prog_pages (va : Z) : Prop := ∃ i, is_load image i ∧ seg_pages image i va.

Definition prog_img (img : Z → option byte) : Prop := ∀ i j,
  is_load image i → 0 ≤ j < ph_memsz image i → img (ph_va image i + j) = Some (seg_byte image i j).

(** After the first [n] headers. *)
Record headers_done (n : nat) (mp : Z → Prop) (img : Z → option byte) : Prop := {
  hd_ok i : i < Z.of_nat n → is_load image i → seg_ok image size i;
  hd_map va : mp va ↔ ∃ i, i < Z.of_nat n ∧ is_load image i ∧ seg_pages image i va;
  hd_img i j : i < Z.of_nat n → is_load image i → 0 ≤ j < ph_memsz image i →
    img (ph_va image i + j) = Some (seg_byte image i j);
  hd_dom va v : img va = Some v → ∃ i, i < Z.of_nat n ∧ is_load image i ∧ seg_pages image i va;
}.

Lemma headers_0 : headers_done 0 (λ _, False) (λ _, None).
Proof.
  constructor; try done.
  - intros i ? [? _]. lia.
  - intros va. split; [done|]. intros (i & ? & [? _] & _). lia.
  - intros i j ? [? _]. lia.
Qed.

Lemma headers_skip n mp img :
  ph_type image (Z.of_nat n) ≠ ELF_PHEADER_TYPE_LOAD → headers_done n mp img → headers_done (S n) mp img.
Proof.
  intros Hty [H0 H1 H2 H3].
  assert (∀ i, i < Z.of_nat (S n) → is_load image i → i < Z.of_nat n) as Hlt.
  { intros i Hi [_ Hl]. assert (i ≠ Z.of_nat n) by congruence. lia. }
  constructor.
  - intros i Hi Hl. by apply H0; [apply Hlt|].
  - intros va. rewrite H1. split; intros (i & Hi & Hl & Hp); exists i; (split; [|done]); [lia|auto].
  - intros i j Hi Hl. by apply H2; [apply Hlt|].
  - intros va v Hv. destruct (H3 va v Hv) as (i & Hi & Hl). exists i. split; [lia|done].
Qed.

Lemma seg_inside i va :
  seg_ok image size i → ph_va image i ≤ va < ph_va image i + ph_memsz image i → seg_pages image i va.
Proof. intros Hok Hva. destruct (seg_bounds i Hok) as (_ & _ & _ & _ & _ & ? & ?). unfold seg_pages. lia. Qed.

Lemma headers_load n mp img :
  let i := Z.of_nat n in
  is_load image i → seg_ok image size i → headers_done n mp img →
  headers_done (S n) (λ va, mp va ∨ seg_pages image i va) (seg_img i img).
Proof.
  intros i Hload Hok [H0 H1 H2 H3].
  assert (∀ i', i' < Z.of_nat (S n) → i' < Z.of_nat n ∨ i' = i) as Hcase by (unfold i; lia).
  constructor.
  - intros i' [Hi| ->]%Hcase Hl; [by apply H0|done].
  - intros va. rewrite H1. split.
    + intros [(i' & Hi & Hl & Hp)|Hp]; [exists i'|exists i]; (split; [unfold i in *; lia|done]).
    + intros (i' & [Hi| ->]%Hcase & Hl & Hp); [left|right]; eauto.
  - intros i' j [Hi| ->]%Hcase Hl Hj; unfold seg_img.
    + destruct ((_ <=? _) && _) eqn:E; [|by apply H2]. bools. exfalso.
      pose proof (seg_inside i (ph_va image i' + j) Hok ltac:(lia)) as Hp.
      pose proof (seg_inside i' (ph_va image i' + j) (H0 i' Hi Hl) ltac:(lia)) as Hp'.
      pose proof (eo_disjoint _ _ Helf i i' _ Hload Hl Hp Hp') as E'. unfold i in E'. lia.
    + replace ((_ <=? _) && _) with true by (symmetry; apply andb_true_intro; split; [apply Z.leb_le|apply Z.ltb_lt]; lia).
      by replace (ph_va image i + j - ph_va image i) with j by lia.
  - intros va v. unfold seg_img. destruct ((_ <=? _) && _) eqn:E.
    + intros _. bools. exists i. split; [unfold i; lia|]. split; [done|]. by apply seg_inside.
    + intros Hv. destruct (H3 va v Hv) as (i' & Hi & Hl). exists i'. split; [lia|done].
Qed.

(** The loop of [task_load] over the program headers. *)
Lemma header_loop nm s g :
  loading s g (λ _, False) (λ _, None) →
  wp (mfor_ret (zseq 0 (Z.to_nat (eh_phnum image))) (λ i,
        let ph := b + eh_phoff image + SIZEOF_PHEADER64 * i in
        ty ← p_type ph;
        if negb (ty =? ELF_PHEADER_TYPE_LOAD) then mret None
        else
          off ← p_offset ph;
          if size <? off then
            kprintf ("Can't load task `%s': truncated binary" ++ nl) [AStr nm] ;; mret (Some ())
          else
            r ← task_load_segment t nm b ph;
            mret (if negb (r =? 0) then Some () else None)))
    (λ res k', ∃ s' g' mp img, k' = set_mm s' k1 ∧ loading s' g' mp img ∧
      (res = None → (∀ va, mp va ↔ prog_pages va) ∧ prog_img img ∧ ∀ i, is_load image i → seg_ok image size i)) (set_mm s k1).
Proof.
  intros L. pose proof (le_nonneg image 32 8) as Hpo. fold (eh_phoff image) in Hpo.
  pose proof (eo_table _ _ Helf) as Htab. unfold ph_at, SIZEOF_PHEADER64 in Htab.
  pose proof (le_nonneg image 56 2) as Hpn. fold (eh_phnum image) in Hpn.
  apply (wp_mfor_ret _ _ (λ dn k', ∃ s' g' mp img, k' = set_mm s' k1 ∧ loading s' g' mp img ∧ headers_done (length dn) mp img)).
  - exists s, g, (λ _, False), (λ _, None). split; [done|]. split; [done|apply headers_0].
  - intros dn i rest k' Hz (s' & g' & mp & img & -> & L' & Hd). destruct (zseq_split _ _ _ _ _ Hz) as [Hi Hlen].
    rewrite Z.add_0_l in Hi. cbn zeta. rewrite length_app. cbn [length]. rewrite Nat.add_1_r.
    assert (b + eh_phoff image + SIZEOF_PHEADER64 * i = b + ph_at image i) as -> by (unfold ph_at; lia).
    assert (0 ≤ ph_at image i ∧ ph_at image i + 56 ≤ size) as [Ha Hsz] by (unfold ph_at, SIZEOF_PHEADER64; lia).
    apply wp_bind. eapply wp_eq; [apply (vload_ok s' g' mp img (ph_at image i) 4 L'); lia|]. fold (ph_type image i).
    destruct (Z.eqb_spec (ph_type image i) ELF_PHEADER_TYPE_LOAD) as [Hty|Hty]; cbn [negb].
    2: { apply wp_ret. exists s', g', mp, img. split; [done|]. split; [done|]. apply headers_skip; [by rewrite <- Hi|done]. }
    assert (is_load image i) as Hload by (split; [lia|done]).
    apply wp_bind. eapply wp_eq; [unfold p_offset; rewrite <- Z.add_assoc; apply (vload_ok s' g' mp img (ph_at image i + 8) 8 L'); lia|].
    fold (ph_offset image i). destruct (Z.ltb_spec size (ph_offset image i)) as [Htr|Hoff].
    { apply wp_bind. eapply (loading_printf _ _ s' g'); [done|exact L'|]. intros s2 L2. apply wp_ret.
      exists s2, g', mp, img. done. }
    pose proof (eo_segs _ _ Helf i Hload Hoff) as Hok. apply wp_bind. eapply wp_mono.
    { apply (load_segment nm s' g' mp img i L' Ha Hsz Hok). intros va v Hv Hp.
      destruct (hd_dom _ _ _ Hd va v Hv) as (i' & Hi' & Hl' & Hp').
      pose proof (eo_disjoint _ _ Helf i i' va Hload Hl' Hp Hp'). lia. }
    intros ret k2 [[->| ->] (s2 & g2 & -> & L2)]; cbn [Z.eqb negb] in *; apply wp_ret.
    + eexists s2, g2, _, _. split; [done|]. split; [exact L2|]. rewrite Hi. apply headers_load; [by rewrite <- Hi..|done].
    + destruct L2 as (mp' & img' & L2). by exists s2, g2, mp', img'.
  - intros k' (s' & g' & mp & img & -> & L' & Hd). rewrite zseq_length in Hd. exists s', g', mp, img.
    split; [done|]. split; [done|]. intros _. destruct Hd as [H0 H1 H2 _]. rewrite Z2Nat.id in H0, H1, H2 by done. split_and!.
    + intros va. rewrite H1. split; intros (i & Hi); [|destruct Hi as [[Hi ?] ?]]; exists i; [by destruct Hi|].
      split; [lia|]. done.
    + intros i j Hl. apply H2; [|done]. destruct Hl as [? _]. lia.
    + intros i Hl. apply H0; [|done]. destruct Hl as [? _]. lia.
Qed.

End load.
