(* ===== verification/CreateProofs.v ===== *)
(** [task_create]: a task is built from a program image, or everything is
    undone.

    [idle] is the state of the kernel between two tasks: the invariant holds,
    no task is marked running, the processor is on some valid address space.
    [task_load] is put together from the steps of LoadProofs, and the clean-up
    from the proof of [task_destroy]. *)

From Stdlib Require Import String.
From S2P Require Import Prelude Memory Queue Mmu Console Map AllocProofs Walk MapWf.
From S2P Require Import LookupProofs InsertProofs KmapProofs Gdt Context Task SchedProofs.
From S2P Require Import DestroyProofs TaskProofs Syscall ForkProofs Interrupt FaultProofs.
From S2P Require Import TrapProofs LoadProofs.
Import Mmu Map Task.

Section create.
Context {T : Type} `{!Console T, !ConsoleLaws T} (K : Z).
Implicit Types (k : kstate T) (s : mstate T) (g : ghost) (tl : list Z) (m : mem).

(** The processor uses the page tables of some address space. *)
Definition on_root k g : Prop := ∃ x, cr3 k = x * 4096 ∧ lab g x = Some (Lab x []).

Record idle k g tl (f : Z) : Prop := {
  id_inv : kinv K k g tl f;
  id_norun : no_run k;
  id_cr3 : on_root k g;
}.

(** Existing address spaces and data are as before. *)
Record kept k g k' : Prop := {
  kp_tr x o va : lab g x = Some (Lab o []) → translate (phys (mm k')) x va = translate (phys (mm k)) x va;
  kp_mem y : lab g (y / 4096) = None → y / 4096 ∉ fl g → phys (mm k') y = phys (mm k) y;
}.

Lemma kept_con k g c : kept k g (set_mm (set_con c (mm k)) k).
Proof. by constructor. Qed.

Lemma kinv_cr3 k g tl f v : kinv K k g tl f → kinv K (set_cr3 v k) g tl f.
Proof.
  intros I. apply (kinv_step K k g tl f); try done; try apply I.
  exact (kwf_tasks K k g tl (set_cr3 v k) (ki_kwf _ _ _ _ _ I) eq_refl (λ _, eq_refl) eq_refl eq_refl).
Qed.

(** The byte [b + o] of the image read through the current tables. *)
Lemma bin_load k g tl f b size image o n :
  idle k g tl f → binary_at K k g b size image → 0 ≤ o → o + Z.of_nat n ≤ size →
  vload (b + o) n k = Ok (le image o n, k).
Proof.
  intros [I _ (x & Hx & Hl)] Hbin. revert o. induction n as [|n IH]; intros o Ho Hn; cbn [vload le]; [done|].
  destruct (Hbin o ltac:(lia)) as (Hb & Hva & e & Ht & _ & _ & Hm).
  assert (vload8 (b + o) k = Ok (image o, k)) as E.
  { unfold vload8, mbind, M_bind, get, vtranslate. change PAGE_SIZE with 4096. rewrite u64_small, Hx, Z.div_mul by lia.
    rewrite (kernel_translate K k g tl x x) by (done || apply I). rewrite Ht. cbn. by rewrite Hm. }
  unfold mbind, M_bind. rewrite E, <- Z.add_assoc, IH by lia. done.
Qed.

(** ** After [task_new] *)

Lemma new_kinv k g t tl' p fl' nm f k' :
  kinv K k g (t :: tl') f → task_created K k g t p tl' fl' nm k' → kinv K k' (root_ghost g p fl') tl' f.
Proof.
  intros I [Hfl Hsl Hk' Htr Hold Hrefs Hcnt Hmem]. pose proof (ki_kwf _ _ _ _ _ I) as Hk. pose proof (kw_wf _ _ _ _ Hk) as W.
  pose proof (kw_K _ _ _ _ Hk) as HK. pose proof (λ x l, root_lab_old K (mm k) g p fl' W HK Hfl x l) as Hlo.
  apply (kinv_step K k g (t :: tl') f); try done.
  - intros x l Hx _. by apply Hlo.
  - intros x l i Hx _ Hi. destruct (Hlo x l Hx) as [Hne _]. apply rd64_ext. intros y Hy. apply Hmem. dlia.
  - apply (views_sub _ _ _ _ _ (ki_views _ _ _ _ _ I)). intros x va e ([Hx HxK] & Hva & Ht).
    apply root_lab in Hx as [[-> _]|[Hne Hx]].
    + rewrite Htr in Ht. by rewrite (proj2 (Z.ltb_lt _ _) Hva) in Ht.
    + rewrite (Hold x x va Hx) in Ht. done.
  - rewrite (sl_next _ _ _ _ _ Hsl). exact (ki_next _ _ _ _ _ I).
  - intros j Hj. destruct (decide (j = t)) as [->|Hne].
    + rewrite (sl_task _ _ _ _ _ Hsl). by intros [?|?].
    + rewrite (sl_other _ _ _ _ _ Hsl) by done. by apply (ki_alive _ _ _ _ _ I).
Qed.

Lemma new_idle k g t tl' p fl' nm f k' :
  idle k g (t :: tl') f → task_created K k g t p tl' fl' nm k' → idle k' (root_ghost g p fl') tl' f.
Proof.
  intros [I Hn (x & Hx & Hl)] C. pose proof C as [Hfl Hsl _ _ _ _ _ _]. constructor; [by eapply new_kinv|..].
  - intros j Hj. destruct (decide (j = t)) as [->|Hne]; [by rewrite (sl_task _ _ _ _ _ Hsl)|].
    rewrite (sl_other _ _ _ _ _ Hsl) by done. by apply Hn.
  - exists x. rewrite (sl_cr3 _ _ _ _ _ Hsl). split; [done|]. pose proof (ki_kwf _ _ _ _ _ I) as Hk.
    by apply (root_lab_old K (mm k) g p fl' (kw_wf _ _ _ _ Hk) (kw_K _ _ _ _ Hk) Hfl).
Qed.

Lemma new_root k g t tl' p fl' nm f k' :
  kinv K k g (t :: tl') f → task_created K k g t p tl' fl' nm k' →
  user_root K (root_ghost g p fl') p ∧ 0 ≤ t < TASK_MAX_CNT ∧
  pml4 (tasks k' t) = VADDR (bld (mm k')) (p * 4096) ∧ pml4 (tasks k' t) ≠ NULL ∧
  (∀ va, PML4_IDX va < KIDX → translate (phys (mm k')) p va = None) ∧ PADDR (bld (mm k')) (pml4 (tasks k' t)) = p * 4096.
Proof.
  intros I C. pose proof C as [Hfl Hsl Hk' Htr _ _ Hcnt _]. pose proof (ki_kwf _ _ _ _ _ I) as Hk. pose proof (kw_wf _ _ _ _ Hk) as W.
  destruct (root_p K (mm k) g p fl' W (kw_K _ _ _ _ Hk) Hfl) as (Hpr & _ & _ & HpK).
  assert (bld (mm k') = bld (mm k)) as Hb.
  { destruct (kw_build _ _ _ _ Hk') as [-> _], (kw_build _ _ _ _ Hk) as [-> _]. done. }
  assert (pml4 (tasks k' t) = VADDR (bld (mm k')) (p * 4096)) as Hpm by (by rewrite (sl_task _ _ _ _ _ Hsl), Hb).
  split_and!; try done.
  - split; [|done]. cbn. by rewrite fn_lookup_insert.
  - apply (kw_slots _ _ _ _ Hk t). by left.
  - apply (kw_slots _ _ _ _ Hk t). by left.
  - rewrite Hpm, Hb, (VADDR_kernel (mm k) p (kw_build _ _ _ _ Hk) Hpr). destruct Hpr. unfold NULL, KERNEL_BASE. lia.
  - intros va Hva. rewrite Htr. by rewrite (proj2 (Z.ltb_lt _ _) Hva).
  - rewrite Hpm, Hb. pose proof (PADDR_entry (mm k) p 0 (wf_build _ _ _ W) Hpr ltac:(lia)) as Ep. by rewrite !Z.add_0_r in Ep.
Qed.

Lemma new_binary k g t tl' p fl' nm f k' b size image :
  kinv K k g (t :: tl') f → task_created K k g t p tl' fl' nm k' → binary_at K k g b size image →
  binary_at K k' (root_ghost g p fl') b size image.
Proof.
  intros I [Hfl _ _ _ Hold _ _ Hmem] Hbin j Hj. destruct (Hbin j Hj) as (H1 & H2 & e & Ht & Hl & Hn & Hm).
  pose proof (ki_kwf _ _ _ _ _ I) as Hk. assert (frame e ≠ p) as Hne by (intros <-; apply Hn; rewrite Hfl; by left).
  split; [done|]. split; [done|]. exists e. split; [by rewrite (Hold K K _ (kw_K _ _ _ _ Hk))|]. split.
  { cbn. by rewrite fn_lookup_insert_ne. }
  split; [cbn; intros ?; apply Hn; rewrite Hfl; by right|]. rewrite <- Hm. apply Hmem.
  by replace ((frame e * 4096 + (b + j) mod 4096) / 4096) with (frame e) by dlia.
Qed.

(** ** [task_load] *)

Lemma root_paddr k g tl x l :
  kwf K k g tl → lab g x = Some l → PADDR (bld (mm k)) (VADDR (bld (mm k)) (x * 4096)) = x * 4096.
Proof.
  intros Hk Hx. pose proof (kw_wf _ _ _ _ Hk) as W. destruct (wf_lab _ _ _ W x l Hx) as (Hxr & _).
  pose proof (PADDR_entry (mm k) x 0 (wf_build _ _ _ W) Hxr ltac:(lia)) as E. by rewrite !Z.add_0_r in E.
Qed.

Section built.
Context (k0 : kstate T) (g0 : ghost) (tl : list Z) (f r t : Z) (b size : Z) (image : Z → byte).
Hypothesis Hidle : idle k0 g0 tl f.
Hypothesis Hr : user_root K g0 r.
Hypothesis Ht : 0 ≤ t < TASK_MAX_CNT.
Hypothesis Hpm : pml4 (tasks k0 t) = VADDR (bld (mm k0)) (r * 4096).
Hypothesis Hno : ∀ va, PML4_IDX va < KIDX → translate (phys (mm k0)) r va = None.
Hypothesis Hbin : binary_at K k0 g0 b size image.
Hypothesis Helf : elf_ok image size.

Let k1 : kstate T := set_cr3 (r * 4096) k0.

(** The task entry after a successful load. *)
Definition loaded_task : task :=
  set_context (Context.set_rip (eh_entry image) (context (tasks k0 t))) (tasks k0 t).

Definition load_failed s' (k' : kstate T) : Prop :=
  ∃ c x, k' = set_cr3 c (set_mm s' k1) ∧ c = x * 4096 ∧ lab g0 x = Some (Lab x []).

Lemma task_load_ok nm :
  wp (task_load t nm b size) (λ ret k', ∃ s' g' mp img, loading K k1 g0 tl r s' g' mp img ∧
    (ret = -1 ∧ load_failed s' k' ∨
     ret = 0 ∧ k' = set_tasks (<[t := loaded_task]> (tasks k0)) (set_mm s' k1) ∧
     (∀ va, mp va ↔ prog_pages image va) ∧ prog_img image img ∧ ∀ i, is_load image i → seg_ok image size i)) k0.
Proof.
  pose proof Hidle as [I _ (x & Hx & Hxl)]. pose proof (ki_kwf _ _ _ _ _ I) as Hk. destruct Hr as [Hl HrK].
  pose proof (kinv_cr3 k0 g0 tl f (r * 4096) I) as I1. fold k1 in I1.
  pose proof (loading_start K k1 g0 tl f r I1 Hno) as L0. pose proof (eo_header _ _ Helf) as Hh.
  assert (binary_at K k1 g0 b size image) as Hbin1 by exact Hbin.
  assert (pml4 (tasks k1 t) = VADDR (bld (mm k1)) (r * 4096)) as Hpm1 by exact Hpm.
  pose proof (λ s g mp img o n, vload_ok K k1 g0 tl f r I1 Hr b size image eq_refl Hbin1 s g mp img o n) as Hld.
  unfold task_load. apply wp_bind. eapply wp_eq.
  { unfold e_magic. rewrite <- (Z.add_0_r b) at 1. apply (bin_load k0 g0 tl f b size image 0 4 Hidle Hbin); lia. }
  destruct (negb _).
  { apply wp_bind, wp_kprintf; [done|apply (wf_con _ _ _ (kw_wf _ _ _ _ Hk))|]. intros c Hc. apply wp_ret.
    exists (set_con c (mm k1)), g0, (λ _, False), (λ _, None). split; [by apply (loading_con K k1 g0 tl r)|].
    left. split; [done|]. exists (cr3 k0), x. split; [|done]. unfold k1. by destruct k0. }
  apply wp_bind. eapply wp_eq; [by apply get_slot_ok|]. apply wp_bind, wp_gets.
  apply wp_bind. rewrite Hpm, (root_paddr k0 g0 tl r _ Hk Hl). apply wp_modify. fold k1.
  rewrite <- (set_mm_same k1).
  apply wp_bind. eapply wp_eq; [apply (Hld (mm k1) g0 _ _ 32 8%nat L0); lia|]. fold (eh_phoff image).
  apply wp_bind. eapply wp_eq; [apply (Hld (mm k1) g0 _ _ 56 2%nat L0); lia|]. fold (eh_phnum image).
  apply wp_bind. eapply wp_mono.
  { exact (header_loop K k1 g0 tl f r I1 Hr b size image eq_refl Hbin1 t Ht Hpm1 Helf nm (mm k1) g0 L0). }
  intros res k2 (s2 & g2 & mp & img & -> & L2 & Hres). destruct res as [[]|].
  - apply wp_bind, wp_gets. apply wp_bind, wp_modify. apply wp_ret. exists s2, g2, mp, img. split; [done|]. left.
    split; [done|]. exists (K * 4096), K. split; [|split; [done|exact (kw_K _ _ _ _ Hk)]].
    cbn [config_pml4 set_mm]. change (config_pml4 k1) with (config_pml4 k0).
    by rewrite (kw_config _ _ _ _ Hk), (root_paddr k0 g0 tl K _ Hk (kw_K _ _ _ _ Hk)).
  - apply wp_bind. eapply wp_eq; [apply (Hld s2 g2 mp img 24 8%nat L2); lia|]. fold (eh_entry image).
    apply wp_bind. eapply wp_eq; [by apply upd_slot_ok|]. apply wp_ret. exists s2, g2, mp, img. split; [done|]. right.
    split; [done|]. split; [done|]. by apply Hres.
Qed.

(** ** Cleaning up *)

Definition others_same k' : Prop := ∀ j, j ≠ t → tasks k' j = tasks k0 j.

(** The states from which [task_destroy] is called. *)
Record abandoned s g k : Prop := {
  ab_load : ∃ mp img, loading K k1 g0 tl r s g mp img;
  ab_inv : kinv K k g tl f;
  ab_norun : no_run k;
  ab_cr3 : on_root k g;
  ab_mm : mm k = s;
  ab_pml4 : pml4 (tasks k t) = pml4 (tasks k0 t);
  ab_tasks : others_same k;
}.

Lemma cleanup_ok s g k :
  abandoned s g k → pml4 (tasks k0 t) ≠ NULL →
  wp (task_destroy (TSlot t) ;; mret (-1)) (λ ret k', ret = -1 ∧
    (∃ g', idle k' g' (t :: tl) f) ∧ others_same k' ∧
    (∀ x o va, lab g0 x = Some (Lab o []) → x ≠ r → translate (phys (mm k')) x va = translate (phys (mm k0)) x va) ∧
    (∀ y, lab g0 (y / 4096) = None → y / 4096 ∉ fl g0 → phys (mm k') y = phys (mm k0) y)) k.
Proof.
  intros [(mp & img & L) I Hn (x & Hx & Hxl) Hmm Hpk Hoth] Hnn.
  destruct (destroy_kinv K k g tl f t I Ht) as (k' & g' & r' & Hrun & TD & I'); [by rewrite Hpk|].
  apply wp_bind. eapply wp_eq; [exact Hrun|]. apply wp_ret. split; [done|].
  pose proof (ki_kwf _ _ _ _ _ I) as Hk. pose proof (kw_wf _ _ _ _ Hk) as W. pose proof (td_mm _ _ _ _ _ _ _ _ TD) as D.
  assert (bld (mm k) = bld (mm k0)) as Hb.
  { destruct (kw_build _ _ _ _ Hk) as [-> _], (kw_build _ _ _ _ (ki_kwf _ _ _ _ _ (id_inv _ _ _ _ Hidle))) as [-> _]. done. }
  assert (lab g r = Some (Lab r [])) as Hlr by (apply (lo_lab _ _ _ _ _ _ _ _ _ L), Hr).
  assert (r' = r) as ->.
  { pose proof (td_pml4 _ _ _ _ _ _ _ _ TD) as E. rewrite Hpk, Hpm, <- Hb in E. pose proof (td_root _ _ _ _ _ _ _ _ TD) as Hr'.
    rewrite !(VADDR_kernel (mm k)) in E; [lia|apply Hk|apply (wf_lab _ _ _ W r' _ Hr')|apply Hk|apply (wf_lab _ _ _ W r _ Hlr)]. }
  split; [exists g'; constructor; [done| |]|split_and!].
  - intros j Hj. destruct (decide (j = t)) as [->|Hne]; [by rewrite (td_task _ _ _ _ _ _ _ _ TD)|].
    rewrite (td_other _ _ _ _ _ _ _ _ TD) by done. by apply Hn.
  - unfold on_root. rewrite (td_cr3 _ _ _ _ _ _ _ _ TD). unfold cr3_after.
    rewrite Hpk, Hpm, <- Hb, (root_paddr k g tl r _ Hk Hlr). destruct (Z.eqb_spec (cr3 k) (r * 4096)) as [E|E].
    + exists K. rewrite (kw_config _ _ _ _ Hk), (root_paddr k g tl K _ Hk (kw_K _ _ _ _ Hk)). split; [done|].
      apply (de_keep _ _ _ _ _ _ D); [exact (kw_K _ _ _ _ Hk)|]. destruct Hr as [_ ?]. done.
    + exists x. split; [done|]. apply (de_keep _ _ _ _ _ _ D); [done|]. cbn. intros ->. by apply E.
  - intros j Hj. rewrite (td_other _ _ _ _ _ _ _ _ TD) by done. by apply Hoth.
  - intros y o va Hy Hne. rewrite (de_tr _ _ _ _ _ _ D y o va), Hmm.
    + apply (lo_other _ _ _ _ _ _ _ _ _ L y o va); auto.
    + by apply (lo_lab _ _ _ _ _ _ _ _ _ L).
    + rewrite <- (wf_root _ _ _ W y o); [done|]. by apply (lo_lab _ _ _ _ _ _ _ _ _ L).
  - intros y Hy Hyn. rewrite (de_mem _ _ _ _ _ _ D), Hmm; [by apply (lo_mem _ _ _ _ _ _ _ _ _ L)|].
    by apply (lo_none _ _ _ _ _ _ _ _ _ L).
Qed.

(** ** The stack and the registers *)

(** The address space of a new program. *)
Record program_space m (x : Z) : Prop := {
  ps_map va : in_user va → is_Some (translate m x va) ↔
    prog_pages image va ∨ USER_STACK_TOP - PAGE_SIZE ≤ va < USER_STACK_TOP;
  ps_perm va e : PML4_IDX va < KIDX → translate m x va = Some e → e = frame e * 4096 + 7;
  ps_bytes i j : is_load image i → 0 ≤ j < ph_memsz image i →
    ubyte m x (ph_va image i + j) = Some (seg_byte image i j);
}.

Definition started_task : task :=
  set_state TASK_STATE_READY (set_context (user_context (context loaded_task)) loaded_task).

(** The end of [task_create]. *)
Definition create_rest (nm : list Z) (rest : Z) : M (kstate T) Z :=
  if negb (rest =? 0) then task_destroy (TSlot t) ;; mret (-1)
  else
    pg ← liftm page_alloc;
    match pg with
    | None => kprintf ("Can't create `%s': no memory for user stack" ++ nl) [AStr nm] ;; task_destroy (TSlot t) ;; mret (-1)
    | Some stack =>
        tk ← get_task (TSlot t);
        r ← liftm (page_insert (pml4 tk) stack (USER_STACK_TOP - PAGE_SIZE) (Z.lor PTE_U PTE_W));
        if negb (r =? 0) then
          kprintf ("Can't create `%s': page_insert failed" ++ nl) [AStr nm] ;; task_destroy (TSlot t) ;; mret (-1)
        else
          upd_task (TSlot t) (λ tk, set_context (user_context (context tk)) tk) ;;
          upd_task (TSlot t) (set_state TASK_STATE_READY) ;;
          mret 0
    end.

Definition create_done (ret : Z) k' : Prop :=
  (ret = 0 ∧ (∃ g', idle k' g' tl f) ∧ tasks k' t = started_task ∧ program_space (phys (mm k')) r ∨
   ret = -1 ∧ ∃ g', idle k' g' (t :: tl) f) ∧
  others_same k' ∧
  (∀ x o va, lab g0 x = Some (Lab o []) → x ≠ r → translate (phys (mm k')) x va = translate (phys (mm k0)) x va) ∧
  (∀ y, lab g0 (y / 4096) = None → y / 4096 ∉ fl g0 → phys (mm k') y = phys (mm k0) y).

Hypothesis Hst : state (tasks k0 t) = TASK_STATE_DONT_RUN.
Hypothesis Hnn : pml4 (tasks k0 t) ≠ NULL.

Lemma cleanup_done s g k : abandoned s g k → wp (task_destroy (TSlot t) ;; mret (-1)) create_done k.
Proof.
  intros A. eapply wp_mono; [by apply (cleanup_ok s g k)|]. cbn. intros ret k' (-> & H1 & H2). split; [by right|done].
Qed.

Lemma loading_idle s g mp img ts :
  loading K k1 g0 tl r s g mp img → (∀ j, j ≠ t → ts j = tasks k0 j) → pml4 (ts t) = pml4 (tasks k0 t) →
  state (ts t) ≠ TASK_STATE_RUN → idle (set_tasks ts (set_mm s k1)) g tl f.
Proof.
  intros L Hts Hp Hs. pose proof Hidle as [I Hn _]. pose proof (kinv_cr3 k0 g0 tl f (r * 4096) I) as I1. fold k1 in I1.
  pose proof (loading_kinv K k1 g0 tl f r I1 s g mp img L) as IL.
  assert (∀ j, pml4 (ts j) = pml4 (tasks k0 j)) as Hpj by (intros j; destruct (decide (j = t)) as [->|]; [done|by rewrite Hts]).
  constructor.
  - apply (kinv_step K (set_mm s k1) g tl f); try done; try apply IL.
    + by apply (kwf_tasks K (set_mm s k1)); [apply IL|..].
    + intros j Hj. cbn [tasks set_tasks]. rewrite Hpj. destruct (decide (j = t)) as [->|Hne]; [done|].
      rewrite Hts by done. by apply (ki_alive _ _ _ _ _ I).
  - intros j Hj. cbn [tasks set_tasks]. destruct (decide (j = t)) as [->|Hne]; [done|]. rewrite Hts by done. by apply Hn.
  - exists r. split; [done|]. by apply (loading_root K k1 g0 tl r Hr s g mp img L).
Qed.

Lemma loading_abandoned s g mp img ts :
  loading K k1 g0 tl r s g mp img → (∀ j, j ≠ t → ts j = tasks k0 j) → pml4 (ts t) = pml4 (tasks k0 t) →
  state (ts t) ≠ TASK_STATE_RUN → abandoned s g (set_tasks ts (set_mm s k1)).
Proof.
  intros L Hts Hp Hs. pose proof (loading_idle s g mp img ts L Hts Hp Hs) as [I Hn Hc]. constructor; try done. by exists mp, img.
Qed.

Lemma failed_abandoned s g mp img k : loading K k1 g0 tl r s g mp img → load_failed s k → abandoned s g k.
Proof.
  intros L (c & x & -> & -> & Hx).
  pose proof (loading_idle s g mp img (tasks k0) L ltac:(done) eq_refl ltac:(by rewrite Hst)) as [I Hn _].
  constructor; try done; [by exists mp, img| |].
  - exact (kinv_cr3 _ _ _ _ (x * 4096) I).
  - exists x. split; [done|]. by apply (lo_lab _ _ _ _ _ _ _ _ _ L).
Qed.

Lemma stack_ok nm s g mp img :
  loading K k1 g0 tl r s g mp img → (∀ va, mp va ↔ prog_pages image va) → prog_img image img →
  (∀ i, is_load image i → seg_ok image size i) →
  wp (create_rest nm 0) create_done (set_tasks (<[t := loaded_task]> (tasks k0)) (set_mm s k1)).
Proof.
  intros L Hmp Himg Hsegs. set (ts := <[t := loaded_task]> (tasks k0)).
  pose proof (kinv_cr3 k0 g0 tl f (r * 4096) (id_inv _ _ _ _ Hidle)) as I1. fold k1 in I1.
  assert (∀ j, j ≠ t → ts j = tasks k0 j) as Hts by (intros j Hj; unfold ts; by rewrite fn_lookup_insert_ne).
  assert (ts t = loaded_task) as Htt by (unfold ts; by rewrite fn_lookup_insert).
  assert (∀ s' g' mp' img', loading K k1 g0 tl r s' g' mp' img' → abandoned s' g' (set_tasks ts (set_mm s' k1))) as Hab.
  { intros s' g' mp' img' L'. apply (loading_abandoned s' g' mp' img'); rewrite ?Htt; try done. unfold loaded_task. cbn. by rewrite Hst. }
  assert (∀ fmt ap s' g' mp' img', fmt_ok fmt ap = true → loading K k1 g0 tl r s' g' mp' img' →
    wp (kprintf fmt ap ;; task_destroy (TSlot t) ;; mret (-1)) create_done (set_tasks ts (set_mm s' k1))) as Hfail.
  { intros fmt ap s' g' mp' img' Hf L'. apply wp_bind, wp_kprintf; [done|apply (wf_con _ _ _ (kw_wf _ _ _ _ (lo_kwf _ _ _ _ _ _ _ _ _ L')))|].
    intros c Hc. apply (cleanup_done (set_con c s') g'). apply (Hab _ _ mp' img'). by apply (loading_con K k1 g0 tl r). }
  unfold create_rest. cbn [Z.eqb negb]. apply wp_bind.
  assert (in_user (USER_STACK_TOP - PAGE_SIZE)) as Hu by (unfold in_user, USER_STACK_TOP, PAGE_SIZE, USER_TOP; lia).
  destruct (map_one K k1 g0 tl f r I1 Hr s g mp img (USER_STACK_TOP - PAGE_SIZE) L Hu eq_refl)
    as [Hnone|(p & s1 & ret & s2 & g2 & Hpa & Hins & Hout)].
  { intros va v Hv Hin. destruct (lo_img _ _ _ _ _ _ _ _ _ L va v Hv) as [Hva Hub].
    assert (mp va) as Hm.
    { apply (lo_map _ _ _ _ _ _ _ _ _ L va Hva). unfold ubyte in Hub. by destruct (translate _ _ _) as [e|]; [exists e|]. }
    apply Hmp in Hm as (i & Hl & Hp). pose proof (so_user _ _ _ (Hsegs i Hl)). unfold seg_pages in Hp. lia. }
  { eapply wp_eq; [apply liftm_ok; exact Hnone|]. by apply (Hfail _ _ s g mp img). }
  eapply wp_eq; [apply liftm_ok; exact Hpa|]. apply wp_bind. eapply wp_eq; [by apply get_slot_ok|].
  cbn [tasks set_mm set_tasks]. rewrite Htt. change (pml4 loaded_task) with (pml4 (tasks k0 t)). rewrite Hpm.
  change (bld (mm k0)) with (bld (mm k1)). rewrite <- (loading_bld K k1 g0 tl f r I1 s g mp img L).
  apply wp_bind. eapply wp_eq; [apply liftm_ok; exact Hins|].
  change (set_mm s2 _) with (set_tasks ts (set_mm s2 k1)). destruct Hout as [[-> L2]|[-> L2]]; cbn [Z.eqb negb].
  { by apply (Hfail _ _ s2 g2 mp img). }
  apply wp_bind. eapply wp_eq; [by apply upd_slot_ok|]. apply wp_bind. eapply wp_eq; [by apply upd_slot_ok|]. apply wp_ret.
  set (ts' := <[t := _]> _). change (set_tasks ts' _) with (set_tasks ts' (set_mm s2 k1)).
  assert (ts' t = started_task) as Htt' by (unfold ts'; cbn [tasks set_tasks]; by rewrite !fn_lookup_insert, Htt).
  assert (∀ j, j ≠ t → ts' j = tasks k0 j) as Hts'.
  { intros j Hj. unfold ts'. rewrite fn_lookup_insert_ne by done. cbn [tasks set_tasks]. rewrite fn_lookup_insert_ne by done. by apply Hts. }
  split; [left; split; [done|]|split_and!; [done|..]].
  - split; [exists g2; by eapply loading_idle; [exact L2|done|rewrite Htt'..]|]. split; [done|].
    cbn [mm set_tasks set_mm]. constructor.
    + intros va Hva. rewrite (lo_map _ _ _ _ _ _ _ _ _ L2 va Hva), Hmp. change PAGE_SIZE with 4096.
      by replace (USER_STACK_TOP - 4096 + 4096) with USER_STACK_TOP by lia.
    + intros va e Hva Hte. by apply (lo_user _ _ _ _ _ _ _ _ _ L2 va).
    + intros i j Hl Hj. by apply (lo_img _ _ _ _ _ _ _ _ _ L2), Himg.
  - intros x o va Hx Hne. apply (lo_other _ _ _ _ _ _ _ _ _ L2 x o va); auto.
  - intros y Hy Hyn. by apply (lo_mem _ _ _ _ _ _ _ _ _ L2).
Qed.

Lemma create_from nm :
  wp (rest ← task_load t nm b size; create_rest nm rest) create_done k0.
Proof.
  apply wp_bind. eapply wp_mono; [apply task_load_ok|]. intros ret k' (s & g & mp & img & L & [[-> Hf]|(-> & -> & H1 & H2 & H3)]).
  - apply (cleanup_done s g). by eapply failed_abandoned.
  - by apply (stack_ok nm s g mp img).
Qed.

End built.

(** The task that [task_create] makes. *)
Definition new_task k (nm : list Z) (x : Z) (image : Z → byte) : task :=
  MkTask (user_context (Context.set_rip (eh_entry image) Context.zero_context)) TASK_STATE_READY
    (u32 (last_task_id k + 1)) (strncpy_str TASK_NAME_SIZE nm) (VADDR (bld (mm k)) (x * 4096)).

(** [task_new] gives a slot and an empty address space, or nothing but the
    loss of a slot happens. *)
Lemma task_new_idle k g tl f nm (Q : option Z → kstate T → Prop) :
  idle k g tl f →
  (∀ k' tl', idle k' g tl' f → kept k g k' → (∀ j, head tl ≠ Some j → tasks k' j = tasks k j) → Q None k') →
  (∀ t tl' p fl' k', tl = t :: tl' → fl g = p :: fl' → task_created K k g t p tl' fl' nm k' → Q (Some t) k') →
  wp (task_new nm) Q k.
Proof.
  intros Hid Hnone Hsome. pose proof Hid as [I Hn Hc]. pose proof (ki_kwf _ _ _ _ _ I) as Hk. destruct tl as [|t tl'].
  { destruct (task_new_full K k g nm Hk) as (c & Hrun & Hcok). eapply wp_eq; [exact Hrun|].
    apply (Hnone _ []); [|apply kept_con|done]. constructor; [by apply kinv_con|done|done]. }
  destruct (fl g) as [|p fl'] eqn:Hfl; cycle 1.
  { destruct (task_new_ok K k g t tl' p fl' nm Hk Hfl) as (k0 & Hrun & C). eapply wp_eq; [exact Hrun|]. by eapply Hsome. }
  destruct (task_new_nomem K k g t tl' nm Hk Hfl) as (k' & Hrun & S & c & Em & Hcok). eapply wp_eq; [exact Hrun|].
  pose proof (kwf_lost K k g t tl' _ k' c Hk S eq_refl Em Hcok) as Hk'. destruct S as [S1 S2 S3 S4 S5 S6 S7 S8].
  apply (Hnone k' tl'); [|by constructor; rewrite Em|intros j Hj; apply S2; cbn in Hj; congruence]. constructor.
  - apply (kinv_step K k g (t :: tl') f); rewrite ?Em; try done; try apply I.
    + rewrite S8. exact (ki_next _ _ _ _ _ I).
    + intros j Hj. destruct (decide (j = t)) as [->|Hne]; [rewrite S1; by intros [?|?]|].
      rewrite S2 by done. by apply (ki_alive _ _ _ _ _ I).
  - intros j Hj. destruct (decide (j = t)) as [->|Hne]; [by rewrite S1|]. rewrite S2 by done. by apply Hn.
  - unfold on_root. by rewrite S7.
Qed.

(** What is kept from the state after [task_new] on was there before. *)
Lemma kept_new k g t tl' p fl' nm f k0 k' :
  kinv K k g (t :: tl') f → task_created K k g t p tl' fl' nm k0 → others_same k0 t k' →
  (∀ x o va, lab (root_ghost g p fl') x = Some (Lab o []) → x ≠ p → translate (phys (mm k')) x va = translate (phys (mm k0)) x va) →
  (∀ y, lab (root_ghost g p fl') (y / 4096) = None → y / 4096 ∉ fl (root_ghost g p fl') → phys (mm k') y = phys (mm k0) y) →
  kept k g k' ∧ ∀ j, j ≠ t → tasks k' j = tasks k j.
Proof.
  intros I C Hoth Htr Hmem. pose proof (ki_kwf _ _ _ _ _ I) as Hk. pose proof (tc_free _ _ _ _ _ _ _ _ _ C) as Hfl.
  split; [constructor|].
  - intros x o va Hx.
    destruct (root_lab_old K (mm k) g p fl' (kw_wf _ _ _ _ Hk) (kw_K _ _ _ _ Hk) Hfl x _ Hx) as [Hne Hx'].
    rewrite (Htr x o va Hx' Hne). by apply (tc_old _ _ _ _ _ _ _ _ _ C x o).
  - intros y Hy Hyn. assert (y / 4096 ≠ p) as Hne by (intros <-; apply Hyn; rewrite Hfl; by left).
    rewrite Hmem, (tc_mem _ _ _ _ _ _ _ _ _ C y Hne); [done| |].
    + cbn. by rewrite fn_lookup_insert_ne.
    + cbn. intros ?. apply Hyn. rewrite Hfl. by right.
  - intros j Hj. rewrite Hoth by done. by apply (sl_other _ _ _ _ _ (tc_slot _ _ _ _ _ _ _ _ _ C)).
Qed.

Lemma task_create_ok k g tl f nm b size image :
  idle k g tl f → binary_at K k g b size image → elf_ok image size →
  wp (task_create nm b size) (λ ret k',
    kept k g k' ∧ (∀ j, head tl ≠ Some j → tasks k' j = tasks k j) ∧
    (ret = 0 ∧ (∃ g' t tl' x, tl = t :: tl' ∧ idle k' g' tl' f ∧ x ∈ fl g ∧ tasks k' t = new_task k nm x image ∧
        program_space image (phys (mm k')) x) ∨
     ret = -1 ∧ ∃ g' tl', idle k' g' tl' f)) k.
Proof.
  intros Hid Hbin Helf. unfold task_create. apply wp_bind. apply (task_new_idle k g tl f); [done| |].
  { intros k' tl' Hi Hkp Hoth. apply wp_ret. split; [done|]. split; [done|]. right. split; [done|]. by exists g, tl'. }
  intros t tl' p fl' k0 -> Hfl C. pose proof (id_inv _ _ _ _ Hid) as I. pose proof (tc_slot _ _ _ _ _ _ _ _ _ C) as Hsl.
  destruct (new_root k g t tl' p fl' nm f k0 I C) as (Hr & Ht & Hpm & Hnn & Hno & _).
  eapply wp_mono.
  { apply (create_from k0 (root_ghost g p fl') tl' f p t b size image (new_idle k g t tl' p fl' nm f k0 Hid C) Hr Ht Hpm Hno
      (new_binary k g t tl' p fl' nm f k0 b size image I C Hbin) Helf); [|done]. by rewrite (sl_task _ _ _ _ _ Hsl). }
  intros ret k' (Hres & Hoth & Htr & Hmem).
  destruct (kept_new k g t tl' p fl' nm f k0 k' I C Hoth Htr Hmem) as [Hkp Hj].
  split; [done|]. split; [intros j Hne; cbn in Hne; apply Hj; congruence|].
  destruct Hres as [(-> & (g' & Hi) & Htk & Hps)|(-> & g' & Hi)]; [left|right; split; [done|]; by exists g', (t :: tl')].
  split; [done|]. exists g', t, tl', p. split; [done|]. split; [done|]. split; [rewrite Hfl; by left|]. split; [|done].
  rewrite Htk. unfold started_task, loaded_task. rewrite (sl_task _ _ _ _ _ Hsl). done.
Qed.
End create.
