(* ===== verification/ThreadProofs.v ===== *)
(** [thread_create] and the start of the scheduler.

    A kernel thread is a task whose context has kernel selectors; its stack is
    a page of its own address space, prepared through the thread's page tables
    with the steps of LoadProofs. *)

From Stdlib Require Import String.
From S2P Require Import Prelude Memory Queue Mmu Console Map AllocProofs Walk MapWf.
From S2P Require Import LookupProofs InsertProofs KmapProofs Gdt Context Task SchedProofs.
From S2P Require Import DestroyProofs TaskProofs Syscall ForkProofs Thread Interrupt.
From S2P Require Import FaultProofs TrapProofs LoadProofs CreateProofs.
Import Mmu Map Task Thread.

Section thread.
Context {T : Type} `{!Console T, !ConsoleLaws T} (K : Z).
Context (thread_foo : Z) (task_addr : Z → Z).
Implicit Types (k : kstate T) (s : mstate T) (g : ghost) (tl : list Z) (m : mem).

Lemma vstore64_zero (va : Z) : vstore64 (T := T) va 0 = vmemset va 0 8.
Proof. reflexivity. Qed.

Definition STACK_BASE : Z := USER_STACK_TOP - PAGE_SIZE.

(** Where the argument and the return address go. *)
Definition thread_data (data size : Z) : Z := ROUND_DOWN (u64 (USER_STACK_TOP - size)) 8.
Definition thread_sp (data size : Z) : Z := (if data =? NULL then USER_STACK_TOP else thread_data data size) - 8.

Lemma thread_data_range data size :
  0 ≤ size ≤ 4000 → STACK_BASE + 8 ≤ thread_data data size ∧ thread_data data size + size ≤ USER_STACK_TOP.
Proof.
  intros Hs. unfold thread_data, ROUND_DOWN, STACK_BASE, PAGE_SIZE, USER_STACK_TOP. rewrite u64_small by lia. dlia.
Qed.

(** The stack of a new thread. *)
Record thread_space (m : mem) (x data size : Z) (image : Z → byte) : Prop := {
  th_map va : in_user va → is_Some (translate m x va) ↔ STACK_BASE ≤ va < USER_STACK_TOP;
  th_ret j : 0 ≤ j < 8 → ubyte m x (thread_sp data size + j) = Some Byte.x00;
  th_data j : data ≠ NULL → 0 ≤ j < size → ubyte m x (thread_data data size + j) = Some (image j);
}.

Section built.
Context (k0 : kstate T) (g0 : ghost) (tl : list Z) (f r t : Z) (data size : Z) (image : Z → byte).
Hypothesis Hidle : idle K k0 g0 tl f.
Hypothesis Hr : user_root K g0 r.
Hypothesis Ht : 0 ≤ t < TASK_MAX_CNT.
Hypothesis Hpm : pml4 (tasks k0 t) = VADDR (bld (mm k0)) (r * 4096).
Hypothesis Hno : ∀ va, PML4_IDX va < KIDX → translate (phys (mm k0)) r va = None.
Hypothesis Hst : state (tasks k0 t) = TASK_STATE_DONT_RUN.
Hypothesis Hnn : pml4 (tasks k0 t) ≠ NULL.
Hypothesis Hdata : data ≠ NULL → binary_at K k0 g0 data size image ∧ 0 ≤ size ≤ 4000.

Let k1 : kstate T := set_cr3 (r * 4096) k0.
Let arg : Z := if data =? NULL then NULL else thread_data data size.

(** The argument and the return address on the stack. *)
Lemma stack_fill {A} s g (rest : M (kstate T) A) Q :
  loading K k1 g0 tl r s g (λ va, STACK_BASE ≤ va < USER_STACK_TOP) (λ _, None) →
  (∀ s' img, loading K k1 g0 tl r s' g (λ va, STACK_BASE ≤ va < USER_STACK_TOP) img →
     (∀ j, 0 ≤ j < 8 → img (thread_sp data size + j) = Some Byte.x00) →
     (∀ j, data ≠ NULL → 0 ≤ j < size → img (thread_data data size + j) = Some (image j)) →
     wp rest Q (set_mm s' k1)) →
  wp ((if data =? NULL then mret () else vmemcpy (thread_data data size) data size) ;;
      vstore64 (u64 ((if data =? NULL then USER_STACK_TOP else thread_data data size) - 8)) 0 ;; rest) Q (set_mm s k1).
Proof.
  intros L HQ. pose proof (kinv_cr3 K k0 g0 tl f (r * 4096) (id_inv _ _ _ _ _ Hidle)) as I1. fold k1 in I1.
  assert (∀ va, STACK_BASE ≤ va < USER_STACK_TOP → in_user va) as Hu
    by (unfold STACK_BASE, in_user, USER_STACK_TOP, PAGE_SIZE, USER_TOP; lia).
  set (top := if data =? NULL then USER_STACK_TOP else thread_data data size).
  assert (STACK_BASE + 8 ≤ top ≤ USER_STACK_TOP) as Htop.
  { unfold top. destruct (Z.eqb_spec data NULL) as [->|Hd]; [unfold STACK_BASE, PAGE_SIZE; lia|].
    destruct (Hdata Hd) as [_ Hs]. pose proof (thread_data_range data size Hs). lia. }
  assert (u64 (top - 8) = top - 8) as -> by (apply u64_small; unfold STACK_BASE, USER_STACK_TOP, PAGE_SIZE in *; lia).
  set (img1 := λ va : Z, if data =? NULL then None else copy_img image (thread_data data size) 0 size (λ _, None) va).
  apply wp_bind. eapply (wp_mono _ (λ _ k', ∃ s', k' = set_mm s' k1 ∧ loading K k1 g0 tl r s' g _ img1)).
  { unfold img1. destruct (Z.eqb_spec data NULL) as [->|Hd]; [apply wp_ret; exists s; by split|].
    destruct (Hdata Hd) as [Hb Hs]. pose proof (thread_data_range data size Hs).
    rewrite <- (Z.add_0_r data) at 2. apply (copy_ok K k1 g0 tl f r I1 Hr data size image eq_refl Hb); try done; try lia.
    intros j Hj. split; [apply Hu|]; lia. }
  intros [] k' (s1 & -> & L1). rewrite vstore64_zero. apply wp_bind. eapply wp_mono.
  { apply (zero_ok K k1 g0 tl r Hr eq_refl s1 g _ img1 (top - 8) 8 L1); [done|]. intros j Hj. split; [apply Hu|]; lia. }
  intros [] k' (s2 & -> & L2). apply (HQ s2 _ L2).
  - intros j Hj. unfold zero_img. fold (thread_sp data size). change (top - 8) with (thread_sp data size).
    by replace ((_ <=? _) && _) with true by (symmetry; apply andb_true_intro; split; [apply Z.leb_le|apply Z.ltb_lt]; lia).
  - intros j Hd Hj. destruct (Hdata Hd) as [_ Hs]. unfold zero_img.
    assert (top = thread_data data size) as -> by (unfold top; by rewrite (proj2 (Z.eqb_neq _ _) Hd)).
    replace ((thread_data data size - 8 <=? _) && _) with false
      by (symmetry; apply andb_false_iff; right; apply Z.ltb_ge; lia).
    unfold img1. rewrite (proj2 (Z.eqb_neq _ _) Hd). unfold copy_img.
    replace ((_ <=? _) && _) with true by (symmetry; apply andb_true_intro; split; [apply Z.leb_le|apply Z.ltb_lt]; lia).
    do 2 f_equal. lia.
Qed.

(** The task entry of the thread. *)
Definition thread_task (foo : Z) (tk : task) : task :=
  set_context (thread_context (context tk) (task_addr t) foo arg thread_foo (thread_sp data size)) tk.

(** The part of [thread_create] after [task_new]. *)
Definition thread_rest (nm : list Z) (foo : Z) : M (kstate T) (option Z) :=
  let cleanup := task_destroy (TSlot t) ;; mret None in
  pg ← liftm page_alloc;
  match pg with
  | None => kprintf ("Can't create thread `%s': no memory for stack" ++ nl) [AStr nm] ;; cleanup
  | Some stack =>
      tk ← get_task (TSlot t);
      r ← liftm (page_insert (pml4 tk) stack (USER_STACK_TOP - PAGE_SIZE) (Z.lor PTE_U PTE_W));
      if negb (r =? 0) then
        kprintf ("Can't create thread `%s': page_insert(stack) failed" ++ nl) [AStr nm] ;; cleanup
      else
        old ← rcr3;
        b ← kbld;
        lcr3 (PADDR b (pml4 tk)) ;;
        (if data =? NULL then mret () else vmemcpy (thread_data data size) data size) ;;
        vstore64 (u64 ((if data =? NULL then USER_STACK_TOP else thread_data data size) - 8)) 0 ;;
        lcr3 old ;;
        upd_task (TSlot t) (λ tk, set_context (thread_context (context tk) (task_addr t) foo arg thread_foo
          (u64 ((if data =? NULL then USER_STACK_TOP else thread_data data size) - 8))) tk) ;;
        mret (Some t)
  end.

Definition thread_done (foo : Z) (res : option Z) k' : Prop :=
  (res = Some t ∧ (∃ g', idle K k' g' tl f) ∧ tasks k' t = thread_task foo (tasks k0 t) ∧
     thread_space (phys (mm k')) r data size image ∨
   res = None ∧ ∃ g', idle K k' g' (t :: tl) f) ∧
  others_same k0 t k' ∧
  (∀ x o va, lab g0 x = Some (Lab o []) → x ≠ r → translate (phys (mm k')) x va = translate (phys (mm k0)) x va) ∧
  (∀ y, lab g0 (y / 4096) = None → y / 4096 ∉ fl g0 → phys (mm k') y = phys (mm k0) y).

Lemma thread_cleanup foo s g k :
  abandoned K k0 g0 tl f r t s g k → wp (task_destroy (TSlot t) ;; mret None) (thread_done foo) k.
Proof.
  intros A. pose proof (cleanup_ok K k0 g0 tl f r t Hidle Hr Ht Hpm s g k A Hnn) as H.
  unfold wp, mbind, M_bind in *. destruct (task_destroy (TSlot t) k) as [[[] k']|]; [|done].
  destruct H as (_ & H1 & H2). split; [by right|done].
Qed.

(** The states of [thread_create] keep the old [cr3]. *)
Lemma thread_idle s g mp img ts :
  loading K k1 g0 tl r s g mp img → (∀ j, j ≠ t → ts j = tasks k0 j) → pml4 (ts t) = pml4 (tasks k0 t) →
  state (ts t) ≠ TASK_STATE_RUN → idle K (set_tasks ts (set_mm s k0)) g tl f.
Proof.
  intros L H1 H2 H3. destruct (loading_idle K k0 g0 tl f r t Hidle Hr Hnn s g mp img ts L H1 H2 H3) as [I Hn _].
  pose proof (id_cr3 _ _ _ _ _ Hidle) as (x & Hx & Hl). constructor; [|done|].
  - exact (kinv_cr3 K _ g tl f (cr3 k0) I).
  - exists x. split; [done|]. by apply (lo_lab _ _ _ _ _ _ _ _ _ L).
Qed.

Lemma thread_abandoned s g mp img :
  loading K k1 g0 tl r s g mp img → abandoned K k0 g0 tl f r t s g (set_mm s k0).
Proof.
  intros L. destruct (thread_idle s g mp img (tasks k0) L) as [I Hn Hc]; [done|done|by rewrite Hst|].
  constructor; try done. by exists mp, img.
Qed.

Lemma thread_fail foo fmt ap s g mp img :
  fmt_ok fmt ap = true → loading K k1 g0 tl r s g mp img →
  wp (kprintf fmt ap ;; task_destroy (TSlot t) ;; mret None) (thread_done foo) (set_mm s k0).
Proof.
  intros Hf L. apply wp_bind, wp_kprintf; [done|apply (wf_con _ _ _ (kw_wf _ _ _ _ (lo_kwf _ _ _ _ _ _ _ _ _ L)))|].
  intros c Hc. apply (thread_cleanup foo (set_con c s) g). apply (thread_abandoned _ _ mp img).
  by apply (loading_con K k1 g0 tl r).
Qed.

Lemma thread_rest_ok nm foo : wp (thread_rest nm foo) (thread_done foo) k0.
Proof.
  pose proof (kinv_cr3 K k0 g0 tl f (r * 4096) (id_inv _ _ _ _ _ Hidle)) as I1. fold k1 in I1.
  pose proof (ki_kwf _ _ _ _ _ (id_inv _ _ _ _ _ Hidle)) as Hk.
  pose proof (loading_start K k1 g0 tl f r I1 Hno) as L0.
  assert (in_user (USER_STACK_TOP - PAGE_SIZE)) as Hu by (unfold in_user, USER_STACK_TOP, PAGE_SIZE, USER_TOP; lia).
  unfold thread_rest. cbn zeta. apply wp_bind.
  destruct (map_one K k1 g0 tl f r I1 Hr (mm k1) g0 _ _ (USER_STACK_TOP - PAGE_SIZE) L0 Hu eq_refl ltac:(done))
    as [Hnone|(p & s1 & ret & s2 & g2 & Hpa & Hins & Hout)].
  { eapply wp_eq; [apply liftm_ok; exact Hnone|]. by eapply (thread_fail foo _ _ (mm k1)). }
  eapply wp_eq; [apply liftm_ok; exact Hpa|]. apply wp_bind. eapply wp_eq; [by apply get_slot_ok|].
  cbn [tasks set_mm]. rewrite Hpm. apply wp_bind. eapply wp_eq; [apply liftm_ok; exact Hins|].
  change (set_mm s2 (set_mm s1 k0)) with (set_mm s2 k0). destruct Hout as [[-> L2]|[-> L2]]; cbn [Z.eqb negb].
  { by eapply (thread_fail foo _ _ s2 g2). }
  apply wp_bind, wp_gets. apply wp_bind, wp_gets. cbn [cr3 set_mm mm].
  rewrite (loading_bld K k1 g0 tl f r I1 s2 g2 _ _ L2). change (bld (mm k1)) with (bld (mm k0)).
  apply wp_bind. rewrite (root_paddr K k0 g0 tl r _ Hk (proj1 Hr)). apply wp_modify.
  change (set_cr3 (r * 4096) (set_mm s2 k0)) with (set_mm s2 k1).
  assert (loading K k1 g0 tl r s2 g2 (λ va, STACK_BASE ≤ va < USER_STACK_TOP) (λ _, None)) as L3.
  { eapply loading_weaken; [exact L2| |done]. intros va _. unfold STACK_BASE. change PAGE_SIZE with 4096. split; [intros [?|?]|]; done || lia || (right; lia). }
  apply (stack_fill s2 g2 _ _ L3). intros s4 img L4 Hret Hdat. apply wp_bind, wp_modify.
  apply wp_bind. eapply wp_eq; [by apply upd_slot_ok|]. apply wp_ret.
  set (sp := u64 _). assert (sp = thread_sp data size) as Esp.
  { unfold sp, thread_sp. apply u64_small. destruct (Z.eqb_spec data NULL) as [->|Hd]; [unfold USER_STACK_TOP; lia|].
    destruct (Hdata Hd) as [_ Hs]. pose proof (thread_data_range data size Hs).
    unfold STACK_BASE, USER_STACK_TOP, PAGE_SIZE in *. lia. }
  set (ts' := <[t := _]> _). change (set_tasks ts' _) with (set_tasks ts' (set_mm s4 k0)).
  assert (ts' t = thread_task foo (tasks k0 t)) as Htt.
  { unfold ts'. cbn [tasks set_mm set_cr3 k1]. rewrite fn_lookup_insert, Esp. done. }
  assert (∀ j, j ≠ t → ts' j = tasks k0 j) as Hts by (intros j Hj; unfold ts'; by rewrite fn_lookup_insert_ne).
  split; [left; split; [done|]|split_and!; [done|..]].
  - split; [exists g2; eapply thread_idle; [exact L4|done|by rewrite Htt|rewrite Htt; cbn; by rewrite Hst]|]. split; [done|].
    cbn [mm set_tasks set_mm]. constructor.
    + exact (lo_map _ _ _ _ _ _ _ _ _ L4).
    + intros j Hj. by apply (lo_img _ _ _ _ _ _ _ _ _ L4), Hret.
    + intros j Hd Hj. by apply (lo_img _ _ _ _ _ _ _ _ _ L4), Hdat.
  - intros x o va Hx Hne. apply (lo_other _ _ _ _ _ _ _ _ _ L4 x o va); auto.
  - intros y Hy Hyn. by apply (lo_mem _ _ _ _ _ _ _ _ _ L4).
Qed.
End built.

(** The task entry of a new thread. *)
Definition new_thread k (t : Z) (nm : list Z) (foo data size x : Z) : task :=
  MkTask (thread_context Context.zero_context (task_addr t) foo (if data =? NULL then NULL else thread_data data size)
      thread_foo (thread_sp data size))
    TASK_STATE_DONT_RUN (u32 (last_task_id k + 1)) (strncpy_str TASK_NAME_SIZE nm) (VADDR (bld (mm k)) (x * 4096)).

Lemma thread_create_ok k g tl f nm foo data size image :
  idle K k g tl f → (data ≠ NULL → binary_at K k g data size image ∧ 0 ≤ size ≤ 4000) →
  wp (thread_create thread_foo task_addr nm foo data size) (λ res k',
    kept k g k' ∧ (∀ j, head tl ≠ Some j → tasks k' j = tasks k j) ∧
    ((∃ g' t tl' x, res = Some t ∧ tl = t :: tl' ∧ idle K k' g' tl' f ∧ x ∈ fl g ∧
        tasks k' t = new_thread k t nm foo data size x ∧ thread_space (phys (mm k')) x data size image) ∨
     res = None ∧ ∃ g' tl', idle K k' g' tl' f)) k.
Proof.
  intros Hid Hdata. unfold thread_create. apply wp_bind. apply (task_new_idle K k g tl f); [done| |].
  { intros k' tl' Hi Hkp Hoth. apply wp_ret. split; [done|]. split; [done|]. right. split; [done|]. by exists g, tl'. }
  intros t tl' p fl' k0 -> Hfl C. pose proof (id_inv _ _ _ _ _ Hid) as I. pose proof (tc_slot _ _ _ _ _ _ _ _ _ C) as Hsl.
  destruct (new_root K k g t tl' p fl' nm f k0 I C) as (Hr & Ht & Hpm & Hnn & Hno & _).
  eapply wp_mono.
  { apply (thread_rest_ok k0 (root_ghost g p fl') tl' f p t data size image (new_idle K k g t tl' p fl' nm f k0 Hid C)
      Hr Ht Hpm Hno); [by rewrite (sl_task _ _ _ _ _ Hsl)|done|].
    intros Hd. destruct (Hdata Hd) as [Hb Hs]. split; [|done]. by apply (new_binary K k g t tl' p fl' nm f k0). }
  intros res k' (Hres & Hoth & Htr & Hmem).
  destruct (kept_new K k g t tl' p fl' nm f k0 k' I C Hoth Htr Hmem) as [Hkp Hj].
  split; [done|]. split; [intros j Hne; cbn in Hne; apply Hj; congruence|].
  destruct Hres as [(-> & (g' & Hi) & Htk & Hps)|(-> & g' & Hi)]; [left|right; split; [done|]; by exists g', (t :: tl')].
  exists g', t, tl', p. split; [done|]. split; [done|]. split; [done|]. split; [rewrite Hfl; by left|]. split; [|done].
  rewrite Htk, (sl_task _ _ _ _ _ Hsl). done.
Qed.

End thread.
