(* ===== verification/MonitorProofs.v ===== *)
(** Key presses and the invariant of the running system.

    While a key press edits the command line the cursor is in row 24, outside
    the area the console invariant speaks about: only the screen changes there
    ([screen]), and the position saved at the beginning is restored at the end
    ([settled]).  The commands then run from a settled state; [kill] may destroy
    the current task.  A key press may stop the machine (a tab at the end of
    the line fails an assertion), so the statements say what holds when it
    returns. *)

From Stdlib Require Import String.
From S2P Require Import Prelude Memory Cstring Queue Mmu Console Terminal Map AllocProofs Walk.
From S2P Require Import MapWf.
From S2P Require Import LookupProofs InsertProofs Gdt Context Task SchedProofs DestroyProofs.
From S2P Require Import TaskProofs Syscall ForkProofs Monitor Interrupt FaultProofs.
From S2P Require Import IsolationProofs TrapProofs.
Import Mmu Map Task Monitor.

Section keys.
Context (K f : Z).
Implicit Types (k : kstate Term.terminal) (mo : monitor).

Abbreviation may := (λ _ : err, True).

(** Any change of the screen and of the monitor's own variables. *)
Definition screen k mo : Prop := ∃ c, kern mo = set_mm (set_con c (mm k)) k.

(** The same, with the cursor back in the output area. *)
Definition settled k mo : Prop := quiet k (kern mo).

Lemma settled_screen k mo : settled k mo → screen k mo.
Proof. intros (c & _ & H). by exists c. Qed.

Lemma screen_liftt {A} (x : M Term.terminal A) k mo : screen k mo → wpe (liftt x) (λ _, screen k) may mo.
Proof.
  intros (c & H). apply wpe_zoom, wpe_zoom, wpe_zoom. unfold wpe. destruct (x _) as [[a c']|e]; [|done].
  exists c'. by cbn; rewrite H.
Qed.

Lemma screen_modify k mo (h : monitor → monitor) :
  (∀ mo, kern (h mo) = kern mo) → screen k mo → wpe (modify h) (λ _, screen k) may mo.
Proof. intros Hh (c & H). exists c. by rewrite Hh. Qed.

Lemma settle k mo p :
  0 ≤ Term.p_row p ≤ 22 → 0 ≤ Term.p_column p < 80 → screen k mo →
  wpe (liftt (Term.terminal_set_position p)) (λ _, settled k) may mo.
Proof.
  intros Hr Hc (c & H). apply wpe_zoom, wpe_zoom, wpe_zoom. unfold Term.terminal_set_position, wpe, mbind, M_bind, modify, massert.
  destruct (_ <=? _); [|done]. cbn [mret M_ret]. destruct (_ <? _); [|done]. cbn [mret M_ret].
  eexists. split; [|cbn; by rewrite H]. split; cbn; lia.
Qed.

Lemma settled_printf k mo fmt ap : fmt_ok fmt ap = true → settled k mo → wpe (mprintf fmt ap) (λ _, settled k) may mo.
Proof.
  intros Hf (c & Hc & H). apply wpe_zoom, wpe_zoom, wpe_zoom, wpe_wp.
  assert (con_ok (con (mm (kern mo)))) as Hc0 by (by rewrite H).
  pose proof (printf_ok (T := Term.terminal) fmt ap (con (mm (kern mo))) Hf Hc0) as Hp.
  apply (wp_mono _ (λ _, con_ok)); [exact Hp|].
  intros [] c' Hc'. exists c'. split; [done|]. by cbn; rewrite H.
Qed.

(** The saved cursor position. *)
Lemma saved_position k mo :
  settled k mo → wpe (liftt Term.terminal_position)
    (λ p mo', settled k mo' ∧ 0 ≤ Term.p_row p ≤ 22 ∧ 0 ≤ Term.p_column p < 80) may mo.
Proof.
  intros (c & [Hr Hc] & H). apply wpe_zoom, wpe_zoom, wpe_zoom. cbn. rewrite H. cbn. rewrite !u8_small by lia.
  split; [|done]. exists c. by split; [split|].
Qed.

(** The same for a first step of a longer computation. *)
Section steps.
Context {B : Type} (Q : B → monitor → Prop) (k : kstate Term.terminal) (mo : monitor).

Lemma step_liftt {A} (x : M Term.terminal A) (rest : A → M monitor B) :
  screen k mo → (∀ a mo', screen k mo' → wpe (rest a) Q may mo') → wpe (a ← liftt x; rest a) Q may mo.
Proof. intros H Hr. apply wpe_bind. eapply wpe_mono; [apply screen_liftt, H|exact Hr|done]. Qed.

Lemma step_modify h (rest : M monitor B) :
  (∀ mo, kern (h mo) = kern mo) → screen k mo → (∀ mo', screen k mo' → wpe rest Q may mo') →
  wpe (modify h ;; rest) Q may mo.
Proof. intros Hh H Hr. apply wpe_bind. eapply wpe_mono; [apply screen_modify; [exact Hh|exact H]|intros []; exact Hr|done]. Qed.

Lemma step_gets {A} (h : monitor → A) (rest : A → M monitor B) :
  screen k mo → (∀ a, wpe (rest a) Q may mo) → wpe (a ← gets h; rest a) Q may mo.
Proof. intros H Hr. apply wpe_bind, Hr. Qed.

Lemma step_save (rest : Term.position → M monitor B) :
  settled k mo → (∀ p mo', screen k mo' → 0 ≤ Term.p_row p ≤ 22 → 0 ≤ Term.p_column p < 80 → wpe (rest p) Q may mo') →
  wpe (p ← liftt Term.terminal_position; rest p) Q may mo.
Proof.
  intros H Hr. apply wpe_bind. eapply wpe_mono; [apply saved_position, H| |done].
  intros p mo' (H1 & H2 & H3). apply Hr; [by apply settled_screen|done|done].
Qed.

Lemma step_settle p (rest : M monitor B) :
  0 ≤ Term.p_row p ≤ 22 → 0 ≤ Term.p_column p < 80 → screen k mo → (∀ mo', settled k mo' → wpe rest Q may mo') →
  wpe (liftt (Term.terminal_set_position p) ;; rest) Q may mo.
Proof. intros Hp Hc H Hr. apply wpe_bind. eapply wpe_mono; [apply (settle k mo p Hp Hc H)|intros []; exact Hr|done]. Qed.

Lemma step_printf fmt ap (rest : M monitor B) :
  fmt_ok fmt ap = true → settled k mo → (∀ mo', settled k mo' → wpe rest Q may mo') →
  wpe (mprintf fmt ap ;; rest) Q may mo.
Proof. intros Hf H Hr. apply wpe_bind. eapply wpe_mono; [apply (settled_printf k mo fmt ap Hf H)|intros []; exact Hr|done]. Qed.
End steps.

(** ** Loops *)

Lemma wpe_mfor {S A} (l : list A) (body : A → M S ()) (I : S → Prop) s :
  (∀ a s', I s' → wpe (body a) (λ _, I) may s') → I s → wpe (mfor l body) (λ _, I) may s.
Proof.
  intros Hb. revert s. induction l as [|a l IH]; intros s Hs; [done|].
  apply wpe_bind. eapply wpe_mono; [by apply Hb|intros [] s' Hs'; by apply IH|done].
Qed.

Lemma wpe_mfor_ret {S A R} (l : list A) (body : A → M S (option R)) (I : S → Prop) (Q : option R → S → Prop) s :
  (∀ a s', I s' → wpe (body a) (λ r s'', match r with None => I s'' | Some _ => Q r s'' end) may s') →
  (∀ s', I s' → Q None s') → I s → wpe (mfor_ret l body) Q may s.
Proof.
  intros Hb HQ. revert s. induction l as [|a l IH]; intros s Hs; [by apply HQ|].
  apply wpe_bind. eapply wpe_mono; [by apply Hb| |done]. intros [r|] s' Hs'; [done|by apply IH].
Qed.

(** ** Commands *)

(** The kernel after a command: the current task is still current, or gone.
    The tasks that were not killed are as before. *)
Definition after k0 (i : Z) k : Prop :=
  (∃ g tl, kinv K k g tl f ∧ no_run k ∧ (entered K k g tl f i ∨ state (tasks k i) ≠ TASK_STATE_READY)) ∧
  isolated (λ _, False) (λ _, True) (eq (rax_of k0 i)) i k0 k.

Lemma after_quiet k k' g tl i : entered K k g tl f i → quiet k k' → after k i k'.
Proof.
  intros E Hq. pose proof (quiet_entered K k k' g tl f i Hq E) as E'.
  split; [|by apply isolated_light, quiet_light]. exists g, tl.
  split; [exact (en_inv _ _ _ _ _ _ E')|]. split; [exact (en_norun _ _ _ _ _ _ E')|by left].
Qed.

Lemma quiet_printf k0 k fmt ap : fmt_ok fmt ap = true → quiet k0 k → wpe (kprintf fmt ap) (λ _, quiet k0) may k.
Proof.
  intros Hf Hq. by apply wpe_wp, wp_quiet.
Qed.

Lemma get_task_out j k :
  wpe (get_task (TSlot j)) (λ t k', t = tasks k j ∧ k' = k ∧ 0 ≤ j < TASK_MAX_CNT) may k.
Proof.
  unfold wpe, get_task, slot_at, mbind, M_bind. destruct ((0 <=? j) && (j <? TASK_MAX_CNT)) eqn:Hj; [|done].
  by apply andb_prop in Hj as [Hj1%Z.leb_le Hj2%Z.ltb_lt].
Qed.

Lemma task_list_out k : con_ok (con (mm k)) → wpe task_list (λ _, quiet k) may k.
Proof.
  intros Hc. unfold task_list. apply wpe_bind. eapply wpe_mono; [apply (quiet_printf k k)| |done].
  { reflexivity. }
  { by apply quiet_refl. }
  intros [] k1 Hq. apply (wpe_mfor _ _ (quiet k)); [|done]. intros j k2 Hq2.
  apply wpe_bind. eapply wpe_mono; [apply get_task_out| |done]. intros t k3 (-> & -> & _).
  destruct (is_alive (tasks k2 j)); [|done]. apply quiet_printf; [by destruct (is_user _)|done].
Qed.

(** Killing a task keeps the invariant. *)
Lemma destroy_after k g tl i j :
  entered K k g tl f i → 0 ≤ j < TASK_MAX_CNT → pml4 (tasks k j) ≠ NULL → wp (task_destroy (TSlot j)) (λ _, after k i) k.
Proof.
  intros E Hj Hn. pose proof (en_inv _ _ _ _ _ _ E) as I. pose proof (ki_kwf _ _ _ _ _ I) as Hk.
  destruct (destroy_kinv K k g tl f j I Hj Hn) as (k' & g' & r & Hrun & TD & I').
  eapply wp_eq; [exact Hrun|]. pose proof (td_other _ _ _ _ _ _ _ _ TD) as Ho.
  split.
  2: { eapply isolated_mono; [| | |exact (destroy_isolated K k g tl j r k' g' i Hk (ki_kwf _ _ _ _ _ I') TD)]; [done|done|].
    by intros v [_ ->]. }
  exists g', (j :: tl). split; [done|].
  assert (no_run k') as Hnr.
  { intros n Hn'. destruct (decide (n = j)) as [->|Hne]; [by rewrite (td_task _ _ _ _ _ _ _ _ TD)|].
    rewrite Ho by done. by apply (en_norun _ _ _ _ _ _ E). }
  split; [done|]. destruct (decide (i = j)) as [->|Hij]; [right; by rewrite (td_task _ _ _ _ _ _ _ _ TD)|left].
  constructor; try done.
  - exact (en_slot _ _ _ _ _ _ E).
  - rewrite (td_cpu _ _ _ _ _ _ _ _ TD), decide_False; [exact (en_cpu _ _ _ _ _ _ E)|].
    rewrite (en_cpu _ _ _ _ _ _ E). congruence.
  - rewrite Ho by done. exact (en_ready _ _ _ _ _ _ E).
  - rewrite (td_cr3 _ _ _ _ _ _ _ _ TD), (de_bld _ _ _ _ _ _ (td_mm _ _ _ _ _ _ _ _ TD)), Ho by done. unfold cr3_after.
    destruct (Z.eqb_spec (cr3 k) (PADDR (bld (mm k)) (pml4 (tasks k j)))) as [Ec|]; [|exact (en_cr3 _ _ _ _ _ _ E)].
    exfalso. destruct (entered_root K k g tl f i E) as (Hni & ri & Hri & [Hli _] & Hcri).
    pose proof (td_root _ _ _ _ _ _ _ _ TD) as Hlr. pose proof (kw_wf _ _ _ _ Hk) as W.
    destruct (wf_lab _ _ _ W r _ Hlr) as (Hrr & _).
    pose proof (PADDR_entry (mm k) r 0 (wf_build _ _ _ W) Hrr ltac:(lia)) as Ep. rewrite !Z.add_0_r in Ep.
    rewrite (td_pml4 _ _ _ _ _ _ _ _ TD), Ep, Hcri in Ec. assert (ri = r) as -> by lia.
    apply Hij, (kw_inj _ _ _ _ Hk); [exact (en_slot _ _ _ _ _ _ E)|done|done|].
    by rewrite Hri, (td_pml4 _ _ _ _ _ _ _ _ TD).
Qed.

Lemma task_kill_out k g tl i n : entered K k g tl f i → wpe (task_kill n) (λ _, after k i) may k.
Proof.
  intros E. unfold task_kill. apply wpe_bind.
  pose proof (quiet_refl k (entered_conok K k g tl f i E)) as Q0.
  eapply wpe_mono; [apply (wpe_mfor_ret _ _ (λ k', k' = k)
    (λ r k', match r with None => k' = k | Some _ => after k i k' end))| |].
  - intros j k' ->. apply wpe_bind. eapply wpe_mono; [apply get_task_out| |done]. intros t k' (-> & -> & Hj).
    destruct (is_alive (tasks k j)) eqn:Ha; [|done]. destruct (id (tasks k j) =? n); [|done]. cbn [negb].
    destruct (is_user (tasks k j)); cbn [negb]; apply wpe_bind.
    + apply wpe_wp. eapply wp_mono; [apply (destroy_after k g tl i j E); [done|]|done].
      apply (ki_alive _ _ _ _ _ (en_inv _ _ _ _ _ _ E)); [done|]. unfold is_alive in Ha.
      apply orb_prop in Ha as [Ha|Ha]; apply bool_decide_eq_true in Ha; auto.
    + eapply wpe_mono; [apply (quiet_printf k k); [reflexivity|done]| |done]. cbn. intros _ k' Hq. by eapply after_quiet.
  - done.
  - done.
  - intros [r|] k' H; [done|]. subst k'.
    eapply wpe_mono; [apply (quiet_printf k k); [reflexivity|done]| |done]. cbn. intros _ k' Hq. by eapply after_quiet.
  - done.
Qed.

(** Computations of the kernel and of the monitor. *)
Lemma liftk_out {A} (x : M (kstate Term.terminal) A) (Q : A → kstate Term.terminal → Prop) mo :
  wpe x Q may (kern mo) → wpe (Monitor.liftk x) (λ a mo', Q a (kern mo')) may mo.
Proof. intros H. apply wpe_zoom. eapply wpe_mono; [exact H|done|done]. Qed.

Lemma monitor_init_out k mo : settled k mo → wpe monitor_init (λ _, settled k) may mo.
Proof.
  intros Hs. unfold monitor_init.
  apply wpe_bind. change (wpe (p ← liftt Term.terminal_position; c ← gets command_line_position;
    liftt (Term.terminal_set_position c) ;; mprintf "%s" [AStr (codes COMMAND_LINE_PROMPT)] ;;
    c' ← liftt Term.terminal_position; modify (set_clp c') ;; liftt (Term.terminal_set_position p))
    (λ _, settled k) may (set_clp (Term.Position Term.TERMINAL_ROW_COUNT 0) mo)).
  apply (step_save _ k); [exact Hs|]. intros p m1 H1 Hr Hc. apply (step_gets _ k); [done|]. intros cl.
  apply (step_liftt _ k); [done|]. intros [] m2 H2. apply (step_liftt _ k); [done|]. intros [] m3 H3.
  apply (step_liftt _ k); [done|]. intros c' m4 H4. apply (step_modify _ k); [done|done|]. intros m5 H5.
  by apply settle.
Qed.

Lemma help_out k mo : settled k mo → wpe help_command_handler (λ _, settled k) may mo.
Proof.
  intros Hs. unfold help_command_handler. apply (step_printf _ k); [reflexivity|done|]. intros m1 H1.
  apply wpe_mfor; [|done]. intros [[n d] c] m2 H2. by apply settled_printf.
Qed.

Lemma clear_out k mo : settled k mo → wpe clear_command_handler (λ _, settled k) may mo.
Proof.
  intros (c & Hc & H). unfold clear_command_handler. apply wpe_bind.
  eapply (wpe_mono _ _ (λ _, settled k) _ may); [|intros [] m1 H1; by apply monitor_init_out|done].
  apply wpe_zoom, wpe_zoom, wpe_zoom. unfold wpe, Term.terminal_clear, modify. eexists.
  split; cycle 1; [cbn; rewrite H; reflexivity|]. split; cbn; lia.
Qed.

Lemma after_before k0 k1 i k : quiet k0 k1 → after k1 i k → after k0 i k.
Proof.
  intros Hq [H HI]. split; [done|]. apply (isolated_before _ _ _ _ _ k1); [by apply quiet_light|].
  unfold rax_of in *. by rewrite <- (quiet_tasks _ _ Hq).
Qed.

Lemma run_command_out k g tl i mo c argv :
  entered K k g tl f i → settled k mo → wpe (run_command c argv) (λ _ mo', after k i (kern mo')) may mo.
Proof.
  intros E Hs. pose proof (λ k', after_quiet k k' g tl i E) as Ha.
  assert (entered K (kern mo) g tl f i) as E' by (by eapply quiet_entered).
  destruct c; cbn [run_command].
  - eapply wpe_mono; [by apply (clear_out k)|intros [] mo' H; by apply Ha|done].
  - eapply wpe_mono; [by apply (help_out k)|intros [] mo' H; by apply Ha|done].
  - apply (liftk_out _ (λ _, after k i)). eapply wpe_mono; [apply task_list_out; by eapply entered_conok| |done].
    intros [] k' Hq. apply (after_before _ (kern mo)); [done|]. by eapply after_quiet.
  - unfold kill_command_handler. destruct argv as [|a [|w [|? ?]]]; cycle 2.
    { apply wpe_bind. destruct (Cstring.atoi _ _ _) as [n|]; [|done]. cbn.
      apply (liftk_out _ (λ _, after k i)). eapply wpe_mono; [by eapply task_kill_out| |done].
      intros [] k'. by apply after_before. }
    all: eapply wpe_mono; [apply (settled_printf k); [reflexivity|done]|intros [] mo' H; by apply Ha|done].
Qed.

Lemma process_command_out k g tl i mo b :
  entered K k g tl f i → settled k mo → wpe (monitor_process_command b) (λ _ mo', after k i (kern mo')) may mo.
Proof.
  intros E Hs. unfold monitor_process_command.
  assert (∀ w, wpe (mprintf ("unknown command: `%s'" ++ nl) [AStr w] ;; help_command_handler)
    (λ _ mo', after k i (kern mo')) may mo) as Hu.
  { intros w. apply (step_printf _ k); [reflexivity|done|]. intros m1 H1.
    eapply wpe_mono; [by apply (help_out k)|intros [] mo' H; by eapply after_quiet|done]. }
  destruct (words _) as [|w l]; [apply Hu|]. destruct (find_command w) as [c|]; [by eapply run_command_out|apply Hu].
Qed.

(** The part of a key press that edits the line. *)
Lemma edit_out k mo scancode clp : screen k mo → wpe (edit_line scancode clp) (λ _, screen k) may mo.
Proof.
  unfold edit_line. cbn zeta.
  intros Hs. destruct (_ && _); [|destruct (_ =? 10); [|destruct (negb _); [destruct (_ <? _)|]]]; try done.
  - apply (step_modify _ k); [done|done|]. intros m1 H1. apply (step_liftt _ k); [done|]. intros _ m2 H2.
    apply (step_liftt _ k); [done|]. by intros _ m3 H3.
  - apply wpe_bind, (step_liftt _ k); [done|]. intros t m1 H1. apply (step_modify _ k); [done|done|]. intros m2 H2.
    apply (step_liftt _ k); [done|]. by intros _ m3 H3.
  - apply (step_modify _ k); [done|done|]. intros m1 H1. apply (step_liftt _ k); [done|]. by intros _ m2 H2.
Qed.

Lemma key_press_out g tl i mo scancode :
  entered K (kern mo) g tl f i →
  wpe (monitor_process_key_press scancode) (λ _ mo', after (kern mo) i (kern mo')) may mo.
Proof.
  intros E. set (k := kern mo) in *. assert (settled k mo) as Hs by (by apply quiet_refl; eapply entered_conok).
  unfold monitor_process_key_press.
  apply (step_save _ k); [done|]. intros p m1 H1 Hr Hc. cbn zeta. apply (step_gets _ k); [done|]. intros cl.
  apply (step_liftt _ k); [done|]. intros [] m2 H2.
  apply wpe_bind. eapply wpe_mono; [by apply (edit_out k)| |done]. cbn. intros [b|] m3 H3.
  - apply (step_liftt _ k); [done|]. intros [] m4 H4. apply (step_liftt _ k); [done|]. intros c' m5 H5.
    apply (step_modify _ k); [done|done|]. intros m6 H6. apply (step_settle _ k); [done|done|done|]. intros m7 H7.
    by eapply process_command_out.
  - eapply wpe_mono; [by apply (settle k)|intros [] m4 H4; by eapply after_quiet|done].
Qed.
End keys.
