(* ===== verification/SystemProofs.v ===== *)
(** The running system: interrupts from the entry of the handler to the task
    that is resumed, and the transitions of the whole machine.

    [handler_out] says what an interrupt does: which task runs, that the
    invariant holds again, and, in [trap_result], what became of every task.
    [step] is the transition relation of the machine once the kernel has
    started: an interrupt of any kind with any saved context, or a store by the
    running task to an address its page tables let it write.  The stores are
    those of an AMD64 processor with coherent translation caches; flags of the
    inner table levels, which the processor also checks, only restrict them. *)

From Stdlib Require Import String.
From S2P Require Import Prelude Memory Queue Mmu Console Terminal Map AllocProofs Walk MapWf.
From S2P Require Import LookupProofs InsertProofs KmapProofs Gdt Context Task SchedProofs.
From S2P Require Import DestroyProofs TaskProofs Syscall ForkProofs Monitor Interrupt.
From S2P Require Import FaultProofs IsolationProofs.
From S2P Require Import TrapProofs LoadProofs MonitorProofs.
Import Mmu Map Task Interrupt.

Section system.
Context (K f : Z).
Implicit Types (k : kstate Term.terminal) (m : machine) (ctx : Context.task_context).

(** The kernel inside the machine. *)
Abbreviation kern m := (Monitor.kern (mon m)).
Definition with_kern k m : machine := set_mon (Monitor.set_kern k (mon m)) m.

Lemma liftk_wpe {A} (x : M (kstate Term.terminal) A) Q E m :
  wpe x (λ a k, Q a (with_kern k m)) E (kern m) → wpe (liftk x) Q E m.
Proof. intros H. by apply wpe_zoom, wpe_zoom. Qed.

(** ** Entry *)

(** The current task with its context saved. *)
Definition saved ctx k (i : Z) : kstate Term.terminal :=
  let k1 := set_tasks (<[i := set_context ctx (tasks k i)]> (tasks k)) k in
  set_tasks (<[i := set_state TASK_STATE_READY (tasks k1 i)]> (tasks k1)) k1.

Lemma saved_other ctx k i j : j ≠ i → tasks (saved ctx k i) j = tasks k j.
Proof. intros Hj. cbn. by rewrite !fn_lookup_insert_ne. Qed.

Lemma saved_task ctx k i : tasks (saved ctx k i) i = set_state TASK_STATE_READY (set_context ctx (tasks k i)).
Proof. cbn. by rewrite !fn_lookup_insert. Qed.

(** Saving the context changes nothing else the task can observe. *)
Lemma saved_view ctx k i j :
  pml4 (tasks (saved ctx k i) j) = pml4 (tasks k j) ∧ id (tasks (saved ctx k i) j) = id (tasks k j) ∧
  context (tasks (saved ctx k i) j) = (if decide (j = i) then ctx else context (tasks k j)) ∧
  ∀ va, task_cell (saved ctx k i) j va = task_cell k j va.
Proof.
  unfold task_cell. destruct (decide (j = i)) as [->|Hj]; [rewrite saved_task|rewrite saved_other by done]; done.
Qed.

Lemma enter ctx k g tl i : running K k g tl f i → entered K (saved ctx k i) g tl f i.
Proof.
  intros [I Hi Hc Hr Ho Hcr].
  assert (pml4 (tasks k i) ≠ NULL) as Hn by (apply (ki_alive _ _ _ _ _ I); auto).
  constructor; try done.
  - unfold saved. cbn zeta. apply kinv_upd; [done| |apply kinv_upd; [done|done|done]].
    cbn. by rewrite fn_lookup_insert.
  - by rewrite saved_task.
  - intros j Hj. destruct (decide (j = i)) as [->|Hne]; [by rewrite saved_task|]. rewrite saved_other by done. auto.
  - by rewrite saved_task.
Qed.

Lemma saved_last ctx k i : last_task (saved ctx k i) i → last_task k i.
Proof. intros H j Hj Hne. rewrite <- (saved_other ctx k i j Hne). auto. Qed.

(** ** The handler *)

(** The vectors with a handler of their own. *)
Definition handled (num : Z) : Prop :=
  num ∈ [INTERRUPT_VECTOR_BREAKPOINT; INTERRUPT_VECTOR_PAGE_FAULT; INTERRUPT_VECTOR_SYSCALL;
         INTERRUPT_VECTOR_TIMER; INTERRUPT_VECTOR_KEYBOARD].

(** Interrupts that may destroy the current task. *)
Definition fatal ctx : Prop :=
  let num := Context.interrupt_number ctx in
  num = INTERRUPT_VECTOR_PAGE_FAULT ∨
  num = INTERRUPT_VECTOR_SYSCALL ∧ u32 (Context.rax (Context.c_gprs ctx)) = Syscall.SYSCALL_EXIT ∨
  ¬ handled num.

(** Why an interrupt other than a key press stops the machine: the only READY
    task was destroyed; an unknown system call; a string that cannot be read or
    has no end within the bound of the model; a vector without a name. *)
Definition stop ctx k (i : Z) (e : err) : Prop :=
  let num := Context.interrupt_number ctx in
  let nr := u32 (Context.rax (Context.c_gprs ctx)) in
  e = EPanic ∧ last_task k i ∧ fatal ctx ∨
  e = EPanic ∧ num = INTERRUPT_VECTOR_SYSCALL ∧ Syscall.SYSCALL_YIELD < nr ∨
  (e = EUndef ∨ e = EFuel) ∧ num = INTERRUPT_VECTOR_SYSCALL ∧ nr = Syscall.SYSCALL_PUTS ∨
  e = EUndef ∧ name_of num = None.

(** Some task runs. *)
Definition lives (t : tptr) m : Prop := ∃ i g tl, t = TSlot i ∧ running K (kern m) g tl f i.

Lemma liftk_seq {A} (x : M (kstate Term.terminal) ()) (y : M (kstate Term.terminal) A) Q E m :
  wpe (x ;; y) (λ a k, Q a (with_kern k m)) E (kern m) → wpe (liftk x ;; liftk y) Q E m.
Proof.
  intros H. unfold wpe, liftk, liftmon, Monitor.liftk, zoom, mbind, M_bind in *. destruct (x (kern m)) as [[[] k]|e]; [|done].
  cbn. by destruct (y k) as [[a k']|e].
Qed.

(** Some task runs, and the kernel's state is related to [k0]. *)
Definition ended (P : kstate Term.terminal → Prop) (t : tptr) m : Prop := lives t m ∧ P (kern m).

Abbreviation nobody := (λ _ : Z, False).

Lemma ended_switched k0 k1 N D V i t k m :
  isolated N D V i k0 k1 → switched K k1 f t k → ended (isolated N D V i k0) t (with_kern k m).
Proof. intros HI H. destruct (resumed_after K k0 k1 N D V i f t k HI H) as [HL HI']. by split. Qed.

Lemma ended_mono (P Q : kstate Term.terminal → Prop) t m : (∀ k, P k → Q k) → ended P t m → ended Q t m.
Proof. intros H [HL HP]. split; [done|auto]. Qed.

Lemma unhandled_out ctx m k i g tl :
  kern m = saved ctx k i → running K k g tl f i → ¬ handled (Context.interrupt_number ctx) →
  wpe (unhandled_interrupt ctx) (ended (isolated nobody (λ j, j = i) nobody i (kern m))) (stop ctx k i) m.
Proof.
  intros Hm R Hun. pose proof (enter ctx k g tl i R) as E. unfold unhandled_interrupt.
  apply wpe_bind. destruct (name_of (Context.interrupt_number ctx)) as [nm|] eqn:Hnm; [|by right; right; right].
  change (deref (Some nm)) with (mret (M := M machine) nm). cbn [wpe mret M_ret]. rewrite <- Hm in E.
  pose proof (quiet_refl _ (entered_conok K _ g tl f i E)) as Q0.
  apply wpe_bind, liftk_wpe, wpe_wp. eapply wp_mono; [apply wp_quiet; [reflexivity|exact Q0]|]. intros [] k1 Q1.
  apply wpe_bind, liftk_wpe, wpe_wp. eapply wp_mono; [apply wp_quiet; [reflexivity|exact Q1]|]. intros [] k2 Q2.
  pose proof (quiet_entered K _ _ g tl f i Q2 E) as E2. change k2 with (kern (with_kern k2 (with_kern k1 m))) in E2.
  apply wpe_bind, liftk_wpe. cbn [wpe get]. apply wpe_bind.
  rewrite (en_cpu _ _ _ _ _ _ E2). cbn [wpe deref mret M_ret]. apply liftk_seq.
  eapply wpe_mono; [apply (kill_entered K _ g tl f i E2)| |].
  { intros t k' H. destruct (resumed_before K (kern m) k2 _ _ _ i f t k' (quiet_light _ _ Q2) H) as [H1 H2]. by split. }
  intros e [-> H]. left. split; [done|]. split; [|by right; right].
  apply (saved_last ctx). rewrite <- Hm. intros j Hj Hne. specialize (H j Hj Hne). cbn in H. by rewrite (quiet_tasks _ _ Q2) in H.
Qed.

Lemma keyboard_out ctx m k i g tl :
  kern m = saved ctx k i → running K k g tl f i →
  wpe (keyboard_handler (TSlot i)) (ended (isolated nobody (λ _, has_flag (u8 (kbd m)) KEYBOARD_KEY_RELEASED = false)
    (eq (rax_of (kern m) i)) i (kern m)))
    (λ _, has_flag (u8 (kbd m)) KEYBOARD_KEY_RELEASED = false) m.
Proof.
  intros Hm R. pose proof (enter ctx k g tl i R) as E. rewrite <- Hm in E.
  assert (∀ m' D, after K f (kern m) i (kern m') → isolated nobody D (eq (rax_of (kern m) i)) i (kern m) (kern m') → 0 ≤ i < TASK_MAX_CNT →
    wpe (t ← liftk (get_task (TSlot i));
         if decide (state t = TASK_STATE_READY) then liftk (task_run (TSlot i)) else liftk schedule)
      (ended (isolated nobody D (eq (rax_of (kern m) i)) i (kern m)))
      (λ _, state (tasks (kern m') i) ≠ TASK_STATE_READY) m') as Hend.
  { intros m' D [(g' & tl' & I & Hnr & Ha) _] HI Hi. apply wpe_bind, liftk_wpe, wpe_wp. eapply wp_eq; [by apply get_slot_ok|].
    pose proof (λ t k', ended_switched (kern m) (kern m') nobody D (eq (rax_of (kern m) i)) i t k' m' HI) as Hsw.
    destruct (decide _) as [Hr|Hr].
    - destruct Ha as [E'|?]; [|done]. apply liftk_wpe, wpe_wp. eapply wp_mono; [by apply (task_run_entered K _ g' tl')|exact Hsw].
    - apply liftk_wpe. eapply wpe_mono; [by apply (schedule_out K _ g' tl' f)|exact Hsw|done]. }
  pose proof (en_slot _ _ _ _ _ _ E) as Hi.
  unfold keyboard_handler. apply wpe_bind. cbn [wpe gets]. destruct (has_flag (u8 (kbd m)) KEYBOARD_KEY_RELEASED) eqn:Hrel.
  - apply wpe_bind. cbn [wpe mret M_ret]. apply wpe_bind. cbn [wpe APIC_WRITE modify].
    pose proof (quiet_refl _ (entered_conok K _ g tl f i E)) as Q0.
    eapply wpe_mono; [apply Hend; [|by apply isolated_light, quiet_light|done]|done|].
    + by eapply (after_quiet K f (kern m) _ g tl).
    + intros e Hne. destruct Hne. exact (en_ready _ _ _ _ _ _ E).
  - apply wpe_bind. eapply (wpe_mono _ _ (λ _ m', after K f (kern m) i (kern m')) _ (λ _, True)).
    + apply wpe_zoom. eapply wpe_mono; [apply (key_press_out K f g tl i (mon m)); exact E|done|done].
    + intros [] m' Ha. apply wpe_bind. cbn [wpe APIC_WRITE modify]. eapply wpe_mono; [apply Hend; [done| |done]|done|done].
      by eapply isolated_mono; [| | |exact (proj2 Ha)].
    + done.
Qed.

(** A key is pressed, not released. *)
Definition key_press ctx m : Prop :=
  Context.interrupt_number ctx = INTERRUPT_VECTOR_KEYBOARD ∧ has_flag (u8 (kbd m)) KEYBOARD_KEY_RELEASED = false.

(** What an interrupt does to the tasks, from the state [k] right after the
    context of the current task [i] was saved. *)
Definition trap_result ctx m (i : Z) k k' : Prop :=
  let num := Context.interrupt_number ctx in
  num = INTERRUPT_VECTOR_PAGE_FAULT ∧ fault_result k i (cr2 m) k' ∨
  num = INTERRUPT_VECTOR_SYSCALL ∧ call_result k i k' ∨
  key_press ctx m ∧ isolated nobody (λ _, True) (eq (rax_of k i)) i k k' ∨
  num ∈ [INTERRUPT_VECTOR_BREAKPOINT; INTERRUPT_VECTOR_TIMER; INTERRUPT_VECTOR_KEYBOARD] ∧
    isolated nobody nobody (eq (rax_of k i)) i k k' ∨
  ¬ handled num ∧ isolated nobody (λ j, j = i) nobody i k k'.

Lemma handler_out ctx m i g tl :
  running K (kern m) g tl f i → 0 ≤ cr2 m < 2 ^ 64 →
  wpe (interrupt_handler ctx) (ended (trap_result ctx m i (saved ctx (kern m) i)))
    (λ e, stop ctx (kern m) i e ∨ key_press ctx m) m.
Proof.
  intros R Hcr. pose proof (enter ctx _ g tl i R) as E. pose proof (ru_slot _ _ _ _ _ _ R) as Hi.
  unfold interrupt_handler. apply wpe_bind, liftk_wpe. cbn [wpe get]. apply wpe_bind.
  rewrite (ru_cpu _ _ _ _ _ _ R). cbn [wpe deref mret M_ret].
  apply wpe_bind, liftk_wpe, wpe_wp. eapply wp_eq; [by apply upd_slot_ok|].
  apply wpe_bind, liftk_wpe, wpe_wp. eapply wp_eq; [by apply upd_slot_ok|].
  match goal with |- wpe _ _ _ ?m' => set (m2 := m') end.
  assert (kern m2 = saved ctx (kern m) i) as Em by done.
  assert (cr2 m2 = cr2 m) as Ecr by done. assert (kbd m2 = kbd m) as Ekb by done. clearbody m2. rewrite <- Em in E |- *.
  pose proof (isolated_refl nobody nobody i (kern m2)) as Hnone.
  assert (∀ t k', Context.interrupt_number ctx ∈
      [INTERRUPT_VECTOR_BREAKPOINT; INTERRUPT_VECTOR_TIMER; INTERRUPT_VECTOR_KEYBOARD] →
    switched K (kern m2) f t k' → ended (trap_result ctx m i (kern m2)) t (with_kern k' m2)) as Hsw.
  { intros t k' Hnum H. eapply ended_mono; [|exact (ended_switched (kern m2) (kern m2) _ _ _ i t k' m2 Hnone H)].
    intros k2 HI. by right; right; right; left. }
  destruct (Z.eqb_spec (Context.interrupt_number ctx) INTERRUPT_VECTOR_BREAKPOINT) as [E1|N1].
  { destruct (has_flag _ _); apply liftk_wpe; [apply wpe_wp; eapply wp_mono|eapply (wpe_mono _ _ _ _ (λ _, False))].
    - by apply (task_run_entered K _ g tl).
    - intros t k'. apply Hsw. rewrite E1. by left.
    - by apply (schedule_entered K _ g tl f i).
    - intros t k'. apply Hsw. rewrite E1. by left.
    - done. }
  destruct (Z.eqb_spec (Context.interrupt_number ctx) INTERRUPT_VECTOR_PAGE_FAULT) as [E2|N2].
  { apply wpe_bind. cbn [wpe gets]. apply liftk_wpe.
    eapply wpe_mono; [apply (page_fault_out K _ g tl f i); [done|by rewrite Ecr]| |].
    - intros t k' [H1 H2]. split; [exact H1|]. left. split; [done|]. by rewrite Ecr in H2.
    - intros e [-> H]. left; left. split; [done|]. split; [|by left]. rewrite Em in H. by eapply saved_last. }
  destruct (Z.eqb_spec (Context.interrupt_number ctx) INTERRUPT_VECTOR_SYSCALL) as [E3|N3].
  { apply liftk_wpe. eapply wpe_mono; [by apply (syscall_out K _ g tl f i)| |].
    { intros t k' [H1 H2]. split; [exact H1|]. by right; left. }
    intros e. unfold syscall_stop. rewrite Em, saved_task. cbn [context set_state set_context]. intros H. left.
    destruct H as [[H1 H2]|[(H1 & -> & H2)|[H1 ->]]].
    - by right; right; left.
    - left. split; [done|]. split; [by eapply saved_last|]. right; left. done.
    - by right; left. }
  destruct (Z.eqb_spec (Context.interrupt_number ctx) INTERRUPT_VECTOR_TIMER) as [E4|N4].
  { unfold timer_handler. apply wpe_bind. cbn [wpe APIC_WRITE modify]. apply liftk_wpe.
    eapply (wpe_mono _ _ _ _ (λ _, False)); [by apply (schedule_entered K _ g tl f i)| |done].
    intros t k'. apply Hsw. rewrite E4. right; by left. }
  destruct (Z.eqb_spec (Context.interrupt_number ctx) INTERRUPT_VECTOR_KEYBOARD) as [E5|N5].
  { eapply wpe_mono; [by apply (keyboard_out ctx m2 (kern m) i g tl)|intros t m' [HL HI]|].
    - split; [done|]. rewrite Ekb in HI. right; right. destruct (has_flag (u8 (kbd m)) KEYBOARD_KEY_RELEASED) eqn:Hrel.
      + right; left. split; [rewrite E5; do 2 right; by left|]. by eapply isolated_mono; [| | |exact HI].
      + left. split; [done|]. by eapply isolated_mono; [| | |exact HI].
    - intros e H. right. by rewrite Ekb in H. }
  assert (¬ handled (Context.interrupt_number ctx)) as Hun.
  { unfold handled. rewrite !elem_of_cons, elem_of_nil. tauto. }
  eapply wpe_mono; [by apply (unhandled_out ctx m2 (kern m) i g tl Em R)|intros t m' [HL HI]|intros e H; by left].
  split; [done|]. by right; right; right; right.
Qed.

(** For one vector the results are those of its handler. *)
Lemma trap_call ctx m i k k' :
  Context.interrupt_number ctx = INTERRUPT_VECTOR_SYSCALL → trap_result ctx m i k k' → call_result k i k'.
Proof.
  intros Hnum [[E _]|[[_ H]|[[[E _] _]|[[E _]|[E _]]]]]; [|exact H|..]; exfalso.
  - by rewrite Hnum in E.
  - by rewrite Hnum in E.
  - rewrite Hnum, !elem_of_cons, elem_of_nil in E. by destruct E as [?|[?|[?|?]]].
  - apply E. rewrite Hnum. unfold handled. rewrite !elem_of_cons. tauto.
Qed.

Lemma trap_fault ctx m i k k' :
  Context.interrupt_number ctx = INTERRUPT_VECTOR_PAGE_FAULT → trap_result ctx m i k k' → fault_result k i (cr2 m) k'.
Proof.
  intros Hnum [[_ H]|[[E _]|[[[E _] _]|[[E _]|[E _]]]]]; [exact H|..]; exfalso.
  - by rewrite Hnum in E.
  - by rewrite Hnum in E.
  - rewrite Hnum, !elem_of_cons, elem_of_nil in E. by destruct E as [?|[?|[?|?]]].
  - apply E. rewrite Hnum. unfold handled. rewrite !elem_of_cons. tauto.
Qed.

(** The tasks an interrupt may destroy: the current one for a fault, [exit] or
    an exception, any by a command. *)
Definition victim ctx m (i j : Z) : Prop := j = i ∧ fatal ctx ∨ key_press ctx m.

Lemma trap_isolated ctx m i k k' :
  trap_result ctx m i (saved ctx k i) k' →
  ∃ N V, isolated N (victim ctx m i) V i (saved ctx k i) k'.
Proof.
  assert (∀ N D V, isolated N D V i (saved ctx k i) k' → (∀ j, D j → victim ctx m i j) →
    ∃ N V, isolated N (victim ctx m i) V i (saved ctx k i) k') as Hgo.
  { intros N D V H HD. exists N, V. by eapply isolated_mono; [| | |exact H]. }
  intros [[E [[H _]|H]]|[[E H]|[[E H]|[[E H]|[E H]]]]].
  - eapply Hgo; [exact H|done].
  - eapply Hgo; [exact H|]. intros j ->. left. split; [done|by left].
  - destruct H as [(_ & _ & H)|[[Hnr H]|[(_ & ret & [[_ H]|(c & _ & _ & _ & _ & H)])|[_ H]]]]; (eapply Hgo; [exact H|]); try done.
    intros j ->. left. split; [done|]. right; left. split; [done|]. unfold rax_of in Hnr. by rewrite saved_task in Hnr.
  - eapply Hgo; [exact H|]. intros j _. by right.
  - eapply Hgo; [exact H|done].
  - eapply Hgo; [exact H|]. intros j ->. left. split; [done|by right; right].
Qed.

(** ** The transitions *)

(** Stores of the running task. *)
Definition user_store (a : Z) (v : byte) m : machine :=
  with_kern (set_mm (set_phys (<[a := v]> (phys (mm (kern m)))) (mm (kern m))) (kern m)) m.

(** What the devices and the processor present to the handler. *)
Definition set_inputs (va sc : Z) m : machine :=
  Machine (mon m) (apic m) (ioapic m) (ports m) sc va (idt m) (tss_descs m)
    (tss_rsp0 m) (tss_ist1 m) (tr m) (apic_msr m).

Definition user_writable m (va e : Z) : Prop :=
  translate (phys (mm (kern m))) (cr3 (kern m) / PAGE_SIZE) va = Some e ∧
  has_flag e PTE_U = true ∧ has_flag e PTE_W = true.

Inductive step : machine → machine → Prop :=
| step_interrupt ctx va sc t m m' :
    0 ≤ va < 2 ^ 64 → interrupt_handler ctx (set_inputs va sc m) = Ok (t, m') → step m m'
| step_store va e v m :
    user_writable m va e → step m (user_store (frame e * PAGE_SIZE + va mod PAGE_SIZE) v m).

(** The page a user program can write to. *)
Lemma writable_page m i g tl va e :
  running K (kern m) g tl f i → user_writable m va e →
  ∃ r, pml4 (tasks (kern m) i) = VADDR (bld (mm (kern m))) (r * 4096) ∧ cr3 (kern m) = r * 4096 ∧
    uview K (phys (mm (kern m))) g r va e ∧ in_range (mm (kern m)) (frame e) ∧ frame e ∉ fl g ∧ lab g (frame e) = None.
Proof.
  intros R (Ht & HU & HW). pose proof (ru_inv _ _ _ _ _ _ R) as I. pose proof (ki_kwf _ _ _ _ _ I) as Hk.
  pose proof (kw_wf _ _ _ _ Hk) as W. destruct (running_root K _ g tl f i R) as (_ & r & Hr & [Hl HrK] & Hcr).
  rewrite Hcr in Ht. change PAGE_SIZE with 4096 in Ht. rewrite Z.div_mul in Ht by done.
  assert (PML4_IDX va < KIDX) as Hva.
  { destruct (Z.lt_ge_cases (PML4_IDX va) KIDX) as [|Hva]; [done|]. exfalso.
    unfold translate, leaf in Ht. destruct (walk _ r (table_path va)) as [x|] eqn:Hw; [|done].
    cbn in Ht. destruct (present _); [|done]. injection Ht as <-.
    destruct (ki_kern _ _ _ _ _ I va x Hva) as [_ H]; [|congruence].
    rewrite <- Hw. unfold table_path. cbn [walk].
    rewrite (kw_shared _ _ _ _ Hk r r); [done|done|]. split; [done|apply PML4_IDX_range]. }
  exists r. split; [done|]. split; [done|]. split; [done|].
  destruct (mapped_page K (mm (kern m)) g r r va e W) as (_ & _ & _ & _ & _ & _ & H1 & H2 & H3 & _); done.
Qed.

(** Bytes of a page that is no table do not show in any translation. *)
Lemma store_tables k g tl x o va' (a : Z) v :
  kwf K k g tl → lab g (a / 4096) = None → lab g x = Some (Lab o []) →
  translate (<[a := v]> (phys (mm k))) x va' = translate (phys (mm k)) x va'.
Proof.
  intros Hk Ha Hx. apply (translate_same K (mm k) g _ x o va'); [apply Hk| |done].
  intros y l i Hy Hi. apply rd64_ext. intros b Hb. apply fn_lookup_insert_ne. intros <-.
  assert (a / 4096 = y) as E by dlia. congruence.
Qed.

Lemma store_running m i g tl va e v :
  running K (kern m) g tl f i → user_writable m va e →
  running K (kern (user_store (frame e * PAGE_SIZE + va mod PAGE_SIZE) v m)) g tl f i.
Proof.
  intros R U. destruct (writable_page m i g tl va e R U) as (r & _ & _ & _ & _ & _ & Hl).
  pose proof (ru_inv _ _ _ _ _ _ R) as I. pose proof (ki_kwf _ _ _ _ _ I) as Hk.
  change PAGE_SIZE with 4096. set (a := frame e * 4096 + va mod 4096).
  assert (a / 4096 = frame e) as Ha by (unfold a; dlia). rewrite <- Ha in Hl.
  assert (∀ x l j, lab g x = Some l → 0 ≤ j < 512 →
    entry_at (<[a := v]> (phys (mm (kern m)))) x j = entry_at (phys (mm (kern m))) x j) as He.
  { intros x l j Hx Hj. apply rd64_ext. intros b Hb. apply fn_lookup_insert_ne. intros <-.
    assert (a / 4096 = x) as E by dlia. congruence. }
  destruct R as [_ H2 H3 H4 H5 H6]. constructor; try done.
  apply (kinv_step K (kern m) g tl f); try done.
  - apply (kwf_mm K (kern m) g tl); try done.
    + apply wf_phys; [apply Hk|done].
    + intros x o j Hx Hj. apply (He x (Lab o [])); [done|]. rewrite KIDX_val in Hj. lia.
  - intros x l j Hx _ Hj. by apply (He x l).
  - apply (views_sub K _ _ _ _ (ki_views _ _ _ _ _ I)). intros x va' e' ([Hx HxK] & Hva' & Ht).
    split; [done|]. split; [done|]. rewrite <- Ht. symmetry. by apply (store_tables (kern m) g tl x x va' a v).
  - exact (ki_next _ _ _ _ _ I).
  - exact (ki_alive _ _ _ _ _ I).
Qed.

(** ** Reachable states *)

(** The machine runs some task and the invariant holds. *)
Definition system_ok m : Prop := ∃ i g tl, running K (kern m) g tl f i.

Lemma step_ok m m' : step m m' → system_ok m → system_ok m'.
Proof.
  intros [ctx va sc t m1 m2 Hva Hrun|va e v m1 U] (i & g & tl & R).
  - pose proof (handler_out ctx (set_inputs va sc m1) i g tl R Hva) as H. unfold wpe in H. rewrite Hrun in H.
    destruct H as [(j & g' & tl' & _ & R') _]. by exists j, g', tl'.
  - exists i, g, tl. by apply store_running.
Qed.

Lemma reachable_ok m0 m : system_ok m0 → rtc step m0 m → system_ok m.
Proof. intros H0 Hr. induction Hr as [|m1 m2 m3 Hs _ IH]; [done|]. by apply IH, (step_ok m1). Qed.

(** The byte task [j] reads at address [va]. *)
Definition user_byte m (j va : Z) : option byte := fst ∘ fst <$> task_cell (kern m) j va.

Lemma task_root m j g tl :
  kwf K (kern m) g tl → 0 ≤ j < TASK_MAX_CNT → pml4 (tasks (kern m) j) ≠ NULL →
  ∃ r, pml4 (tasks (kern m) j) = VADDR (bld (mm (kern m))) (r * 4096) ∧ user_root K g r ∧
    PADDR (bld (mm (kern m))) (pml4 (tasks (kern m) j)) / PAGE_SIZE = r.
Proof.
  intros Hk Hj Hn. destruct (kw_task _ _ _ _ Hk j Hj Hn) as (r & Hr & Hl & HrK). exists r. split; [done|]. split; [done|].
  pose proof (kw_wf _ _ _ _ Hk) as W. destruct (wf_lab _ _ _ W r _ Hl) as (Hrr & _).
  pose proof (PADDR_entry (mm (kern m)) r 0 (wf_build _ _ _ W) Hrr ltac:(lia)) as Ep. rewrite !Z.add_0_r in Ep.
  rewrite Hr, Ep. by apply Z.div_mul.
Qed.

(** Page tables do not show the stored byte. *)
Lemma store_cell m g tl j va' (a : Z) v :
  kwf K (kern m) g tl → lab g (a / 4096) = None → 0 ≤ j < TASK_MAX_CNT → pml4 (tasks (kern m) j) ≠ NULL →
  task_cell (kern (user_store a v m)) j va' =
  cell_of (<[a := v]> (phys (mm (kern m)))) va' <$>
    translate (phys (mm (kern m))) (PADDR (bld (mm (kern m))) (pml4 (tasks (kern m) j)) / PAGE_SIZE) va'.
Proof.
  intros Hk Hl Hj Hn. destruct (task_root m j g tl Hk Hj Hn) as (rj & Hrj & Huj & Ej).
  unfold task_cell, user_store. cbn [mm set_mm Monitor.kern Monitor.set_kern mon set_mon with_kern tasks bld set_phys phys].
  by rewrite Ej, (store_tables (kern m) g tl rj rj va' a v Hk Hl (proj1 Huj)).
Qed.

Lemma cell_insert (mem : mem) va' e' (a : Z) v :
  a ≠ frame e' * 4096 + va' mod 4096 → cell_of (<[a := v]> mem) va' e' = cell_of mem va' e'.
Proof. intros Ha. unfold cell_of. change PAGE_SIZE with 4096. by rewrite fn_lookup_insert_ne. Qed.

(** The page behind the address of a byte. *)
Lemma byte_frame (x x' o o' : Z) : x * 4096 + o mod 4096 = x' * 4096 + o' mod 4096 → x = x' ∧ o mod 4096 = o' mod 4096.
Proof. intros H. dlia. Qed.

(** The memory of other tasks is out of reach. *)
Lemma store_other m i g tl va e v j va' :
  running K (kern m) g tl f i → user_writable m va e → 0 ≤ j < TASK_MAX_CNT → j ≠ i →
  pml4 (tasks (kern m) j) ≠ NULL → PML4_IDX va' < KIDX →
  task_cell (kern (user_store (frame e * PAGE_SIZE + va mod PAGE_SIZE) v m)) j va' = task_cell (kern m) j va'.
Proof.
  intros R U Hj Hji Hn Hva'. pose proof (ru_inv _ _ _ _ _ _ R) as I. pose proof (ki_kwf _ _ _ _ _ I) as Hk.
  destruct (writable_page m i g tl va e R U) as (r & Hr & _ & Hv & _ & _ & Hl).
  destruct (task_root m j g tl Hk Hj Hn) as (rj & Hrj & Huj & Ej).
  rewrite (store_cell m g tl); [|done|change PAGE_SIZE with 4096; by replace ((frame e * 4096 + va mod 4096) / 4096) with (frame e) by dlia|done|done].
  unfold task_cell. change PAGE_SIZE with 4096 in *. rewrite Ej.
  destruct (translate (phys (mm (kern m))) rj va') as [e'|] eqn:Ht; [|done]. cbn. f_equal. apply cell_insert.
  intros [Ef _]%byte_frame.
  destruct (vo_excl _ _ _ (ki_views _ _ _ _ _ I) r va e rj va' e') as [-> _]; [done|done|apply U|done|].
  apply Hji, (kw_inj _ _ _ _ Hk); [done|exact (ru_slot _ _ _ _ _ _ R)|done|]. by rewrite Hr, Hrj.
Qed.

(** The task itself sees its store at that address only. *)
Lemma store_own m i g tl va e v va' :
  running K (kern m) g tl f i → user_writable m va e → in_user va → in_user va' →
  task_cell (kern (user_store (frame e * PAGE_SIZE + va mod PAGE_SIZE) v m)) i va' =
  if decide (va = va') then Some (v, true, true) else task_cell (kern m) i va'.
Proof.
  intros R U Hva Hva'. pose proof (ru_inv _ _ _ _ _ _ R) as I. pose proof (ki_kwf _ _ _ _ _ I) as Hk.
  destruct (writable_page m i g tl va e R U) as (r & Hr & Hcr & Hv & _ & _ & Hl). pose proof (ru_slot _ _ _ _ _ _ R) as Hi.
  destruct (running_root K _ g tl f i R) as (Hn & _).
  destruct (task_root m i g tl Hk Hi Hn) as (ri & Hri & Hui & Ei).
  assert (ri = r) as ->.
  { rewrite <- (ru_cr3 _ _ _ _ _ _ R), Hcr in Ei. change PAGE_SIZE with 4096 in Ei. by rewrite Z.div_mul in Ei. }
  rewrite (store_cell m g tl); [|done|change PAGE_SIZE with 4096; by replace ((frame e * 4096 + va mod 4096) / 4096) with (frame e) by dlia|done|done].
  unfold task_cell. rewrite Ei. change PAGE_SIZE with 4096. destruct U as (Hte & HU & HW). destruct Hv as (_ & Hvi & Ht).
  destruct (decide (va = va')) as [<-|Hne].
  - rewrite Ht. cbn. unfold cell_of. change PAGE_SIZE with 4096. by rewrite fn_lookup_insert, HU, HW.
  - destruct (translate (phys (mm (kern m))) r va') as [e'|] eqn:Ht'; [|done]. cbn. f_equal. apply cell_insert.
    intros [Ef Eo]%byte_frame.
    destruct (vo_excl _ _ _ (ki_views _ _ _ _ _ I) r va e r va' e') as [_ Ep];
      [done|by split; [|split; [apply in_user_idx|]]|done|done|]. by apply Hne, full_path_inj.
Qed.

(** What other tasks read is out of reach. *)
Lemma store_unseen m i g tl va e v j va' :
  running K (kern m) g tl f i → user_writable m va e → 0 ≤ j < TASK_MAX_CNT → j ≠ i →
  pml4 (tasks (kern m) j) ≠ NULL → PML4_IDX va' < KIDX →
  user_byte (user_store (frame e * PAGE_SIZE + va mod PAGE_SIZE) v m) j va' = user_byte m j va'.
Proof. intros. unfold user_byte. by rewrite (store_other m i g tl). Qed.

(** Breakpoints always resume a task. *)
Lemma breakpoint_out m i g tl ctx :
  running K (kern m) g tl f i → Context.interrupt_number ctx = INTERRUPT_VECTOR_BREAKPOINT →
  ∃ t m', interrupt_handler ctx m = Ok (t, m') ∧ system_ok m'.
Proof.
  intros R Hnum. pose proof (enter ctx _ g tl i R) as E.
  assert (wpe (interrupt_handler ctx) (λ _ m', system_ok m') (λ _, False) m) as H.
  { unfold interrupt_handler. apply wpe_bind, liftk_wpe. cbn [wpe get]. apply wpe_bind.
    rewrite (ru_cpu _ _ _ _ _ _ R). cbn [wpe deref mret M_ret].
    apply wpe_bind, liftk_wpe, wpe_wp. eapply wp_eq; [apply upd_slot_ok; exact (ru_slot _ _ _ _ _ _ R)|].
    apply wpe_bind, liftk_wpe, wpe_wp. eapply wp_eq; [apply upd_slot_ok; exact (ru_slot _ _ _ _ _ _ R)|].
    rewrite Hnum. cbn [Z.eqb Pos.eqb INTERRUPT_VECTOR_BREAKPOINT].
    assert (∀ t k' m2, switched K (saved ctx (kern m) i) f t k' → system_ok (with_kern k' m2)) as Hsw.
    { intros t k' m2 [(j & g' & tl' & _ & R') _]. by exists j, g', tl'. }
    destruct (has_flag _ _); apply liftk_wpe; [apply wpe_wp; eapply wp_mono|eapply wpe_mono].
    - apply (task_run_entered K (saved ctx (kern m) i) g tl f i E).
    - intros t k'. apply Hsw.
    - apply (schedule_entered K (saved ctx (kern m) i) g tl f i (λ _, False) E).
    - intros t k'. apply Hsw.
    - done. }
  unfold wpe in H. destruct (interrupt_handler ctx m) as [[t m']|e]; [by exists t, m'|done].
Qed.
End system.
