(* ===== verification/InitProofs.v ===== *)
(** The initialisation of interrupts: [interrupt_init] on a kernel in which the
    last-level table of the kernel's high pages exists (the loader has mapped
    the kernel's stack there) and the entries of the two interrupt stacks are
    empty.  Each page of the stacks is a fresh page, mapped in every address
    space through the kernel's table, and the invariant is kept. *)

From Stdlib Require Import String.
From S2P Require Import Prelude Memory Queue Mmu Console Terminal Map AllocProofs Walk MapWf.
From S2P Require Import LookupProofs InsertProofs KmapProofs Gdt Context Task SchedProofs.
From S2P Require Import DestroyProofs TaskProofs Syscall ForkProofs Monitor Interrupt.
From S2P Require Import FaultProofs TrapProofs LoadProofs CreateProofs SystemProofs.
Import Mmu Map Task Interrupt.

Lemma Forall2_weaken {A B} (P Q : A → B → Prop) l l' :
  Forall2 P l l' → (∀ x y, x ∈ l → P x y → Q x y) → Forall2 Q l l'.
Proof.
  induction 1 as [|x y l l' Hxy _ IH]; intros H; constructor; [apply H; [by left|done]|].
  apply IH. intros a b Ha. apply H. by right.
Qed.

(** ** The pages of the stacks *)

Definition pages_of (top size : Z) : list Z :=
  (λ n, top - size + n * PAGE_SIZE) <$> zseq 0 (Z.to_nat (size / PAGE_SIZE)).

Definition stack_pages : list Z :=
  pages_of INTERRUPT_STACK_TOP INTERRUPT_STACK_SIZE ++ pages_of EXCEPTION_STACK_TOP EXCEPTION_STACK_SIZE.

(** They lie in one table with the temporary page, at different places. *)
Lemma stack_pages_table :
  Forall (λ va, table_path va = temp_path ∧ PT_IDX va ≠ temp_idx) stack_pages ∧ NoDup (PT_IDX <$> stack_pages).
Proof. split; [|by apply (bool_decide_unpack _)]. repeat constructor; vm_compute; done. Qed.

Section init.
Context (K f : Z).
Implicit Types (k : kstate Term.terminal) (m : machine) (g : ghost) (tl : list Z).

Abbreviation kern m := (Monitor.kern (mon m)).

(** ** One page *)

(** The entry of a page of a stack, and the ghost state with the page taken. *)
Definition stack_entry (p : Z) : Z := p * 4096 + 3.
Definition took g (p : Z) (fl' : list Z) : ghost := Ghost (lab g) fl' (<[p := 1]> (pins g)).

Section page.
Context k g tl (va p : Z) (fl' : list Z).
Hypothesis Hid : idle K k g tl f.
Hypothesis Hp : table_path va = temp_path.
Hypothesis Hi : PT_IDX va ≠ temp_idx.
Hypothesis H0 : entry_at (phys (mm k)) f (PT_IDX va) = 0.
Hypothesis Hfl : fl g = p :: fl'.
Let mem' := wr64 (phys (mm k)) (f * 4096 + 8 * PT_IDX va) (stack_entry p).

Lemma page_facts :
  wf K (mm k) g ∧ lab g f = Some (Lab K temp_path) ∧ in_range (mm k) p ∧ 0 < p ∧ p ∉ fl' ∧ lab g p = None ∧
  pins g p = 0 ∧ 0 ≤ stack_entry p < 2 ^ 64.
Proof using Hid Hfl.
  clear -Hid Hfl.
  pose proof (id_inv _ _ _ _ _ Hid) as I. pose proof (kw_wf _ _ _ _ (ki_kwf _ _ _ _ _ I)) as W.
  assert (p ∈ fl g) as Hin by (rewrite Hfl; by left). destruct (wf_free _ _ _ W p Hin) as [Hl Hpi].
  assert (in_range (mm k) p) as Hr by (by apply (wf_alloc _ _ _ W)).
  assert (p ≠ 0) as Hne by (intros ->; pose proof (ki_zero _ _ _ _ _ I); lia).
  assert (p ∉ fl').
  { pose proof (Lst.lrep_nodup _ _ (proj1 (wf_alloc _ _ _ W))) as Hnd. rewrite Hfl in Hnd. by apply NoDup_cons in Hnd as [? _]. }
  pose proof (build_bound (mm k) p (wf_build _ _ _ W) Hr) as (? & ? & ? & ?). unfold in_range in Hr.
  pose proof (ta_lab _ _ _ _ _ (ki_temp _ _ _ _ _ I)). unfold stack_entry. split_and!; done || lia.
Qed.

Lemma stack_entry_flags : has_flag (stack_entry p) PTE_COW = false ∧ has_flag (stack_entry p) PTE_U = false.
Proof.
  unfold stack_entry. change PTE_COW with (2 ^ 11). change PTE_U with (2 ^ 2). rewrite !mk_flag by lia. done.
Qed.

(** The memory manager after the page was mapped. *)
Lemma stack_insert :
  ∃ s, (pg ← page_alloc; match pg with None => fail EPanic | Some x => page_insert (VADDR (bld (mm k)) (K * 4096)) x va PTE_W end)
      (mm k) = Ok (0, s) ∧
    wf K s (took g p fl') ∧ bld s = bld (mm k) ∧ pages_cnt s = pages_cnt (mm k) ∧ phys s = mem'.
Proof.
  destruct page_facts as (W & Hlf & Hr & Hp0 & Hn & Hl & Hpi & Hv). pose proof (id_inv _ _ _ _ _ Hid) as I.
  destruct (page_alloc_some (mm k) p fl') as (q & Hal & Hq & _); [rewrite <- Hfl; apply W|].
  pose proof (alloc_wf K (mm k) g p fl' q W Hfl Hq) as W1. set (s1 := set_refs _ _) in *. set (g1 := Ghost _ _ _) in W1.
  assert (refs s1 p = 0) as Hr1 by (cbn; by rewrite fn_lookup_insert).
  pose proof (pin_wf K s1 g1 p 1 W1 Hr Hn Hl) as W2. cbn [pins g1 lab fl] in W2. rewrite Hpi, Hr1 in W2.
  specialize (W2 ltac:(lia) ltac:(lia)). change (0 + 1) with 1 in W2.
  unfold mbind, M_bind. rewrite Hal.
  change (bld (mm k)) with (bld s1).
  rewrite (page_insert_present K s1 g1 K K f va p PTE_W W1); try done.
  - eexists. split; [reflexivity|]. rewrite Hr1. change (u32 (0 + 1)) with 1.
    split; [|done]. exact (kleaf_wf K _ _ f (PT_IDX va) (stack_entry p) temp_path W2 Hlf eq_refl (PT_IDX_range va)).
  - apply (kw_K _ _ _ _ (ki_kwf _ _ _ _ _ I)).
  - rewrite Hp. apply (ta_walk _ _ _ _ _ (ki_temp _ _ _ _ _ I) K K), (kw_K _ _ _ _ (ki_kwf _ _ _ _ _ I)).
Qed.
(** Only addresses of the page itself are translated differently. *)
Lemma stack_tr x o va' :
  lab g x = Some (Lab o []) →
  translate mem' x va' = if decide (full_path va' = full_path va) then Some (stack_entry p) else translate (phys (mm k)) x va'.
Proof.
  intros Hx. destruct page_facts as (W & Hlf & _ & _ & _ & _ & _ & Hv).
  unfold mem'. rewrite (kleaf_translate K (mm k) g f (PT_IDX va) (stack_entry p) temp_path W Hlf eq_refl (PT_IDX_range va) x o va' Hx Hv).
  assert (present (stack_entry p) = true) as -> by (by apply present_mk).
  pose proof (ta_walk _ _ _ _ _ (ki_temp _ _ _ _ _ (id_inv _ _ _ _ _ Hid)) x o Hx) as Hw.
  destruct (decide (full_path va' = full_path va)) as [E|E]; (destruct (decide _) as [[Hw' Hi']|Hne]; [|]); try done.
  - exfalso. apply Hne. unfold full_path in E. apply app_inj_tail in E as [-> ->]. by rewrite Hp.
  - exfalso. apply E. unfold full_path. rewrite Hi'. f_equal. rewrite Hp.
    pose proof (walk_label K (mm k) g x (Lab o []) (table_path va') f W Hx ltac:(cbn; lia) (table_path_ok va') Hw') as Hl.
    assert (descend K (Lab o []) (table_path va') = Lab K temp_path) as E' by congruence.
    apply (f_equal l_path) in E'. by rewrite descend_path in E'.
Qed.

Lemma stack_idle s :
  wf K s (took g p fl') → bld s = bld (mm k) → pages_cnt s = pages_cnt (mm k) → phys s = mem' →
  idle K (set_mm s k) (took g p fl') tl f.
Proof.
  intros W' Hb Hc Hm. destruct page_facts as (W & Hlf & Hr & Hp0 & _ & _ & Hpi & Hv).
  pose proof Hid as [I Hn Hcr]. pose proof (ki_kwf _ _ _ _ _ I) as Hk. pose proof (PT_IDX_range va) as Ri.
  assert (∀ x l j, lab g x = Some l → (length (l_path l) < 3)%nat ∨ l_owner l ≠ K → 0 ≤ j < 512 →
    entry_at mem' x j = entry_at (phys (mm k)) x j) as He.
  { intros x l j. apply (kleaf_ent K (mm k) g f (PT_IDX va) (stack_entry p) temp_path Hlf eq_refl Ri). }
  assert (∀ x o va', lab g x = Some (Lab o []) → PML4_IDX va' < KIDX → translate mem' x va' = translate (phys (mm k)) x va') as Hu.
  { intros x o va' Hx Hva. rewrite (stack_tr x o va' Hx), decide_False; [done|]. intros E.
    unfold full_path in E. rewrite Hp in E. unfold temp_path, table_path in E. injection E as E _ _ _.
    rewrite E in Hva. vm_compute in Hva. done. }
  constructor; [|done|done].
  constructor; cbn [mm set_mm]; rewrite ?Hm; try (by apply I).
  - apply (kwf_mm K k g tl); try done. intros x o j Hx Hj. rewrite Hm.
    apply (He x (Lab o [])); [done|left; cbn; lia|]. rewrite KIDX_val in Hj. lia.
  - destruct (ki_temp _ _ _ _ _ I) as [T1 T2 T3]. constructor; [done| |].
    + intros x o Hx. rewrite Hm. unfold mem', temp_path.
      rewrite (kleaf_walk K (mm k) g f (PT_IDX va) (stack_entry p) temp_path W Hlf eq_refl Ri x o KERNEL_TEMP Hx). by apply (T2 x o).
    + rewrite Hm. unfold mem'. rewrite entry_wr_ne; [done|done|apply PT_IDX_range|]. by intros [= ?].
  - intros d. cbn [pins took]. rewrite Hc, fn_insert_dec. pose proof (ki_fit _ _ _ _ _ I) as Hf. case_decide.
    + pose proof (Hf 0). pose proof (ki_zero _ _ _ _ _ I). lia.
    + apply Hf.
  - cbn [pins took]. rewrite fn_lookup_insert_ne by lia. apply I.
  - apply (views_sub K (phys (mm k)) g); [apply I|]. intros x va' e (Hx & Hva & Ht). split; [exact Hx|]. split; [done|].
    by rewrite (Hu x x) in Ht by (done || apply Hx).
  - intros va' x Hva Hw. unfold mem' in Hw.
    rewrite (kleaf_walk K (mm k) g f (PT_IDX va) (stack_entry p) temp_path W Hlf eq_refl Ri K K va' (kw_K _ _ _ _ Hk)) in Hw.
    destruct (decide ((f, PT_IDX va) = (x, PT_IDX va'))) as [E|E].
    + injection E as <- <-. unfold mem'. rewrite entry_wr_eq, u64_small by done. apply stack_entry_flags.
    + unfold mem'. rewrite entry_wr_ne by (done || apply PT_IDX_range). by apply (ki_kern _ _ _ _ _ I).
Qed.
End page.

(** ** The stacks *)

(** From [k0], the pages [vas] have been mapped to the first free pages. *)
Record stacks k0 g0 tl (vas : list Z) k g (ps : list Z) : Prop := {
  st_idle : idle K k g tl f;
  st_state : k = set_mm (mm k) k0;
  st_bld : bld (mm k) = bld (mm k0);
  st_lab : lab g = lab g0;
  st_fl : fl g0 = ps ++ fl g;
  st_pins d : pins g d = if decide (d ∈ ps) then 1 else pins g0 d;
  st_map : Forall2 (λ va p, ∀ x o, lab g0 x = Some (Lab o []) → translate (phys (mm k)) x va = Some (stack_entry p)) vas ps;
  st_other x o va : lab g0 x = Some (Lab o []) → full_path va ∉ full_path <$> vas →
    translate (phys (mm k)) x va = translate (phys (mm k0)) x va;
  st_ent va : table_path va = temp_path → PT_IDX va ∉ PT_IDX <$> vas →
    entry_at (phys (mm k)) f (PT_IDX va) = entry_at (phys (mm k0)) f (PT_IDX va);
  st_mem y : lab g0 (y / 4096) = None → phys (mm k) y = phys (mm k0) y;
}.

Lemma stacks_nil k g tl : idle K k g tl f → stacks k g tl [] k g [].
Proof. intros H. constructor; try done. by rewrite set_mm_same. Qed.

Lemma stacks_snoc k0 g0 tl vas k g ps va p fl' s :
  stacks k0 g0 tl vas k g ps → fl g = p :: fl' →
  table_path va = temp_path → PT_IDX va ≠ temp_idx → PT_IDX va ∉ PT_IDX <$> vas →
  entry_at (phys (mm k0)) f (PT_IDX va) = 0 →
  wf K s (took g p fl') → bld s = bld (mm k) → pages_cnt s = pages_cnt (mm k) →
  phys s = wr64 (phys (mm k)) (f * 4096 + 8 * PT_IDX va) (stack_entry p) →
  stacks k0 g0 tl (vas ++ [va]) (set_mm s k) (took g p fl') (ps ++ [p]).
Proof.
  intros [S1 S2 S3 S4 S5 S6 S7 S8 S9 S10] Hfl Hp Hi Hnew H0 W' Hb Hc Hm.
  assert (entry_at (phys (mm k)) f (PT_IDX va) = 0) as H0' by (by rewrite S9).
  pose proof (stack_tr k g tl va p fl' S1 Hp Hfl) as Htr. rewrite S4 in Htr.
  destruct (page_facts k g tl p fl' S1 Hfl) as (W & Hlf & _).
  constructor; cbn [mm set_mm]; rewrite ?Hm.
  - by apply (stack_idle k g tl va p fl').
  - rewrite S2. done.
  - congruence.
  - done.
  - cbn [fl took]. by rewrite S5, Hfl, <- app_assoc.
  - intros d. cbn [pins took]. rewrite fn_insert_dec, S6. destruct (decide (p = d)) as [<-|Hne].
    + rewrite decide_True; [done|]. apply elem_of_app. right. by left.
    + apply decide_ext. rewrite elem_of_app, list_elem_of_singleton. clear -Hne. split; [by left|]. by intros [?| ->].
  - apply Forall2_app; [|constructor; [|constructor]].
    + apply (Forall2_weaken _ _ _ _ S7). intros va' p' Hin H x o Hx. rewrite (Htr x o va' Hx), decide_False; [by apply (H x o)|].
      intros E. unfold full_path in E. apply app_inj_tail in E as [_ E]. apply Hnew. rewrite <- E. by apply list_elem_of_fmap_2.
    + intros x o Hx. by rewrite (Htr x o va Hx), decide_True.
  - intros x o va' Hx Hn. rewrite fmap_app, elem_of_app in Hn. cbn [fmap list_fmap] in Hn. rewrite list_elem_of_singleton in Hn.
    rewrite (Htr x o va' Hx), decide_False by tauto. apply (S8 x o); tauto.
  - intros va' Hp' Hn. rewrite fmap_app, elem_of_app in Hn. cbn [fmap list_fmap] in Hn. rewrite list_elem_of_singleton in Hn. rewrite entry_wr_ne; [|apply PT_IDX_range|apply PT_IDX_range|].
    + apply S9; tauto.
    + intros [= E]. apply Hn. by right.
  - intros y Hy. rewrite <- S10 by done. apply wr64_out. pose proof (PT_IDX_range va).
    assert (y / 4096 ≠ f) by (intros E; rewrite <- S4 in Hy; congruence). dlia.
Qed.

(** ** The loops *)

(** Too little memory for the four pages. *)
Definition short g0 (e : err) : Prop := e = EPanic ∧ (length (fl g0) < length stack_pages)%nat.

Lemma map_page k0 g0 tl vas va m g ps :
  stacks k0 g0 tl vas (kern m) g ps → vas ++ [va] `prefix_of` stack_pages →
  (∀ va, va ∈ stack_pages → entry_at (phys (mm k0)) f (PT_IDX va) = 0) →
  cpu_pml4 k0 = VADDR (bld (mm k0)) (K * 4096) →
  wpe (pg ← liftk (liftm page_alloc);
       match pg with
       | None => fail EPanic
       | Some p =>
           c ← liftk (gets cpu_pml4);
           r ← liftk (liftm (page_insert c p va PTE_W));
           massert (r =? 0)
       end)
    (λ _ m', ∃ k g' ps', m' = with_kern k m ∧ stacks k0 g0 tl (vas ++ [va]) k g' ps') (short g0) m.
Proof.
  intros S Hpre H0 Hcpu. pose proof Hpre as [rest Hst]. rewrite <- app_assoc in Hst. cbn in Hst.
  assert (va ∈ stack_pages) as Hin by (rewrite Hst; apply elem_of_app; right; by left).
  pose proof stack_pages_table as [Htab Hnd]. rewrite Forall_forall in Htab. destruct (Htab va Hin) as [Hp Hi].
  rewrite Hst, fmap_app in Hnd. apply NoDup_app in Hnd as (_ & Hnd & _).
  assert (PT_IDX va ∉ PT_IDX <$> vas) as Hnew by (intros Hv; apply (Hnd _ Hv); by left).
  assert (entry_at (phys (mm (kern m))) f (PT_IDX va) = 0) as He by (rewrite (st_ent _ _ _ _ _ _ _ S va Hp Hnew); by apply H0).
  pose proof (st_idle _ _ _ _ _ _ _ S) as Hid.
  destruct (fl g) as [|p fl'] eqn:Hfl.
  - apply wpe_bind, liftk_wpe, wpe_wp. eapply wp_eq.
    { apply liftm_ok, page_alloc_none. rewrite <- Hfl. apply (kw_wf _ _ _ _ (ki_kwf _ _ _ _ _ (id_inv _ _ _ _ _ Hid))). }
    cbn. split; [done|]. rewrite (st_fl _ _ _ _ _ _ _ S), Hfl, app_nil_r, Hst, length_app. cbn.
    rewrite <- (Forall2_length _ _ _ (st_map _ _ _ _ _ _ _ S)). lia.
  - destruct (stack_insert (kern m) g tl va p fl' Hid Hp He Hfl) as (s & Hrun & W' & Hb & Hc & Hm).
    unfold mbind, M_bind in Hrun. destruct (page_alloc (mm (kern m))) as [[[x|] s1]|] eqn:Hal; [|done|done].
    apply wpe_bind, liftk_wpe, wpe_wp. eapply wp_eq; [by apply liftm_ok|].
    apply wpe_bind, liftk_wpe. cbn [wpe gets]. apply wpe_bind, liftk_wpe, wpe_wp.
    eapply wp_eq.
    { apply (liftm_ok _ _ 0 s). cbn. rewrite (st_state _ _ _ _ _ _ _ S). cbn [cpu_pml4 set_mm].
      rewrite Hcpu, <- (st_bld _ _ _ _ _ _ _ S). exact Hrun. }
    cbn. eexists _, _, _. split; [reflexivity|].
    exact (stacks_snoc k0 g0 tl vas (kern m) g ps va p fl' s S Hfl Hp Hi Hnew (H0 va Hin) W' Hb Hc Hm).
Qed.

Lemma map_pages k0 g0 tl (addr : Z → Z) l vas m g ps :
  stacks k0 g0 tl vas (kern m) g ps → vas ++ (addr <$> l) `prefix_of` stack_pages →
  (∀ va, va ∈ stack_pages → entry_at (phys (mm k0)) f (PT_IDX va) = 0) →
  cpu_pml4 k0 = VADDR (bld (mm k0)) (K * 4096) →
  wpe (mfor l (λ n,
       pg ← liftk (liftm page_alloc);
       match pg with
       | None => fail EPanic
       | Some p =>
           c ← liftk (gets cpu_pml4);
           r ← liftk (liftm (page_insert c p (addr n) PTE_W));
           massert (r =? 0)
       end))
    (λ _ m', ∃ k g' ps', m' = with_kern k m ∧ stacks k0 g0 tl (vas ++ (addr <$> l)) k g' ps') (short g0) m.
Proof.
  intros S Hpre H0 Hcpu. revert vas m g ps S Hpre. induction l as [|n l IH]; intros vas m g ps S Hpre.
  - cbn. exists (kern m), g, ps. rewrite app_nil_r. split; [by destruct m as [[]]|done].
  - cbn [mfor]. rewrite fmap_cons, cons_middle, app_assoc in Hpre. apply wpe_bind.
    eapply wpe_mono; [apply (map_page k0 g0 tl vas (addr n) m g ps S); [|done|done]| |done].
    { etransitivity; [|exact Hpre]. by apply prefix_app_r. }
    intros [] m1 (k1 & g1 & ps1 & -> & S1). eapply wpe_mono; [exact (IH _ (with_kern k1 m) g1 ps1 S1 Hpre)| |done].
    intros [] m2 (k2 & g2 & ps2 & -> & S2). exists k2, g2, ps2. rewrite fmap_cons, cons_middle, app_assoc. by split.
Qed.

Lemma map_stacks_out m g tl :
  idle K (kern m) g tl f → (∀ va, va ∈ stack_pages → entry_at (phys (mm (kern m))) f (PT_IDX va) = 0) →
  cpu_pml4 (kern m) = VADDR (bld (mm (kern m))) (K * 4096) →
  wpe (map_stack INTERRUPT_STACK_TOP INTERRUPT_STACK_SIZE ;; map_stack EXCEPTION_STACK_TOP EXCEPTION_STACK_SIZE)
    (λ _ m', ∃ k g' ps, m' = with_kern k m ∧ stacks (kern m) g tl stack_pages k g' ps) (short g) m.
Proof.
  intros Hid H0 Hcpu. apply wpe_bind.
  eapply wpe_mono; [apply (map_pages (kern m) g tl _ _ [] m g []); [by apply stacks_nil| |done|done]| |done].
  { by eexists. }
  intros [] m1 (k1 & g1 & ps1 & -> & S1).
  eapply wpe_mono; [apply (map_pages (kern m) g tl _ _ _ (with_kern k1 m) g1 ps1 S1); [|done|done]| |done].
  { by exists []. }
  intros [] m2 (k2 & g2 & ps2 & -> & S2). by exists k2, g2, ps2.
Qed.

Lemma stacks_con k0 g0 tl vas k g ps c :
  con_ok c → stacks k0 g0 tl vas k g ps → stacks k0 g0 tl vas (set_mm (set_con c (mm k)) k) g ps.
Proof.
  intros Hc [[S1 S1' S1''] S2 S3 S4 S5 S6 S7 S8 S9 S10].
  constructor; try done; [|by rewrite S2]. constructor; [by apply kinv_con|done|done].
Qed.

(** ** The tables *)

Section tables.
Context (stub tss_addr : Z → Z).

(** The gate the processor finds for vector [v]. *)
Definition gate_of m (v : Z) : option Gdt.gate_view := idt m v ≫= λ d, Gdt.gate_read (Gdt.gate_words d).

(** The task state segment it finds at an index of the GDT. *)
Definition tss_of m (i : Z) : option Gdt.tss_view := tss_descs m i ≫= λ d, Gdt.tss_read (Gdt.tss_words d).

Lemma idt_loop l m :
  NoDup (l.*1.*1) →
  ∃ t, mfor l (λ '(v, ist, dpl),
      modify (λ m, set_idt (<[v := Some (Gdt.INTERRUPT_GATE Gdt.GD_KT (stub v) ist dpl)]> (idt m)) m)) m = Ok ((), set_idt t m) ∧
    (∀ v ist dpl, (v, ist, dpl) ∈ l → t v = Some (Gdt.INTERRUPT_GATE Gdt.GD_KT (stub v) ist dpl)) ∧
    ∀ v, v ∉ l.*1.*1 → t v = idt m v.
Proof.
  revert m. induction l as [|[[v ist] dpl] l IH]; intros m Hnd.
  { exists (idt m). split; [by destruct m|]. split; [|done]. intros v ist dpl []%elem_of_nil. }
  cbn [fmap list_fmap fst] in Hnd. apply NoDup_cons in Hnd as [Hv Hnd].
  destruct (IH (set_idt (<[v := Some (Gdt.INTERRUPT_GATE Gdt.GD_KT (stub v) ist dpl)]> (idt m)) m) Hnd) as (t & Hrun & H1 & H2).
  exists t. split; [exact Hrun|]. split.
  - intros v' ist' dpl' [[= -> -> ->]|Hin]%elem_of_cons; [|by apply H1]. rewrite H2 by done. cbn. by rewrite fn_lookup_insert.
  - intros v' Hn. cbn [fmap list_fmap fst] in Hn. apply not_elem_of_cons in Hn as [Hne Hn]. rewrite H2 by done.
    cbn. by rewrite fn_lookup_insert_ne.
Qed.

Lemma tss_loop l m :
  NoDup l →
  ∃ t, mfor l (λ j,
      let idx := Z.shiftr Gdt.GD_TSS 3 + 2 * j in
      modify (λ m, set_tss_descs (<[idx := Some (Gdt.SEGMENT_TSS (tss_addr j) (Gdt.SIZEOF_TSS - 1)
        Gdt.TYPE_AVAILABLE_TSS Gdt.TSS_DPL_S)]> (tss_descs m)) m)) m = Ok ((), set_tss_descs t m) ∧
    (∀ j, j ∈ l → t (Z.shiftr Gdt.GD_TSS 3 + 2 * j) =
      Some (Gdt.SEGMENT_TSS (tss_addr j) (Gdt.SIZEOF_TSS - 1) Gdt.TYPE_AVAILABLE_TSS Gdt.TSS_DPL_S)) ∧
    ∀ j, j ∉ l → t (Z.shiftr Gdt.GD_TSS 3 + 2 * j) = tss_descs m (Z.shiftr Gdt.GD_TSS 3 + 2 * j).
Proof.
  revert m. induction l as [|j l IH]; intros m Hnd.
  { exists (tss_descs m). split; [by destruct m|]. split; [|done]. intros j []%elem_of_nil. }
  apply NoDup_cons in Hnd as [Hj Hnd].
  destruct (IH (set_tss_descs (<[Z.shiftr Gdt.GD_TSS 3 + 2 * j := Some (Gdt.SEGMENT_TSS (tss_addr j) (Gdt.SIZEOF_TSS - 1)
    Gdt.TYPE_AVAILABLE_TSS Gdt.TSS_DPL_S)]> (tss_descs m)) m) Hnd) as (t & Hrun & H1 & H2).
  exists t. split; [exact Hrun|]. split.
  - intros j' [->|Hin]%elem_of_cons; [|by apply H1]. rewrite H2 by done. cbn [tss_descs set_tss_descs]. by rewrite fn_lookup_insert.
  - intros j' [Hne Hn]%not_elem_of_cons. rewrite H2 by done. cbn [tss_descs set_tss_descs]. rewrite fn_lookup_insert_ne; [done|lia].
Qed.

(** The interrupt system after [interrupt_init], for local APIC [apic_id]. *)
Record interrupts_on (apic_id : Z) m m' : Prop := {
  io_gate v ist dpl : (v, ist, dpl) ∈ idt_entries →
    gate_of m' v = Some (Gdt.GateView (stub v) Gdt.GD_KT ist Gdt.TYPE_INTERRUPT_GATE dpl 1);
  io_none v : v ∉ idt_entries.*1.*1 → gate_of m' v = gate_of m v;
  io_tss j : 0 ≤ j < CPU_MAX_CNT → tss_of m' (Z.shiftr Gdt.GD_TSS 3 + 2 * j) =
    Some (Gdt.TssView (tss_addr j) (Gdt.SIZEOF_TSS - 1) Gdt.TYPE_AVAILABLE_TSS Gdt.TSS_DPL_S 1 0);
  io_tr : tr m' = Gdt.GD_TSS;
  io_rsp0 : tss_rsp0 m' = EXCEPTION_STACK_TOP;
  io_ist1 : tss_ist1 m' = INTERRUPT_STACK_TOP;
  io_pic : ports m' = (PIC2_DATA, 0xff) :: (PIC1_DATA, 0xff) :: ports m;
  io_apic b : 0 ≤ b → Z.testbit (apic_msr m') b = (b =? 11) || Z.testbit (apic_msr m) b;
  io_timer : ioapic m' IOREDTBL_BASE = INTERRUPT_VECTOR_TIMER ∧ ioapic m' (IOREDTBL_BASE + 1) = apic_id;
  io_keyboard : ioapic m' (IOREDTBL_BASE + 2) = INTERRUPT_VECTOR_KEYBOARD ∧ ioapic m' (IOREDTBL_BASE + 3) = apic_id;
}.

(** ** [interrupt_init] *)

Lemma wpe_seq {A} (a b : M machine ()) (c : M machine A) P Q E m :
  wpe (a ;; b) P E m → (∀ m', P () m' → wpe c Q E m') → wpe (a ;; b ;; c) Q E m.
Proof.
  unfold wpe, mbind, M_bind. destruct (a m) as [[[] m1]|]; [|done]. destruct (b m1) as [[[] m2]|]; [|done]. intros H H'. exact (H' m2 H).
Qed.

Lemma idt_vectors : NoDup (idt_entries.*1.*1).
Proof. by apply (bool_decide_unpack _). Qed.

(** Gates of the table as the processor reads them. *)
Lemma gate_entry v ist dpl :
  (∀ v, 0 ≤ stub v < 2 ^ 64) → (v, ist, dpl) ∈ idt_entries →
  Gdt.gate_read (Gdt.gate_words (Gdt.INTERRUPT_GATE Gdt.GD_KT (stub v) ist dpl)) =
    Some (Gdt.GateView (stub v) Gdt.GD_KT ist Gdt.TYPE_INTERRUPT_GATE dpl 1).
Proof.
  intros Hs Hin. assert (0 ≤ ist < 4 ∧ 0 ≤ dpl < 4) as [? ?].
  { assert (Forall (λ e, 0 ≤ e.1.2 < 4 ∧ 0 ≤ e.2 < 4) idt_entries) as Hf by (by apply (bool_decide_unpack _)).
    rewrite Forall_forall in Hf. exact (Hf _ Hin). }
  unfold Gdt.INTERRUPT_GATE. rewrite Gdt.gate_read_GATE by (done || (split; done)). by rewrite u64_small.
Qed.

Lemma ioapic_init_out apic_id m g tl k0 g0 ps :
  stacks k0 g0 tl stack_pages (kern m) g ps →
  wpe (ioapic_init (Some apic_id)) (λ r m', r = 0 ∧ ∃ c, con_ok c ∧
    m' = set_ioapic (<[IOREDTBL_BASE + 3 := u32 apic_id]> (<[IOREDTBL_BASE + 2 := INTERRUPT_VECTOR_KEYBOARD]>
           (<[IOREDTBL_BASE + 1 := u32 apic_id]> (<[IOREDTBL_BASE := INTERRUPT_VECTOR_TIMER]> (ioapic m)))))
         (with_kern (set_mm (set_con c (mm (kern m))) (kern m)) m)) (λ _, False) m.
Proof.
  intros S. pose proof (wf_con _ _ _ (kw_wf _ _ _ _ (ki_kwf _ _ _ _ _ (id_inv _ _ _ _ _ (st_idle _ _ _ _ _ _ _ S))))) as Hc.
  unfold ioapic_init. apply wpe_bind, liftk_wpe, wpe_wp, wp_kprintf; [done|done|]. intros c Hc1.
  apply wpe_bind. cbn [wpe IOAPIC_READ gets].
  apply wpe_bind, liftk_wpe, wpe_wp, wp_kprintf; [done|done|]. intros c2 Hc2.
  cbn. split; [done|]. exists c2. split; [done|]. reflexivity.
Qed.

(** The addresses the linker chooses and what [cpuid] returns are in range. *)
Record linked (cpuid_ebx : option Z) : Prop := {
  ln_stub v : 0 ≤ stub v < 2 ^ 64;
  ln_tss j : 0 ≤ tss_addr j < 2 ^ 64;
  ln_cpuid id : cpuid_ebx = Some id → 0 ≤ id < 2 ^ 32;
}.

Lemma interrupts_on_intro apic_id t u c k m :
  linked (Some apic_id) →
  (∀ v ist dpl, (v, ist, dpl) ∈ idt_entries → t v = Some (Gdt.INTERRUPT_GATE Gdt.GD_KT (stub v) ist dpl)) →
  (∀ v, v ∉ idt_entries.*1.*1 → t v = idt m v) →
  (∀ j, j ∈ zseq 0 (Z.to_nat CPU_MAX_CNT) → u (Z.shiftr Gdt.GD_TSS 3 + 2 * j) =
    Some (Gdt.SEGMENT_TSS (tss_addr j) (Gdt.SIZEOF_TSS - 1) Gdt.TYPE_AVAILABLE_TSS Gdt.TSS_DPL_S)) →
  interrupts_on apic_id m
    (set_ioapic (<[IOREDTBL_BASE + 3 := u32 apic_id]> (<[IOREDTBL_BASE + 2 := INTERRUPT_VECTOR_KEYBOARD]>
       (<[IOREDTBL_BASE + 1 := u32 apic_id]> (<[IOREDTBL_BASE := INTERRUPT_VECTOR_TIMER]> (ioapic m)))))
     (with_kern k (set_apic_msr (Z.lor (apic_msr m) (Z.shiftl 1 11)) (set_ports ((PIC2_DATA, 0xff) :: (PIC1_DATA, 0xff) :: ports m)
       (set_tr Gdt.GD_TSS (set_tss EXCEPTION_STACK_TOP INTERRUPT_STACK_TOP
         (with_kern c (set_tss_descs u (set_idt t m))))))))).
Proof.
  intros [L1 L2 L3] H1 H2 H3. pose proof (L3 apic_id eq_refl).
  constructor; unfold gate_of, tss_of;
    cbn [idt tss_descs tr tss_rsp0 tss_ist1 ports apic_msr ioapic set_ioapic with_kern set_mon set_apic_msr set_ports set_tr set_tss set_tss_descs set_idt].
  - intros v ist dpl Hin. rewrite (H1 v ist dpl Hin). cbn. by apply gate_entry.
  - intros v Hv. by rewrite H2.
  - intros j Hj. rewrite H3 by (apply zseq_elem; rewrite Z2Nat.id; [done|vm_compute; discriminate]). cbn [mbind option_bind].
    rewrite Gdt.tss_roundtrip by (done || lia || (split; done)). by rewrite u64_small.
  - done.
  - done.
  - done.
  - done.
  - intros b Hb. rewrite Z.lor_spec, Z.shiftl_spec by done. rewrite orb_comm. f_equal.
    destruct (Z.eqb_spec b 11) as [->|Hne]; [done|]. destruct (Z.ltb_spec b 11); [by rewrite Z.testbit_neg_r by lia|].
    rewrite Z.bits_above_log2; cbn; lia || done.
  - split; [done|]. rewrite !fn_lookup_insert_ne by done. rewrite fn_lookup_insert. by apply u32_small.
  - split; [done|]. rewrite fn_lookup_insert. by apply u32_small.
Qed.

Lemma interrupt_init_out cpuid_ebx m g tl :
  linked cpuid_ebx → idle K (kern m) g tl f →
  (∀ va, va ∈ stack_pages → entry_at (phys (mm (kern m))) f (PT_IDX va) = 0) →
  cpu_pml4 (kern m) = VADDR (bld (mm (kern m))) (K * 4096) →
  wpe (interrupt_init stub tss_addr cpuid_ebx)
    (λ _ m', ∃ apic_id g' ps, cpuid_ebx = Some apic_id ∧ stacks (kern m) g tl stack_pages (kern m') g' ps ∧
       interrupts_on apic_id m m')
    (λ e, e = EPanic ∧ ((length (fl g) < length stack_pages)%nat ∨ cpuid_ebx = None)) m.
Proof.
  intros L Hid H0 Hcpu. unfold interrupt_init.
  destruct (idt_loop idt_entries m idt_vectors) as (t & Hrun1 & H1 & H2).
  apply wpe_bind, wpe_wp. eapply wp_eq; [exact Hrun1|].
  destruct (tss_loop (zseq 0 (Z.to_nat CPU_MAX_CNT)) (set_idt t m) (zseq_NoDup _ _)) as (u & Hrun2 & H3 & _).
  apply wpe_bind, wpe_wp. eapply wp_eq; [exact Hrun2|].
  apply (wpe_seq _ _ _ (λ _ m', ∃ k g' ps, m' = with_kern k (set_tss_descs u (set_idt t m)) ∧
    stacks (kern m) g tl stack_pages k g' ps)).
  { eapply wpe_mono; [exact (map_stacks_out (set_tss_descs u (set_idt t m)) g tl Hid H0 Hcpu)|done|]. intros e [-> ?]. auto. }
  intros m1 (k1 & g1 & ps & -> & S1).
  do 5 (apply wpe_bind; cbn [wpe modify ltr outb apic_enable]).
  apply wpe_bind. destruct cpuid_ebx as [apic_id|].
  - eapply wpe_mono; [apply (ioapic_init_out apic_id _ g1 tl (kern m) g ps); exact S1| |done].
    intros r m2 (-> & c & Hc & ->). cbn [wpe massert Z.eqb mret M_ret].
    exists apic_id, g1, ps. split; [done|]. split; [by apply stacks_con|]. exact (interrupts_on_intro apic_id t u k1 (set_mm (set_con c (mm k1)) k1) m L H1 H2 H3).
  - unfold ioapic_init. apply wpe_bind, liftk_wpe, wpe_wp, wp_kprintf.
    { done. }
    { apply (wf_con _ _ _ (kw_wf _ _ _ _ (ki_kwf _ _ _ _ _ (id_inv _ _ _ _ _ (st_idle _ _ _ _ _ _ _ S1))))). }
    intros c Hc. cbn. auto.
Qed.
End tables.

(** The image of a program survives. *)
Lemma stacks_binary k0 g0 tl k g ps b size image :
  kwf K k0 g0 tl → temp_at K (mm k0) g0 f 0 →
  (∀ va, va ∈ stack_pages → entry_at (phys (mm k0)) f (PT_IDX va) = 0) →
  stacks k0 g0 tl stack_pages k g ps → binary_at K k0 g0 b size image → binary_at K k g b size image.
Proof.
  intros Hk Hta H0 S Hb j Hj. destruct (Hb j Hj) as (H1 & H2 & e & Ht & Hl & Hf & Hm). split; [done|]. split; [done|].
  exists e. rewrite (st_lab _ _ _ _ _ _ _ S). split_and!.
  - rewrite (st_other _ _ _ _ _ _ _ S K K); [done|apply Hk|]. intros (va & E & Hin)%list_elem_of_fmap.
    destruct stack_pages_table as [Htab _]. rewrite Forall_forall in Htab. destruct (Htab va Hin) as [Hp _].
    rewrite (translate_full _ _ _ _ E) in Ht. unfold translate, leaf in Ht. rewrite Hp in Ht.
    rewrite (ta_walk _ _ _ _ _ Hta K K (kw_K _ _ _ _ Hk)) in Ht. cbn in Ht. by rewrite (H0 va Hin) in Ht.
  - done.
  - intros Hin. apply Hf. rewrite (st_fl _ _ _ _ _ _ _ S). apply elem_of_app. by right.
  - rewrite (st_mem _ _ _ _ _ _ _ S); [done|]. pose proof (Z.mod_pos_bound (b + j) 4096 ltac:(lia)).
    rewrite Z.div_add_l by lia. rewrite Z.div_small, Z.add_0_r by done. done.
Qed.

(** ** The kernel when [kernel_init_mmap] has returned *)

(** No task exists and none has been listed, memory is well formed, the
    processor uses the kernel's page tables, the table of the high pages is
    there and has room for the temporary page and the interrupt stacks. *)
Record booted k g : Prop := {
  bo_wf : wf K (mm k) g;
  bo_build : kernel_build (mm k);
  bo_K : lab g K = Some (Lab K []);
  bo_config : config_pml4 k = VADDR (bld (mm k)) (K * 4096);
  bo_cpu : cpu_pml4 k = config_pml4 k;
  bo_cr3 : cr3 k = K * 4096;
  bo_shared r o i : lab g r = Some (Lab o []) → KIDX ≤ i < 512 →
    entry_at (phys (mm k)) r i = entry_at (phys (mm k)) K i;
  bo_gap : present (entry_at (phys (mm k)) K KIDX) = false;
  bo_temp : temp_at K (mm k) g f 0;
  bo_stacks va : va ∈ stack_pages → entry_at (phys (mm k)) f (PT_IDX va) = 0;
  bo_fit : refs_fit (mm k) g;
  bo_zero : 0 < pins g 0;
  bo_views : views_ok K (phys (mm k)) g;
  bo_kern : kleaf_ok K (phys (mm k));
  bo_tasks i : tasks k i = zero_task;
  bo_free : Lst.lrep (free_tasks k) [];
  bo_next : next_task_idx k = 0;
}.

Lemma task_init_idle k g :
  booted k g → ∃ k', task_init k = Ok ((), k') ∧ idle K k' g slots f ∧ mm k' = mm k ∧ cpu_pml4 k' = cpu_pml4 k.
Proof.
  intros B. destruct (task_init_state k (bo_free _ _ B)) as (k' & Hrun & Hrep & Hts & E).
  assert (∀ i, 0 ≤ i < TASK_MAX_CNT → tasks k' i = zero_task) as Hz.
  { intros i Hi. rewrite (Hts i Hi), (bo_tasks _ _ B). done. }
  assert (mm k' = mm k ∧ config_pml4 k' = config_pml4 k ∧ cpu_pml4 k' = cpu_pml4 k ∧ cr3 k' = cr3 k ∧
    next_task_idx k' = next_task_idx k) as (E1 & E2 & E3 & E4 & E5) by (rewrite E; repeat split).
  exists k'. split; [done|]. split; [|done]. clear E Hrun Hts. destruct B. constructor.
  - constructor; rewrite ?E1; try done.
    + constructor; rewrite ?E1, ?E2; try done.
      * intros i Hi%slots_elem. by rewrite Hz.
      * intros i Hi Hn. by rewrite Hz in Hn.
      * intros i j Hi Hj Hn. by rewrite Hz in Hn.
    + rewrite E5, bo_next0. done.
    + intros i Hi [Hs|Hs]; by rewrite Hz in Hs.
  - intros i Hi. rewrite Hz by done. done.
  - exists K. rewrite E4. done.
Qed.
End init.
