(* ===== verification/Demo.v ===== *)
(** A small concrete machine on which the theorems are instantiated: thirty-two
    pages, the kernel's root in page 1, one task whose root is page 2, the
    tables of the kernel's temporary page in pages 3 to 5, the pages 8 to 31
    free and the others held by the kernel. *)

From S2P Require Import Prelude Memory Queue Mmu Console Terminal Map AllocProofs Walk MapWf.
From S2P Require Import LookupProofs InsertProofs Gdt Context Task SchedProofs DestroyProofs.
From S2P Require Import TaskProofs.
Import Mmu Map Task.

Definition demo_list (l : list Z) : Lst.queue :=
  foldr Lst.LIST_INSERT_HEAD (Lst.Queue None (λ _, Lst.null_entry)) l.

Lemma demo_list_rep l : NoDup l → Lst.lrep (demo_list l) l.
Proof.
  induction 1 as [|x l Hx _ IH]; [apply (Lst.lrep_init (Lst.Queue None (λ _, Lst.null_entry)))|].
  by apply Lst.insert_head_rep.
Qed.

Definition demo_fl : list Z := zseq 8 24.
Definition demo_is_free (f : Z) : bool := (8 <=? f) && (f <? 32).

(** The page tables: the roots and the tables of the kernel's temporary page. *)
Definition demo_tables : list (Z * label) :=
  [ (1, Lab 1 []); (2, Lab 2 []); (3, Lab 1 [511]); (4, Lab 1 [511; 479]); (5, Lab 1 [511; 479; 511]) ].

Definition demo_lab (f : Z) : option label := snd <$> head (filter (λ p, fst p = f) demo_tables).

(** Their present entries: table, index, value. *)
Definition demo_entries : list (Z * Z * Z) :=
  [ (1, 511, 0x3003); (2, 511, 0x3003); (3, 479, 0x4003); (4, 511, 0x5003) ].

Definition demo_phys : mem :=
  foldr (λ '(f, i, v) m, wr64 m (f * 4096 + 8 * i) v) (λ _, Byte.x00) demo_entries.

Definition demo_mm : mstate Term.terminal :=
  MState kernel64 demo_phys KERNEL_BASE 32 (λ f, if demo_is_free f then 0 else 1)
    (demo_list demo_fl) [] (Term.Terminal (λ _, 0) 15 0 0).

Definition demo_ghost : ghost :=
  Ghost demo_lab demo_fl (λ f, if demo_is_free f || bool_decide (is_Some (demo_lab f)) then 0 else 1).

Lemma demo_lab_in f l : demo_lab f = Some l → (f, l) ∈ demo_tables.
Proof.
  unfold demo_lab. destruct (head _) as [[f' l']|] eqn:E; [|done]. cbn. intros [= <-].
  apply head_Some_elem_of, list_elem_of_filter in E as [E Hin]. cbn in E. by subst f'.
Qed.

Lemma demo_lab_cases f l :
  demo_lab f = Some l →
  (f = 1 ∧ l = Lab 1 []) ∨ (f = 2 ∧ l = Lab 2 []) ∨ (f = 3 ∧ l = Lab 1 [511]) ∨
  (f = 4 ∧ l = Lab 1 [511; 479]) ∨ (f = 5 ∧ l = Lab 1 [511; 479; 511]).
Proof.
  intros H%demo_lab_in. unfold demo_tables in H. rewrite !elem_of_cons, elem_of_nil in H. naive_solver.
Qed.

Definition demo_entry_val (f i : Z) : Z :=
  if ((f =? 1) || (f =? 2)) && (i =? 511) then 0x3003
  else if (f =? 3) && (i =? 479) then 0x4003
  else if (f =? 4) && (i =? 511) then 0x5003 else 0.

Lemma demo_entry f i : 0 ≤ i < 512 → entry_at demo_phys f i = demo_entry_val f i.
Proof.
  intros Hi. unfold demo_phys, demo_entries, demo_entry_val. cbn [foldr].
  assert (∀ m f' i' v, 0 ≤ i' < 512 → 0 ≤ v < 2 ^ 64 →
    entry_at (wr64 m (f' * 4096 + 8 * i') v) f i = if (f =? f') && (i =? i') then v else entry_at m f i) as H.
  { intros m f' i' v Hi' Hv. destruct (Z.eqb_spec f f') as [->|]; cbn [andb].
    - destruct (Z.eqb_spec i i') as [->|]; [rewrite entry_wr_eq; by apply u64_small|].
      apply entry_wr_ne; [done|done|]. congruence.
    - apply entry_wr_ne; [done|done|]. congruence. }
  rewrite !H by done. change (entry_at (λ _, Byte.x00) f i) with 0.
  destruct (f =? 1), (f =? 2), (f =? 3), (f =? 4), (i =? 511), (i =? 479); reflexivity.
Qed.

Lemma demo_uleaf f : uleaf 1 demo_ghost f = false.
Proof.
  unfold uleaf. destruct (lab demo_ghost f) as [l|] eqn:E; [|done].
  apply demo_lab_cases in E as [[_ ->]|[[_ ->]|[[_ ->]|[[_ ->]|[_ ->]]]]]; done.
Qed.

Lemma demo_ucount d : ucount 1 (phys demo_mm) demo_ghost (pages_cnt demo_mm) d = 0.
Proof. apply zsum_zero. intros [f i] _. unfold refers. cbn [fst snd]. by rewrite demo_uleaf. Qed.

Lemma demo_free_elem p : p ∈ fl demo_ghost ↔ demo_is_free p = true.
Proof.
  cbn [fl demo_ghost]. unfold demo_fl, demo_is_free. rewrite zseq_elem, andb_true_iff, Z.leb_le, Z.ltb_lt. lia.
Qed.

Lemma demo_edge f l i :
  demo_lab f = Some l → (length (l_path l) < 3)%nat → 0 ≤ i < 512 →
  present (entry_at demo_phys f i) = true → demo_lab (frame (entry_at demo_phys f i)) = Some (child 1 l i).
Proof.
  intros Hl Hlen Hi. rewrite demo_entry by done. unfold demo_entry_val.
  apply demo_lab_cases in Hl as [[-> ->]|[[-> ->]|[[-> ->]|[[-> ->]|[-> ->]]]]]; cbn in Hlen; try lia; cbn [Z.eqb Pos.eqb orb andb];
    match goal with |- context [i =? ?n] => destruct (Z.eqb_spec i n) as [->|]; done end.
Qed.

(** The table an entry of the parent leads to. *)
Lemma demo_back f o q i :
  demo_lab f = Some (Lab o (q ++ [i])) →
  0 ≤ i < 512 ∧ ∃ f', demo_lab f' = Some (Lab o q) ∧
    present (entry_at demo_phys f' i) = true ∧ frame (entry_at demo_phys f' i) = f.
Proof.
  intros Hl. apply demo_lab_cases in Hl as [[_ E]|[[_ E]|[[-> E]|[[-> E]|[-> E]]]]]; injection E as -> E;
    try (by destruct q);
    destruct q as [|a [|b [|c [|d q]]]]; cbn in E; simplify_eq; (split; [lia|]).
  - by exists 1.
  - by exists 3.
  - by exists 4.
Qed.

Lemma demo_lab_free f l : demo_lab f = Some l → demo_is_free f = false.
Proof. intros [[-> _]|[[-> _]|[[-> _]|[[-> _]|[-> _]]]]]%demo_lab_cases; done. Qed.

Lemma demo_wf : wf 1 demo_mm demo_ghost.
Proof.
  constructor.
  - split; cbn; [lia|]. unfold pages_cnt. lia.
  - split; [apply demo_list_rep, zseq_NoDup|]. intros p Hp%zseq_elem. unfold in_range. cbn. lia.
  - split; cbn; lia.
  - intros p Hp%demo_free_elem. cbn [lab pins demo_ghost]. rewrite Hp. split; [|done].
    destruct (demo_lab p) eqn:E; [|done]. apply demo_lab_free in E. congruence.
  - intros f l [[-> ->]|[[-> ->]|[[-> ->]|[[-> ->]|[-> ->]]]]]%demo_lab_cases; unfold in_range; cbn; lia.
  - intros f l E. cbn [pins demo_ghost]. cbn in E. by rewrite E, orb_true_r.
  - intros f o [[-> E]|[[-> E]|[[-> E]|[[-> E]|[-> E]]]]]%demo_lab_cases; congruence.
  - intros f1 f2 l [[-> ->]|[[-> ->]|[[-> ->]|[[-> ->]|[-> ->]]]]]%demo_lab_cases
      [[-> E]|[[-> E]|[[-> E]|[[-> E]|[-> E]]]]]%demo_lab_cases; congruence.
  - exact demo_edge.
  - exact demo_back.
  - intros f i Hu. by rewrite demo_uleaf in Hu.
  - intros d Hd Hn Hl. rewrite demo_ucount. cbn in *.
    destruct (demo_is_free d) eqn:E; [by rewrite demo_free_elem in Hn|]. rewrite Hl. cbn. lia.
Qed.

Lemma demo_tight : tight demo_mm demo_ghost.
Proof. intros d _ Hn _. cbn. destruct (demo_is_free d) eqn:E; [by rewrite demo_free_elem in Hn|lia]. Qed.

Definition demo_task : task :=
  MkTask Context.zero_context TASK_STATE_READY 1 (codes "demo") (VADDR kernel64 (2 * 4096)).

Definition demo_kernel : kstate Term.terminal :=
  KState demo_mm (λ i, if i =? 0 then demo_task else zero_task) (demo_list (zseq 1 4)) 1 0
    4096 (VADDR kernel64 4096) (Some TSelf) zero_task (VADDR kernel64 (1 * 4096)).

Lemma demo_kwf : kwf 1 demo_kernel demo_ghost (zseq 1 4).
Proof.
  constructor.
  - apply demo_wf.
  - split; [done|]. cbn. lia.
  - done.
  - done.
  - intros r o i Hr Hi. cbn [mm demo_kernel phys demo_mm]. rewrite KIDX_val in Hi. rewrite !demo_entry by lia.
    apply demo_lab_cases in Hr as [[-> _]|[[-> _]|[[-> E]|[[-> E]|[-> E]]]]]; done.
  - reflexivity.
  - apply demo_list_rep, zseq_NoDup.
  - intros i Hi%zseq_elem. unfold TASK_MAX_CNT. cbn. rewrite (proj2 (Z.eqb_neq i 0)) by lia. split; [lia|done].
  - intros i Hi. cbn. destruct (Z.eqb_spec i 0); [|done]. intros _. by exists 2.
  - intros i j Hi Hj. cbn. destruct (Z.eqb_spec i 0), (Z.eqb_spec j 0); [lia|done..].
Qed.

Lemma demo_sched_ok : sched_ok demo_kernel.
Proof. split; [done|]. intros i _. cbn. by destruct (i =? 0). Qed.

(** The same machine with no free page: the kernel holds them all. *)
Definition demo_full_mm : mstate Term.terminal :=
  set_refs (λ _, 1) (set_free (demo_list []) demo_mm).
Definition demo_full_ghost : ghost :=
  Ghost demo_lab [] (λ f, if bool_decide (is_Some (demo_lab f)) then 0 else 1).
Definition demo_full : kstate Term.terminal := set_mm demo_full_mm demo_kernel.

Lemma demo_full_wf : wf 1 demo_full_mm demo_full_ghost.
Proof.
  constructor.
  - exact (wf_build _ _ _ demo_wf).
  - split; [apply demo_list_rep; constructor|]. by intros p ?%elem_of_nil.
  - exact (wf_con _ _ _ demo_wf).
  - by intros p ?%elem_of_nil.
  - intros f l [[-> ->]|[[-> ->]|[[-> ->]|[[-> ->]|[-> ->]]]]]%demo_lab_cases; unfold in_range; cbn; lia.
  - intros f l E. cbn [pins demo_full_ghost]. cbn in E. by rewrite E.
  - exact (wf_root _ _ _ demo_wf).
  - exact (wf_inj _ _ _ demo_wf).
  - exact (wf_edge _ _ _ demo_wf).
  - exact (wf_back _ _ _ demo_wf).
  - intros f i Hu. change (uleaf 1 demo_full_ghost f) with (uleaf 1 demo_ghost f) in Hu. by rewrite demo_uleaf in Hu.
  - intros d Hd Hn Hl.
    change (ucount 1 (phys demo_full_mm) demo_full_ghost (pages_cnt demo_full_mm) d)
      with (ucount 1 (phys demo_mm) demo_ghost (pages_cnt demo_mm) d).
    rewrite demo_ucount. cbn in *. rewrite Hl. cbn. lia.
Qed.

Lemma demo_full_kwf : kwf 1 demo_full demo_full_ghost (zseq 1 4).
Proof. destruct demo_kwf. constructor; try done. apply demo_full_wf. Qed.
