(* ===== verification/Ata.v ===== *)
(** The ATA PIO driver: kernel/lib/disk/ata.c.

    The controller is not part of the program: [AtaDevice] are the three port
    operations the driver uses, [AtaLaws] is what the ATA PIO protocol promises
    of a working drive (it answers busy a finite number of times, then ready; a
    READ command fills its buffer with the addressed sector; reads of the data
    port take the buffer's words in order).  The driver is built for the boot
    sector and the loader, so addresses are 32-bit and memory is flat. *)

From S2P Require Import Prelude Memory.

Module Ata.

Definition ATA_SECTOR_SIZE : Z := 512.

Definition ATA_PIO_PORT_DATA : Z := 0x1F0.
Definition ATA_PIO_PORT_SECT_CNT : Z := 0x1F2.
Definition ATA_PIO_PORT_LBA_LO : Z := 0x1F3.
Definition ATA_PIO_PORT_LBA_MID : Z := 0x1F4.
Definition ATA_PIO_PORT_LBA_HIGH : Z := 0x1F5.
Definition ATA_PIO_PORT_DRIVE : Z := 0x1F6.
Definition ATA_PIO_PORT_STATUS : Z := 0x1F7.
Definition ATA_PIO_PORT_COMMAND : Z := 0x1F7.

Definition ATA_PIO_CMD_READ : Z := 0x20.
Definition ATA_PIO_DRIVE_MASTER : Z := 0xE0.

Definition ATA_PIO_STATUS_ERR : Z := Z.shiftl 1 0.
Definition ATA_PIO_STATUS_DF : Z := Z.shiftl 1 5.
Definition ATA_PIO_STATUS_BSY : Z := Z.shiftl 1 7.
Definition ATA_PIO_STATUS_RDY : Z := Z.shiftl 1 6.
Definition ATA_PIO_STATUS_DRQ : Z := Z.shiftl 1 3.

(** ** The device *)

Class AtaDevice (D : Type) := {
  dev_inb : Z → D → Z * D;
  dev_inw : Z → D → Z * D;
  dev_outb : Z → Z → D → D;
}.

Section driver.
Context {D : Type} `{!AtaDevice D}.

Record astate := AState { dev : D; ram : mem }.

Definition set_dev d s := AState d (ram s).
Definition set_ram m s := AState (dev s) m.

Definition inb (port : Z) : M astate Z := λ s,
  let '(v, d) := dev_inb port (dev s) in Ok (u8 v, set_dev d s).
Definition inw (port : Z) : M astate Z := λ s,
  let '(v, d) := dev_inw port (dev s) in Ok (u16 v, set_dev d s).
Definition outb (port v : Z) : M astate () := modify (λ s, set_dev (dev_outb port (u8 v) (dev s)) s).

(** What one status byte makes the polling loop do: return or poll again. *)
Definition status_action (is_write : bool) (status : Z) : option Z :=
  if has_flag status (Z.lor ATA_PIO_STATUS_ERR ATA_PIO_STATUS_DF) then Some (-1)
  else if has_flag status ATA_PIO_STATUS_BSY then None
  else if is_write && negb (has_flag status ATA_PIO_STATUS_DRQ) then None
  else if has_flag status ATA_PIO_STATUS_RDY then Some 0
  else None.

(** The loop runs until the device answers; [fuel] bounds the polls. *)
Fixpoint disk_io_wait_ready (fuel : nat) (is_write : bool) : M astate Z :=
  match fuel with
  | O => fail EFuel
  | S fuel' =>
      status ← inb ATA_PIO_PORT_STATUS;
      match status_action is_write status with
      | Some r => mret r
      | None => disk_io_wait_ready fuel' is_write
      end
  end.

Context (poll_max : nat).

(** [*(uint16_t * )addr = v] in flat 32-bit memory. *)
Definition store16 (addr v : Z) : M astate () := modify (λ s, set_ram (wr16 (ram s) (u32 addr) v) s).

Definition disk_io_read (dst lba count : Z) : M astate Z :=
  r ← disk_io_wait_ready poll_max false;
  if negb (r =? 0) then mret (-1)
  else
    outb ATA_PIO_PORT_SECT_CNT count ;;
    outb ATA_PIO_PORT_LBA_LO lba ;;
    outb ATA_PIO_PORT_LBA_MID (Z.shiftr lba 8) ;;
    outb ATA_PIO_PORT_LBA_HIGH (Z.shiftr lba 16) ;;
    outb ATA_PIO_PORT_DRIVE (Z.lor (Z.shiftr lba 24) ATA_PIO_DRIVE_MASTER) ;;
    outb ATA_PIO_PORT_COMMAND ATA_PIO_CMD_READ ;;
    r ← disk_io_wait_ready poll_max false;
    if negb (r =? 0) then mret (-1)
    else
      let word_count := u16 (u32 (count * ATA_SECTOR_SIZE) / 2) in
      mfor (zseq 0 (Z.to_nat word_count)) (λ i,
        w ← inw ATA_PIO_PORT_DATA; store16 (dst + 2 * i) w) ;;
      mret 0.

(** The loop of [disk_io_read_segment], at most [fuel] sectors. *)
Fixpoint read_sectors (fuel : nat) (va va_end lba : Z) : M astate Z :=
  if va <? va_end then
    match fuel with
    | O => fail EFuel
    | S fuel' =>
        r ← disk_io_read va lba 1;
        if negb (r =? 0) then mret (-1)
        else read_sectors fuel' (u32 (va + ATA_SECTOR_SIZE)) va_end (u32 (lba + 1))
    end
  else mret 0.

(** Enough sectors for the range; a range that reaches the end of the address
    space wraps around and never ends. *)
Definition segment_fuel (va va_end : Z) : nat := Z.to_nat ((va_end - va + 511) / 512).

Definition disk_io_read_segment (va size lba : Z) : M astate Z :=
  let va_end := u32 (va + size) in
  let va := Z.land va (Z.lnot (ATA_SECTOR_SIZE - 1)) in
  read_sectors (segment_fuel va va_end) va va_end lba.

End driver.
Arguments astate : clear implicits.

(** ** A working drive *)

(** Byte [j] of a sector given by its 16-bit words. *)
Definition word_byte (ws : list Z) (j : Z) : byte :=
  let w := nth (Z.to_nat (j / 2)) ws 0 in z2b (if j mod 2 =? 0 then w else Z.shiftr w 8).

(** The block address of LBA28 in the task file registers. *)
Definition lba_of (reg : Z → Z) : Z :=
  reg ATA_PIO_PORT_LBA_LO + 2 ^ 8 * reg ATA_PIO_PORT_LBA_MID + 2 ^ 16 * reg ATA_PIO_PORT_LBA_HIGH +
  2 ^ 24 * (reg ATA_PIO_PORT_DRIVE mod 16).

Class AtaLaws (D : Type) `{!AtaDevice D} (poll_max : nat) := {
  sector : D → Z → list Z;   (* the contents of the disk *)
  busy : D → nat;            (* how often the status will still be busy *)
  buffer : D → list Z;       (* words waiting in the data port *)
  reg : D → Z → Z;           (* task file registers *)
  sector_length d n : length (sector d n) = 256%nat;
  sector_words d n w : w ∈ sector d n → 0 ≤ w < 2 ^ 16;
  status_busy d n : busy d = S n → ∃ st d', dev_inb ATA_PIO_PORT_STATUS d = (st, d') ∧ 0 ≤ st < 256 ∧
    has_flag st (Z.lor ATA_PIO_STATUS_ERR ATA_PIO_STATUS_DF) = false ∧ has_flag st ATA_PIO_STATUS_BSY = true ∧
    busy d' = n ∧ sector d' = sector d ∧ buffer d' = buffer d ∧ reg d' = reg d;
  status_ready d : busy d = O → ∃ st d', dev_inb ATA_PIO_PORT_STATUS d = (st, d') ∧ 0 ≤ st < 256 ∧
    has_flag st (Z.lor ATA_PIO_STATUS_ERR ATA_PIO_STATUS_DF) = false ∧ has_flag st ATA_PIO_STATUS_BSY = false ∧
    has_flag st ATA_PIO_STATUS_RDY = true ∧
    busy d' = O ∧ sector d' = sector d ∧ buffer d' = buffer d ∧ reg d' = reg d;
  write_register d p v : p ≠ ATA_PIO_PORT_COMMAND → busy d = O →
    let d' := dev_outb p v d in busy d' = O ∧ sector d' = sector d ∧ reg d' = <[p := v]> (reg d);
  command_read d : busy d = O → reg d ATA_PIO_PORT_SECT_CNT = 1 → 2 ^ 4 * 14 ≤ reg d ATA_PIO_PORT_DRIVE < 2 ^ 4 * 15 →
    let d' := dev_outb ATA_PIO_PORT_COMMAND ATA_PIO_CMD_READ d in
    (busy d' < poll_max)%nat ∧ sector d' = sector d ∧ buffer d' = sector d (lba_of (reg d));
  read_data d w ws : busy d = O → buffer d = w :: ws → ∃ d', dev_inw ATA_PIO_PORT_DATA d = (w, d') ∧
    busy d' = O ∧ sector d' = sector d ∧ buffer d' = ws;
}.

End Ata.
