(* ===== verification/AtaTheorems.v ===== *)
(** The correctness theorems of the ATA driver (kernel/lib/disk/ata.c), proved
    against the interface of a working drive, and a concrete drive. *)

From S2P Require Import Prelude Memory Ata.
Import Ata.

(** ** Polling, for any device *)

Section poll.
Context {D : Type} `{!AtaDevice D}.
Implicit Types (s : astate D).

(** The status of the [n]-th poll (from 0) and the device after it. *)
Fixpoint poll (n : nat) (d : D) : Z * D :=
  let '(st, d') := dev_inb ATA_PIO_PORT_STATUS d in
  match n with O => (u8 st, d') | S n' => poll n' d' end.

Lemma wait_step fuel is_write s :
  disk_io_wait_ready (S fuel) is_write s =
  match status_action is_write (poll 0 (dev s)).1 with
  | Some r => Ok (r, set_dev (poll 0 (dev s)).2 s)
  | None => disk_io_wait_ready fuel is_write (set_dev (poll 0 (dev s)).2 s)
  end.
Proof.
  cbn [disk_io_wait_ready]. unfold mbind, M_bind, inb. cbn [poll].
  destruct (dev_inb ATA_PIO_PORT_STATUS (dev s)) as [st d']. cbn [fst snd].
  by destruct (status_action is_write (u8 st)).
Qed.

Lemma poll_next n d : poll (S n) d = poll n (poll 0 d).2.
Proof. cbn [poll]. by destruct (dev_inb ATA_PIO_PORT_STATUS d). Qed.

End poll.

(** ** A working drive *)

Section drive.
Context {D : Type} `{!AtaDevice D} (poll_max : nat) `{!AtaLaws D poll_max}.
Implicit Types (s : astate D).

Abbreviation drive_sector := (sector (poll_max := poll_max)).
Abbreviation drive_busy := (busy (poll_max := poll_max)).

(** Byte [a] of the disk. *)
Definition disk_byte (d : D) (a : Z) : byte := word_byte (drive_sector d (a / 512)) (a mod 512).

Lemma wait_ready_ok fuel s :
  (drive_busy (dev s) < fuel)%nat →
  wp (disk_io_wait_ready fuel false) (λ r s', r = 0 ∧ ram s' = ram s ∧ drive_busy (dev s') = O ∧
    drive_sector (dev s') = drive_sector (dev s) ∧ buffer (poll_max := poll_max) (dev s') = buffer (poll_max := poll_max) (dev s) ∧
    reg (poll_max := poll_max) (dev s') = reg (poll_max := poll_max) (dev s)) s.
Proof.
  revert s. induction fuel as [|fuel IH]; intros s Hb; [lia|].
  cbn [disk_io_wait_ready]. apply wp_bind. unfold wp at 1, inb.
  destruct (drive_busy (dev s)) as [|n] eqn:E.
  - destruct (status_ready (dev s) E) as (st & d' & -> & Hst & H1 & H2 & H3 & H4).
    rewrite u8_small by done. unfold status_action. rewrite H1, H2, H3. cbn [andb]. apply wp_ret.
    cbn [dev set_dev ram]. split; [done|]. split; [done|]. exact H4.
  - destruct (status_busy (dev s) n E) as (st & d' & -> & Hst & H1 & H2 & H4 & H5 & H6 & H7).
    rewrite u8_small by done. unfold status_action. rewrite H1, H2.
    eapply wp_mono; [apply IH; cbn [dev set_dev]; lia|]. cbn [dev set_dev ram].
    intros r s' (-> & ? & ? & -> & -> & ->). done.
Qed.

(** The block address registers [disk_io_read] sets. *)
Lemma lba_registers lba (f : Z → Z) :
  0 ≤ lba < 2 ^ 28 →
  let f1 := <[ATA_PIO_PORT_SECT_CNT := u8 1]> f in
  let f2 := <[ATA_PIO_PORT_LBA_LO := u8 lba]> f1 in
  let f3 := <[ATA_PIO_PORT_LBA_MID := u8 (Z.shiftr lba 8)]> f2 in
  let f4 := <[ATA_PIO_PORT_LBA_HIGH := u8 (Z.shiftr lba 16)]> f3 in
  let f5 := <[ATA_PIO_PORT_DRIVE := u8 (Z.lor (Z.shiftr lba 24) ATA_PIO_DRIVE_MASTER)]> f4 in
  f5 ATA_PIO_PORT_SECT_CNT = 1 ∧ 2 ^ 4 * 14 ≤ f5 ATA_PIO_PORT_DRIVE < 2 ^ 4 * 15 ∧ lba_of f5 = lba.
Proof.
  intros Hl. cbn zeta. unfold lba_of.
  rewrite !fn_insert_dec. cbn [decide decide_rel Z.eq_dec].
  repeat first [rewrite decide_True by done|rewrite decide_False by done].
  rewrite !Z.shiftr_div_pow2 by done. rewrite Z.lor_comm. change ATA_PIO_DRIVE_MASTER with (Z.shiftl 14 4).
  assert (0 ≤ lba / 2 ^ 24 < 2 ^ 4) by dlia.
  rewrite lor_add_disjoint by done. rewrite (u8_small (14 * _ + _)) by lia. unfold u8.
  split; [done|]. split; [lia|]. dlia.
Qed.

(** Setting a register of an idle drive. *)
Lemma outb_register p v s (Q : () → astate D → Prop) :
  p ≠ ATA_PIO_PORT_COMMAND → drive_busy (dev s) = O →
  (∀ s', ram s' = ram s → drive_busy (dev s') = O → drive_sector (dev s') = drive_sector (dev s) →
     reg (poll_max := poll_max) (dev s') = <[p := u8 v]> (reg (poll_max := poll_max) (dev s)) → Q () s') →
  wp (outb p v) Q s.
Proof.
  intros Hp Hb HQ. apply wp_modify. destruct (write_register (dev s) p (u8 v) Hp Hb) as (H1 & H2 & H3).
  by apply HQ.
Qed.

(** The words of a full data port, stored from [dst] on. *)
Lemma read_words dst ws s :
  drive_busy (dev s) = O → buffer (poll_max := poll_max) (dev s) = ws → (∀ w, w ∈ ws → 0 ≤ w < 2 ^ 16) →
  0 ≤ dst → dst + 2 * Z.of_nat (length ws) ≤ 2 ^ 32 →
  wp (mfor (zseq 0 (length ws)) (λ i, w ← inw ATA_PIO_PORT_DATA; store16 (dst + 2 * i) w))
    (λ _ s', drive_busy (dev s') = O ∧ drive_sector (dev s') = drive_sector (dev s) ∧
      ∀ x, ram s' x = if (dst <=? x) && (x <? dst + 2 * Z.of_nat (length ws)) then word_byte ws (x - dst) else ram s x) s.
Proof.
  intros Hb Hbuf Hw Hd Hlen.
  apply (wp_mfor _ _ (λ dn s', drive_busy (dev s') = O ∧ drive_sector (dev s') = drive_sector (dev s) ∧
    buffer (poll_max := poll_max) (dev s') = drop (length dn) ws ∧
    ∀ x, ram s' x = if (dst <=? x) && (x <? dst + 2 * Z.of_nat (length dn)) then word_byte ws (x - dst) else ram s x)).
  - split_and!; [done|done|done|]. intros x. cbn [length]. destruct (_ && _) eqn:E; [bools; lia|done].
  - intros dn i rest s' Hl (H1 & H2 & H3 & H4). apply zseq_split in Hl as [-> Hlt]. rewrite Z.add_0_l.
    destruct (lookup_lt_is_Some_2 ws (length dn) Hlt) as [w Hwi].
    rewrite (drop_S _ _ _ Hwi) in H3. destruct (read_data (dev s') w _ H1 H3) as (d' & Hin & H5 & H6 & H7).
    apply wp_bind. unfold wp at 1, inw. rewrite Hin. apply wp_modify. cbn [dev ram set_ram set_dev].
    rewrite length_app. cbn [length]. rewrite Nat.add_1_r.
    split_and!; [done|by rewrite H6|done|]. intros x.
    assert (0 ≤ w < 2 ^ 16) as Hwr by (apply Hw; by eapply list_elem_of_lookup_2).
    assert (nth (length dn) ws 0 = w) as Hnth by (by apply nth_lookup_Some).
    unfold u16. rewrite (Z.mod_small w) by done.
    rewrite wr16_byte, H4, u32_small by lia. unfold word_byte.
    destruct (decide (x = _)) as [->|].
    { rewrite (proj2 (Z.leb_le _ _)), (proj2 (Z.ltb_lt _ _)) by lia. cbn [andb].
      replace (dst + 2 * Z.of_nat (length dn) - dst) with (2 * Z.of_nat (length dn)) by lia.
      replace (2 * Z.of_nat (length dn) / 2) with (Z.of_nat (length dn)) by dlia.
      replace (2 * Z.of_nat (length dn) mod 2) with 0 by dlia. rewrite Nat2Z.id, Hnth. done. }
    destruct (decide (x = _)) as [->|].
    { rewrite (proj2 (Z.leb_le _ _)), (proj2 (Z.ltb_lt _ _)) by lia. cbn [andb].
      replace (dst + 2 * Z.of_nat (length dn) + 1 - dst) with (2 * Z.of_nat (length dn) + 1) by lia.
      replace ((2 * Z.of_nat (length dn) + 1) / 2) with (Z.of_nat (length dn)) by dlia.
      replace ((2 * Z.of_nat (length dn) + 1) mod 2) with 1 by dlia. rewrite Nat2Z.id, Hnth. done. }
    destruct (dst <=? x); [|done]. cbn [andb].
    destruct (Z.ltb_spec x (dst + 2 * Z.of_nat (length dn))), (Z.ltb_spec x (dst + 2 * Z.of_nat (S (length dn)))); try lia; done.
  - intros s' (H1 & H2 & _ & H4). rewrite zseq_length in H4. done.
Qed.

(** One sector. *)
Lemma disk_io_read_ok dst lba s :
  (drive_busy (dev s) < poll_max)%nat → 0 ≤ dst → dst + 512 ≤ 2 ^ 32 → 0 ≤ lba < 2 ^ 28 →
  wp (disk_io_read poll_max dst lba 1) (λ r s', r = 0 ∧ drive_busy (dev s') = O ∧
    drive_sector (dev s') = drive_sector (dev s) ∧
    ∀ x, ram s' x = if (dst <=? x) && (x <? dst + 512) then word_byte (drive_sector (dev s) lba) (x - dst) else ram s x) s.
Proof.
  intros Hb Hd Hlen Hl. unfold disk_io_read. apply wp_bind. eapply wp_mono; [by apply wait_ready_ok|].
  intros r s1 (-> & R1 & B1 & S1 & _ & _). cbn [Z.eqb negb].
  apply wp_bind, outb_register; [done|done|]. intros s2 R2 B2 S2 G2.
  apply wp_bind, outb_register; [done|done|]. intros s3 R3 B3 S3 G3.
  apply wp_bind, outb_register; [done|done|]. intros s4 R4 B4 S4 G4.
  apply wp_bind, outb_register; [done|done|]. intros s5 R5 B5 S5 G5.
  apply wp_bind, outb_register; [done|done|]. intros s6 R6 B6 S6 G6.
  apply wp_bind, wp_modify. change (u8 ATA_PIO_CMD_READ) with ATA_PIO_CMD_READ.
  pose proof (lba_registers lba (reg (poll_max := poll_max) (dev s1)) Hl) as (C1 & C2 & C3).
  rewrite G5, G4, G3, G2 in G6. rewrite <- G6 in C1, C2, C3.
  destruct (command_read (dev s6) B6 C1 C2) as (B7 & S7 & F7).
  apply wp_bind. eapply wp_mono; [by apply wait_ready_ok|]. cbn [dev set_dev ram].
  intros r s8 (-> & R8 & B8 & S8 & F8 & _). cbn [Z.eqb negb]. rewrite F7, C3 in F8.
  change (Z.to_nat (u16 (u32 (1 * ATA_SECTOR_SIZE) / 2))) with 256%nat.
  assert (drive_sector (dev s8) = drive_sector (dev s)) as E by congruence.
  assert (drive_sector (dev s6) = drive_sector (dev s)) as E6 by congruence. rewrite E6 in F8.
  apply wp_bind. rewrite <- (sector_length (dev s) lba). eapply wp_mono.
  { apply (read_words dst (drive_sector (dev s) lba) s8 B8 F8 (sector_words (dev s) lba) Hd).
    rewrite sector_length. lia. }
  intros [] s9 (B9 & S9 & R9). apply wp_ret. split; [done|]. split; [done|]. split; [congruence|].
  intros x. rewrite R9, sector_length, R8, R6, R5, R4, R3, R2, R1. done.
Qed.
(** The end of the last sector the range touches. *)
Definition sector_end (va_end : Z) : Z := (va_end + 511) / 512 * 512.

Lemma read_sectors_ok n va va_end lba s :
  n = segment_fuel va va_end → (drive_busy (dev s) < poll_max)%nat →
  0 ≤ va → va mod 512 = 0 → 0 ≤ va_end ≤ 2 ^ 32 - 512 → 0 ≤ lba → lba + Z.of_nat n ≤ 2 ^ 28 →
  wp (read_sectors poll_max n va va_end lba) (λ r s', r = 0 ∧ (drive_busy (dev s') < poll_max)%nat ∧
    drive_sector (dev s') = drive_sector (dev s) ∧
    ∀ x, ram s' x = if (va <=? x) && (x <? sector_end va_end) then disk_byte (dev s) (lba * 512 + (x - va)) else ram s x) s.
Proof.
  unfold segment_fuel, sector_end. revert va lba s.
  induction n as [|n IH]; intros va lba s Hn Hb Hva Hmod Hend Hlba Hl; cbn [read_sectors].
  - rewrite (proj2 (Z.ltb_ge va va_end)) by dlia. apply wp_ret. split_and!; [done|done|done|].
    intros x. destruct (_ && _) eqn:E; [bools; dlia|done].
  - assert (va < va_end) as Hlt by dlia. rewrite (proj2 (Z.ltb_lt va va_end)) by done.
    apply wp_bind. eapply wp_mono; [apply disk_io_read_ok; [done|done|lia|lia]|].
    intros r s1 (-> & B1 & S1 & R1). cbn [Z.eqb negb]. unfold ATA_SECTOR_SIZE. rewrite !u32_small by lia.
    eapply wp_mono; [apply IH; [dlia|lia|lia|dlia|lia|lia|lia]|].
    intros r s2 (-> & B2 & S2 & R2). split_and!; [done|done|congruence|]. intros x. rewrite R2, R1.
    unfold disk_byte. rewrite S1. clear - Hlt Hmod Hva.
    destruct (Z.leb_spec (va + 512) x), (Z.leb_spec va x); cbn [andb]; try lia.
    + destruct (Z.ltb_spec x (va + 512)); [lia|]. destruct (_ <? _); [|done].
      by replace ((lba + 1) * 512 + (x - (va + 512))) with (lba * 512 + (x - va)) by lia.
    + destruct (Z.ltb_spec x (va + 512)); [|lia]. destruct (Z.ltb_spec x ((va_end + 511) / 512 * 512)); [|dlia].
      f_equal; [f_equal; dlia|dlia].
    + done.
Qed.

Lemma read_segment_ok va size lba s :
  (drive_busy (dev s) < poll_max)%nat → 0 ≤ va → 0 ≤ size → va + size ≤ 2 ^ 32 - 512 →
  0 ≤ lba → lba + (size + 1022) / 512 ≤ 2 ^ 28 →
  ∃ s', disk_io_read_segment poll_max va size lba s = Ok (0, s') ∧ (drive_busy (dev s') < poll_max)%nat ∧
    drive_sector (dev s') = drive_sector (dev s) ∧
    (∀ x, va / 512 * 512 ≤ x < sector_end (va + size) →
       ram s' x = disk_byte (dev s) (lba * 512 + (x - va / 512 * 512))) ∧
    (∀ x, x < va / 512 * 512 ∨ sector_end (va + size) ≤ x → ram s' x = ram s x).
Proof.
  intros Hb Hva Hs Hend Hl Hlba. unfold disk_io_read_segment. rewrite u32_small by lia.
  change (ATA_SECTOR_SIZE - 1) with (Z.ones 9). rewrite land_lnot_ones by done. change (2 ^ 9) with 512.
  set (v := va / 512 * 512). assert (v = va / 512 * 512) as Hv by done. clearbody v.
  destruct (proj1 (wp_ok _ _ _) (read_sectors_ok (segment_fuel v (va + size)) v (va + size) lba s
    eq_refl Hb ltac:(dlia) ltac:(dlia) ltac:(lia) Hl ltac:(unfold segment_fuel; dlia)))
    as (r & s' & Hrun & -> & B & S & R).
  exists s'. split; [done|]. split; [done|]. split; [done|]. split; intros x Hx; rewrite R.
  - rewrite (proj2 (Z.leb_le _ _)), (proj2 (Z.ltb_lt _ _)) by lia. done.
  - destruct (_ && _) eqn:E; [bools; lia|done].
Qed.

(** C28: on a working drive [disk_io_read_segment] returns 0 and the sectors from
    [lba] on are in memory from [va] rounded down to a sector on, up to the end
    of the sector of the last byte; every other byte of memory and the disk are
    unchanged. *)
Theorem read_segment_correct va size lba s :
  (drive_busy (dev s) < poll_max)%nat → 0 ≤ va → 0 ≤ size → va + size ≤ 2 ^ 32 - 512 →
  0 ≤ lba → lba + (size + 1022) / 512 ≤ 2 ^ 28 →
  ∃ s', disk_io_read_segment poll_max va size lba s = Ok (0, s') ∧ (drive_busy (dev s') < poll_max)%nat ∧
    drive_sector (dev s') = drive_sector (dev s) ∧
    (∀ x, va / 512 * 512 ≤ x < sector_end (va + size) →
       ram s' x = disk_byte (dev s) (lba * 512 + (x - va / 512 * 512))) ∧
    (∀ x, x < va / 512 * 512 ∨ sector_end (va + size) ≤ x → ram s' x = ram s x).
Proof. apply read_segment_ok. Qed.
End drive.

(** ** A concrete drive *)

(** Word [i] of sector [n] is [d_image n i]; a READ command keeps the drive busy
    for [d_delay] polls. *)
Record drive := Drive {
  d_image : Z → Z → Z;
  d_delay : nat;
  d_busy : nat;
  d_buffer : list Z;
  d_reg : Z → Z;
}.

Definition drive_sector (d : drive) (n : Z) : list Z := (λ i, u16 (d_image d n i)) <$> zseq 0 256.

#[global] Instance drive_device : AtaDevice drive := {
  dev_inb port d :=
    match d_busy d with
    | S n => (ATA_PIO_STATUS_BSY, Drive (d_image d) (d_delay d) n (d_buffer d) (d_reg d))
    | O => (ATA_PIO_STATUS_RDY, d)
    end;
  dev_inw port d :=
    match d_buffer d with
    | w :: ws => (w, Drive (d_image d) (d_delay d) (d_busy d) ws (d_reg d))
    | [] => (0, d)
    end;
  dev_outb port v d :=
    if (port =? ATA_PIO_PORT_COMMAND) && (v =? ATA_PIO_CMD_READ)
    then Drive (d_image d) (d_delay d) (d_delay d `min` 9) (drive_sector d (lba_of (d_reg d))) (d_reg d)
    else Drive (d_image d) (d_delay d) (d_busy d) (d_buffer d) (<[port := v]> (d_reg d));
}.

#[global] Instance drive_laws : AtaLaws drive 10.
Proof.
  refine {| sector := drive_sector; busy := d_busy; buffer := d_buffer; reg := d_reg |}.
  - intros d n. unfold drive_sector. by rewrite length_fmap, zseq_length.
  - intros d n w Hw. apply list_elem_of_fmap in Hw as (i & -> & _). apply Z.mod_pos_bound. lia.
  - intros d n E. cbn [dev_inb drive_device]. rewrite E. eexists _, _. split; [reflexivity|]. done.
  - intros d E. cbn [dev_inb drive_device]. rewrite E. eexists _, _. split; [reflexivity|]. done.
  - intros d p v Hp Hb. cbn [dev_outb drive_device]. rewrite (proj2 (Z.eqb_neq p _)) by done. done.
  - intros d Hb H1 H2. cbn. split; [lia|]. done.
  - intros d w ws Hb E. cbn [dev_inw drive_device]. rewrite E. eexists. split; [reflexivity|]. done.
Defined.

(** Sector [n] holds the words [n * 256 + i]. *)
Definition demo_drive : drive := Drive (λ n i, n * 256 + i) 3 2 [] (λ _, 0).

Lemma read_segment_correct_witness :
  ∃ s', disk_io_read_segment 10 0x10040 600 7 (AState demo_drive (λ _, Byte.x00)) = Ok (0, s') ∧
    ram s' 0x10204 = z2b 2 ∧ ram s' 0x10205 = z2b 8 ∧ ram s' 0x10400 = Byte.x00.
Proof.
  destruct (read_segment_correct 10 0x10040 600 7 (AState demo_drive (λ _, Byte.x00)))
    as (s' & Hrun & _ & _ & Hin & Hout).
  - apply Nat.ltb_lt. reflexivity.
  - lia.
  - lia.
  - lia.
  - lia.
  - change ((600 + 1022) / 512) with 3. lia.
  - exists s'. split; [exact Hrun|]. split; [rewrite Hin; [reflexivity|vm_compute; split; congruence]|].
    split; [rewrite Hin; [reflexivity|vm_compute; split; congruence]|].
    rewrite Hout; [reflexivity|right; vm_compute; congruence].
Defined.

