(* ===== verification/Boot.v ===== *)
(** The boot sector's C part: kernel/boot/main.c with the 32-bit ELF structures
    of kernel/misc/elf.h.

    [bootmain] reads the loader's ELF header from sector 1, loads every segment
    and calls the entry point: the result is the address it calls, or [None]
    when it ends in the error loop.  The macros [ELF32_PHEADER_FIRST] and
    [ELF32_PHEADER_LAST] read the header in memory each time they are
    evaluated, so the loop does too. *)

From S2P Require Import Prelude Memory Ata.
Import Ata.

Module Boot.

Definition ELF_MAGIC : Z := 0x464C457F.
Definition KERNEL_LOADER_ADDRESS : Z := 0x10000.
Definition SIZEOF_PHEADER32 : Z := 32.

Section header.
Implicit Types (m : mem).

(** [struct elf32_header] and [struct elf32_program_header]. *)
Definition e_magic m (eh : Z) : Z := rd32 m eh.
Definition e_entry m (eh : Z) : Z := rd32 m (eh + 24).
Definition e_phoff m (eh : Z) : Z := rd32 m (eh + 28).
Definition e_phnum m (eh : Z) : Z := rdn 2 m (eh + 44).

Definition p_offset m (ph : Z) : Z := rd32 m (ph + 4).
Definition p_va m (ph : Z) : Z := rd32 m (ph + 8).
Definition p_memsz m (ph : Z) : Z := rd32 m (ph + 20).

Definition ELF32_PHEADER_FIRST m (eh : Z) : Z := u32 (eh + e_phoff m eh).
Definition ELF32_PHEADER_LAST m (eh : Z) : Z := u32 (ELF32_PHEADER_FIRST m eh + SIZEOF_PHEADER32 * e_phnum m eh).
End header.

Section boot.
Context {D : Type} `{!AtaDevice D} (poll_max : nat).

Definition gram {A} (f : mem → A) : M (astate D) A := gets (λ s, f (ram s)).

(** The loop over the program headers; [Some ()] is [goto error]. *)
Fixpoint load_segments (fuel : nat) (eh ph : Z) : M (astate D) (option ()) :=
  last ← gram (λ m, ELF32_PHEADER_LAST m eh);
  if ph <? last then
    match fuel with
    | O => fail EFuel
    | S fuel' =>
        lba ← gram (λ m, u32 (p_offset m ph / ATA_SECTOR_SIZE + 1));
        va ← gram (λ m, p_va m ph);
        size ← gram (λ m, p_memsz m ph);
        r ← disk_io_read_segment poll_max va size lba;
        if negb (r =? 0) then mret (Some ())
        else load_segments fuel' eh (u32 (ph + SIZEOF_PHEADER32))
    end
  else mret None.

(** [e_phnum] has 16 bits. *)
Definition pheader_max : nat := Z.to_nat 65536.

Definition bootmain : M (astate D) (option Z) :=
  let elf_header := KERNEL_LOADER_ADDRESS in
  r ← disk_io_read_segment poll_max elf_header ATA_SECTOR_SIZE 1;
  if negb (r =? 0) then mret None
  else
    magic ← gram (λ m, e_magic m elf_header);
    if negb (magic =? ELF_MAGIC) then mret None
    else
      ph ← gram (λ m, ELF32_PHEADER_FIRST m elf_header);
      e ← load_segments pheader_max elf_header ph;
      match e with
      | Some _ => mret None
      | None => entry ← gram (λ m, e_entry m elf_header); mret (Some entry)
      end.

End boot.

End Boot.
