(* ===== verification/BootTheorems.v ===== *)
(** The correctness theorem of the boot sector (kernel/boot/main.c): it loads the
    loader from disk, on any drive that works as [AtaLaws] says. *)

From S2P Require Import Prelude Memory Ata AtaTheorems Boot.
Import Ata Boot.

Section load.
Context {D : Type} `{!AtaDevice D} (poll_max : nat) `{!AtaLaws D poll_max}.
Implicit Types (s : astate D).

Abbreviation dbyte := (disk_byte poll_max).
Abbreviation dbusy := (busy (poll_max := poll_max)).

(** The image of the first sector of the loader, where [bootmain] puts it. *)
Definition header_image (d : D) : mem := λ x, dbyte d (512 + (x - KERNEL_LOADER_ADDRESS)).

Record segment := Segment { seg_va : Z; seg_size : Z; seg_off : Z }.

Definition segment_at (m : mem) (i : Z) : segment :=
  let ph := KERNEL_LOADER_ADDRESS + e_phoff m KERNEL_LOADER_ADDRESS + SIZEOF_PHEADER32 * i in
  Segment (p_va m ph) (p_memsz m ph) (p_offset m ph).

Definition seg_start (sg : segment) : Z := seg_va sg / 512 * 512.
Definition seg_end (sg : segment) : Z := sector_end (seg_va sg + seg_size sg).

(** The segment fits below the end of the address space and the disk. *)
Definition seg_fits (sg : segment) : Prop :=
  seg_va sg + seg_size sg ≤ 2 ^ 32 - 512 ∧ seg_off sg / 512 + 1 + (seg_size sg + 1022) / 512 ≤ 2 ^ 28.

Definition apart (a b c d : Z) : Prop := b ≤ c ∨ d ≤ a.

(** A loader image [bootmain] can load: the program headers are in the first
    sector, the segments overlap neither it nor each other. *)
Record loadable (m : mem) : Prop := {
  ld_magic : e_magic m KERNEL_LOADER_ADDRESS = ELF_MAGIC;
  ld_headers : e_phoff m KERNEL_LOADER_ADDRESS + SIZEOF_PHEADER32 * e_phnum m KERNEL_LOADER_ADDRESS ≤ 512;
  ld_fits i : 0 ≤ i < e_phnum m KERNEL_LOADER_ADDRESS → seg_fits (segment_at m i);
  ld_apart i : 0 ≤ i < e_phnum m KERNEL_LOADER_ADDRESS →
    apart (seg_start (segment_at m i)) (seg_end (segment_at m i)) KERNEL_LOADER_ADDRESS (KERNEL_LOADER_ADDRESS + 512);
  ld_disjoint i j : 0 ≤ i < j → j < e_phnum m KERNEL_LOADER_ADDRESS →
    apart (seg_start (segment_at m i)) (seg_end (segment_at m i)) (seg_start (segment_at m j)) (seg_end (segment_at m j));
}.

(** Byte [x] of a loaded segment. *)
Definition seg_byte (d : D) (sg : segment) (x : Z) : byte :=
  dbyte d ((seg_off sg / 512 + 1) * 512 + (x - seg_start sg)).


(** ** The header stays in place *)

Definition hdr_same (m h : mem) : Prop :=
  ∀ x, KERNEL_LOADER_ADDRESS ≤ x < KERNEL_LOADER_ADDRESS + 512 → m x = h x.

Lemma hdr_rdn n m h a :
  hdr_same m h → KERNEL_LOADER_ADDRESS ≤ a → a + Z.of_nat n ≤ KERNEL_LOADER_ADDRESS + 512 → rdn n m a = rdn n h a.
Proof. intros H H1 H2. apply rdn_ext. intros x Hx. apply H. lia. Qed.

Lemma hdr_phnum m : 0 ≤ e_phnum m KERNEL_LOADER_ADDRESS < 65536.
Proof. apply (rdn_range 2). Qed.

Section headers.
Context (m h : mem).
Hypothesis Hs : hdr_same m h.
Hypothesis L : loadable h.

Abbreviation phoff := (e_phoff h KERNEL_LOADER_ADDRESS).
Abbreviation phnum := (e_phnum h KERNEL_LOADER_ADDRESS).

Lemma hdr_bounds : 0 ≤ phoff ∧ 0 ≤ phnum ∧ phoff + 32 * phnum ≤ 512.
Proof.
  pose proof (ld_headers _ L) as H. pose proof (rdn_range 4 h (KERNEL_LOADER_ADDRESS + 28)).
  pose proof (hdr_phnum h). unfold SIZEOF_PHEADER32, e_phoff in *. lia.
Qed.

Lemma hdr_fields :
  e_magic m KERNEL_LOADER_ADDRESS = ELF_MAGIC ∧ e_entry m KERNEL_LOADER_ADDRESS = e_entry h KERNEL_LOADER_ADDRESS ∧
  ELF32_PHEADER_FIRST m KERNEL_LOADER_ADDRESS = KERNEL_LOADER_ADDRESS + phoff ∧
  ELF32_PHEADER_LAST m KERNEL_LOADER_ADDRESS = KERNEL_LOADER_ADDRESS + phoff + 32 * phnum.
Proof.
  pose proof hdr_bounds as (H1 & H2 & H3).
  assert (e_phoff m KERNEL_LOADER_ADDRESS = phoff) as E1 by (apply hdr_rdn; unfold KERNEL_LOADER_ADDRESS; done || lia).
  assert (e_phnum m KERNEL_LOADER_ADDRESS = phnum) as E2 by (apply hdr_rdn; unfold KERNEL_LOADER_ADDRESS; done || lia).
  assert (KERNEL_LOADER_ADDRESS = 0x10000) as EK by done.
  unfold ELF32_PHEADER_LAST, ELF32_PHEADER_FIRST. rewrite E1, E2. unfold SIZEOF_PHEADER32.
  rewrite !(u32_small (KERNEL_LOADER_ADDRESS + phoff)) by lia. rewrite u32_small by lia. split_and!; try done.
  - rewrite <- (ld_magic _ L). apply hdr_rdn; unfold KERNEL_LOADER_ADDRESS; done || lia.
  - apply hdr_rdn; unfold KERNEL_LOADER_ADDRESS; done || lia.
Qed.

Lemma hdr_segment i :
  0 ≤ i < phnum → let ph := KERNEL_LOADER_ADDRESS + phoff + 32 * i in
  p_va m ph = seg_va (segment_at h i) ∧ p_memsz m ph = seg_size (segment_at h i) ∧
  p_offset m ph = seg_off (segment_at h i).
Proof.
  intros Hi ph. pose proof hdr_bounds as (H1 & H2 & H3). assert (KERNEL_LOADER_ADDRESS = 0x10000) as EK by done.
  unfold ph. split_and!; apply hdr_rdn; done || (unfold SIZEOF_PHEADER32; lia).
Qed.
End headers.

(** The first [n] segments are loaded, everything else is as in [m0]. *)
Record loaded_upto d h (m0 : mem) (n : Z) s : Prop := {
  lu_busy : (dbusy (dev s) < poll_max)%nat;
  lu_sector : sector (poll_max := poll_max) (dev s) = sector (poll_max := poll_max) d;
  lu_in i x : 0 ≤ i < n → seg_start (segment_at h i) ≤ x < seg_end (segment_at h i) →
    ram s x = seg_byte d (segment_at h i) x;
  lu_out x : (∀ i, 0 ≤ i < n → x < seg_start (segment_at h i) ∨ seg_end (segment_at h i) ≤ x) → ram s x = m0 x;
}.

Lemma load_step d h m0 n s :
  loadable h → loaded_upto d h m0 n s → 0 ≤ n < e_phnum h KERNEL_LOADER_ADDRESS →
  let sg := segment_at h n in
  wp (disk_io_read_segment poll_max (seg_va sg) (seg_size sg) (seg_off sg / 512 + 1))
    (λ r s', r = 0 ∧ loaded_upto d h m0 (n + 1) s') s.
Proof.
  intros L [Hb Hs Hi Ho] Hn sg. destruct (ld_fits _ L n Hn) as [F1 F2]. fold sg in F1, F2.
  assert (0 ≤ seg_va sg ∧ 0 ≤ seg_size sg ∧ 0 ≤ seg_off sg) as (P1 & P2 & P3) by (split_and!; apply rdn_range).
  destruct (read_segment_ok poll_max (seg_va sg) (seg_size sg) (seg_off sg / 512 + 1) s)
    as (s' & Hrun & Hb' & Hs' & Hin & Hout); [done|done|done|done|dlia|done|].
  eapply wp_eq; [exact Hrun|]. split; [done|].
  assert (∀ a, dbyte (dev s) a = dbyte d a) as Hd by (intros a; unfold disk_byte; by rewrite Hs).
  constructor; [done|congruence| |].
  - intros i x Hin' Hx. destruct (decide (i = n)) as [->|Hne].
    + rewrite Hin by done. by rewrite Hd.
    + rewrite Hout; [apply Hi; [lia|done]|]. destruct (ld_disjoint _ L i n ltac:(lia) ltac:(lia)) as [?|?];
        fold sg in H; unfold seg_start, seg_end in *; lia.
  - intros x Hx. rewrite Hout; [apply Ho; intros i Hi'; apply Hx; lia|]. apply (Hx n). lia.
Qed.
(** The loop from segment [n] on. *)
Lemma load_segments_ok d h m0 k n s fuel :
  loadable h → hdr_same m0 h → loaded_upto d h m0 n s → 0 ≤ n →
  e_phnum h KERNEL_LOADER_ADDRESS = n + Z.of_nat k → (k ≤ fuel)%nat →
  wp (load_segments poll_max fuel KERNEL_LOADER_ADDRESS (KERNEL_LOADER_ADDRESS + e_phoff h KERNEL_LOADER_ADDRESS + 32 * n))
    (λ r s', r = None ∧ loaded_upto d h m0 (n + Z.of_nat k) s') s.
Proof.
  intros L H0. revert n s fuel. induction k as [|k IH]; intros n s fuel U Hn Hk Hf.
  all: assert (hdr_same (ram s) h) as Hs
    by (intros x Hx; rewrite <- (H0 x Hx); apply (lu_out _ _ _ _ _ U); intros i Hi;
        destruct (ld_apart _ L i ltac:(lia)); unfold apart in *; lia).
  all: destruct (hdr_fields _ _ Hs L) as (_ & _ & _ & Hlast); pose proof (hdr_bounds h L) as (B1 & B2 & B3);
    assert (KERNEL_LOADER_ADDRESS = 0x10000) as EK by done.
  - destruct fuel; cbn [load_segments]; apply wp_bind, wp_gets; rewrite Hlast, (proj2 (Z.ltb_ge _ _)) by lia;
      apply wp_ret; (split; [done|]); by rewrite Z.add_0_r.
  - destruct fuel as [|fuel]; [lia|]. cbn [load_segments]. apply wp_bind, wp_gets.
    rewrite Hlast, (proj2 (Z.ltb_lt _ _)) by lia. do 3 apply wp_bind, wp_gets.
    destruct (hdr_segment _ _ Hs L n ltac:(lia)) as (-> & -> & ->).
    destruct (ld_fits _ L n ltac:(lia)) as [_ F2]. pose proof (rdn_range 4 h (KERNEL_LOADER_ADDRESS + e_phoff h KERNEL_LOADER_ADDRESS + SIZEOF_PHEADER32 * n + 4)) as Ho.
    change (rd32 h _) with (seg_off (segment_at h n)) in Ho.
    pose proof (rdn_range 4 h (KERNEL_LOADER_ADDRESS + e_phoff h KERNEL_LOADER_ADDRESS + SIZEOF_PHEADER32 * n + 20)) as Hz.
    change (rd32 h _) with (seg_size (segment_at h n)) in Hz.
    change (2 ^ (8 * Z.of_nat 4)) with (2 ^ 32) in Ho, Hz. unfold ATA_SECTOR_SIZE.
    rewrite (u32_small (seg_off _ / 512 + 1)) by dlia.
    apply wp_bind. eapply wp_mono; [apply (load_step d h m0 n s L U); lia|].
    intros r s' [-> U']. cbn [Z.eqb negb]. unfold SIZEOF_PHEADER32 at 1. rewrite u32_small by lia.
    replace (KERNEL_LOADER_ADDRESS + e_phoff h KERNEL_LOADER_ADDRESS + 32 * n + 32)
      with (KERNEL_LOADER_ADDRESS + e_phoff h KERNEL_LOADER_ADDRESS + 32 * (n + 1)) by lia.
    replace (n + Z.of_nat (S k)) with (n + 1 + Z.of_nat k) by lia. apply IH; [done|lia|lia|lia].
Qed.

(** Reading the first sector of the loader. *)
Lemma read_header s :
  (dbusy (dev s) < poll_max)%nat →
  ∃ s1, disk_io_read_segment poll_max KERNEL_LOADER_ADDRESS ATA_SECTOR_SIZE 1 s = Ok (0, s1) ∧
    (dbusy (dev s1) < poll_max)%nat ∧ sector (poll_max := poll_max) (dev s1) = sector (poll_max := poll_max) (dev s) ∧
    hdr_same (ram s1) (header_image (dev s)) ∧
    (∀ x, x < KERNEL_LOADER_ADDRESS ∨ KERNEL_LOADER_ADDRESS + 512 ≤ x → ram s1 x = ram s x).
Proof.
  intros Hb. destruct (read_segment_ok poll_max KERNEL_LOADER_ADDRESS ATA_SECTOR_SIZE 1 s Hb) as (s1 & Hrun & B & S & Hi & Ho);
    [done|done|done|done|vm_compute; done|].
  exists s1. split; [done|]. split; [done|]. split; [done|]. split.
  - intros x Hx. rewrite Hi by exact Hx. done.
  - intros x Hx. apply Ho. exact Hx.
Qed.

Lemma bootmain_ok s :
  (dbusy (dev s) < poll_max)%nat →
  let h := header_image (dev s) in
  (loadable h → ∃ s', bootmain poll_max s = Ok (Some (e_entry h KERNEL_LOADER_ADDRESS), s') ∧
     (∀ i x, 0 ≤ i < e_phnum h KERNEL_LOADER_ADDRESS →
        seg_start (segment_at h i) ≤ x < seg_end (segment_at h i) → ram s' x = seg_byte (dev s) (segment_at h i) x) ∧
     (∀ x, x < KERNEL_LOADER_ADDRESS ∨ KERNEL_LOADER_ADDRESS + 512 ≤ x →
        (∀ i, 0 ≤ i < e_phnum h KERNEL_LOADER_ADDRESS →
           x < seg_start (segment_at h i) ∨ seg_end (segment_at h i) ≤ x) → ram s' x = ram s x)) ∧
  (e_magic h KERNEL_LOADER_ADDRESS ≠ ELF_MAGIC → ∃ s', bootmain poll_max s = Ok (None, s')).
Proof.
  intros Hb h. destruct (read_header s Hb) as (s1 & Hrun & B1 & S1 & Hs & Ho). fold h in Hs. split.
  - intros L. destruct (hdr_fields _ _ Hs L) as (Hm & _ & Hfirst & _).
    pose proof (hdr_phnum h) as Hn.
    assert (loaded_upto (dev s) h (ram s1) 0 s1) as U by (constructor; done || lia).
    pose proof (load_segments_ok (dev s) h (ram s1) (Z.to_nat (e_phnum h KERNEL_LOADER_ADDRESS)) 0 s1 pheader_max
      L Hs U ltac:(lia) ltac:(lia) ltac:(unfold pheader_max; lia)) as Hl.
    apply wp_ok in Hl as (r & s2 & Hl & -> & U2). rewrite Z.add_0_l, Z2Nat.id in U2 by lia. rewrite Z.mul_0_r, Z.add_0_r in Hl.
    exists s2. split; [|split].
    + unfold bootmain, mbind, M_bind. rewrite Hrun. cbn [Z.eqb negb]. unfold gram, gets. rewrite Hm, Z.eqb_refl. cbn [negb].
      rewrite Hfirst, Hl. unfold mret, M_ret. do 3 f_equal.
      apply (hdr_rdn 4); [|done|done]. intros x Hx. rewrite <- (Hs x Hx). apply (lu_out _ _ _ _ _ U2). intros i Hi.
      destruct (ld_apart _ L i Hi); lia.
    + intros i x Hi Hx. by apply (lu_in _ _ _ _ _ U2).
    + intros x Hx Hxs. rewrite (lu_out _ _ _ _ _ U2) by done. by apply Ho.
  - intros Hm. exists s1. unfold bootmain, mbind, M_bind. rewrite Hrun. cbn [Z.eqb negb]. unfold gram, gets.
    assert (e_magic (ram s1) KERNEL_LOADER_ADDRESS = e_magic h KERNEL_LOADER_ADDRESS) as -> by (by apply (hdr_rdn 4)).
    by rewrite (proj2 (Z.eqb_neq _ _)).
Qed.
(** C27: [bootmain] on a working drive whose sector 1 starts a loadable ELF image:
    it returns the entry point of the header, every segment is in memory where
    its program header says, byte for byte as on the disk, and all other memory
    except the sector of the header is unchanged.  When the first word is not
    the ELF magic it ends in the error loop. *)
Theorem bootmain_correct s :
  (dbusy (dev s) < poll_max)%nat →
  let h := header_image (dev s) in
  (loadable h → ∃ s', bootmain poll_max s = Ok (Some (e_entry h KERNEL_LOADER_ADDRESS), s') ∧
     (∀ i x, 0 ≤ i < e_phnum h KERNEL_LOADER_ADDRESS →
        seg_start (segment_at h i) ≤ x < seg_end (segment_at h i) → ram s' x = seg_byte (dev s) (segment_at h i) x) ∧
     (∀ x, x < KERNEL_LOADER_ADDRESS ∨ KERNEL_LOADER_ADDRESS + 512 ≤ x →
        (∀ i, 0 ≤ i < e_phnum h KERNEL_LOADER_ADDRESS →
           x < seg_start (segment_at h i) ∨ seg_end (segment_at h i) ≤ x) → ram s' x = ram s x)) ∧
  (e_magic h KERNEL_LOADER_ADDRESS ≠ ELF_MAGIC → ∃ s', bootmain poll_max s = Ok (None, s')).
Proof. exact (bootmain_ok s). Qed.
End load.

(** ** An instance *)

(** An ELF header with one segment of 700 bytes at 1 MB, at file offset 4096. *)
Definition demo_header : mem :=
  foldr (λ '(a, v) m, wr32 m a v) (λ _, Byte.x00)
    [(0, ELF_MAGIC); (24, 0x100000); (28, 52); (44, 1); (56, 4096); (60, 0x100000); (72, 700)].

Definition demo_boot_drive : drive :=
  Drive (λ n i, if n =? 1 then b2z (demo_header (2 * i)) + 256 * b2z (demo_header (2 * i + 1)) else n * 256 + i) 3 2 [] (λ _, 0).

Lemma demo_loadable : loadable (header_image 10 demo_boot_drive).
Proof.
  assert (e_phnum (header_image 10 demo_boot_drive) KERNEL_LOADER_ADDRESS = 1) as E by (vm_compute; reflexivity).
  constructor; rewrite ?E.
  - vm_compute. reflexivity.
  - vm_compute. congruence.
  - intros i Hi. assert (i = 0) as -> by lia. vm_compute. split; congruence.
  - intros i Hi. assert (i = 0) as -> by lia. right. vm_compute. congruence.
  - intros i j Hi Hj. lia.
Qed.

Lemma bootmain_correct_witness :
  ∃ s', bootmain 10 (AState demo_boot_drive (λ _, Byte.x00)) = Ok (Some 0x100000, s') ∧
    ram s' 0x100002 = z2b 1 ∧ ram s' 0x100003 = z2b 9.
Proof.
  destruct (bootmain_correct 10 (AState demo_boot_drive (λ _, Byte.x00))) as [H _]; [apply Nat.ltb_lt; reflexivity|].
  destruct (H demo_loadable) as (s' & Hrun & Hin & _). exists s'.
  split; [rewrite Hrun; do 3 f_equal; vm_compute; reflexivity|].
  split; rewrite (Hin 0) by (vm_compute; split; congruence); vm_compute; reflexivity.
Defined.
