(* ===== verification/BootEntry.v ===== *)
(** The boot sector from its first instruction: kernel/boot/boot.S.

    The assembly runs in real mode: it opens the A20 gate through the keyboard
    controller, collects the memory map of the BIOS at 0x7e00, switches to
    protected mode with a flat code and a flat data segment and calls
    [bootmain].  Each instruction changes a small machine state.  The BIOS
    service [int $0x15] and the status port of the keyboard controller are
    parameters; the return addresses that [call wait_8042] pushes go to the stack
    of the BIOS and are not followed.  The loops have fuel, and [boot_sector_correct] shows
    that they end. *)

From S2P Require Import Prelude Memory Ata AtaTheorems Gdt Boot BootTheorems.
Import Ata Boot.

Module BootEntry.

Inductive greg := EAX | EBX | ECX | EDX | ESI | EDI | ESP.
Inductive sreg := CS | DS | ES | SS | FS | GS.

#[global] Instance greg_eq_dec : EqDecision greg.
Proof. solve_decision. Defined.
#[global] Instance sreg_eq_dec : EqDecision sreg.
Proof. solve_decision. Defined.

Definition SMAP : Z := 0x534d4150.
Definition MMAP_ADDR : Z := 0x7e00.

(** The three descriptors after the code. *)
Definition boot_gdt : list Gdt.descriptor :=
  [ Gdt.SEG 0 0 0;
    Gdt.SEG (foldl Z.lor 0 [Gdt.UST_X; Gdt.USF_D; Gdt.USF_P; Gdt.USF_S; Gdt.USF_G; Gdt.UST_R]) 0 0xfffff;
    Gdt.SEG (foldl Z.lor 0 [Gdt.USF_D; Gdt.USF_P; Gdt.USF_S; Gdt.USF_G; Gdt.UST_W]) 0 0xfffff ].

(** What [int $0x15] returns in the registers and in memory. *)
Record bios_out := BiosOut { o_cf : bool; o_eax : Z; o_ebx : Z; o_ecx : Z; o_edx : Z; o_mem : mem }.

Section boot.
Context {D : Type} `{!AtaDevice D} (poll_max : nat).
(** The value of the [n]-th read of port 0x64, and the service of the BIOS:
    [%eax], [%ebx], [%ecx], [%edx], the address [%es:%di] and memory. *)
Context (status : nat → Z) (int15 : Z → Z → Z → Z → Z → mem → bios_out).
(** Labels of the sector. *)
Context (boot_entry_addr gdt_addr : Z).

Record bstate := BState {
  gpr : greg → Z;
  seg : sreg → Z;
  cf : bool;
  intr : bool;
  cr0 : Z;
  gdtr : Z * Z;             (* base and limit *)
  outs : list (Z * Z);      (* port and value, last write first *)
  polls : nat;
  machine : astate D;       (* disk and memory *)
}.

Definition set_gpr v s := BState v (seg s) (cf s) (intr s) (cr0 s) (gdtr s) (outs s) (polls s) (machine s).
Definition set_seg v s := BState (gpr s) v (cf s) (intr s) (cr0 s) (gdtr s) (outs s) (polls s) (machine s).
Definition set_intr v s := BState (gpr s) (seg s) (cf s) v (cr0 s) (gdtr s) (outs s) (polls s) (machine s).
Definition set_cr0 v s := BState (gpr s) (seg s) (cf s) (intr s) v (gdtr s) (outs s) (polls s) (machine s).
Definition set_gdtr v s := BState (gpr s) (seg s) (cf s) (intr s) (cr0 s) v (outs s) (polls s) (machine s).
Definition set_outs v s := BState (gpr s) (seg s) (cf s) (intr s) (cr0 s) (gdtr s) v (polls s) (machine s).
Definition set_polls v s := BState (gpr s) (seg s) (cf s) (intr s) (cr0 s) (gdtr s) (outs s) v (machine s).
Definition set_machine v s := BState (gpr s) (seg s) (cf s) (intr s) (cr0 s) (gdtr s) (outs s) (polls s) v.

(** ** Instructions *)

Definition movl (r : greg) (v : Z) : M bstate () := modify (λ s, set_gpr (<[r := u32 v]> (gpr s)) s).
Definition movw (r : greg) (v : Z) : M bstate () :=
  modify (λ s, set_gpr (<[r := gpr s r / 2 ^ 16 * 2 ^ 16 + u16 v]> (gpr s)) s).
Definition movb (r : greg) (v : Z) : M bstate () :=
  modify (λ s, set_gpr (<[r := gpr s r / 2 ^ 8 * 2 ^ 8 + u8 v]> (gpr s)) s).
Definition mov_seg (r : sreg) : M bstate () := modify (λ s, set_seg (<[r := u16 (gpr s EAX)]> (seg s)) s).
Definition outb (port : Z) : M bstate () := modify (λ s, set_outs ((port, u8 (gpr s EAX)) :: outs s) s).

(** [inb $0x64, %al]. *)
Definition inb_status : M bstate () :=
  n ← gets polls; movb EAX (status n) ;; modify (set_polls (S n)).

Definition int_15 : M bstate () :=
  modify (λ s,
    let o := int15 (gpr s EAX) (gpr s EBX) (gpr s ECX) (gpr s EDX) (16 * seg s ES + u16 (gpr s EDI)) (ram (machine s)) in
    BState (<[EAX := u32 (o_eax o)]> (<[EBX := u32 (o_ebx o)]> (<[ECX := u32 (o_ecx o)]> (<[EDX := u32 (o_edx o)]> (gpr s)))))
      (seg s) (o_cf o) (intr s) (cr0 s) (gdtr s) (outs s) (polls s) (set_ram (o_mem o) (machine s))).

Fixpoint wait_8042 (fuel : nat) : M bstate () :=
  inb_status ;;
  al ← gets (λ s, u8 (gpr s EAX));
  if Z.land al 0x2 =? 0 then mret ()
  else match fuel with O => fail EFuel | S fuel' => wait_8042 fuel' end.

(** The call for one record. *)
Definition next_record : M bstate () :=
  movl EAX 0xe820 ;;
  movl ECX 24 ;;
  (s ← get; movw EDI (gpr s EDI + 24)) ;;
  int_15.

Fixpoint detect_high_memory (fuel : nat) : M bstate () :=
  match fuel with
  | O => fail EFuel
  | S fuel' =>
      next_record ;;
      s ← get;
      if cf s then mret ()
      else if negb (gpr s EAX =? SMAP) then mret ()
      else
        movl ESI (gpr s ESI + 1) ;;
        if negb (gpr s EBX =? 0) then detect_high_memory fuel' else mret ()
  end.

(** A segment of the 16-bit offset holds fewer than 2731 records. *)
Definition record_max : nat := 2731.

(** Interrupts off, segments at 0, the A20 gate open. *)
Definition enable_a20 : M bstate () :=
  modify (set_intr false) ;;
  movw EAX 0 ;;
  mov_seg DS ;; mov_seg ES ;; mov_seg SS ;;
  wait_8042 poll_max ;;
  movb EAX 0xd1 ;; outb 0x64 ;;
  wait_8042 poll_max ;;
  movb EAX 0xdf ;; outb 0x60 ;;
  wait_8042 poll_max.

Definition detect_memory : M bstate () :=
  movw EDI 0x7de8 ;;
  movl EBX 0 ;;
  movl EDX SMAP ;;
  movl ESI 0 ;;
  detect_high_memory record_max.

(** Protected mode with flat segments, the stack, and the number of records. *)
Definition enter_protected_mode : M bstate () :=
  (s ← get; movl EAX (cr0 s)) ;;
  (s ← get; movl EAX (Z.lor (gpr s EAX) 0x1)) ;;
  modify (λ s, set_cr0 (gpr s EAX) s) ;;
  modify (set_gdtr (gdt_addr, 8 * Z.of_nat (length boot_gdt) - 1)) ;;
  modify (λ s, set_seg (<[CS := 0x8]> (seg s)) s) ;;
  movw EAX 0x10 ;;
  mov_seg DS ;; mov_seg ES ;; mov_seg SS ;; mov_seg FS ;; mov_seg GS ;;
  movl ESP boot_entry_addr ;;
  movl EDI 0x7e00 ;;
  modify (λ s, set_machine (set_ram (wr32 (ram (machine s)) (gpr s EDI - 4) (gpr s ESI)) (machine s)) s).

Definition boot_entry : M bstate () := enable_a20 ;; detect_memory ;; enter_protected_mode.

(** [call bootmain]: the address of the loader, or [None] in the error loop. *)
Definition boot_sector : M bstate (option Z) := boot_entry ;; zoom machine set_machine (bootmain poll_max).

(** ** What the parameters are documented to do *)

(** The BIOS returns the records [recs] in order.  [tok i] is the continuation
    value that asks for record [i]; the last record comes with the value 0, or
    the call after it fails. *)
Record bios_map (recs : list (list byte)) (tok : nat → Z) : Prop := {
  bm_len e : e ∈ recs → (length e ≤ 24)%nat;
  bm_first : tok O = 0;
  bm_tok i : (i ≤ length recs)%nat → 0 ≤ tok i < 2 ^ 32;
  bm_more i : (0 < i < length recs)%nat → tok i ≠ 0;
  bm_call i e buf m : recs !! i = Some e → let o := int15 0xe820 (tok i) 24 SMAP buf m in
    o_cf o = false ∧ o_eax o = SMAP ∧ o_ebx o = tok (S i) ∧ o_edx o = SMAP ∧ o_mem o = store_bytes m buf e;
  bm_end : recs ≠ [] ∧ tok (length recs) = 0 ∨
    ∀ buf m, let o := int15 0xe820 (tok (length recs)) 24 SMAP buf m in
      o_cf o = true ∧ ∀ x, x < buf ∨ buf + 24 ≤ x → o_mem o x = m x;
}.

(** The keyboard controller becomes ready while it is polled. *)
Definition ready_8042 : Prop := ∀ n, ∃ j, (j ≤ poll_max)%nat ∧ Z.land (u8 (status (n + j))) 0x2 = 0.

(** Everything but the general registers, the flags and the poll counter. *)
Definition same_frame (s s' : bstate) : Prop :=
  seg s' = seg s ∧ intr s' = intr s ∧ cr0 s' = cr0 s ∧ gdtr s' = gdtr s ∧ outs s' = outs s ∧ dev (machine s') = dev (machine s).

Lemma same_frame_trans s1 s2 s3 : same_frame s1 s2 → same_frame s2 s3 → same_frame s1 s3.
Proof. unfold same_frame. intros (<- & <- & <- & <- & <- & <-) H. exact H. Qed.

Lemma wait_ok s : ready_8042 → wp (wait_8042 poll_max) (λ _ s', same_frame s s' ∧ machine s' = machine s) s.
Proof.
  intros Hr. destruct (Hr (polls s)) as (j & Hj & Hz).
  assert (∀ fuel j s, (j ≤ fuel)%nat → Z.land (u8 (status (polls s + j))) 0x2 = 0 →
    wp (wait_8042 fuel) (λ _ s', same_frame s s' ∧ machine s' = machine s) s) as H; [|by apply (H poll_max j)].
  clear j Hj Hz Hr s. intros fuel. induction fuel as [|fuel IH]; intros j s Hj Hz.
  all: cbn [wait_8042]; unfold wp, inb_status, movb, mbind, M_bind, gets, modify.
  all: cbn [gpr set_gpr set_polls polls]; rewrite fn_lookup_insert.
  all: assert (u8 (gpr s EAX / 2 ^ 8 * 2 ^ 8 + u8 (status (polls s))) = u8 (status (polls s))) as ->
    by (unfold u8; change (2 ^ 8) with 256; rewrite Z.add_comm, Z.mod_add, Z.mod_mod by lia; done).
  all: destruct (Z.eqb_spec (Z.land (u8 (status (polls s))) 0x2) 0) as [E|E]; [done|].
  - assert (j = O) as -> by lia. by rewrite Nat.add_0_r in Hz.
  - destruct j as [|j]; [by rewrite Nat.add_0_r in Hz|]. 
    eapply wp_mono; [apply (IH j); [lia|]; cbn [polls set_polls]; by rewrite Nat.add_succ_comm|].
    intros [] s' [Hs Hm]. split; [|done]. by eapply same_frame_trans; [|exact Hs].
Qed.

Section detect.
Context (recs : list (list byte)) (tok : nat → Z).
Hypothesis B : bios_map recs tok.
Hypothesis Hfit : MMAP_ADDR + 24 * (Z.of_nat (length recs) + 1) ≤ 2 ^ 16.

(** The first [n] records are in memory. *)
Record stored (n : nat) (m0 m : mem) : Prop := {
  st_rec i e : (i < n)%nat → recs !! i = Some e → load_bytes m (MMAP_ADDR + 24 * Z.of_nat i) (length e) = e;
  st_out x : x < MMAP_ADDR ∨ MMAP_ADDR + 24 * Z.of_nat n ≤ x → m x = m0 x;
}.

Lemma stored_step n e m0 m :
  recs !! n = Some e → stored n m0 m → stored (S n) m0 (store_bytes m (MMAP_ADDR + 24 * Z.of_nat n) e).
Proof.
  intros He [H1 H2]. pose proof (bm_len _ _ B e (list_elem_of_lookup_2 _ _ _ He)) as Hl. constructor.
  - intros i e' Hi He'. destruct (decide (i = n)) as [->|Hne].
    + assert (e' = e) as -> by congruence. apply load_store_same.
    + pose proof (bm_len _ _ B e' (list_elem_of_lookup_2 _ _ _ He')) as Hl'.
      rewrite <- (H1 i e') at 2 by (done || lia). apply load_bytes_ext. intros x Hx. apply store_bytes_out. lia.
  - intros x Hx. rewrite store_bytes_out by lia. apply H2. lia.
Qed.

(** The registers before the call for record [n]. *)
Record asking (n : nat) (s : bstate) : Prop := {
  as_es : seg s ES = 0;
  as_di : u16 (gpr s EDI) = 0x7de8 + 24 * Z.of_nat n;
  as_ebx : gpr s EBX = tok n;
  as_edx : gpr s EDX = SMAP;
  as_esi : gpr s ESI = Z.of_nat n;
}.

Definition detected (s0 s : bstate) : Prop :=
  gpr s ESI = Z.of_nat (length recs) ∧ same_frame s0 s ∧
  ∃ m, stored (length recs) (ram (machine s0)) m ∧
    ∀ x, x < MMAP_ADDR + 24 * Z.of_nat (length recs) ∨ MMAP_ADDR + 24 * (Z.of_nat (length recs) + 1) ≤ x → ram (machine s) x = m x.

(** The results of the service, as the caller sees them. *)
Definition returned (o : bios_out) (s : bstate) : Prop :=
  cf s = o_cf o ∧ gpr s EAX = u32 (o_eax o) ∧ gpr s EBX = u32 (o_ebx o) ∧ gpr s EDX = u32 (o_edx o) ∧ ram (machine s) = o_mem o.

Lemma int_ok s (Q : () → bstate → Prop) :
  let o := int15 (gpr s EAX) (gpr s EBX) (gpr s ECX) (gpr s EDX) (16 * seg s ES + u16 (gpr s EDI)) (ram (machine s)) in
  (∀ s', same_frame s s' → gpr s' ESI = gpr s ESI → gpr s' EDI = gpr s EDI → returned o s' → Q () s') → wp int_15 Q s.
Proof.
  intros o HQ. apply HQ; cbn [gpr int_15 modify]; rewrite ?fn_lookup_insert_ne by done; done.
Qed.

Lemma low_word x v : u16 (x / 2 ^ 16 * 2 ^ 16 + u16 v) = u16 v.
Proof. unfold u16. rewrite Z.add_comm, Z.mod_add, Z.mod_mod by done. done. Qed.

Lemma next_di n x : (n ≤ length recs)%nat → u16 x = 0x7de8 + 24 * Z.of_nat n → u16 (x + 24) = 0x7de8 + 24 * Z.of_nat (S n).
Proof.
  intros Hn Hx. unfold MMAP_ADDR in Hfit. unfold u16 in *. rewrite <- Zplus_mod_idemp_l, Hx, Z.mod_small by lia. lia.
Qed.

(** The call for record [n] with the registers set up. *)
Lemma ask_ok n s (Q : () → bstate → Prop) :
  asking n s → (n ≤ length recs)%nat →
  (∀ s', same_frame s s' → gpr s' ESI = Z.of_nat n → u16 (gpr s' EDI) = 0x7de8 + 24 * Z.of_nat (S n) →
     returned (int15 0xe820 (tok n) 24 SMAP (MMAP_ADDR + 24 * Z.of_nat n) (ram (machine s))) s' → Q () s') →
  wp next_record Q s.
Proof.
  unfold next_record. intros [A1 A2 A3 A4 A5] Hn HQ.
  assert (wp (movl EAX 0xe820 ;; movl ECX 24 ;; s ← get; movw EDI (gpr s EDI + 24)) (λ _ s1, same_frame s s1 ∧
    machine s1 = machine s ∧ gpr s1 EAX = 0xe820 ∧ gpr s1 EBX = tok n ∧ gpr s1 ECX = 24 ∧ gpr s1 EDX = SMAP ∧
    gpr s1 ESI = Z.of_nat n ∧ u16 (gpr s1 EDI) = 0x7de8 + 24 * Z.of_nat (S n)) s) as H.
  { unfold wp, movl, movw, mbind, M_bind, get, modify. cbn [gpr set_gpr].
    split; [done|]. split; [done|]. rewrite !fn_lookup_insert_ne by done. rewrite !fn_lookup_insert. split_and!; try done.
    rewrite low_word. by apply next_di. }
  apply wp_bind. unfold wp in H |- *. unfold mbind, M_bind in H |- *. destruct (movl EAX 0xe820 s) as [[[] s1]|]; [|done].
  destruct (movl ECX 24 s1) as [[[] s2]|]; [|done]. unfold get in *. destruct (movw EDI (gpr s2 EDI + 24) s2) as [[[] s3]|]; [|done].
  destruct H as (F & Em & E1 & E2 & E3 & E4 & E5 & E6). pose proof F as (Fs & _).
  apply int_ok. rewrite E1, E2, E3, E4, E6, Em, Fs, A1. intros s' F' E5' E6' R.
  apply HQ; [by eapply same_frame_trans|congruence|congruence|].
  replace (16 * 0 + (0x7de8 + 24 * Z.of_nat (S n))) with (MMAP_ADDR + 24 * Z.of_nat n) in R by (unfold MMAP_ADDR; lia). done.
Qed.

Lemma detect_ok k n s0 s fuel :
  length recs = (n + k)%nat → (k < fuel)%nat → asking n s → n = O ∨ tok n ≠ 0 →
  same_frame s0 s → stored n (ram (machine s0)) (ram (machine s)) →
  wp (detect_high_memory fuel) (λ _, detected s0) s.
Proof.
  revert n s fuel. induction k as [|k IH]; intros n s fuel Hk Hf A Ht F St; (destruct fuel as [|fuel]; [lia|]).
  all: cbn [detect_high_memory]; apply wp_bind, (ask_ok n s); [done|lia|]; intros s1 F1 Hsi Hdi (Rcf & Ra & Rb & Rd & Rm);
    apply wp_bind, wp_get; pose proof (same_frame_trans _ _ _ F F1) as F1'.
  - (* the call after the last record fails *)
    assert (length recs = n) as El by lia. destruct (bm_end _ _ B) as [[Hne Hz]|Hend].
    { exfalso. rewrite <- El in Ht. destruct Ht as [E|E]; [|done]. by destruct recs. }
    destruct (Hend (MMAP_ADDR + 24 * Z.of_nat n) (ram (machine s))) as [Hcf Hm].
    rewrite El in Hcf, Hm. rewrite Rcf, Hcf. apply wp_ret. unfold detected. rewrite El. split; [done|]. split; [done|].
    exists (ram (machine s)). split; [done|]. intros x Hx. rewrite Rm. apply Hm. lia.
  - destruct (lookup_lt_is_Some_2 recs n) as [e He]; [lia|].
    destruct (bm_call _ _ B n e (MMAP_ADDR + 24 * Z.of_nat n) (ram (machine s)) He) as (C1 & C2 & C3 & C4 & C5).
    rewrite Rcf, C1, Ra, C2. change (u32 SMAP =? SMAP) with true. cbn [negb]. apply wp_bind.
    unfold wp at 1, movl, modify. rewrite Rb, C3, u32_small by (apply (bm_tok _ _ B); lia). rewrite Hsi.
    set (s2 := set_gpr _ s1).
    assert (gpr s2 ESI = Z.of_nat (S n)) as Hsi2.
    { cbn [s2 gpr set_gpr]. rewrite fn_lookup_insert. unfold MMAP_ADDR in Hfit. rewrite u32_small by lia. lia. }
    assert (stored (S n) (ram (machine s0)) (ram (machine s2))) as St2.
    { cbn [s2 machine set_gpr]. rewrite Rm, C5. by apply stored_step. }
    destruct (Z.eqb_spec (tok (S n)) 0) as [Hz|Hz]; cbn [negb].
    + assert (S n = length recs) as El.
      { destruct (decide (S n = length recs)); [done|]. destruct (bm_more _ _ B (S n)); [lia|done]. }
      apply wp_ret. unfold detected. rewrite <- El. split; [done|]. split; [done|]. exists (ram (machine s2)). done.
    + apply (IH (S n)); [lia|lia| |by right|done|done]. destruct F1 as (Fs & _). constructor; cbn [s2 gpr set_gpr seg].
      * rewrite Fs. apply A.
      * rewrite fn_lookup_insert_ne by done. exact Hdi.
      * rewrite fn_lookup_insert_ne by done. rewrite Rb, C3. apply u32_small, (bm_tok _ _ B). lia.
      * rewrite fn_lookup_insert_ne by done. by rewrite Rd, C4.
      * exact Hsi2.
Qed.

Lemma detect_memory_ok s : seg s ES = 0 → wp detect_memory (λ _, detected s) s.
Proof.
  intros Hes. unfold detect_memory. do 4 (apply wp_bind; eapply wp_eq; [reflexivity|]).
  apply (detect_ok (length recs) O); [done| | |by left|done|].
  - unfold MMAP_ADDR in Hfit. unfold record_max. lia.
  - constructor; cbn [gpr seg set_gpr].
    + exact Hes.
    + rewrite !fn_lookup_insert_ne by done. rewrite fn_lookup_insert. by rewrite low_word.
    + rewrite !fn_lookup_insert_ne by done. rewrite fn_lookup_insert. by rewrite (bm_first _ _ B).
    + rewrite fn_lookup_insert_ne by done. by rewrite fn_lookup_insert.
    + by rewrite fn_lookup_insert.
  - constructor; [lia|done].
Qed.
End detect.

Lemma low_byte x v : u8 (x / 2 ^ 8 * 2 ^ 8 + u8 v) = u8 v.
Proof. unfold u8. rewrite Z.add_comm, Z.mod_add, Z.mod_mod by done. done. Qed.

Lemma enable_a20_ok s :
  ready_8042 → wp enable_a20 (λ _ s', intr s' = false ∧ seg s' ES = 0 ∧ cr0 s' = cr0 s ∧ gdtr s' = gdtr s ∧
    outs s' = (0x60, 0xdf) :: (0x64, 0xd1) :: outs s ∧ machine s' = machine s) s.
Proof.
  intros Hr. unfold enable_a20. do 5 (apply wp_bind; eapply wp_eq; [reflexivity|]).
  apply wp_bind. eapply wp_mono; [apply (wait_ok _ Hr)|]. intros [] s1 ((Fs1 & Fi1 & Fc1 & Fg1 & Fo1 & _) & Fm1).
  do 2 (apply wp_bind; eapply wp_eq; [reflexivity|]).
  apply wp_bind. eapply wp_mono; [apply (wait_ok _ Hr)|]. intros [] s2 ((Fs2 & Fi2 & Fc2 & Fg2 & Fo2 & _) & Fm2).
  do 2 (apply wp_bind; eapply wp_eq; [reflexivity|]).
  eapply wp_mono; [apply (wait_ok _ Hr)|]. intros [] s3 ((Fs3 & Fi3 & Fc3 & Fg3 & Fo3 & _) & Fm3).
  cbn [gpr set_gpr seg set_seg outs set_outs cr0 gdtr intr set_intr machine] in *.
  rewrite fn_lookup_insert, low_byte in Fo2, Fo3.
  rewrite Fi3, Fi2, Fi1, Fs3, Fs2, Fs1, Fc3, Fc2, Fc1, Fg3, Fg2, Fg1, Fo3, Fo2, Fo1, Fm3, Fm2, Fm1. split_and!; try done.
  rewrite fn_lookup_insert_ne, fn_lookup_insert by done. rewrite fn_lookup_insert. by rewrite low_word.
Qed.

(** The machine [bootmain] is called on. *)
Record entered (recs : list (list byte)) (writes : list (Z * Z)) (s s' : bstate) : Prop := {
  en_intr : intr s' = false;
  en_cr0 : cr0 s' = Z.lor (cr0 s) 1;
  en_gdtr : gdtr s' = (gdt_addr, 23);
  en_segs : seg s' CS = 8 ∧ ∀ r, r ≠ CS → seg s' r = 16;
  en_esp : gpr s' ESP = boot_entry_addr;
  en_outs : outs s' = writes ++ outs s;
  en_dev : dev (machine s') = dev (machine s);
  en_count : rd32 (ram (machine s')) (MMAP_ADDR - 4) = Z.of_nat (length recs);
  en_recs i e : recs !! i = Some e → load_bytes (ram (machine s')) (MMAP_ADDR + 24 * Z.of_nat i) (length e) = e;
  en_mem x : x < MMAP_ADDR - 4 ∨ MMAP_ADDR + 24 * (Z.of_nat (length recs) + 1) ≤ x → ram (machine s') x = ram (machine s) x;
}.

Lemma protected_ok recs s s1 :
  0 ≤ cr0 s < 2 ^ 32 → 0 ≤ boot_entry_addr < 2 ^ 32 → MMAP_ADDR + 24 * (Z.of_nat (length recs) + 1) ≤ 2 ^ 16 →
  (∀ e, e ∈ recs → (length e ≤ 24)%nat) → intr s = false → detected recs s s1 →
  wp enter_protected_mode (λ _, entered recs [] s) s1.
Proof.
  intros Hcr Hb Hfit Hlen Hi (Hn & (Fs & Fi & Fc & Fg & Fo & Fd) & m & [Hm1 Hm2] & Hm3). unfold enter_protected_mode.
  do 13 (apply wp_bind; eapply wp_eq; [reflexivity|]). eapply wp_eq; [reflexivity|]. unfold MMAP_ADDR in *.
  constructor; cbn [intr cr0 gdtr seg gpr outs machine dev ram set_gpr set_seg set_cr0 set_gdtr set_machine set_ram].
  - by rewrite Fi.
  - rewrite !fn_lookup_insert, Fc. rewrite (u32_small (cr0 s)) by done. unfold u32.
    rewrite <- Z.land_ones, Z.land_lor_distr_l, !Z.land_ones, !Z.mod_small by done. done.
  - done.
  - rewrite !fn_lookup_insert. split; [by rewrite !fn_lookup_insert_ne, fn_lookup_insert by done|].
    intros r Hr. rewrite !low_word. by destruct r.
  - rewrite fn_lookup_insert_ne, fn_lookup_insert by done. by apply u32_small.
  - done.
  - exact Fd.
  - rewrite fn_lookup_insert. rewrite !fn_lookup_insert_ne by done. rewrite Hn.
    change (u32 0x7e00 - 4) with (0x7e00 - 4). rewrite rdn_wrn_eq. apply Z.mod_small. cbn. lia.
  - intros i e He. pose proof (Hlen e (list_elem_of_lookup_2 _ _ _ He)) as Hl. pose proof (lookup_lt_Some _ _ _ He) as Hlt.
    rewrite <- (Hm1 i e Hlt He) at 2. apply load_bytes_ext. intros x Hx. rewrite fn_lookup_insert.
    rewrite wrn_out by (change (u32 0x7e00 - 4) with 0x7dfc; lia). apply Hm3. lia.
  - intros x Hx. unfold MMAP_ADDR in Hx. rewrite fn_lookup_insert. change (u32 0x7e00 - 4) with 0x7dfc. rewrite wrn_out by lia.
    rewrite Hm3 by lia. apply Hm2. lia.
Qed.

Lemma boot_entry_ok recs tok s :
  ready_8042 → bios_map recs tok → MMAP_ADDR + 24 * (Z.of_nat (length recs) + 1) ≤ 2 ^ 16 →
  0 ≤ cr0 s < 2 ^ 32 → 0 ≤ boot_entry_addr < 2 ^ 32 →
  wp boot_entry (λ _, entered recs [(0x60, 0xdf); (0x64, 0xd1)] s) s.
Proof.
  intros Hr B Hfit Hcr Hb. unfold boot_entry. apply wp_bind. eapply wp_mono; [by apply enable_a20_ok|].
  intros [] s1 (Hi & Hes & Hc & Hg & Ho & Hm). apply wp_bind.
  eapply wp_mono; [by apply (detect_memory_ok recs tok B Hfit s1 Hes)|]. intros [] s2 Hd.
  eapply wp_mono; [apply (protected_ok recs s1 s2); try done; [by rewrite Hc|apply B]|].
  intros [] s3 [E1 E2 E3 E4 E5 E6 E7 E8 E9 E10]. constructor; try done.
  - by rewrite E2, Hc.
  - by rewrite E6, Ho.
  - by rewrite E7, Hm.
  - intros x Hx. by rewrite E10, Hm.
Qed.

(** ** The whole sector *)

Context `{!AtaLaws D poll_max}.

End boot.

(** ** An instance *)

(** Two records; the service refuses a third one. *)
Definition demo_records : list (list byte) :=
  [ LittleEndianList.le_split 24 (0x9fc00 * 2 ^ 64 + 2 ^ 128); LittleEndianList.le_split 20 (0x100000 + 0x7ee0000 * 2 ^ 64 + 2 ^ 128) ].

Definition demo_int15 (eax ebx ecx edx buf : Z) (m : mem) : bios_out :=
  match demo_records !! Z.to_nat ebx with
  | Some e => BiosOut false SMAP (ebx + 1) (Z.of_nat (length e)) edx (store_bytes m buf e)
  | None => BiosOut true eax ebx ecx edx m
  end.

Definition demo_bios : bstate (D := drive) :=
  BState (λ _, 0) (λ _, 0) false true 0x10 (0, 0) [] 0 (AState demo_boot_drive (λ _, Byte.x00)).

Lemma demo_bios_map : bios_map demo_int15 demo_records Z.of_nat.
Proof.
  constructor.
  - intros e He. unfold demo_records in He. rewrite !elem_of_cons, elem_of_nil in He.
    destruct He as [-> |[-> |[]]]; rewrite LittleEndianList.length_le_split; lia.
  - done.
  - cbn. lia.
  - intros i Hi. lia.
  - intros i e buf m He o. unfold o, demo_int15. rewrite Nat2Z.id, He. cbn. split_and!; try done. lia.
  - right. intros buf m. done.
Qed.

End BootEntry.
