(* ===== verification/Loader.v ===== *)
(** The second-stage loader: kernel/loader/loader.c with loader/config.h.

    The loader runs in 32-bit protected mode without paging, so a pointer is a
    physical address.  Its state has the memory manager of Map.v in the 32-bit
    build, the disk, the loader's variables and the control registers that
    [loader_enter_long_mode] sets.  The addresses [end] and [boot_stack] come from the
    linker.  [struct page] objects are the counters and links of Map.v; every
    other object (ELF header, GDT, PML4, [kernel_config], BIOS map) is bytes in
    memory. *)

From Stdlib Require Import String.
From S2P Require Import Prelude Memory Queue Mmu Console Terminal Map Ata Gdt.
Import Mmu Map Ata.

Module Loader.

Definition BOOT_MMAP_ADDR : Z := 0x7e00.
Definition KERNEL_BASE_DISK_SECTOR : Z := 2048.
Definition MEMORY_TYPE_FREE : Z := 1.
Definition NGDT_ENTRIES : Z := 5.
Definition CPU_MAX_CNT : Z := 32.
Definition ELF_MAGIC : Z := 0x464C457F.

Definition SIZEOF_MMAP_ENTRY : Z := 24.
Definition SIZEOF_ELF64_HEADER : Z := 64.
Definition SIZEOF_PHEADER64 : Z := 56.
Definition SIZEOF_CONFIG : Z := 32.
Definition SIZEOF_DESCRIPTOR : Z := 8.
Definition SIZEOF_DESCRIPTOR64 : Z := 16.

(** [struct bios_mmap_entry], entry [i] of the map at [mm]. *)
Record bios_mmap_entry := MmapEntry { base_addr : Z; addr_len : Z; type : Z }.

Definition mmap_entry (m : mem) (mm i : Z) : bios_mmap_entry :=
  let a := mm + SIZEOF_MMAP_ENTRY * i in MmapEntry (rd64 m a) (rd64 m (a + 8)) (rd32 m (a + 16)).

(** ROUND_UP at type uint32_t. *)
Definition ROUND_UP32 (addr align : Z) : Z := ROUND_DOWN (u32 (addr + align - 1)) align.

(** The control registers; [lgdt] is the descriptor table register. *)
Record cregs := CRegs { cr0 : Z; cr3 : Z; cr4 : Z; efer : Z; lgdt : option (Z * Z) }.

Section loader.
Context {D : Type} `{!AtaDevice D} (poll_max : nat).
(** Linker symbols: the end of the loader's image and its stack. *)
Context (end_ boot_stack : Z).

Record lstate := LState {
  lm : mstate Term.terminal;
  ldev : D;
  max_physical_address : Z;
  free_memory : Z;
  lpages : Z;             (* pages *)
  lpages_cnt : Z;         (* pages_cnt *)
  lpml4 : Z;              (* pml4 *)
  lgdt_ptr : Z;           (* gdt *)
  gdtr : Z * Z;           (* base and limit *)
  lconfig : Z;            (* config *)
  regs : cregs;
}.

Definition set_lm v s := LState v (ldev s) (max_physical_address s) (free_memory s) (lpages s) (lpages_cnt s)
  (lpml4 s) (lgdt_ptr s) (gdtr s) (lconfig s) (regs s).
Definition set_max v s := LState (lm s) (ldev s) v (free_memory s) (lpages s) (lpages_cnt s)
  (lpml4 s) (lgdt_ptr s) (gdtr s) (lconfig s) (regs s).
Definition set_free_memory v s := LState (lm s) (ldev s) (max_physical_address s) v (lpages s) (lpages_cnt s)
  (lpml4 s) (lgdt_ptr s) (gdtr s) (lconfig s) (regs s).
Definition set_lpages v s := LState (lm s) (ldev s) (max_physical_address s) (free_memory s) v (lpages_cnt s)
  (lpml4 s) (lgdt_ptr s) (gdtr s) (lconfig s) (regs s).
Definition set_lpages_cnt v s := LState (lm s) (ldev s) (max_physical_address s) (free_memory s) (lpages s) v
  (lpml4 s) (lgdt_ptr s) (gdtr s) (lconfig s) (regs s).
Definition set_lpml4 v s := LState (lm s) (ldev s) (max_physical_address s) (free_memory s) (lpages s) (lpages_cnt s)
  v (lgdt_ptr s) (gdtr s) (lconfig s) (regs s).
Definition set_gdt v w s := LState (lm s) (ldev s) (max_physical_address s) (free_memory s) (lpages s) (lpages_cnt s)
  (lpml4 s) v w (lconfig s) (regs s).
Definition set_config v s := LState (lm s) (ldev s) (max_physical_address s) (free_memory s) (lpages s) (lpages_cnt s)
  (lpml4 s) (lgdt_ptr s) (gdtr s) v (regs s).
Definition set_regs v s := LState (lm s) (ldev s) (max_physical_address s) (free_memory s) (lpages s) (lpages_cnt s)
  (lpml4 s) (lgdt_ptr s) (gdtr s) (lconfig s) v.

Definition liftm {A} (x : M (mstate Term.terminal) A) : M lstate A := zoom lm set_lm x.

(** The disk driver sees the device and physical memory. *)
Definition liftd {A} (x : M (astate D) A) : M lstate A := λ s,
  match x (AState (ldev s) (phys (lm s))) with
  | Ok (a, d) => Ok (a, LState (set_phys (ram d) (lm s)) (dev d) (max_physical_address s) (free_memory s)
      (lpages s) (lpages_cnt s) (lpml4 s) (lgdt_ptr s) (gdtr s) (lconfig s) (regs s))
  | Err e => Err e
  end.

Definition lprintf (fmt : string) (ap : list arg) : M lstate () := liftm (terminal_printf fmt ap).

(** Loads and stores through a pointer. *)
Definition gmem {A} (f : mem → A) : M lstate A := gets (λ s, f (phys (lm s))).
Definition wmem (f : mem → mem) : M lstate () := liftm (modify (λ s, set_phys (f (phys s)) s)).

Definition loader_alloc (size align : Z) : M lstate Z :=
  fm ← gets free_memory;
  let ret := ROUND_UP32 fm align in
  modify (set_free_memory (u32 (ret + size))) ;;
  mret ret.

(** ** [loader_read_kernel] *)

Definition e_magic (m : mem) (eh : Z) : Z := rd32 m eh.
Definition e_entry (m : mem) (eh : Z) : Z := rd64 m (eh + 24).
Definition e_phoff (m : mem) (eh : Z) : Z := rd64 m (eh + 32).
Definition e_phnum (m : mem) (eh : Z) : Z := rdn 2 m (eh + 56).
Definition p_offset (m : mem) (ph : Z) : Z := rd64 m (ph + 8).
Definition p_va (m : mem) (ph : Z) : Z := rd64 m (ph + 16).
Definition p_memsz (m : mem) (ph : Z) : Z := rd64 m (ph + 40).

Definition ELF64_PHEADER_FIRST (m : mem) (eh : Z) : Z := u32 (eh + e_phoff m eh).
Definition ELF64_PHEADER_LAST (m : mem) (eh : Z) : Z :=
  u32 (ELF64_PHEADER_FIRST m eh + SIZEOF_PHEADER64 * e_phnum m eh).

Definition load_kernel_segment (ph : Z) : M lstate Z :=
  wmem (λ m, wr64 m (ph + 16) (Z.land (p_va m ph) 0xFFFFFFFF)) ;;
  lba ← gmem (λ m, u32 (p_offset m ph / ATA_SECTOR_SIZE + KERNEL_BASE_DISK_SECTOR));
  va ← gmem (λ m, p_va m ph);
  size ← gmem (λ m, p_memsz m ph);
  r ← liftd (disk_io_read_segment poll_max (u32 va) (u32 size) lba);
  if negb (r =? 0) then
    lprintf "Can't read segment `%u'" [AInt lba] ;; mret (-1)
  else
    fm ← gets free_memory;
    last ← gmem (λ m, u64 (p_va m ph + p_memsz m ph));
    (if PADDR loader32 fm <? PADDR loader32 last
     then modify (set_free_memory (u32 last)) else mret ()) ;;
    mret 0.

Fixpoint load_kernel_segments (fuel : nat) (eh ph : Z) : M lstate Z :=
  last ← gmem (λ m, ELF64_PHEADER_LAST m eh);
  if ph <? last then
    match fuel with
    | O => fail EFuel
    | S fuel' =>
        r ← load_kernel_segment ph;
        if negb (r =? 0) then mret (-1) else load_kernel_segments fuel' eh (u32 (ph + SIZEOF_PHEADER64))
    end
  else mret 0.

(** [e_phnum] has 16 bits. *)
Definition pheader_max : nat := Z.to_nat 65536.

(** The entry point, or [None] for the return value -1. *)
Definition loader_read_kernel : M lstate (option Z) :=
  elf_header ← loader_alloc SIZEOF_ELF64_HEADER PAGE_SIZE;
  r ← liftd (disk_io_read_segment poll_max elf_header ATA_SECTOR_SIZE KERNEL_BASE_DISK_SECTOR);
  if negb (r =? 0) then lprintf ("Can't read elf header" ++ nl) [] ;; mret None
  else
    magic ← gmem (λ m, e_magic m elf_header);
    if negb (magic =? ELF_MAGIC) then
      lprintf "Invalid elf format, magic mismatch (%u)" [AInt magic] ;; mret None
    else
      first ← gmem (λ m, ELF64_PHEADER_FIRST m elf_header);
      r ← load_kernel_segments pheader_max elf_header first;
      if negb (r =? 0) then mret None
      else entry ← gmem (λ m, e_entry m elf_header); mret (Some entry).

(** ** [loader_detect_memory] *)

(** One entry of the BIOS map. *)
Definition detect_entry (max : Z) (e : bios_mmap_entry) : Z :=
  if negb (type e =? MEMORY_TYPE_FREE) then max
  else if u64 (base_addr e + addr_len e) <? max then max
  else u64 (base_addr e + addr_len e).

Definition mmap_entries (m : mem) (mm cnt : Z) : list bios_mmap_entry := mmap_entry m mm <$> zseq 0 (Z.to_nat cnt).

Definition loader_detect_memory (mm cnt : Z) : M lstate () :=
  es ← gmem (λ m, mmap_entries m mm cnt);
  modify (set_max (foldl detect_entry 0 es)) ;;
  modify (λ s, set_lpages_cnt (ROUND_DOWN (max_physical_address s) PAGE_SIZE / PAGE_SIZE) s) ;;
  s ← get;
  lprintf ("Available memory: %u Kb (%u pages)" ++ nl)
    [AInt (u32 (max_physical_address s / 1024)); AInt (u32 (lpages_cnt s))].

(** ** [page_is_available] *)

(** The loop reads [mm->] in every iteration, that is entry 0. *)
Definition page_is_available (m : mem) (fm paddr mm cnt : Z) : bool :=
  if paddr =? 0 then false
  else if (APIC_BASE_PA <=? paddr) && (paddr <? APIC_BASE_PA + PAGE_SIZE) then false
  else if (IOAPIC_BASE_PA <=? paddr) && (paddr <? IOAPIC_BASE_PA + PAGE_SIZE) then false
  else if (end_ <=? paddr) && (paddr <? fm) then false
  else foldl (λ av (_ : Z),
    let e := mmap_entry m mm 0 in
    if paddr <? base_addr e then av
    else if u64 (base_addr e + addr_len e) <=? u64 (paddr + PAGE_SIZE) then av
    else av && (type e =? MEMORY_TYPE_FREE)) true (zseq 0 (Z.to_nat cnt)).

(** ** [loader_init_gdt] *)

Definition store_descriptor (gdt i : Z) (d : Gdt.descriptor) : M lstate () :=
  wmem (λ m, wr32 (wr32 m (gdt + 8 * i) (Gdt.seg_a d)) (gdt + 8 * i + 4) (Gdt.seg_b d)).

Definition flags (l : list Z) : Z := foldl Z.lor 0 l.

Definition loader_init_gdt : M lstate Z :=
  let gdt_size := u16 (SIZEOF_DESCRIPTOR * NGDT_ENTRIES + SIZEOF_DESCRIPTOR64 * CPU_MAX_CNT) in
  gdt ← loader_alloc gdt_size 16;
  modify (λ s, set_gdt (lgdt_ptr s) (gdt, gdt_size - 1) s) ;;
  store_descriptor gdt 0 (Gdt.SEGMENT_DESC 0 0 0) ;;
  store_descriptor gdt (Z.shiftr Gdt.GD_KT 3)
    (Gdt.SEGMENT_DESC (flags [Gdt.USF_L; Gdt.USF_P; Gdt.DPL_S; Gdt.USF_S; Gdt.UST_X]) 0 0) ;;
  store_descriptor gdt (Z.shiftr Gdt.GD_KD 3)
    (Gdt.SEGMENT_DESC (flags [Gdt.USF_P; Gdt.USF_S; Gdt.DPL_S; Gdt.UST_W]) 0 0) ;;
  store_descriptor gdt (Z.shiftr Gdt.GD_UT 3)
    (Gdt.SEGMENT_DESC (flags [Gdt.USF_L; Gdt.USF_P; Gdt.DPL_U; Gdt.USF_S; Gdt.UST_X]) 0 0) ;;
  store_descriptor gdt (Z.shiftr Gdt.GD_UD 3)
    (Gdt.SEGMENT_DESC (flags [Gdt.USF_P; Gdt.USF_S; Gdt.DPL_U; Gdt.UST_W]) 0 0) ;;
  mret gdt.

(** ** [loader_map_section] *)

(** The body of the loop: page [i] bytes into the section.  [Some r] returns. *)
Definition map_page (pml4 va_aligned pa : Z) (hard : bool) (i : Z) : M (mstate Term.terminal) (option Z) :=
  pte ← mmap_lookup pml4 (u64 (va_aligned + i)) true;
  match pte with
  | None => mret (Some (-1))
  | Some a =>
      e ← kread a;
      massert (negb (has_flag e PTE_P)) ;;
      kwrite a (Z.lor (Z.lor (PTE_ADDR (pa + i)) PTE_P) PTE_W) ;;
      let page := pa2page (PTE_ADDR (pa + i)) in
      ref ← get_ref page;
      if negb (ref =? 0) then mret None
      else
        page_incref page ;;
        (if hard then
           s ← get;
           q ← deref (Lst.LIST_REMOVE page (free s));
           modify (set_free (Lst.set_entry page Lst.null_entry q))
         else mret ()) ;;
        mret None
  end.

Definition loader_map_section (va pa len : Z) (hard : bool) : M lstate Z :=
  let va_aligned := ROUND_DOWN va PAGE_SIZE in
  let len_aligned := ROUND_UP len PAGE_SIZE in
  pml4 ← gets lpml4;
  r ← liftm (mfor_ret (zseq 0 (Z.to_nat (len_aligned / PAGE_SIZE)))
        (λ n, map_page pml4 va_aligned pa hard (n * PAGE_SIZE)));
  mret (default 0 r).

(** ** [loader_init_memory] *)

(** [memset(pages, 0, SIZEOF_PAGE64 * cnt)]: the bytes, and the objects in them. *)
Definition clear_pages (pgs cnt : Z) : M lstate () :=
  wmem (λ m, mem_fill m pgs Byte.x00 (SIZEOF_PAGE64 * cnt)) ;;
  liftm (modify (λ s, set_refs (λ p, if (0 <=? p) && (p <? cnt) then 0 else refs s p) s)).

(** An empty list and [cnt] cleared links. *)
Definition empty_list : Lst.queue := Lst.Queue None (λ _, Lst.null_entry).

(** Page [i]: reserve it or put it at the head of the free list. *)
Definition init_page (mm cnt i : Z) : M lstate () :=
  s ← get;
  if negb (page_is_available (phys (lm s)) (free_memory s) (i * PAGE_SIZE) mm cnt)
  then liftm (set_ref i 1)
  else liftm (page_at i ;; modify (λ s, set_free (Lst.LIST_INSERT_HEAD i (free s)) s)).

(** Run [m]; when it fails return -1, otherwise go on. *)
Definition orfail (m : M lstate Z) (k : M lstate Z) : M lstate Z :=
  r ← m; if negb (r =? 0) then mret (-1) else k.

Definition loader_init_memory (mm cnt : Z) : M lstate Z :=
  config ← loader_alloc SIZEOF_CONFIG PAGE_SIZE;
  modify (set_config config) ;;
  wmem (λ m, mem_fill m config Byte.x00 SIZEOF_CONFIG) ;;
  gdt ← loader_init_gdt;
  modify (λ s, set_gdt gdt (gdtr s) s) ;;
  pml4 ← loader_alloc PAGE_SIZE PAGE_SIZE;
  modify (set_lpml4 pml4) ;;
  wmem (λ m, mem_fill m pml4 Byte.x00 PAGE_SIZE) ;;
  n ← gets lpages_cnt;
  pgs ← loader_alloc (SIZEOF_PAGE64 * n) PAGE_SIZE;
  modify (set_lpages pgs) ;;
  clear_pages pgs n ;;
  wmem (λ m, wr64 m (config + 16) n) ;;
  wmem (λ m, wr32 m (config + 8) pgs) ;;
  wmem (λ m, wr32 m config pml4) ;;
  wmem (λ m, wr32 m (config + 24) gdt) ;;
  liftm (mmap_init pgs n empty_list) ;;
  mfor (zseq 0 (Z.to_nat n)) (init_page mm cnt) ;;
  orfail (loader_map_section (KERNEL_STACK_TOP - KERNEL_STACK_SIZE) boot_stack KERNEL_STACK_SIZE true) (
  orfail (loader_map_section KERNEL_INFO config PAGE_SIZE true) (
  orfail (loader_map_section APIC_BASE APIC_BASE_PA PAGE_SIZE true) (
  orfail (loader_map_section IOAPIC_BASE IOAPIC_BASE_PA PAGE_SIZE true) (
  fm ← gets free_memory;
  orfail (loader_map_section 0 0 fm true) (
  max ← gets max_physical_address;
  orfail (loader_map_section KERNEL_BASE 0 (ROUND_DOWN max PAGE_SIZE) false) (
  mret 0)))))).

(** ** [loader_enter_long_mode] *)

Definition upd_regs (f : cregs → cregs) : M lstate () := modify (λ s, set_regs (f (regs s)) s).

(** [btsl $n, %eax]. *)
Definition bts (n v : Z) : Z := Z.lor v (Z.shiftl 1 n).

(** The result is the address [entry_long_mode_asm] jumps to. *)
Definition loader_enter_long_mode (kernel_entry_point : Z) : M lstate Z :=
  s ← get;
  upd_regs (λ r, CRegs (cr0 r) (cr3 r) (cr4 r) (efer r) (Some (gdtr s))) ;;
  upd_regs (λ r, CRegs (cr0 r) (cr3 r) (bts 5 (cr4 r)) (efer r) (lgdt r)) ;;
  upd_regs (λ r, CRegs (cr0 r) (PADDR loader32 (lpml4 s)) (cr4 r) (efer r) (lgdt r)) ;;
  upd_regs (λ r, CRegs (cr0 r) (cr3 r) (cr4 r) (bts 8 (efer r)) (lgdt r)) ;;
  upd_regs (λ r, CRegs (bts 31 (cr0 r)) (cr3 r) (cr4 r) (efer r) (lgdt r)) ;;
  mret kernel_entry_point.

(** [loader_panic]: print, then spin. *)
Definition loader_panic {A} (fmt : string) (ap : list arg) : M lstate A := lprintf fmt ap ;; fail EPanic.

(** The address the kernel is entered at, or [None] when loading stops. *)
Definition loader_main : M lstate (option Z) :=
  let mm := BOOT_MMAP_ADDR in
  cnt ← gmem (λ m, rd32 m (BOOT_MMAP_ADDR - 4));
  liftm (zoom con set_con Term.terminal_init) ;;
  let something_bad := lprintf ("Stop loading, hang" ++ nl) [] ;; mret None in
  entry ← loader_read_kernel;
  match entry with
  | None => something_bad
  | Some kernel_entry_point =>
      loader_detect_memory mm cnt ;;
      r ← loader_init_memory mm cnt;
      if negb (r =? 0) then something_bad
      else a ← loader_enter_long_mode kernel_entry_point; mret (Some a)
  end.

End loader.
Arguments lstate : clear implicits.
End Loader.
