(* ===== verification/LoaderProofs.v ===== *)
(** [loader_map_section] builds the kernel's address space.

    While the loader runs, a page is either in the free list (its counter is 0,
    or 1 when the linear map already covers it) or in use with counter 1
    ([boot_refs]); kernel.c relies on it when it takes over the page array. *)

From Stdlib Require Import String.
From S2P Require Import Prelude Memory Queue Mmu Console Terminal Map AllocProofs Walk MapWf.
From S2P Require Import LookupProofs InsertProofs KmapProofs Ata Gdt Loader.
Import Mmu Map Loader.

(** ** Page numbers of virtual addresses *)

Definition page_no (va : Z) : Z := (u64 va / 4096) mod 2 ^ 36.

Lemma page_no_path va :
  page_no va = ((PML4_IDX va * 512 + PDP_IDX va) * 512 + PD_IDX va) * 512 + PT_IDX va.
Proof.
  unfold page_no. rewrite PML4_IDX_alt, PDP_IDX_alt, PD_IDX_alt, PT_IDX_alt.
  set (x := u64 va). change (2 ^ 39) with (4096 * 512 * 512 * 512). change (2 ^ 30) with (4096 * 512 * 512).
  change (2 ^ 21) with (4096 * 512). change (2 ^ 12) with 4096. rewrite <- !Z.div_div by lia.
  set (y := x / 4096). dlia.
Qed.

Lemma full_path_page va va' : full_path va = full_path va' ↔ page_no va = page_no va'.
Proof.
  rewrite !page_no_path. unfold full_path, table_path. cbn [app].
  pose proof (PML4_IDX_range va). pose proof (PDP_IDX_range va). pose proof (PD_IDX_range va). pose proof (PT_IDX_range va).
  pose proof (PML4_IDX_range va'). pose proof (PDP_IDX_range va'). pose proof (PD_IDX_range va'). pose proof (PT_IDX_range va').
  split; [intros [= -> -> -> ->]; done|]. intros E. f_equal; [|f_equal; [|f_equal; [|f_equal]]]; lia.
Qed.

Section map.
Context (K : Z).
Implicit Types (s : mstate Term.terminal) (g : ghost).

Definition boot_refs s g : Prop :=
  ∀ d, in_range s d → (d ∈ fl g → 0 ≤ refs s d ≤ 1) ∧ (d ∉ fl g → refs s d = 1).

(** Creating tables keeps the counters as they should be. *)
Lemma boot_refs_ext s g s' g' : wf K s g → ext K s g s' g' → boot_refs s g → boot_refs s' g'.
Proof.
  intros W E B d Hd. unfold in_range in Hd. rewrite (ext_cnt _ _ _ _ _ E) in Hd. destruct (B d Hd) as [B1 B2].
  destruct (ext_fl _ _ _ _ _ E) as [nw F]. split.
  - intros Hin. rewrite (ext_frefs _ _ _ _ _ E d Hin). apply B1. rewrite F. set_solver.
  - intros Hn. destruct (decide (d ∈ fl g)) as [Hin|Hin].
    + destruct (ext_used _ _ _ _ _ E d Hin Hn) as [l Hl]. by apply (wf_lab _ _ _ (ext_wf _ _ _ _ _ E) d l).
    + rewrite (ext_refs _ _ _ _ _ E d Hin). auto.
Qed.

(** A page number outside the array. *)
Lemma get_ref_out s p : ¬ in_range s p → get_ref p s = Err EUndef.
Proof.
  intros H. unfold get_ref, page_at, mbind, M_bind, get, in_range in *.
  destruct ((0 <=? p) && (p <? pages_cnt s)) eqn:E; [bools; lia|done].
Qed.

(** The kernel's tables are found by their paths. *)
Lemma kernel_path s g va f :
  wf K s g → lab g K = Some (Lab K []) → walk (entry_at (phys s)) K (table_path va) = Some f →
  lab g f = Some (Lab K (table_path va)).
Proof.
  intros W HK Hw. rewrite (walk_label K s g K (Lab K []) (table_path va) f W HK ltac:(cbn; lia) (table_path_ok va) Hw).
  assert (∀ p l, l_owner l = K → l_owner (descend K l p) = K) as Ho.
  { induction p as [|i p IH]; intros l Hl; [done|]. apply IH. by apply child_kernel. }
  pose proof (descend_path K (Lab K []) (table_path va)) as Hp. specialize (Ho (table_path va) (Lab K []) eq_refl).
  destruct (descend K (Lab K []) (table_path va)) as [o q]. cbn in *. by subst.
Qed.

(** The state after page [p] was mapped at [va] in the kernel's tables. *)
Record kmapped s g (va p : Z) (hard : bool) s' g' : Prop := {
  km_wf : wf K s' g';
  km_K : lab g' K = Some (Lab K []);
  km_boot : boot_refs s' g';
  km_bld : bld s' = bld s;
  km_cnt : pages_cnt s' = pages_cnt s;
  km_free d : d ∈ fl g' → d ∈ fl g;
  km_none d : lab g d = None → d ∉ fl g → lab g' d = None;
  km_tr : translate (phys s') K va = Some (p * 4096 + 3);
  km_other va' : page_no va' ≠ page_no va → translate (phys s') K va' = translate (phys s) K va';
  km_hard : hard = true → (p ∈ fl g → refs s p = 0) → p ∉ fl g';
  km_mem x : lab g (x / 4096) = None → x / 4096 ∉ fl g → phys s' x = phys s x;
}.

(** Storing the entry, after the tables were found. *)
Lemma store_entry s g va f p :
  wf K s g → lab g K = Some (Lab K []) → walk (entry_at (phys s)) K (table_path va) = Some f → in_range s p →
  let m := wr64 (phys s) (f * 4096 + 8 * PT_IDX va) (p * 4096 + 3) in
  wf K (set_phys m s) g ∧ translate m K va = Some (p * 4096 + 3) ∧
  (∀ va', page_no va' ≠ page_no va → translate m K va' = translate (phys s) K va') ∧
  (∀ x, lab g (x / 4096) = None → m x = phys s x).
Proof.
  intros W HK Hw Hp m. pose proof (kernel_path s g va f W HK Hw) as Hf.
  pose proof (build_bound s p (wf_build _ _ _ W) Hp) as (B1 & B2 & B3 & B4).
  assert (0 ≤ p * 4096 + 3 < 2 ^ 64) as Hv by lia.
  assert (present (p * 4096 + 3) = true) as P by (by apply present_mk).
  split; [by apply (kleaf_wf K s g f (PT_IDX va) _ (table_path va) W Hf eq_refl), PT_IDX_range|].
  assert (∀ va', translate m K va' =
    if decide (walk (entry_at (phys s)) K (table_path va') = Some f ∧ PT_IDX va' = PT_IDX va)
    then Some (p * 4096 + 3) else translate (phys s) K va') as Ht.
  { intros va'. unfold m. rewrite (kleaf_translate K s g f (PT_IDX va) _ (table_path va) W Hf eq_refl (PT_IDX_range va) K K va' HK Hv).
    by rewrite P. }
  split; [rewrite Ht, decide_True by done; done|]. split.
  - intros va' Hne. rewrite Ht. rewrite decide_False; [done|]. intros [Hw' Hi]. apply Hne, full_path_page.
    pose proof (kernel_path s g va' f W HK Hw') as Hf'. unfold full_path. rewrite Hi. congruence.
  - intros x Hx. unfold m. apply wr64_out. assert (x / 4096 ≠ f) by congruence. pose proof (PT_IDX_range va). dlia.
Qed.

(** Counting the page, and taking it off the list when it must not be reused. *)
Lemma count_page s g p (hard : bool) :
  wf K s g → boot_refs s g → in_range s p →
  ∃ s' g', (ref ← get_ref p;
      if negb (ref =? 0) then mret None
      else
        page_incref p ;;
        (if hard then
           s ← get;
           q ← deref (Lst.LIST_REMOVE p (free s));
           modify (set_free (Lst.set_entry p Lst.null_entry q))
         else mret ()) ;;
        mret (@None Z)) s = Ok (None, s') ∧
    wf K s' g' ∧ boot_refs s' g' ∧ lab g' = lab g ∧ phys s' = phys s ∧ bld s' = bld s ∧ pages_cnt s' = pages_cnt s ∧
    (∀ d, d ∈ fl g' → d ∈ fl g) ∧ (hard = true → refs s p = 0 → p ∉ fl g').
Proof.
  intros W B Hp. unfold mbind, M_bind. rewrite get_ref_ok by done. destruct (B p Hp) as [B1 B2].
  destruct (Z.eqb_spec (refs s p) 0) as [E|E]; cbn [negb].
  2: { exists s, g. split; [done|]. split_and!; try done. }
  rewrite page_incref_ok by done. rewrite E. change (u32 (0 + 1)) with 1.
  assert (p ∈ fl g) as Hin by (destruct (decide (p ∈ fl g)); [done|]; specialize (B2 n); lia).
  destruct hard.
  - cbn [get]. unfold get. destruct (list_elem_of_split (fl g) p Hin) as (l1 & l2 & F).
    pose proof (proj1 (wf_alloc _ _ _ W)) as Hrep. rewrite F in Hrep.
    destruct (Lst.remove_rep p (free s) l1 l2 Hrep) as (q & Hq & Hrep').
    cbn [free set_refs]. rewrite Hq. cbn [deref mret M_ret]. unfold modify.
    assert (p ∉ l1 ++ l2) as Hpn.
    { pose proof (Lst.lrep_nodup _ _ Hrep) as Hnd. apply NoDup_app in Hnd as (_ & H1 & [H2 _]%NoDup_cons).
      intros [Hx|Hx]%elem_of_app; [|done]. apply (H1 p Hx). by left. }
    eexists _, _. split; [reflexivity|]. split; [|split].
    + apply (unlink_wf K s g p l1 l2 (Lst.set_entry p Lst.null_entry q) (<[p := 1]> (refs s)) W F).
      * by apply lrep_set_entry.
      * intros d Hd. by rewrite fn_lookup_insert_ne.
      * rewrite fn_lookup_insert. lia.
    + intros d Hd. cbn [fl refs set_free set_refs]. destruct (B d Hd) as [B1' B2']. rewrite fn_insert_dec.
      destruct (decide (p = d)) as [<-|Hne]; [split; [done|lia]|].
      split; [intros Hx; apply B1'; rewrite F; set_solver|intros Hx; apply B2'; rewrite F; set_solver].
    + split_and!; try done. cbn [fl]. intros d Hd. rewrite F. set_solver.
  - cbn [mret M_ret]. eexists _, g. split; [reflexivity|]. split; [by apply wf_free_ref|]. split; [|done].
    intros d Hd. cbn [refs set_refs]. destruct (B d Hd) as [B1' B2']. rewrite fn_insert_dec.
    destruct (decide (p = d)) as [<-|Hne]; [split; [lia|done]|done].
Qed.
(** One iteration of the loop. *)
Lemma map_page_ok s g va pa (hard : bool) i :
  wf K s g → lab g K = Some (Lab K []) → boot_refs s g → 0 ≤ pa + i < 2 ^ 63 → in_range s ((pa + i) / 4096) →
  translate (phys s) K (u64 (va + i)) = None →
  wp (map_page (VADDR (bld s) (K * 4096)) va pa hard i) (λ r s', ∃ g',
    (r = Some (-1) ∧ fl g' = [] ∧ ext K s g s' g') ∨
    (r = None ∧ kmapped s g (u64 (va + i)) ((pa + i) / 4096) hard s' g')) s.
Proof.
  intros W HK B Hpa Hp Ht. set (v := u64 (va + i)) in *. set (p := (pa + i) / 4096) in *.
  unfold map_page. fold v. apply wp_bind.
  destruct (mmap_lookup_spec K s g K K v true W HK) as (r & s1 & g1 & Hrun & E & _ & _ & H); [by right; left|].
  eapply wp_eq; [exact Hrun|]. destruct r as [a|]; unfold lookup_post in H.
  2: { destruct H as [_ H]. apply wp_ret. exists g1. left. auto. }
  destruct H as (f & -> & Hw & _). pose proof (ext_wf _ _ _ _ _ E) as W1.
  pose proof (ext_lab _ _ _ _ _ E _ _ HK) as HK1. pose proof (kernel_path s1 g1 v f W1 HK1 Hw) as Hf.
  destruct (wf_lab _ _ _ W1 f _ Hf) as (Hfr & _). pose proof (wf_build _ _ _ W1) as Hb1.
  assert (in_range s1 p) as Hp1 by (unfold in_range; by rewrite (ext_cnt _ _ _ _ _ E)).
  assert (present (entry_at (phys s1) f (PT_IDX v)) = false) as P.
  { rewrite <- (ext_tr _ _ _ _ _ E K K v HK) in Ht. unfold translate, leaf in Ht. rewrite Hw in Ht. cbn in Ht.
    by destruct (present (entry_at (phys s1) f (PT_IDX v))). }
  rewrite <- (ext_bld _ _ _ _ _ E). apply wp_bind. eapply wp_eq; [apply kread_entry; [done|done|apply PT_IDX_range]|].
  apply wp_bind, wp_massert; [by apply negb_true_iff|].
  pose proof (build_bound s1 p Hb1 Hp1) as (B1 & B2 & B3 & B4).
  assert (PTE_ADDR (pa + i) = p * 4096) as EA by (rewrite PTE_ADDR_alt, u64_small by lia; done).
  assert (pa2page (p * 4096) = p) as Epg.
  { rewrite <- (page2pa_ok s1 p Hb1 Hp1). by apply (pa2page_page2pa s1). }
  rewrite EA, Epg, <- Z.lor_assoc. change (Z.lor PTE_P PTE_W) with 3. rewrite mk_entry by lia.
  apply wp_bind. eapply wp_eq; [apply kwrite_entry; [done|done|apply PT_IDX_range]|].
  destruct (store_entry s1 g1 v f p W1 HK1 Hw Hp1) as (W2 & Ht2 & Ho2 & Hm2). set (m := wr64 _ _ _) in *.
  destruct (count_page (set_phys m s1) g1 p hard W2) as (s3 & g3 & Hrun3 & W3 & B3' & Hl3 & Hph3 & Hb3 & Hc3 & Hfl3 & Hh3).
  { intros d Hd. exact (boot_refs_ext s g s1 g1 W E B d Hd). }
  { exact Hp1. }
  eapply wp_eq; [exact Hrun3|]. exists g3. right. split; [done|].
  destruct (ext_fl _ _ _ _ _ E) as [nw F]. constructor.
  - done.
  - by rewrite Hl3.
  - done.
  - rewrite Hb3. exact (ext_bld _ _ _ _ _ E).
  - rewrite Hc3. exact (ext_cnt _ _ _ _ _ E).
  - intros d Hd. rewrite F. apply Hfl3 in Hd. set_solver.
  - intros d Hd Hn. rewrite Hl3. by apply (ext_none _ _ _ _ _ E).
  - by rewrite Hph3.
  - intros va' Hne. rewrite Hph3. cbn [phys set_phys]. rewrite Ho2 by done. by apply (ext_tr _ _ _ _ _ E K K).
  - intros Hh Hz Hin. apply Hfl3 in Hin as Hin1. apply (Hh3 Hh); [|done].
    cbn [refs set_phys]. rewrite (ext_frefs _ _ _ _ _ E p Hin1). apply Hz. rewrite F. set_solver.
  - intros x Hx Hn. rewrite Hph3. cbn [phys set_phys]. rewrite Hm2 by (by apply (ext_none _ _ _ _ _ E)).
    by apply (ext_mem _ _ _ _ _ E).
Qed.
(** ** The loop *)

(** The state after the first [n] pages of a section were mapped. *)
Record mapped_upto s g (va pa : Z) (hard : bool) (n : Z) s' g' : Prop := {
  mu_wf : wf K s' g';
  mu_K : lab g' K = Some (Lab K []);
  mu_boot : boot_refs s' g';
  mu_bld : bld s' = bld s;
  mu_cnt : pages_cnt s' = pages_cnt s;
  mu_free d : d ∈ fl g' → d ∈ fl g;
  mu_none d : lab g d = None → d ∉ fl g → lab g' d = None;
  mu_tr j : 0 ≤ j < n → translate (phys s') K (u64 (va + 4096 * j)) = Some ((pa / 4096 + j) * 4096 + 3);
  mu_other va' : (∀ j, 0 ≤ j < n → page_no va' ≠ page_no (va + 4096 * j)) →
    translate (phys s') K va' = translate (phys s) K va';
  mu_mem x : lab g (x / 4096) = None → x / 4096 ∉ fl g → phys s' x = phys s x;
}.

Lemma page_no_u64 va : page_no (u64 va) = page_no va.
Proof. unfold page_no. rewrite (u64_small (u64 va)) by apply u64_range. done. Qed.

Lemma page_no_div va : page_no va = (va / 4096) mod 2 ^ 36.
Proof.
  unfold page_no, u64. change (2 ^ 64) with (4096 * 2 ^ 52). rewrite Z.rem_mul_r by done.
  rewrite (Z.mul_comm 4096), Z.div_add, Z.div_small, Z.add_0_l by (done || apply Z.mod_pos_bound; done).
  apply Z.mod_mod_divide. by exists (2 ^ 16).
Qed.

Lemma page_no_inj va j j' :
  va mod 4096 = 0 → 0 ≤ j < 2 ^ 36 → 0 ≤ j' < 2 ^ 36 → page_no (va + 4096 * j) = page_no (va + 4096 * j') → j = j'.
Proof.
  intros Ha Hj Hj'. rewrite !page_no_div, !(Z.mul_comm 4096), !Z.div_add by done. generalize (va / 4096). intros x E.
  set (M := 2 ^ 36) in *. assert (M = 68719476736) as EM by done. clearbody M. subst M. dlia.
Qed.

Lemma mapped_step s g va pa hard n s1 g1 s2 g2 :
  va mod 4096 = 0 → 0 ≤ n < 2 ^ 36 → mapped_upto s g va pa hard n s1 g1 →
  kmapped s1 g1 (u64 (va + n * 4096)) ((pa + n * 4096) / 4096) hard s2 g2 →
  mapped_upto s g va pa hard (n + 1) s2 g2.
Proof.
  intros Ha Hn [U1 U2 U3 U4 U5 U6 U7 U8 U9 U10] [M1 M2 M3 M4 M5 M6 M7 M8 M9 _ M11].
  rewrite (Z.mul_comm n 4096) in M8, M9.
  constructor; [done|done|done|congruence|congruence|auto| | | |].
  - intros d Hd Hx. apply M7; [by apply U7|]. intros Hin. by apply Hx, U6.
  - intros j Hj. destruct (decide (j = n)) as [->|Hne].
    + rewrite M8. do 3 f_equal. dlia.
    + rewrite M9; [apply U8; lia|]. rewrite !page_no_u64. intros E. apply Hne. apply (page_no_inj va); lia || done.
  - intros va' Hne. rewrite M9; [apply U9; intros j Hj; apply Hne; lia|]. rewrite page_no_u64. apply Hne. lia.
  - intros x Hx Hn'. rewrite M11; [by apply U10|by apply U7|]. intros Hin. by apply Hn', U6.
Qed.

Lemma map_loop_ok s g va pa (hard : bool) (n : nat) :
  wf K s g → lab g K = Some (Lab K []) → boot_refs s g → va mod 4096 = 0 →
  0 ≤ pa → pa / 4096 + Z.of_nat n ≤ pages_cnt s → Z.of_nat n ≤ 2 ^ 36 →
  (∀ j, 0 ≤ j < Z.of_nat n → translate (phys s) K (u64 (va + 4096 * j)) = None) →
  wp (mfor_ret (zseq 0 n) (λ i, map_page (VADDR (bld s) (K * 4096)) va pa hard (i * PAGE_SIZE))) (λ r s', ∃ g',
    (r = Some (-1) ∧ wf K s' g' ∧ fl g' = []) ∨
    (r = None ∧ mapped_upto s g va pa hard (Z.of_nat n) s' g')) s.
Proof.
  intros W HK B Ha Hpa Hc Hn Hnone.
  apply (wp_mfor_ret _ _ (λ dn s', ∃ g', mapped_upto s g va pa hard (Z.of_nat (length dn)) s' g')).
  - exists g. constructor; try done. cbn [length]. lia.
  - intros dn i rest s1 Hl (g1 & U). apply zseq_split in Hl as [-> Hlt]. rewrite Z.add_0_l.
    set (j := Z.of_nat (length dn)) in *. unfold PAGE_SIZE. rewrite <- (mu_bld _ _ _ _ _ _ _ _ U).
    assert (build_ok s1) as Hb by apply (wf_build _ _ _ (mu_wf _ _ _ _ _ _ _ _ U)).
    assert (in_range s1 ((pa + j * 4096) / 4096)) as Hr.
    { unfold in_range. rewrite (mu_cnt _ _ _ _ _ _ _ _ U), Z.div_add by done. dlia. }
    assert (0 ≤ pa + j * 4096 < 2 ^ 63) as Hb'.
    { pose proof (build_bound s1 _ Hb Hr) as (_ & ? & _ & ?). dlia. }
    eapply wp_mono.
    { apply (map_page_ok s1 g1 va pa hard (j * 4096) (mu_wf _ _ _ _ _ _ _ _ U) (mu_K _ _ _ _ _ _ _ _ U)
        (mu_boot _ _ _ _ _ _ _ _ U) Hb' Hr).
      rewrite (mu_other _ _ _ _ _ _ _ _ U).
      - rewrite (Z.mul_comm j 4096). apply Hnone. lia.
      - intros j' Hj'. rewrite page_no_u64, (Z.mul_comm j 4096). intros E. apply page_no_inj in E; [lia|done|lia|lia]. }
    intros r s2 (g2 & [(-> & F & E)|(-> & M)]).
    + exists g2. left. split; [done|]. split; [exact (ext_wf _ _ _ _ _ E)|done].
    + exists g2. rewrite length_app. cbn [length]. replace (Z.of_nat (length dn + 1)) with (j + 1) by lia.
      apply (mapped_step s g va pa hard j s1 g1); [done|lia|done|done].
  - intros s1 (g1 & U). rewrite zseq_length in U. exists g1. by right.
Qed.
End map.
