(* ===== verification/LoaderTheorems.v ===== *)
(** The correctness theorems of the loader (kernel/loader/loader.c). *)

From Stdlib Require Import String.
From S2P Require Import Prelude Memory Queue Mmu Console Terminal Map AllocProofs Walk MapWf.
From S2P Require Import LookupProofs InsertProofs KmapProofs Ata AtaTheorems Gdt Loader.
From S2P Require Import LoaderProofs.
Import Mmu Map Ata Loader.

Section theorems.
Context {D : Type} `{!AtaDevice D} (end_ : Z).
Implicit Types (s : lstate D) (g : ghost).

(** ** Allocation *)

(** C40: [loader_alloc] returns an aligned block of the given size that starts at
    or after the old [free_memory] and ends at the new one, so consecutive blocks
    never overlap, and at most [align - 1] bytes are lost. *)
Theorem loader_alloc_correct s size align :
  0 < align → 0 ≤ free_memory s → 0 ≤ size → free_memory s + align - 1 + size < 2 ^ 32 →
  ∃ a, loader_alloc size align s = Ok (a, set_free_memory (a + size) s) ∧
    a mod align = 0 ∧ free_memory s ≤ a < free_memory s + align ∧ a + size < 2 ^ 32.
Proof.
  intros Ha Hf Hs Hb. unfold loader_alloc, mbind, M_bind, gets, modify.
  set (x := free_memory s) in *. assert (ROUND_UP32 x align = (x + align - 1) / align * align) as E.
  { unfold ROUND_UP32, ROUND_DOWN. rewrite u32_small by lia. pose proof (Z.div_mod (x + align - 1) align ltac:(lia)). lia. }
  rewrite E. set (q := (x + align - 1) / align).
  assert (q * align ≤ x + align - 1 < q * align + align) as Hq.
  { unfold q. pose proof (Z.div_mod (x + align - 1) align ltac:(lia)).
    pose proof (Z.mod_pos_bound (x + align - 1) align Ha). lia. }
  exists (q * align). rewrite u32_small by lia. split; [done|]. split; [apply Z.mod_mul; lia|]. lia.
Qed.

(** ** The BIOS memory map *)

Definition free_end (e : bios_mmap_entry) : Z := u64 (base_addr e + addr_len e).

Lemma detect_fold es max :
  0 ≤ max → let r := foldl detect_entry max es in
  max ≤ r ∧ (∀ e, e ∈ es → type e = MEMORY_TYPE_FREE → free_end e ≤ r) ∧
  (r = max ∨ ∃ e, e ∈ es ∧ type e = MEMORY_TYPE_FREE ∧ r = free_end e).
Proof.
  revert max. induction es as [|e es IH]; intros max Hm; cbn [foldl].
  - split; [lia|]. split; [intros e He; by apply elem_of_nil in He|by left].
  - assert (max ≤ detect_entry max e ∧ (type e = MEMORY_TYPE_FREE → free_end e ≤ detect_entry max e) ∧
      (detect_entry max e = max ∨ type e = MEMORY_TYPE_FREE ∧ detect_entry max e = free_end e)) as (D1 & D2 & D3).
    { unfold detect_entry, free_end. destruct (Z.eqb_spec (type e) MEMORY_TYPE_FREE); cbn [negb]; [|by auto with lia].
      destruct (Z.ltb_spec (u64 (base_addr e + addr_len e)) max); split_and!; auto with lia. }
    destruct (IH (detect_entry max e) ltac:(lia)) as (H1 & H2 & H3). split; [lia|]. split.
    + intros e' [->|He]%elem_of_cons Hf; [specialize (D2 Hf); lia|auto].
    + destruct H3 as [->|(e' & He' & Hf & ->)].
      * destruct D3 as [->|[Hf ->]]; [by left|right; exists e; split; [by left|done]].
      * right. exists e'. split; [by right|done].
Qed.

(** [loader_detect_memory] sets the end of memory to the highest end of a free
    area of the BIOS map, whatever the order of the areas, and counts the whole
    pages below it. *)
Theorem detect_memory_correct s mm cnt :
  con_ok (con (lm s)) →
  ∃ s', loader_detect_memory mm cnt s = Ok ((), s') ∧ phys (lm s') = phys (lm s) ∧
    let es := mmap_entries (phys (lm s)) mm cnt in
    (∀ e, e ∈ es → type e = MEMORY_TYPE_FREE → u64 (base_addr e + addr_len e) ≤ max_physical_address s') ∧
    (max_physical_address s' = 0 ∨
     ∃ e, e ∈ es ∧ type e = MEMORY_TYPE_FREE ∧ max_physical_address s' = u64 (base_addr e + addr_len e)) ∧
    lpages_cnt s' = max_physical_address s' / 4096.
Proof.
  intros Hc. unfold loader_detect_memory, mbind, M_bind, gmem, gets, modify, get, lprintf, liftm, zoom.
  set (es := mmap_entries _ _ _). set (s2 := set_lpages_cnt _ _).
  destruct (printf_zoom (lm s2) ("Available memory: %u Kb (%u pages)" ++ nl)
    [AInt (u32 (max_physical_address s2 / 1024)); AInt (u32 (lpages_cnt s2))]) as (c & -> & _); [reflexivity|exact Hc|].
  eexists. split; [reflexivity|]. split; [done|]. cbn zeta. destruct (detect_fold es 0 ltac:(lia)) as (H1 & H2 & H3).
  cbn [max_physical_address set_lm lpages_cnt s2 set_lpages_cnt set_max]. split; [done|]. split; [done|].
  unfold ROUND_DOWN, PAGE_SIZE. dlia.
Qed.

(** ** Available pages *)

Lemma fold_and (b : bool) (c : bool) l :
  foldl (λ av (_ : Z), if b then av else av && c) true l = if b then true else bool_decide (l = []) || c.
Proof.
  assert (∀ av, foldl (λ av (_ : Z), if b then av else av && c) av l =
    if b then av else av && (bool_decide (l = []) || c)) as H; [|by rewrite H].
  induction l as [|x l IH]; intros av; cbn [foldl].
  - rewrite bool_decide_true by done. cbn. rewrite andb_true_r. by destruct b.
  - rewrite IH, (bool_decide_false (x :: l = [])) by done. cbn [orb].
    destruct b; [done|]. destruct av, c, (bool_decide (l = [])); done.
Qed.

(** What [page_is_available] decides: page 0, the pages of the two interrupt
    controllers and the pages between [end] and [free_memory] are never available; of the
    BIOS map only the first entry matters, whatever the map says about the page
    in the others. *)
Theorem page_is_available_correct m fm paddr mm cnt :
  0 < cnt →
  page_is_available end_ m fm paddr mm cnt = true ↔
    paddr ≠ 0 ∧ ¬ (APIC_BASE_PA ≤ paddr < APIC_BASE_PA + PAGE_SIZE) ∧
    ¬ (IOAPIC_BASE_PA ≤ paddr < IOAPIC_BASE_PA + PAGE_SIZE) ∧ ¬ (end_ ≤ paddr < fm) ∧
    let e := mmap_entry m mm 0 in
    (base_addr e ≤ paddr ∧ u64 (paddr + PAGE_SIZE) < u64 (base_addr e + addr_len e) → type e = MEMORY_TYPE_FREE).
Proof.
  intros Hc. unfold page_is_available. set (e := mmap_entry m mm 0). cbn zeta.
  assert (∀ l, foldl (λ av (_ : Z), if paddr <? base_addr e then av
      else if u64 (base_addr e + addr_len e) <=? u64 (paddr + PAGE_SIZE) then av
      else av && (type e =? MEMORY_TYPE_FREE)) true l =
    if (paddr <? base_addr e) || (u64 (base_addr e + addr_len e) <=? u64 (paddr + PAGE_SIZE)) then true
    else bool_decide (l = []) || (type e =? MEMORY_TYPE_FREE)) as ->.
  { intros l. rewrite <- fold_and. f_equal. clear. destruct (paddr <? base_addr e); done. }
  rewrite (bool_decide_false (zseq 0 (Z.to_nat cnt) = [])).
  2: { intros E. apply (f_equal length) in E. rewrite zseq_length in E. cbn in E. lia. }
  destruct (Z.eqb_spec paddr 0); [split; [done|tauto]|].
  destruct (_ && _) eqn:E1; [split; [done|]; bools; lia|].
  destruct ((IOAPIC_BASE_PA <=? paddr) && _) eqn:E2; [split; [done|]; bools; lia|].
  destruct ((end_ <=? paddr) && _) eqn:E3; [split; [done|]; bools; lia|]. cbn [orb].
  destruct (Z.ltb_spec paddr (base_addr e)), (Z.leb_spec (u64 (base_addr e + addr_len e)) (u64 (paddr + PAGE_SIZE))); cbn [orb];
    try (split; [intros _; split_and!; bools; lia|done]).
  rewrite Z.eqb_eq. split; [intros ->; split_and!; bools; lia|]. intros (_ & _ & _ & _ & H'). apply H'. lia.
Qed.
(** ** The free list *)

(** The pages below [n] that the loader found available, lowest first. *)
Definition available s mm cnt (n : nat) : list Z :=
  filter (λ i, page_is_available end_ (phys (lm s)) (free_memory s) (i * PAGE_SIZE) mm cnt = true) (zseq 0 n).

Lemma zseq_snoc a n : zseq a (S n) = zseq a n ++ [a + Z.of_nat n].
Proof. rewrite <- Nat.add_1_r, zseq_app. done. Qed.


(** ** Sections *)

(** C24: [loader_map_section] of a section whose addresses are unmapped and whose
    pages exist returns; either page tables ran out of memory (-1), or every
    address of the section, rounded to whole pages, translates to the matching
    address of the physical range, present and writable, not accessible from
    user mode, and every other page translates as before.  The invariant of the
    tables holds and every page is either free with counter at most 1 or has
    counter 1. *)
Theorem map_section_correct (K : Z) s g va pa len hard :
  wf K (lm s) g → lab g K = Some (Lab K []) → boot_refs (lm s) g →
  lpml4 s = VADDR (bld (lm s)) (K * 4096) → 0 ≤ len ≤ 2 ^ 48 - 4096 → 0 ≤ pa →
  pa / 4096 + (len + 4095) / 4096 ≤ pages_cnt (lm s) →
  (∀ x, 0 ≤ x < (len + 4095) / 4096 * 4096 → translate (phys (lm s)) K (u64 (va / 4096 * 4096 + x)) = None) →
  ∃ r s' g', loader_map_section va pa len hard s = Ok (r, s') ∧ wf K (lm s') g' ∧
    (r = -1 ∧ fl g' = [] ∨
     r = 0 ∧ lab g' K = Some (Lab K []) ∧ boot_refs (lm s') g' ∧
     (∀ x, 0 ≤ x < (len + 4095) / 4096 * 4096 →
        translate (phys (lm s')) K (u64 (va / 4096 * 4096 + x)) = Some ((pa / 4096 + x / 4096) * 4096 + 3)) ∧
     (∀ va', (∀ x, 0 ≤ x < (len + 4095) / 4096 * 4096 → page_no va' ≠ page_no (va / 4096 * 4096 + x)) →
        translate (phys (lm s')) K va' = translate (phys (lm s)) K va') ∧
     (∀ x, lab g (x / 4096) = None → x / 4096 ∉ fl g → phys (lm s') x = phys (lm s) x)).
Proof.
  intros W HK B Hp Hlen Hpa Hc Hnone. set (n := (len + 4095) / 4096) in *. set (v := va / 4096 * 4096) in *.
  assert (0 ≤ n ≤ 2 ^ 36) as Hn by (unfold n; dlia).
  assert (v mod 4096 = 0) as Hv by (apply Z.mod_mul; done).
  unfold loader_map_section, mbind, M_bind, gets, liftm, zoom.
  assert (ROUND_DOWN va PAGE_SIZE = v) as -> by (unfold ROUND_DOWN, PAGE_SIZE, v; dlia).
  assert (ROUND_UP len PAGE_SIZE / PAGE_SIZE = n) as ->.
  { unfold ROUND_UP, ROUND_DOWN, PAGE_SIZE, n. rewrite u64_small by lia. dlia. }
  rewrite Hp. pose proof (map_loop_ok K (lm s) g v pa hard (Z.to_nat n) W HK B Hv Hpa) as H.
  rewrite Z2Nat.id in H by lia. specialize (H Hc ltac:(lia)).
  assert (∀ x, page_no (u64 (v + x)) = page_no (v + 4096 * (x / 4096))) as Hoff.
  { intros x. rewrite page_no_u64, !page_no_div, !(Z.mul_comm 4096), Z.div_add by done. f_equal. unfold v. dlia. }
  destruct (proj1 (wp_ok _ _ _) (H ltac:(intros j Hj; apply Hnone; lia))) as (r & s' & Hrun & g' & Hr).
  rewrite Hrun. exists (default 0 r), (set_lm s' s), g'. split; [done|]. cbn [lm set_lm].
  destruct Hr as [(-> & W' & F)|(-> & U)]; [split; [done|]; by left|].
  destruct U as [U1 U2 U3 U4 U5 U6 U7 U8 U9 U10]. split; [done|]. right. split; [done|]. split; [done|]. split; [done|]. split_and!.
  - intros x Hx. rewrite <- (U8 (x / 4096)) by dlia. apply translate_full, full_path_page. rewrite Hoff. by rewrite page_no_u64.
  - intros va' Hne. apply U9. intros j Hj. apply Hne. lia.
  - done.
Qed.

(** C39: mapping a section of a physical address whose page number is not below
    [pages_cnt] accesses the page array out of bounds, unless it fails before for
    lack of memory.  This is what the calls for the APIC and I/O APIC registers
    (at 4 GB - 20 MB) do on machines with less memory (loader.c:206, 210, 312). *)
Theorem map_section_out_of_bounds (K : Z) s g va pa hard :
  wf K (lm s) g → lab g K = Some (Lab K []) → lpml4 s = VADDR (bld (lm s)) (K * 4096) → 0 ≤ pa < 2 ^ 63 →
  pages_cnt (lm s) ≤ pa / 4096 → translate (phys (lm s)) K (u64 (ROUND_DOWN va PAGE_SIZE)) = None →
  loader_map_section va pa PAGE_SIZE hard s = Err EUndef ∨
  ∃ s', loader_map_section va pa PAGE_SIZE hard s = Ok (-1, s').
Proof.
  intros W HK Hp Hpa Hc Ht. set (v := u64 _) in *.
  unfold loader_map_section, mbind, M_bind, gets, liftm, zoom. rewrite Hp.
  change (Z.to_nat (ROUND_UP PAGE_SIZE PAGE_SIZE / PAGE_SIZE)) with 1%nat. cbn [zseq mfor_ret Z.mul].
  unfold mbind, M_bind, map_page. change (0 * PAGE_SIZE) with 0.
  rewrite (Z.add_0_r (ROUND_DOWN va PAGE_SIZE)), (Z.add_0_r pa). fold v. unfold mbind, M_bind.
  destruct (mmap_lookup_spec K (lm s) g K K v true W HK) as (r & s1 & g1 & -> & E & _ & _ & H); [by right; left|].
  destruct r as [a|]; [left|right; by eexists]. destruct H as (f & -> & Hw & _).
  pose proof (ext_wf _ _ _ _ _ E) as W1. pose proof (ext_lab _ _ _ _ _ E _ _ HK) as HK1.
  pose proof (kernel_path K s1 g1 v f W1 HK1 Hw) as Hf. destruct (wf_lab _ _ _ W1 f _ Hf) as (Hfr & _).
  pose proof (wf_build _ _ _ W1) as Hb. rewrite <- (ext_bld _ _ _ _ _ E). rewrite kread_entry by (done || apply PT_IDX_range).
  assert (present (entry_at (phys s1) f (PT_IDX v)) = false) as P.
  { rewrite <- (ext_tr _ _ _ _ _ E K K v HK) in Ht. unfold translate, leaf in Ht. rewrite Hw in Ht. cbn in Ht.
    by destruct (present (entry_at (phys s1) f (PT_IDX v))). }
  change (has_flag _ PTE_P) with (present (entry_at (phys s1) f (PT_IDX v))). rewrite P. cbn [negb massert mret M_ret].
  rewrite kwrite_entry by (done || apply PT_IDX_range).
  assert (pa2page (PTE_ADDR pa) = pa / 4096) as -> by (rewrite pa2page_frame, frame_alt by lia; done).
  rewrite get_ref_out; [done|]. unfold in_range. cbn [pages_cnt set_phys]. rewrite (ext_cnt _ _ _ _ _ E). lia.
Qed.

(** ** Segments and long mode *)

(** The descriptor the processor loads for selector [sel]. *)
Definition descriptor_at (m : mem) (gdt sel : Z) : Gdt.descriptor :=
  let a := gdt + 8 * Z.shiftr sel 3 in Gdt.Descriptor (rd32 m a) (rd32 m (a + 4)).

(** Reads a word back through the stores that follow it. *)
Ltac read_back := repeat first [rewrite rdn_wrn_ne by lia|rewrite rdn_wrn_eq].

(** After [loader_init_gdt] the processor finds, for the four selectors the
    kernel uses, flat segments: 64-bit code and writable data for the kernel at
    privilege level 0, the same for user mode at level 3, and nothing at
    selector 0; the table register covers them and the 32 task segments. *)
Theorem init_gdt_correct s :
  0 ≤ free_memory s → free_memory s + 1024 < 2 ^ 32 →
  ∃ gdt s', loader_init_gdt s = Ok (gdt, s') ∧ gdt mod 16 = 0 ∧ free_memory s ≤ gdt ∧ free_memory s' = gdt + 552 ∧
    gdtr s' = (gdt, 551) ∧
    let read sel := Gdt.seg_read (descriptor_at (phys (lm s')) gdt sel) in
    read 0 = Gdt.SegView 0 0 0 0 0 0 0 0 0 ∧
    read Gdt.GD_KT = Gdt.SegView 0 0 8 1 0 1 1 0 0 ∧ read Gdt.GD_KD = Gdt.SegView 0 0 2 1 0 1 0 0 0 ∧
    read Gdt.GD_UT = Gdt.SegView 0 0 8 1 3 1 1 0 0 ∧ read Gdt.GD_UD = Gdt.SegView 0 0 2 1 3 1 0 0 0.
Proof.
  intros H0 H1. unfold loader_init_gdt, mbind, M_bind.
  change (u16 _) with 552.
  assert (ROUND_UP32 (free_memory s) 16 = (free_memory s + 15) / 16 * 16) as E.
  { unfold ROUND_UP32, ROUND_DOWN. rewrite u32_small by lia. dlia. }
  unfold loader_alloc, gets, modify, mbind, M_bind. rewrite E. set (a := (free_memory s + 15) / 16 * 16).
  assert (free_memory s ≤ a < free_memory s + 16 ∧ a mod 16 = 0) as [Ha Hm] by (unfold a; dlia). clearbody a.
  rewrite u32_small by lia. eexists a, _. split; [reflexivity|]. split; [done|]. split; [lia|]. split; [done|]. split; [done|].
  cbn [phys lm set_lm set_phys set_gdt set_free_memory]. unfold descriptor_at.
  change (Z.shiftr 0 3) with 0. change (Z.shiftr Gdt.GD_KT 3) with 1. change (Z.shiftr Gdt.GD_KD 3) with 2.
  change (Z.shiftr Gdt.GD_UT 3) with 3. change (Z.shiftr Gdt.GD_UD 3) with 4. cbn zeta.
  split; [|split; [|split; [|split]]]; read_back; reflexivity.
Qed.

(** [loader_enter_long_mode] leaves the processor with the loader's GDT, physical
    address extension, long mode and paging enabled and the PML4 in [cr3], the
    state in which the AMD64 architecture activates long mode, keeps every other
    control bit, and jumps to the kernel's entry point. *)
Theorem enter_long_mode_correct s entry :
  0 ≤ lpml4 s < 2 ^ 32 →
  ∃ s', loader_enter_long_mode entry s = Ok (entry, s') ∧
    let r := regs s' in
    lgdt r = Some (gdtr s) ∧ cr3 r = lpml4 s ∧
    (∀ n, 0 ≤ n → Z.testbit (cr0 r) n = (n =? 31) || Z.testbit (cr0 (regs s)) n) ∧
    (∀ n, 0 ≤ n → Z.testbit (cr4 r) n = (n =? 5) || Z.testbit (cr4 (regs s)) n) ∧
    (∀ n, 0 ≤ n → Z.testbit (efer r) n = (n =? 8) || Z.testbit (efer (regs s)) n) ∧
    lm s' = lm s.
Proof.
  intros Hp. eexists. split; [reflexivity|]. cbn [regs set_regs lgdt cr3 cr0 cr4 efer lm].
  assert (∀ n k v, 0 ≤ n → 0 ≤ k → Z.testbit (bts k v) n = (n =? k) || Z.testbit v n) as Hb.
  { intros n k v Hn Hk. unfold bts. rewrite Z.lor_spec, orb_comm, Z.shiftl_1_l, Z.pow2_bits_eqb by done. by rewrite Z.eqb_sym. }
  split; [done|]. split; [unfold PADDR; cbn; rewrite Z.sub_0_r; by apply Z.mod_small|].
  split_and!; [intros; by apply Hb..|done].
Qed.
End theorems.

(** ** Instances *)

Definition demo_lm : mstate Term.terminal :=
  MState loader32 (λ _, Byte.x00) 0x20000 64 (λ f, if (32 <=? f) && (f <? 64) then 0 else 1)
    (foldr Lst.LIST_INSERT_HEAD empty_list (zseq 32 32)) [] (Term.Terminal (λ _, 0) 15 0 0).

Definition demo_lg : ghost :=
  Ghost (λ f, if f =? 16 then Some (Lab 16 []) else None) (zseq 32 32) (λ f, if (32 <=? f) || (f =? 16) then 0 else 1).

Definition demo_loader : lstate drive :=
  LState demo_lm demo_drive 0 0x18000 0x20000 64 0x10000 0 (0, 0) 0 (CRegs 0x11 0 0 0 None).

Lemma demo_lrep : Lst.lrep (free demo_lm) (zseq 32 32).
Proof.
  assert (∀ l, NoDup l → Lst.lrep (foldr Lst.LIST_INSERT_HEAD empty_list l) l) as H; [|apply H, zseq_NoDup].
  induction 1 as [|x l Hx _ IH]; [apply (Lst.lrep_init empty_list)|]. by apply Lst.insert_head_rep.
Qed.

Lemma demo_lwf : wf 16 demo_lm demo_lg.
Proof.
  assert (∀ f l, lab demo_lg f = Some l → f = 16 ∧ l = Lab 16 []) as Hl.
  { intros f l. cbn. destruct (Z.eqb_spec f 16); [|done]. by intros [= <-]. }
  assert (∀ f, uleaf 16 demo_lg f = false) as Hu.
  { intros f. unfold uleaf. destruct (lab demo_lg f) as [l|] eqn:E; [|done]. by apply Hl in E as [_ ->]. }
  constructor.
  - split; cbn; [lia|]. lia.
  - split; [exact demo_lrep|]. intros p Hp%zseq_elem. unfold in_range. cbn. lia.
  - split; cbn; lia.
  - intros p Hp%zseq_elem. cbn. rewrite (proj2 (Z.eqb_neq p 16)), (proj2 (Z.leb_le 32 p)) by lia. done.
  - intros f l [-> ->]%Hl. unfold in_range. cbn. lia.
  - intros f l [-> ->]%Hl. done.
  - intros f o [-> [= ->]]%Hl. done.
  - intros f1 f2 l [-> _]%Hl [-> _]%Hl. done.
  - intros f l i _ _ _. done.
  - intros f o q i [_ E]%Hl. injection E as _ E. by destruct q.
  - intros f i Hf. by rewrite Hu in Hf.
  - intros d [Hd1 Hd2] Hn Hd. assert (ucount 16 (phys demo_lm) demo_lg (pages_cnt demo_lm) d = 0) as ->.
    { apply zsum_zero. intros [f i] _. unfold refers. cbn [fst snd]. by rewrite Hu. }
    cbn [refs pins demo_lm demo_lg fl lab pages_cnt] in *. rewrite zseq_elem in Hn. destruct (Z.eqb_spec d 16); [done|].
    destruct (Z.leb_spec 32 d); [lia|]. cbn. lia.
Qed.

Lemma demo_lboot : boot_refs demo_lm demo_lg.
Proof.
  intros d [Hd1 Hd2]. cbn [refs demo_lm demo_lg fl pages_cnt] in *. rewrite zseq_elem. destruct ((32 <=? d) && (d <? 64)) eqn:E; bools; split; lia.
Qed.

Lemma loader_alloc_correct_witness :
  ∃ a, loader_alloc 64 4096 demo_loader = Ok (a, set_free_memory (a + 64) demo_loader) ∧ a mod 4096 = 0.
Proof.
  destruct (loader_alloc_correct demo_loader 64 4096) as (a & H1 & H2 & _); [lia|cbn; lia|lia|cbn; lia|].
  exists a. split; [exact H1|exact H2].
Defined.

(** A map with a free area of 1 MB at 0x100000 and a reserved one behind it. *)
Definition demo_map : mem :=
  wr32 (wr64 (wr64 (wr32 (wr64 (wr64 (λ _, Byte.x00) 0x7e00 0x100000) 0x7e08 0x100000) 0x7e10 1)
    0x7e18 0x200000) 0x7e20 0x100000) 0x7e28 2.

Lemma detect_memory_correct_witness :
  ∃ s', loader_detect_memory 0x7e00 2 (set_lm (set_phys demo_map demo_lm) demo_loader) = Ok ((), s') ∧
    max_physical_address s' = 0x200000 ∧ lpages_cnt s' = 512.
Proof.
  destruct (detect_memory_correct (set_lm (set_phys demo_map demo_lm) demo_loader) 0x7e00 2)
    as (s' & H1 & _ & H2 & H3 & H4); [exact (wf_con _ _ _ demo_lwf)|].
  assert (match loader_detect_memory 0x7e00 2 (set_lm (set_phys demo_map demo_lm) demo_loader) with
          | Ok (_, s) => max_physical_address s | Err _ => 0 end = 0x200000) as E by (vm_compute; reflexivity).
  rewrite H1 in E.
  exists s'. split; [exact H1|]. split; [exact E|]. rewrite H4, E. reflexivity.
Defined.

(** The page at 0x280000 lies in the reserved area and is reported as available. *)
Lemma page_is_available_correct_witness :
  page_is_available 0x100000 demo_map 0x101000 0x280000 0x7e00 2 = true ∧
  type (mmap_entry demo_map 0x7e00 1) ≠ MEMORY_TYPE_FREE ∧
  base_addr (mmap_entry demo_map 0x7e00 1) ≤ 0x280000 < base_addr (mmap_entry demo_map 0x7e00 1) + addr_len (mmap_entry demo_map 0x7e00 1).
Proof.
  split; [|split; [vm_compute; congruence|vm_compute; split; congruence]].
  apply (page_is_available_correct 0x100000 demo_map 0x101000 0x280000 0x7e00 2); [lia|].
  split; [lia|]. split; [vm_compute; tauto|]. split; [vm_compute; tauto|]. split; [lia|]. vm_compute. intros [_ H]. discriminate H.
Defined.


Lemma map_section_correct_witness :
  ∃ r s' g', loader_map_section 0x400000 0x5000 8192 true demo_loader = Ok (r, s') ∧ wf 16 (lm s') g' ∧
    (r = -1 ∨ translate (phys (lm s')) 16 0x401000 = Some 0x6003).
Proof.
  destruct (map_section_correct 16 demo_loader demo_lg 0x400000 0x5000 8192 true demo_lwf)
    as (r & s' & g' & H1 & H2 & H3).
  - reflexivity.
  - exact demo_lboot.
  - reflexivity.
  - lia.
  - lia.
  - vm_compute. congruence.
  - intros x _. unfold translate, leaf, table_path. cbn [walk]. change (entry_at _ _ _) with 0. reflexivity.
  - exists r, s', g'. split; [exact H1|]. split; [exact H2|].
    destruct H3 as [[-> _]|(_ & _ & _ & H3 & _)]; [left; reflexivity|right]. apply (H3 0x1000). vm_compute. split; congruence.
Defined.

Lemma map_section_out_of_bounds_witness :
  loader_map_section APIC_BASE APIC_BASE_PA PAGE_SIZE true demo_loader = Err EUndef.
Proof.
  destruct (map_section_out_of_bounds 16 demo_loader demo_lg APIC_BASE APIC_BASE_PA true demo_lwf) as [H|[s' H]].
  - reflexivity.
  - reflexivity.
  - vm_compute. split; congruence.
  - vm_compute. congruence.
  - reflexivity.
  - exact H.
  - exfalso. apply (f_equal (λ r, match r with Ok _ => true | Err _ => false end)) in H. vm_compute in H. discriminate H.
Defined.

Lemma init_gdt_correct_witness :
  ∃ gdt s', loader_init_gdt demo_loader = Ok (gdt, s') ∧
    Gdt.seg_read (descriptor_at (phys (lm s')) gdt Gdt.GD_UT) = Gdt.SegView 0 0 8 1 3 1 1 0 0.
Proof.
  destruct (init_gdt_correct demo_loader) as (gdt & s' & H1 & _ & _ & _ & _ & _ & _ & _ & H2 & _); [cbn; lia|cbn; lia|].
  exists gdt, s'. split; [exact H1|exact H2].
Defined.

Lemma enter_long_mode_correct_witness :
  ∃ s', loader_enter_long_mode 0xFFFFFFF800100000 demo_loader = Ok (0xFFFFFFF800100000, s') ∧ cr3 (regs s') = 0x10000.
Proof.
  destruct (enter_long_mode_correct demo_loader 0xFFFFFFF800100000) as (s' & H1 & _ & H2 & _); [cbn; lia|].
  exists s'. split; [exact H1|exact H2].
Defined.
