(* ===== verification/Kernel.v ===== *)
(** Kernel start-up: kernel/kernel.c and kernel/cpu.c.

    [kernel_init_mmap] takes over the page array of the loader.  The loader's
    array has 12-byte elements (32-bit pointers), the kernel's 24-byte elements,
    and the conversion is done in place, from the last element down: the model
    reads the old elements from memory and writes the new ones both as bytes
    and as the counters and links of Map.v.  [kernel_main] composes the
    initialisation of all components; it ends in [schedule], so its result is
    the task that is resumed.  Addresses chosen by the linker are parameters. *)

From Stdlib Require Import String.
From S2P Require Import Prelude Memory Queue Mmu Console Terminal Map Walk Gdt Context Task.
From S2P Require Import Syscall Thread Monitor Interrupt.
Import Mmu Map Task.

(** ** kernel/cpu.c *)

Module Cpu.

Definition CPU_MAX_CNT : Z := 32.
(** -1 converted to the 16-bit [cpuid_t]. *)
Definition CPU_ID_NONE : Z := 65535.

(** [cpu_map] gives the hardware identifier of every processor. *)
Definition cpu_id_by_hardware_id (cpu_map : Z → Z) (id : Z) : Z :=
  match head (filter (λ i, cpu_map i = id) (zseq 0 (Z.to_nat CPU_MAX_CNT))) with
  | Some i => i
  | None => CPU_ID_NONE
  end.

Definition cpu_get_id : Z := 0.

(** The index of the context in the array. *)
Definition cpu_context_by_id {S} (id : Z) : M S Z := massert (id <? CPU_MAX_CNT) ;; mret id.

Definition cpu_context {S} : M S Z := cpu_context_by_id cpu_get_id.

End Cpu.

Module Kernel.

Definition SIZEOF_PAGE32 : Z := 12.

Section mmap.
Context {T : Type} `{!Console T}.
(** The address of the list head [state.free.lh_first]. *)
Context (free_head : Z).

(** Access through a kernel address of any width. *)
Definition kread_n (n : nat) (va : Z) : M (mstate T) Z := gets (λ s, rdn n (phys s) (PADDR (bld s) va)).

(** The address of [pages[p]] and of the slot a [le_prev] points to. *)
Definition page_addr (s : mstate T) (p : Z) : Z := u64 (pages s + SIZEOF_PAGE64 * p).
Definition link_val (s : mstate T) (o : option Z) : Z := match o with Some p => page_addr s p | None => 0 end.
Definition slot_val (s : mstate T) (o : option Lst.slot) : Z :=
  match o with
  | Some Lst.Head => free_head
  | Some (Lst.Next p) => u64 (page_addr s p + 8)
  | None => 0
  end.

(** The bytes of [pages[p]]: counter and the two links. *)
Definition flush_page (p : Z) : M (mstate T) () :=
  modify (λ s,
    let a := PADDR (bld s) (page_addr s p) in
    let e := Lst.ent (free s) p in
    set_phys (wr64 (wr64 (wrn 4 (phys s) a (refs s p)) (a + 8) (link_val s (Lst.le_next e)))
      (a + 16) (slot_val s (Lst.le_prev e))) s).

(** One iteration of the conversion; the result counts the used pages. *)
Definition convert_page (pages32 i : Z) : M (mstate T) Z :=
  links ← kread_n 8 (u64 (pages32 + SIZEOF_PAGE32 * i + 4));
  rc ← kread_n 4 (u64 (pages32 + SIZEOF_PAGE32 * i));
  clear_page_struct i ;;
  (s ← get; kzero (page_addr s i) SIZEOF_PAGE64) ;;
  set_ref i rc ;;
  flush_page i ;;
  if links =? 0 then
    massert (rc =? 1) ;; mret 1
  else
    s ← get;
    modify (set_free (Lst.LIST_INSERT_HEAD i (free s))) ;;
    flush_page i ;;
    match Lst.LIST_FIRST (free s) with Some f => flush_page f | None => mret () end ;;
    massert (rc <=? 1) ;; mret 0.

(** The loop, over the given page numbers. *)
Fixpoint convert_pages (pages32 : Z) (l : list Z) (used : Z) : M (mstate T) Z :=
  match l with
  | [] => mret used
  | i :: l' => u ← convert_page pages32 i; convert_pages pages32 l' (u32 (used + u))
  end.

(** [struct kernel_config] at [KERNEL_INFO]: pml4, pages, pages_cnt, gdt. *)
Definition config_get (off : Z) : M (kstate T) Z := vload (KERNEL_INFO + off) 8.
Definition config_set (off v : Z) : M (kstate T) () := Thread.vstore64 (KERNEL_INFO + off) v.

Definition set_config_pml4 v (k : kstate T) := KState (mm k) (tasks k) (free_tasks k) (last_task_id k) (next_task_idx k)
  (cr3 k) (cpu_pml4 k) (cpu_task k) (self_task k) v.

(** Convert one pointer of the configuration into a virtual address. *)
Definition config_vaddr (off : Z) : M (kstate T) Z :=
  b ← kbld; v ← config_get off; config_set off (VADDR b v) ;; mret (VADDR b v).

(** The result is the new base of the descriptor table register. *)
Definition kernel_init_mmap : M (kstate T) Z :=
  gdt ← config_vaddr 24;
  pml4 ← config_vaddr 0;
  pgs ← config_vaddr 8;
  modify (set_config_pml4 pml4) ;;
  modify (set_cpu_pml4 pml4) ;;
  cnt ← config_get 16;
  k ← get;
  liftm (mmap_init pgs cnt (Lst.LIST_INIT (free (mm k)))) ;;
  liftm (kwrite pml4 0) ;;
  used ← liftm (convert_pages pgs (reverse (zseq 0 (Z.to_nat cnt))) 0);
  kprintf ("Pages stat: used: `%u', free: `%u'" ++ nl) [AInt used; AInt (cnt - used)] ;;
  mret gdt.

End mmap.

(** ** [kernel_main] *)

Section main.
Context (free_head edata end_ : Z) (spin_start spin_end : Z) (kernel_thread : Z).
Context (thread_foo : Z) (task_addr : Z → Z).
Context (stub : Z → Z) (tss_addr : Z → Z) (cpuid_ebx : option Z).

(** The variables of the kernel that live in the zero-initialised section. *)
Definition clear_bss (k : kstate Term.terminal) : kstate Term.terminal :=
  KState (set_phys (mem_fill (phys (mm k)) (PADDR (bld (mm k)) edata) Byte.x00 (end_ - edata)) (mm k))
    (λ _, zero_task) (Lst.Queue None (λ _, Lst.null_entry)) 0 0 (cr3 k) NULL None zero_task (config_pml4 k).

(** The end of [kernel_main]: the first tasks are created and one of them runs. *)
Definition kernel_start : M Interrupt.machine tptr :=
  _ ← Interrupt.liftk (task_create (codes "spin") spin_start (spin_end - spin_start));
  th ← Interrupt.liftk (Thread.thread_create thread_foo task_addr (codes "scheduler") kernel_thread NULL 0);
  match th with
  | None => fail EPanic
  | Some t =>
      Interrupt.liftk (Thread.thread_run (TSlot t)) ;;
      Interrupt.interrupt_enable ;;
      Interrupt.liftk schedule
  end.

(** [kernel_main] after [kernel_init_mmap]. *)
Definition kernel_run : M Interrupt.machine tptr :=
  Interrupt.liftk task_init ;;
  Interrupt.interrupt_init stub tss_addr cpuid_ebx ;;
  kernel_start.

Definition kernel_main : M Interrupt.machine tptr :=
  Interrupt.liftk (modify clear_bss) ;;
  Interrupt.liftmon (Monitor.liftt Term.terminal_init) ;;
  Interrupt.liftmon Monitor.monitor_init ;;
  _ ← Interrupt.liftk (kernel_init_mmap free_head);
  kernel_run.

(** [kernel_panic]: print, then spin. *)
Definition kernel_panic {A} (fmt : string) (ap : list arg) : M (kstate Term.terminal) A := kprintf fmt ap ;; fail EPanic.

End main.

(** ** Kernel threads while they run *)

(** [int3]: [ctx] holds the registers at the instruction; the entry stub adds the number. *)
Definition int3 (ctx : Context.task_context) : M Interrupt.machine tptr :=
  Interrupt.interrupt_handler
    (Context.TaskContext (Context.c_gprs ctx) (Context.ds ctx) (Context.es ctx) (Context.fs ctx) (Context.gs ctx)
       Interrupt.INTERRUPT_VECTOR_BREAKPOINT (Context.error_code ctx) (Context.padding2 ctx) (Context.rip ctx)
       (Context.cs ctx) (Context.padding1 ctx) (Context.rflags ctx) (Context.rsp ctx) (Context.ss ctx) (Context.padding0 ctx)).

(** One turn of the endless loop of [kernel_thread]. *)
Definition kernel_thread (ctx : Context.task_context) : M Interrupt.machine tptr := int3 ctx.

(** kernel/thread.c: the function a kernel thread starts in; NULL is [None]. *)
Definition thread_foo (thread : option tptr) (foo : option (M Interrupt.machine ())) (ctx : Context.task_context) :
    M Interrupt.machine tptr :=
  massert (bool_decide (is_Some thread) && bool_decide (is_Some foo)) ;;
  f ← deref foo;
  f ;;
  t ← deref thread;
  Interrupt.liftk (task_destroy t) ;;
  int3 ctx.
End Kernel.
