(* ===== verification/KernelTheorems.v ===== *)
(** The correctness theorem of the take-over of the loader's page array
    (kernel/kernel.c). *)

From Stdlib Require Import String ZifyBool.
From S2P Require Import Prelude Memory Queue Mmu Console Terminal Map AllocProofs Walk Gdt.
From S2P Require Import Context Task.
From S2P Require Import Kernel Demo.
Import Mmu Map Task Kernel.

(** Filters agree when the predicates do on the elements. *)
Lemma filter_ext_elem {A} (Q R : A → Prop) `{!∀ x, Decision (Q x), !∀ x, Decision (R x)} (l : list A) :
  (∀ x, x ∈ l → Q x ↔ R x) → filter Q l = filter R l.
Proof.
  induction l as [|x l IH]; [done|]. intros HQ. rewrite !filter_cons, IH by (intros; apply HQ; by right).
  specialize (HQ x ltac:(by left)). repeat case_decide; tauto || done.
Qed.

Section convert.
Context {T : Type} `{!Console T, !ConsoleLaws T} (free_head P cnt : Z).
Implicit Types (s : mstate T) (m : mem).

(** The loader's array at physical address [P]. *)
Definition ref32 m (i : Z) : Z := rdn 4 m (P + 12 * i).
Definition links32 m (i : Z) : Z := rdn 8 m (P + 12 * i + 4).

(** The array is in the linear map and big enough for the new elements. *)
Record array_ok s : Prop := {
  ar_bld : bld s = kernel64;
  ar_pages : pages s = VADDR kernel64 P;
  ar_cnt : pages_cnt s = cnt;
  ar_fit : 0 ≤ P ∧ P + 24 * cnt ≤ 2 ^ 35;
}.

Lemma array_addr s x : array_ok s → 0 ≤ x < 24 * cnt → PADDR kernel64 (u64 (VADDR kernel64 P + x)) = P + x.
Proof.
  intros [_ _ _ [H0 H1]] Hx. unfold PADDR, VADDR, u64, kernel64, KERNEL_BASE. cbn [vaddr_base ptr_bits].
  rewrite (Z.mod_small (P + _)) by lia. rewrite (Z.mod_small (P + _ + x)) by lia. rewrite Z.mod_small by lia. lia.
Qed.

Lemma page_addr_ok s p : array_ok s → 0 ≤ p < cnt → PADDR (bld s) (page_addr s p) = P + 24 * p.
Proof.
  intros A Hp. unfold page_addr, SIZEOF_PAGE64. rewrite (ar_bld _ A), (ar_pages _ A). apply (array_addr s); [done|lia].
Qed.

(** Memory is the same outside the new elements from [i] on. *)
Definition keeps (i : Z) m m' : Prop := ∀ x, x < P + 24 * i ∨ P + 24 * cnt ≤ x → m' x = m x.

Lemma flush_ok s p i :
  array_ok s → 0 ≤ i ≤ p → p < cnt →
  ∃ m, flush_page free_head p s = Ok ((), set_phys m s) ∧ keeps i (phys s) m.
Proof.
  intros A Hi Hp. eexists. split; [reflexivity|]. intros x Hx. rewrite page_addr_ok by (done || lia).
  rewrite !wr64_out, wrn_out by lia. done.
Qed.

Lemma array_phys s m : array_ok s → array_ok (set_phys m s).
Proof. by intros []. Qed.

(** The two paths through the body, from the bytes of element [i] in [s]. *)
Lemma convert_page_ok s i fl :
  array_ok s → 0 ≤ i < cnt → Lst.lrep (free s) fl → (∀ f, f ∈ fl → i < f < cnt) →
  (links32 (phys s) i = 0 → ref32 (phys s) i = 1) → ref32 (phys s) i ≤ 1 →
  ∃ q m r, convert_page free_head (VADDR kernel64 P) i s =
      Ok (if links32 (phys s) i =? 0 then 1 else 0, set_phys m (set_refs r (set_free q s))) ∧
    Lst.lrep q (if links32 (phys s) i =? 0 then fl else i :: fl) ∧ keeps i (phys s) m ∧
    ∀ d, r d = if d =? i then ref32 (phys s) i else refs s d.
Proof.
  intros A Hi Hl Hfl Hz Hr. assert (i ∉ fl) as Hni by (intros Hin; specialize (Hfl i Hin); lia).
  assert (in_range s i) as Hin by (unfold in_range; rewrite (ar_cnt _ A); lia).
  unfold convert_page, mbind, M_bind, kread_n, gets, SIZEOF_PAGE32. rewrite (ar_bld _ A).
  rewrite <- Z.add_assoc, (array_addr s) by (done || lia). rewrite (array_addr s) by (done || lia).
  rewrite Z.add_assoc. fold (links32 (phys s) i) (ref32 (phys s) i).
  set (lk := links32 (phys s) i) in *. set (rc := ref32 (phys s) i) in *.
  unfold clear_page_struct, mbind, M_bind. rewrite page_at_ok by done. unfold modify, get, kzero, modify.
  set (q0 := Lst.set_entry i Lst.null_entry (free s)).
  assert (Lst.lrep q0 fl) as Hq0 by (by apply lrep_set_entry).
  match goal with |- context [set_ref i rc ?s1] => set (s1' := s1); change s1 with s1' end.
  assert (array_ok s1') as A1 by (destruct A; by constructor).
  assert (keeps i (phys s) (phys s1')) as K1.
  { intros x Hx. cbn [phys s1' set_phys set_refs set_free]. apply mem_fill_out.
    change (page_addr _ i) with (page_addr s i). change (bld _) with (bld s). rewrite page_addr_ok by done.
    unfold SIZEOF_PAGE64. lia. }
  rewrite set_ref_ok by exact Hin. set (s2 := set_refs _ s1').
  assert (array_ok s2) as A2 by (destruct A1; by constructor).
  destruct (flush_ok s2 i i A2) as (m3 & -> & K3); [lia|lia|].
  assert (keeps i (phys s) m3) as K3' by (intros x Hx; rewrite K3 by done; by apply K1).
  assert (∀ q m, set_phys m (set_free q s2) = set_phys m (set_refs (refs s2) (set_free q s))) as Es by done.
  assert (∀ d, refs s2 d = if d =? i then rc else refs s d) as Hrf.
  { intros d. cbn [s2 s1' refs set_refs set_phys set_free]. destruct (Z.eqb_spec d i) as [->|Hd].
    - by rewrite fn_lookup_insert.
    - by rewrite !fn_lookup_insert_ne by congruence. }
  destruct (Z.eqb_spec lk 0) as [E|E].
  - rewrite (proj2 (Z.eqb_eq rc 1)) by auto. cbn [massert mret M_ret].
    exists q0, m3, (refs s2). split; [|done]. rewrite <- Es. done.
  - cbn [free set_phys]. change (free s2) with q0. unfold Lst.LIST_FIRST. rewrite (Lst.lrep_first _ _ Hq0 : Lst.lh_first q0 = head fl).
    set (q1 := Lst.LIST_INSERT_HEAD i q0). assert (Lst.lrep q1 (i :: fl)) as Hq1 by (by apply Lst.insert_head_rep).
    destruct (flush_ok (set_free q1 (set_phys m3 s2)) i i) as (m4 & -> & K4); [destruct A2; by constructor|lia|lia|].
    assert (keeps i (phys s) m4) as K4' by (intros x Hx; rewrite K4 by done; by apply K3').
    destruct (head fl) as [f|] eqn:Hf.
    + assert (f ∈ fl) as Hff by (destruct fl; [done|]; injection Hf as ->; by left). specialize (Hfl f Hff).
      destruct (flush_ok (set_phys m4 (set_free q1 (set_phys m3 s2))) f i) as (m5 & -> & K5); [destruct A2; by constructor|lia|lia|].
      rewrite (proj2 (Z.leb_le rc 1)) by done. exists q1, m5, (refs s2). split; [|split; [done|split; [|done]]].
      * cbn [massert mret M_ret]. by rewrite <- Es.
      * intros x Hx. rewrite K5 by done. by apply K4'.
    + rewrite (proj2 (Z.leb_le rc 1)) by done. exists q1, m4, (refs s2). split; [|done]. cbn [massert mret M_ret]. by rewrite <- Es.
Qed.

Lemma ref32_keeps m m' i j : keeps i m m' → 0 ≤ j < i → ref32 m' j = ref32 m j.
Proof. intros Km Hj. apply rdn_ext. intros x Hx. apply Km. lia. Qed.

Lemma links32_keeps m m' i j : keeps i m m' → 0 ≤ j < i → links32 m' j = links32 m j.
Proof. intros Km Hj. apply rdn_ext. intros x Hx. apply Km. lia. Qed.

Lemma keeps_le i j m m' : j ≤ i → keeps i m m' → keeps j m m'.
Proof. intros H Km x Hx. apply Km. lia. Qed.

(** What the loader leaves in the array: a page in no list has one reference,
    a free one none (one at most). *)
Definition loader_page m i : Prop := (links32 m i = 0 → ref32 m i = 1) ∧ ref32 m i ≤ 1.

Definition free32 m (n : nat) : list Z := filter (λ i, links32 m i ≠ 0) (zseq 0 n).
Definition used32 m (n : nat) : list Z := filter (λ i, links32 m i = 0) (zseq 0 n).

Lemma free32_S m n : free32 m (S n) = free32 m n ++ (if links32 m (Z.of_nat n) =? 0 then [] else [Z.of_nat n]).
Proof.
  unfold free32. rewrite <- Nat.add_1_r, zseq_app, filter_app. f_equal. cbn [zseq]. rewrite filter_cons, Z.add_0_l.
  destruct (Z.eqb_spec (links32 m (Z.of_nat n)) 0); by case_decide.
Qed.

Lemma used32_S m n :
  Z.of_nat (length (used32 m (S n))) = Z.of_nat (length (used32 m n)) + (if links32 m (Z.of_nat n) =? 0 then 1 else 0).
Proof.
  unfold used32. rewrite <- Nat.add_1_r, zseq_app, filter_app, length_app. cbn [zseq]. rewrite filter_cons, Z.add_0_l.
  destruct (Z.eqb_spec (links32 m (Z.of_nat n)) 0); case_decide; cbn; lia || done.
Qed.

Lemma used32_bound m n : (length (used32 m n) ≤ n)%nat.
Proof. unfold used32. etrans; [apply length_filter|]. by rewrite zseq_length. Qed.

Lemma free32_ext m m' n : keeps (Z.of_nat n) m m' → free32 m' n = free32 m n.
Proof.
  intros Km. apply filter_ext_elem. intros i Hi%zseq_elem. by rewrite (links32_keeps m m' (Z.of_nat n)) by (done || lia).
Qed.

Lemma used32_ext m m' n : keeps (Z.of_nat n) m m' → used32 m' n = used32 m n.
Proof.
  intros Km. apply filter_ext_elem. intros i Hi%zseq_elem. by rewrite (links32_keeps m m' (Z.of_nat n)) by (done || lia).
Qed.

Lemma convert_pages_ok (n : nat) s fl used :
  array_ok s → Z.of_nat n ≤ cnt → Lst.lrep (free s) fl → (∀ f, f ∈ fl → Z.of_nat n ≤ f < cnt) →
  (∀ i, 0 ≤ i < Z.of_nat n → loader_page (phys s) i) → 0 ≤ used ∧ used + Z.of_nat n < 2 ^ 32 →
  ∃ q m r, convert_pages free_head (VADDR kernel64 P) (reverse (zseq 0 n)) used s =
      Ok (used + Z.of_nat (length (used32 (phys s) n)), set_phys m (set_refs r (set_free q s))) ∧
    Lst.lrep q (free32 (phys s) n ++ fl) ∧ keeps 0 (phys s) m ∧
    ∀ d, r d = if (0 <=? d) && (d <? Z.of_nat n) then ref32 (phys s) d else refs s d.
Proof.
  revert s fl used. induction n as [|n IH]; intros s fl used A Hn Hl Hfl Hlp Hu.
  - exists (free s), (phys s), (refs s). split; [|split; [done|split; [done|]]].
    + cbn. rewrite Z.add_0_r. by destruct s.
    + intros d. replace ((0 <=? d) && (d <? Z.of_nat 0)) with false by lia. done.
  - rewrite <- Nat.add_1_r, zseq_app, reverse_app, Nat.add_1_r. cbn [zseq reverse rev_append app convert_pages].
    rewrite Z.add_0_l. destruct (Hlp (Z.of_nat n)) as [Hz Hr]; [lia|].
    destruct (convert_page_ok s (Z.of_nat n) fl) as (q & m & r & Hrun & Hq & Km & Hrf); [done|lia|done| |done|done|].
    { intros f Hf. specialize (Hfl f Hf). lia. }
    unfold mbind, M_bind. rewrite Hrun. set (s1 := set_phys m _).
    assert (array_ok s1) as A1 by (destruct A; by constructor).
    rewrite (u32_small (used + _)) by (destruct (_ =? 0); lia).
    destruct (IH s1 (if links32 (phys s) (Z.of_nat n) =? 0 then fl else Z.of_nat n :: fl)
      (used + (if links32 (phys s) (Z.of_nat n) =? 0 then 1 else 0))) as (q' & m' & r' & Hrun' & Hq' & Km' & Hrf');
      [done|lia|done| | | |].
    { intros f Hf. destruct (_ =? 0); [specialize (Hfl f Hf); lia|]. apply elem_of_cons in Hf as [->|Hf]; [lia|].
      specialize (Hfl f Hf). lia. }
    { intros i Hi. unfold loader_page. cbn [phys s1 set_phys].
      rewrite (ref32_keeps _ m _ _ Km), (links32_keeps _ m _ _ Km) by lia. apply Hlp. lia. }
    { destruct (_ =? 0); lia. }
    cbn [phys s1 set_phys] in Hrun', Hq', Km', Hrf'. rewrite (free32_ext _ _ _ Km) in Hq'.
    rewrite (used32_ext _ _ _ Km) in Hrun'. rewrite used32_S, free32_S. exists q', m', r'. split; [|split; [|split]].
    + rewrite Hrun'. f_equal. f_equal. lia.
    + rewrite <- app_assoc. by destruct (_ =? 0).
    + intros x Hx. rewrite Km' by done. apply Km. lia.
    + intros d. rewrite Hrf'. cbn [refs s1 set_phys set_refs]. destruct ((0 <=? d) && (d <? Z.of_nat n)) eqn:E.
      * rewrite (ref32_keeps _ m _ _ Km) by lia. by replace ((0 <=? d) && (d <? Z.of_nat (S n))) with true by lia.
      * rewrite Hrf. destruct (Z.eqb_spec d (Z.of_nat n)) as [->|].
        -- by replace ((0 <=? Z.of_nat n) && (Z.of_nat n <? Z.of_nat (S n))) with true by lia.
        -- by replace ((0 <=? d) && (d <? Z.of_nat (S n))) with false by lia.
Qed.

(** [kernel_init_mmap] widens the loader's page array in place, from the
    12-byte elements of 32-bit code to the 24-byte elements of the kernel.  No
    element is overwritten before it has been read: every counter is the one
    the loader stored, the new free list holds exactly the pages the loader had
    linked, in ascending order, the result counts the others, no assertion
    fails and no byte outside the new array changes. *)
Theorem convert_pages_correct s :
  array_ok s → 0 ≤ cnt < 2 ^ 32 → Lst.lrep (free s) [] → (∀ i, 0 ≤ i < cnt → loader_page (phys s) i) →
  ∃ s', convert_pages free_head (VADDR kernel64 P) (reverse (zseq 0 (Z.to_nat cnt))) 0 s =
      Ok (Z.of_nat (length (used32 (phys s) (Z.to_nat cnt))), s') ∧
    (∀ i, 0 ≤ i < cnt → refs s' i = ref32 (phys s) i) ∧
    Lst.lrep (free s') (free32 (phys s) (Z.to_nat cnt)) ∧
    (∀ x, x < P ∨ P + 24 * cnt ≤ x → phys s' x = phys s x) ∧
    pages s' = pages s ∧ pages_cnt s' = cnt.
Proof.
  intros A Hc Hl Hlp.
  destruct (convert_pages_ok (Z.to_nat cnt) s [] 0) as (q & m & r & Hrun & Hq & Km & Hrf); [done|lia|done| |intros; apply Hlp; lia|lia|].
  { intros f Hf%elem_of_nil. done. }
  eexists. split; [exact Hrun|]. rewrite app_nil_r in Hq. cbn [refs free phys pages pages_cnt set_phys set_refs set_free].
  split; [|split; [done|split; [|split; [done|exact (ar_cnt _ A)]]]].
  - intros i Hi. rewrite Hrf. by replace ((0 <=? i) && (i <? Z.of_nat (Z.to_nat cnt))) with true by lia.
  - intros x Hx. apply Km. lia.
Qed.
End convert.

(** Three pages, of which the second is free: its link is not null. *)
Definition demo_array : mem :=
  wrn 4 (wrn 8 (wrn 4 (λ _, Byte.x00) 0x8000 1) (0x8000 + 16) 0x1000) (0x8000 + 24) 1.

Definition demo_start : mstate Term.terminal :=
  MState kernel64 demo_array (VADDR kernel64 0x8000) 3 (λ _, 0) (Lst.Queue None (λ _, Lst.null_entry)) []
    (Term.Terminal (λ _, 0) 15 0 0).

Lemma convert_pages_correct_witness :
  ∃ s', convert_pages 0x7000 (VADDR kernel64 0x8000) (reverse (zseq 0 (Z.to_nat 3))) 0 demo_start =
      Ok (Z.of_nat (length (used32 0x8000 demo_array (Z.to_nat 3))), s') ∧
    (∀ i, 0 ≤ i < 3 → refs s' i = ref32 0x8000 demo_array i) ∧
    Lst.lrep (free s') (free32 0x8000 demo_array (Z.to_nat 3)) ∧
    (∀ x, x < 0x8000 ∨ 0x8000 + 24 * 3 ≤ x → phys s' x = demo_array x) ∧
    pages s' = pages demo_start ∧ pages_cnt s' = 3.
Proof.
  apply (convert_pages_correct 0x7000 0x8000 3 demo_start).
  - by constructor.
  - done.
  - apply (Lst.lrep_init (Lst.Queue None (λ _, Lst.null_entry))).
  - intros i Hi. assert (i = 0 ∨ i = 1 ∨ i = 2) as [-> | [-> | ->]] by lia; split; vm_compute; intros; congruence.
Defined.

Example demo_conversion :
  free32 0x8000 demo_array 3 = [1] ∧ used32 0x8000 demo_array 3 = [0; 2].
Proof. split; vm_compute; reflexivity. Qed.
