(* ===== verification/TakeoverProofs.v ===== *)
(** The kernel takes over the memory the loader has prepared.

    [tables] describes the loader's page tables without their first slot, the
    map of low memory that [kernel_init_mmap] removes; [handed] describes the
    whole memory at the entry of the kernel: page tables, the configuration
    page, the array of 12-byte page structures and the room for the kernel's
    high pages.  [kernel_init_mmap] turns it into a state that satisfies
    [booted], the starting point of InitProofs. *)

From Stdlib Require Import String.
From S2P Require Import Prelude Memory Queue Mmu Console Terminal Map AllocProofs Walk MapWf.
From S2P Require Import LookupProofs InsertProofs KmapProofs Gdt Context Task SchedProofs.
From S2P Require Import DestroyProofs TaskProofs Syscall ForkProofs Thread Monitor Interrupt.
From S2P Require Import FaultProofs TrapProofs LoadProofs CreateProofs SystemProofs InitProofs.
From S2P Require Import Kernel KernelTheorems.
Import Mmu Map Task Kernel.

(** ** Page tables with a foreign first slot *)

Section tables.
Context (K cnt : Z) (lab : Z → option label).
Implicit Types (m : mem).

(** Every labelled frame is a table of the kernel's tree. *)
Record tables m : Prop := {
  tb_lab f l : lab f = Some l → 0 ≤ f < cnt ∧ (length (l_path l) ≤ 3)%nat ∧ l_owner l = K;
  tb_K : lab K = Some (Lab K []);
  tb_inj f1 f2 l : lab f1 = Some l → lab f2 = Some l → f1 = f2;
  tb_edge f l i : lab f = Some l → (length (l_path l) < 3)%nat → 0 ≤ i < 512 → (f, i) ≠ (K, 0) →
    present (entry_at m f i) = true → lab (frame (entry_at m f i)) = Some (Lab K (l_path l ++ [i]));
  tb_back f q i : lab f = Some (Lab K (q ++ [i])) →
    0 ≤ i < 512 ∧ ∃ f', lab f' = Some (Lab K q) ∧ (f', i) ≠ (K, 0) ∧
      present (entry_at m f' i) = true ∧ frame (entry_at m f' i) = f;
}.

(** Two memories with the same tables, the first slot aside. *)
Definition same_tables m m' : Prop := ∀ f l i,
  lab f = Some l → 0 ≤ i < 512 → (f, i) ≠ (K, 0) → entry_at m' f i = entry_at m f i.

Lemma same_tables_trans m1 m2 m3 : same_tables m1 m2 → same_tables m2 m3 → same_tables m1 m3.
Proof. intros H1 H2 f l i Hf Hi Hn. rewrite (H2 f l i), (H1 f l i); done. Qed.

(** Bytes outside the tables do not matter. *)
Lemma same_tables_bytes m m' : (∀ x, lab (x / 4096) ≠ None → m' x = m x) → same_tables m m'.
Proof.
  intros H f l i Hf Hi _. apply rd64_ext. intros x Hx. apply H.
  replace (x / 4096) with f by (apply Z.div_unique with (x - f * 4096); lia). congruence.
Qed.

Lemma same_tables_slot m : same_tables m (wr64 m (K * 4096) 0).
Proof.
  intros f l i Hf Hi Hn. replace (K * 4096) with (K * 4096 + 8 * 0) by lia. apply entry_wr_ne; [lia|done|].
  intros E. by apply Hn.
Qed.

Lemma tables_same m m' : same_tables m m' → tables m → tables m'.
Proof.
  intros Hs [T1 T2 T3 T4 T5]. constructor; [done|done|done| |].
  - intros f l i Hf Hl Hi Hn. rewrite (Hs f l i Hf Hi Hn). by apply T4.
  - intros f q i Hf. destruct (T5 f q i Hf) as (Hi & f' & Hf' & Hn & Hp & Hfr). split; [done|].
    exists f'. rewrite (Hs f' _ i Hf' Hi Hn). done.
Qed.

(** A walk that does not start with the first slot of the root. *)
Definition off_slot (f : Z) (path : list Z) : Prop := ∀ i rest, path = i :: rest → (f, i) ≠ (K, 0).

Lemma off_slot_child m f l i path :
  tables m → lab f = Some l → (length (l_path l) < 3)%nat → 0 ≤ i < 512 → (f, i) ≠ (K, 0) →
  present (entry_at m f i) = true → off_slot (frame (entry_at m f i)) path.
Proof.
  intros T Hf Hl Hi Hn Hp j rest -> [= E _]. pose proof (tb_edge _ T f l i Hf Hl Hi Hn Hp) as H.
  rewrite E, (tb_K _ T) in H. injection H as H. by destruct (l_path l).
Qed.

Lemma tables_walk m m' f l path :
  tables m → same_tables m m' → lab f = Some l → (length (l_path l) + length path ≤ 3)%nat →
  Forall (λ i, 0 ≤ i < 512) path → off_slot f path →
  walk (entry_at m') f path = walk (entry_at m) f path.
Proof.
  intros T Hs. revert f l. induction path as [|i path IH]; intros f l Hf Hl Hp Ho; cbn [walk]; [done|].
  apply Forall_cons in Hp as [Hi Hp]. cbn in Hl. pose proof (Ho i path eq_refl) as Hn. rewrite (Hs f l i Hf Hi Hn).
  destruct (present (entry_at m f i)) eqn:P; [|done].
  refine (IH _ _ (tb_edge _ T f l i Hf _ Hi Hn P) _ Hp _); [lia|cbn; rewrite length_app; cbn; lia|].
  apply (off_slot_child m f l i path T Hf); done || lia.
Qed.

Lemma tables_label m f l path f' :
  tables m → lab f = Some l → (length (l_path l) + length path ≤ 3)%nat →
  Forall (λ i, 0 ≤ i < 512) path → off_slot f path →
  walk (entry_at m) f path = Some f' → lab f' = Some (Lab K (l_path l ++ path)).
Proof.
  intros T. revert f l. induction path as [|i path IH]; intros f l Hf Hl Hp Ho; cbn [walk].
  - intros [= <-]. rewrite app_nil_r. destruct (tb_lab _ T f l Hf) as (_ & _ & E). by destruct l as [o q]; cbn in E; subst o.
  - apply Forall_cons in Hp as [Hi Hp]. cbn in Hl. pose proof (Ho i path eq_refl) as Hn.
    destruct (present (entry_at m f i)) eqn:P; [|done]. intros Hw.
    pose proof (IH _ _ (tb_edge _ T f l i Hf ltac:(lia) Hi Hn P) ltac:(cbn; rewrite length_app; cbn; lia) Hp
      (off_slot_child m f l i path T Hf ltac:(lia) Hi Hn P) Hw) as H. cbn in H. by rewrite <- app_assoc in H.
Qed.

Lemma off_slot_va va : PML4_IDX va ≠ 0 → off_slot K (table_path va).
Proof. intros H i rest E. unfold table_path in E. injection E as <- _. by intros [= ?]. Qed.

Lemma tables_translate m m' va :
  tables m → same_tables m m' → PML4_IDX va ≠ 0 → translate m' K va = translate m K va.
Proof.
  intros T Hs Hva. unfold translate, leaf.
  rewrite (tables_walk m m' K (Lab K []) (table_path va) T Hs (tb_K _ T) ltac:(cbn; lia) (table_path_ok va) (off_slot_va va Hva)).
  destruct (walk _ K (table_path va)) as [f|] eqn:Hw; [|done]. cbn.
  pose proof (tables_label m K _ (table_path va) f T (tb_K _ T) ltac:(cbn; lia) (table_path_ok va) (off_slot_va va Hva) Hw) as Hl.
  rewrite (Hs f _ (PT_IDX va) Hl (PT_IDX_range va)); [done|]. intros [= -> _]. rewrite (tb_K _ T) in Hl. done.
Qed.
End tables.

(** ** The configuration page *)

Section config.
Context (K cnt c : Z) (lab : Z → option label).
Implicit Types (k : kstate Term.terminal).

(** The page at [KERNEL_INFO] is frame [c], which is not a table. *)
Record info_at k : Prop := {
  in_tables : tables K cnt lab (phys (mm k));
  in_cr3 : cr3 k = K * 4096;
  in_map : ∃ e, translate (phys (mm k)) K KERNEL_INFO = Some e ∧ frame e = c;
  in_frame : lab c = None;
}.

Definition with_phys (m : mem) k : kstate Term.terminal := set_mm (set_phys m (mm k)) k.

Lemma info_byte k j : info_at k → 0 ≤ j < 4096 → vtranslate k (u64 (KERNEL_INFO + j)) = Some (c * 4096 + j).
Proof.
  intros [_ Hcr (e & He & Hc) _] Hj.
  destruct (page_path KERNEL_INFO j eq_refl ltac:(done) ltac:(vm_compute; discriminate) Hj) as (Hp & -> & Hm).
  unfold vtranslate. change PAGE_SIZE with 4096. rewrite Hcr, Z.div_mul by lia.
  rewrite (translate_full _ _ _ _ Hp), He. cbn. by rewrite Hm, Hc.
Qed.

Lemma info_same k m :
  info_at k → same_tables K lab (phys (mm k)) m → info_at (with_phys m k).
Proof.
  intros [T Hcr (e & He & Hc) Hn] Hs. constructor; [by apply (tables_same K cnt lab (phys (mm k)))|done| |done].
  exists e. split; [|done]. cbn [phys mm with_phys set_mm set_phys].
  by rewrite (tables_translate K cnt lab (phys (mm k))).
Qed.

Lemma le_combine_cons (b : byte) (l : list byte) :
  LittleEndianList.le_combine (b :: l) = b2z b + 256 * LittleEndianList.le_combine l.
Proof.
  pose proof (b2z_range b). change (LittleEndianList.le_combine (b :: l)) with
    (Z.lor (b2z b) (Z.shiftl (LittleEndianList.le_combine l) 8)).
  rewrite Z.lor_comm, lor_add_disjoint by (done || lia). lia.
Qed.

Lemma config_load k (n : nat) off :
  info_at k → 0 ≤ off → off + Z.of_nat n ≤ 4096 →
  vload (KERNEL_INFO + off) n k = Ok (LittleEndianList.le_combine (load_bytes (phys (mm k)) (c * 4096 + off) n), k).
Proof.
  intros Hin. revert off. induction n as [|n IH]; intros off H0 H1; [done|].
  assert (vload8 (KERNEL_INFO + off) k = Ok (phys (mm k) (c * 4096 + off), k)) as E.
  { unfold vload8, mbind, M_bind, get. by rewrite (info_byte k off Hin) by lia. }
  cbn [vload]. unfold mbind, M_bind. rewrite E, <- Z.add_assoc, (IH (off + 1)) by lia.
  unfold load_bytes. cbn [zseq fmap list_fmap]. by rewrite le_combine_cons, <- Z.add_assoc.
Qed.

Lemma config_get_ok k off :
  info_at k → 0 ≤ off → off + 8 ≤ 4096 → config_get off k = Ok (rd64 (phys (mm k)) (c * 4096 + off), k).
Proof. intros Hin H0 H1. by apply (config_load k 8). Qed.

Lemma config_set_ok k off v :
  info_at k → 0 ≤ off → off + 8 ≤ 4096 →
  ∃ m, config_set off v k = Ok ((), with_phys m k) ∧ ∀ x, x < c * 4096 + off ∨ c * 4096 + off + 8 ≤ x → m x = phys (mm k) x.
Proof.
  intros Hin H0 H1.
  assert (wp (config_set off v) (λ _ k', ∃ m, k' = with_phys m k ∧
    ∀ x, x < c * 4096 + off ∨ c * 4096 + off + 8 ≤ x → m x = phys (mm k) x) k) as H; cycle 1.
  { apply wp_ok in H as ([] & k' & Hrun & m & -> & Hm). by exists m. }
  unfold config_set, Thread.vstore64.
  apply (wp_mfor _ _ (λ _ k', ∃ m, k' = with_phys m k ∧
    ∀ x, x < c * 4096 + off ∨ c * 4096 + off + 8 ≤ x → m x = phys (mm k) x)).
  - exists (phys (mm k)). unfold with_phys. by rewrite set_phys_same, set_mm_same.
  - intros dn i rest k' Hz (m & -> & Hm). destruct (zseq_split _ _ _ _ _ Hz) as [Hi Hlen]. change (Z.of_nat 8) with 8 in *.
    assert (0 ≤ i < 8) as Hir by lia.
    assert (info_at (with_phys m k)) as Hin'.
    { apply info_same; [done|]. apply same_tables_bytes. intros x Hx. apply Hm.
      assert (x / 4096 ≠ c) by (intros E; rewrite E, (in_frame _ Hin) in Hx; done). dlia. }
    unfold vstore8. apply wp_bind, wp_get. apply wp_bind. rewrite <- Z.add_assoc.
    eapply wp_deref; [apply (info_byte _ _ Hin'); lia|]. eapply wp_eq; [by apply liftm_ok|].
    eexists. split; [reflexivity|]. intros x Hx. cbn [mm with_phys set_mm phys set_phys].
    rewrite fn_lookup_insert_ne by lia. by apply Hm.
  - intros k' H. exact H.
Qed.

(** The page keeps its place while its bytes change. *)
Lemma info_write k m :
  info_at k → (∀ x, x / 4096 ≠ c → m x = phys (mm k) x) → info_at (with_phys m k).
Proof.
  intros Hin Hm. apply info_same; [done|]. apply same_tables_bytes. intros x Hx. apply Hm.
  intros E. by rewrite E, (in_frame _ Hin) in Hx.
Qed.

Lemma config_vaddr_ok k off :
  info_at k → bld (mm k) = kernel64 → 0 ≤ off → off + 8 ≤ 4096 →
  ∃ m, config_vaddr off k = Ok (VADDR kernel64 (rd64 (phys (mm k)) (c * 4096 + off)), with_phys m k) ∧
    (∀ x, x < c * 4096 + off ∨ c * 4096 + off + 8 ≤ x → m x = phys (mm k) x) ∧ info_at (with_phys m k).
Proof.
  intros Hin Hb H0 H1. unfold config_vaddr, kbld, mbind, M_bind, gets. rewrite Hb, config_get_ok by done.
  destruct (config_set_ok k off (VADDR kernel64 (rd64 (phys (mm k)) (c * 4096 + off))) Hin H0 H1) as (m & Hrun & Hm).
  exists m. rewrite Hrun. split; [done|]. split; [done|]. apply info_write; [done|]. intros x Hx. apply Hm. dlia.
Qed.
End config.

(** ** The memory at the entry of the kernel *)

Section handed.
Context (K f cnt P c : Z) (lab : Z → option label).
Implicit Types (k : kstate Term.terminal) (m : mem).

(** [K] is the frame of the PML4, [f] the table of the kernel's high pages,
    [P] the physical address of the page array with [cnt] elements, [c] the
    frame of the configuration page and [lab] labels the page tables. *)
Record handed k : Prop := {
  hd_info : info_at K cnt c lab k;
  hd_bld : bld (mm k) = kernel64;
  hd_cnt : 0 < cnt ∧ 512 * cnt + 2 < 2 ^ 32;
  hd_pml4 : rd64 (phys (mm k)) (c * 4096) = K * 4096;
  hd_pages : rd64 (phys (mm k)) (c * 4096 + 8) = P;
  hd_pages_cnt : rd64 (phys (mm k)) (c * 4096 + 16) = cnt;
  hd_array : 0 ≤ P ∧ P + 24 * cnt ≤ 2 ^ 35;
  hd_array_free x : P ≤ x < P + 24 * cnt → x / 4096 ≠ c ∧ lab (x / 4096) = None;
  hd_page i : 0 ≤ i < cnt → loader_page P (phys (mm k)) i;
  hd_used i : 0 ≤ i < cnt → links32 P (phys (mm k)) i ≠ 0 → lab i = None;
  hd_zero : links32 P (phys (mm k)) 0 = 0 ∧ lab 0 = None;
  hd_gap : present (entry_at (phys (mm k)) K KIDX) = false;
  hd_high : walk (entry_at (phys (mm k))) K temp_path = Some f;
  hd_temp : entry_at (phys (mm k)) f temp_idx = 0;
  hd_stacks va : va ∈ stack_pages → entry_at (phys (mm k)) f (PT_IDX va) = 0;
  hd_kern : kleaf_ok K (phys (mm k));
}.

(** The variables of the kernel after the zero-initialised section is cleared
    and the terminal is reset. *)
Record fresh k : Prop := {
  fr_con : con_ok (con (mm k));
  fr_tasks i : tasks k i = zero_task;
  fr_free : Lst.lrep (free_tasks k) [];
  fr_next : next_task_idx k = 0;
}.

(** The bytes the description is about. *)
Definition described (x : Z) : Prop := lab (x / 4096) ≠ None ∨ x / 4096 = c ∨ P ≤ x < P + 24 * cnt.

(** The ghost state the kernel starts with: the loader's tables and free
    pages, one reference to every other page. *)
Definition handed_ghost m : ghost :=
  Ghost lab (free32 P m (Z.to_nat cnt))
    (λ d, if bool_decide (d ∈ free32 P m (Z.to_nat cnt) ∨ is_Some (lab d)) then 0 else 1).

Lemma free32_elem m d : 0 ≤ cnt → d ∈ free32 P m (Z.to_nat cnt) ↔ 0 ≤ d < cnt ∧ links32 P m d ≠ 0.
Proof.
  clear K f c lab. intros Hc. unfold free32. rewrite list_elem_of_filter, zseq_elem, Z2Nat.id by done. rewrite Z.add_0_l. tauto.
Qed.

(** The invariant of the page tables, from the tables and the array. *)
Lemma handed_wf m s :
  0 < cnt ∧ 512 * cnt + 2 < 2 ^ 32 → tables K cnt lab (phys s) → entry_at (phys s) K 0 = 0 →
  bld s = kernel64 → pages_cnt s = cnt → con_ok (con s) →
  Lst.lrep (free s) (free32 P m (Z.to_nat cnt)) → (∀ i, 0 ≤ i < cnt → refs s i = ref32 P m i) →
  (∀ i, 0 ≤ i < cnt → loader_page P m i) → (∀ i, 0 ≤ i < cnt → links32 P m i ≠ 0 → lab i = None) →
  wf K s (handed_ghost m).
Proof.
  intros Hc T H0 Hb Hn Hcon Hl Hr Hpg Hu. pose proof (λ d, free32_elem m d ltac:(lia)) as Hfl.
  assert (∀ x, uleaf K (handed_ghost m) x = false) as Hleaf.
  { intros x. unfold uleaf. cbn. destruct (lab x) as [l|] eqn:E; [|done]. destruct (tb_lab _ _ _ _ T x l E) as (_ & _ & ->).
    by rewrite Z.eqb_refl, andb_false_r. }
  assert (∀ d, ucount K (phys s) (handed_ghost m) (pages_cnt s) d = 0) as Hcount.
  { intros d. apply zsum_zero. intros [x i] _. unfold refers. cbn [fst]. by rewrite Hleaf. }
  assert (∀ l i, l_owner l = K → child K l i = Lab K (l_path l ++ [i])) as Hch.
  { intros [o q] i E. cbn in E. subst o. unfold child. cbn. case_bool_decide as Eq; cbn; [|done]. subst q. by destruct (KIDX <=? i). }
  constructor.
  - split; [by rewrite Hb|]. rewrite Hb, Hn. cbn. lia.
  - split; [done|]. intros p Hp%Hfl. unfold in_range. rewrite Hn. lia.
  - done.
  - intros p Hp. cbn in Hp. split; [apply Hu; apply Hfl; done|]. cbn. by rewrite bool_decide_true by (by left).
  - intros x l Hx. cbn in Hx. destruct (tb_lab _ _ _ _ T x l Hx) as (Hr1 & Hr2 & _). unfold in_range. rewrite Hn.
    split; [done|]. split; [done|]. rewrite Hr by done. apply (Hpg x Hr1).
    destruct (decide (links32 P m x = 0)); [done|]. by rewrite (Hu x) in Hx.
  - intros x l Hx. cbn in Hx. cbn. rewrite bool_decide_true; [done|]. right. by rewrite Hx.
  - intros x o Hx. cbn in Hx. pose proof (tb_lab _ _ _ _ T x _ Hx) as (_ & _ & E). cbn in E. subst o.
    exact (tb_inj _ _ _ _ T x K _ Hx (tb_K _ _ _ _ T)).
  - exact (tb_inj _ _ _ _ T).
  - intros x l i Hx Hlen Hi Hp. cbn in *. destruct (tb_lab _ _ _ _ T x l Hx) as (_ & _ & E). rewrite (Hch l i E).
    apply (tb_edge _ _ _ _ T); try done. intros [= -> ->]. by rewrite H0 in Hp.
  - intros x o q i Hx. cbn in Hx. pose proof (tb_lab _ _ _ _ T x _ Hx) as (_ & _ & E). cbn in E. subst o.
    destruct (tb_back _ _ _ _ T x q i Hx) as (Hi & x' & Hx' & _ & Hp). split; [done|]. by exists x'.
  - intros x i Hx. by rewrite Hleaf in Hx.
  - intros d Hd Hnf Hnl. cbn in Hnf, Hnl. unfold in_range in Hd. rewrite Hn in Hd. rewrite Hcount. cbn.
    rewrite bool_decide_false; [|intros [?|[? ?]]; congruence].
    rewrite (Hr d Hd). assert (links32 P m d = 0) as E by (destruct (decide (links32 P m d = 0)); [done|]; exfalso; apply Hnf, Hfl; done).
    rewrite (proj1 (Hpg d Hd) E). lia.
Qed.

(** The array is read as the loader left it. *)
Lemma loader_array_same m m' i :
  (∀ x, P ≤ x < P + 24 * cnt → m' x = m x) → 0 ≤ i < cnt → ref32 P m' i = ref32 P m i ∧ links32 P m' i = links32 P m i.
Proof. intros H Hi. split; apply rdn_ext; intros x Hx; apply H; lia. Qed.

Lemma free32_same m m' :
  (∀ x, P ≤ x < P + 24 * cnt → m' x = m x) → free32 P m' (Z.to_nat cnt) = free32 P m (Z.to_nat cnt).
Proof.
  intros H. apply filter_ext_elem. intros i Hi%zseq_elem. destruct (loader_array_same m m' i H) as [_ ->]; [lia|done].
Qed.

(** The memory and the records after the loop. *)
Definition taken m q r k : kstate Term.terminal :=
  set_config_pml4 (VADDR kernel64 (K * 4096)) (set_cpu_pml4 (VADDR kernel64 (K * 4096))
    (set_mm (MState kernel64 m (VADDR kernel64 P) cnt r q (shot (mm k)) (con (mm k))) k)).

Record took_over k m q r : Prop := {
  to_tables : same_tables K lab (phys (mm k)) m;
  to_slot : entry_at m K 0 = 0;
  to_mem x : lab (x / 4096) = None → x / 4096 ≠ c → x < P ∨ P + 24 * cnt ≤ x → m x = phys (mm k) x;
  to_free : Lst.lrep q (free32 P (phys (mm k)) (Z.to_nat cnt));
  to_refs i : 0 ≤ i < cnt → r i = ref32 P (phys (mm k)) i;
}.

Lemma took_booted k m q r :
  handed k → fresh k → took_over k m q r → booted K f (taken m q r k) (handed_ghost (phys (mm k))).
Proof.
  intros H F [S1 S2 S3 S4 S5]. pose proof (hd_info _ H) as Hin. pose proof (in_tables _ _ _ _ _ Hin) as T.
  pose proof (tables_same K cnt lab _ _ S1 T) as T'. pose proof (hd_cnt _ H) as Hc.
  assert (∀ va, PML4_IDX va ≠ 0 → walk (entry_at m) K (table_path va) = walk (entry_at (phys (mm k))) K (table_path va)) as Hw.
  { intros va Hva. apply (tables_walk K cnt lab _ _ K (Lab K [])); [done|done|apply T|cbn; lia|apply table_path_ok|by apply off_slot_va]. }
  assert (∀ x o, lab x = Some (Lab o []) → x = K) as Hroot.
  { intros x o Hx. pose proof (tb_lab _ _ _ _ T x _ Hx) as (_ & _ & E). cbn in E. subst o. exact (tb_inj _ _ _ _ T x K _ Hx (tb_K _ _ _ _ T)). }
  assert (PML4_IDX KERNEL_TEMP ≠ 0) as Ht0 by done.
  assert (lab f = Some (Lab K temp_path)) as Hf.
  { exact (tables_label K cnt lab _ K (Lab K []) temp_path f T (tb_K _ _ _ _ T) ltac:(cbn; lia) (table_path_ok _) (off_slot_va K _ Ht0) (hd_high _ H)). }
  assert (f ≠ K) as HfK by (intros ->; rewrite (tb_K _ _ _ _ T) in Hf; done).
  assert (∀ i, 0 ≤ i < 512 → entry_at m f i = entry_at (phys (mm k)) f i) as Hfe.
  { intros i Hi. apply (S1 f _ i Hf Hi). by intros [= ? _]. }
  constructor; cbn [mm taken set_config_pml4 set_cpu_pml4 set_mm phys bld config_pml4 cpu_pml4 cr3 tasks free_tasks next_task_idx]; try done.
  - apply handed_wf; try done; apply H || apply F.
  - split; [done|]. cbn. lia.
  - apply T.
  - exact (in_cr3 _ _ _ _ _ Hin).
  - intros x o i Hx Hi. by rewrite (Hroot x o Hx).
  - rewrite (S1 K _ KIDX (tb_K _ _ _ _ T)) by (rewrite KIDX_val; lia || (intros [= ?])). apply H.
  - constructor; [done| |cbn; rewrite Hfe by apply PT_IDX_range; apply H].
    intros x o Hx. rewrite (Hroot x o Hx). unfold temp_path. cbn [phys]. rewrite Hw by done. apply H.
  - intros va Hva. rewrite Hfe by apply PT_IDX_range. by apply H.
  - intros d. cbn. destruct (bool_decide _); lia.
  - cbn. rewrite bool_decide_false; [done|]. destruct (hd_zero _ H) as [Hz Hz']. rewrite free32_elem by lia.
    intros [[_ ?]|[? E]]; congruence.
  - assert (∀ x va e, ¬ uview K m (handed_ghost (phys (mm k))) x va e) as Hno by (intros x va e ([Hx Hx'] & _); by apply Hx', (Hroot x x)).
    constructor; [intros x va e Hv|intros x va e x' va' e' Hv]; destruct (Hno _ _ _ Hv).
  - intros va x Hva. assert (PML4_IDX va ≠ 0) as Hva0 by (rewrite KIDX_val in Hva; lia). rewrite (Hw va Hva0). intros Hx.
    pose proof (tables_label K cnt lab _ K (Lab K []) (table_path va) x T (tb_K _ _ _ _ T) ltac:(cbn; lia) (table_path_ok _)
      (off_slot_va K va Hva0) Hx) as Hl.
    rewrite (S1 x _ (PT_IDX va) Hl (PT_IDX_range va)); [by apply H|]. intros [= -> _]. by rewrite (tb_K _ _ _ _ T) in Hl.
  - exact (fr_tasks _ F).
  - exact (fr_free _ F).
  - exact (fr_next _ F).
Qed.

(** The three pointers of the configuration page become virtual addresses;
    nothing outside that page changes. *)
Lemma config_taken k :
  handed k →
  ∃ m, (gdt ← config_vaddr 24; pml4 ← config_vaddr 0; pgs ← config_vaddr 8; mret (gdt, pml4, pgs)) k =
      Ok ((VADDR kernel64 (rd64 (phys (mm k)) (c * 4096 + 24)), VADDR kernel64 (K * 4096), VADDR kernel64 P), with_phys m k) ∧
    (∀ x, x / 4096 ≠ c → m x = phys (mm k) x) ∧ rd64 m (c * 4096 + 16) = cnt ∧ info_at K cnt c lab (with_phys m k).
Proof.
  intros H. pose proof (hd_info _ H) as Hin. pose proof (hd_bld _ H) as Hb. unfold mbind, M_bind.
  destruct (config_vaddr_ok K cnt c lab k 24 Hin Hb) as (m1 & -> & Hm1 & Hin1); [lia|lia|].
  destruct (config_vaddr_ok K cnt c lab (with_phys m1 k) 0 Hin1 Hb) as (m2 & -> & Hm2 & Hin2); [lia|lia|].
  destruct (config_vaddr_ok K cnt c lab (with_phys m2 (with_phys m1 k)) 8 Hin2 Hb) as (m3 & -> & Hm3 & Hin3); [lia|lia|].
  change (phys (mm (with_phys ?m _))) with m in *.
  assert (∀ x, x < c * 4096 ∨ c * 4096 + 16 ≤ x < c * 4096 + 24 ∨ c * 4096 + 32 ≤ x → m3 x = phys (mm k) x) as Hm.
  { intros x Hx. rewrite Hm3, Hm2, Hm1 by lia. done. }
  exists m3. split; [|split; [|split; [|exact Hin3]]].
  - unfold mret, M_ret. rewrite Z.add_0_r, <- (hd_pml4 _ H), <- (hd_pages _ H).
    rewrite (rd64_ext m1 (phys (mm k))) by (intros x Hx; apply Hm1; lia).
    by rewrite (rd64_ext m2 (phys (mm k))) by (intros x Hx; rewrite Hm2, Hm1 by lia; done).
  - intros x Hx. apply Hm. dlia.
  - rewrite <- (hd_pages_cnt _ H). apply rd64_ext. intros x Hx. apply Hm. lia.
Qed.

Lemma K_page k : handed k → 0 ≤ K < cnt ∧ K ≠ c ∧ PADDR kernel64 (VADDR kernel64 (K * 4096)) = K * 4096.
Proof.
  intros H. pose proof (hd_info _ H) as Hin. pose proof (in_tables _ _ _ _ _ Hin) as T. pose proof (hd_cnt _ H) as Hc.
  destruct (tb_lab _ _ _ _ T K _ (tb_K _ _ _ _ T)) as (HK & _ & _). split; [done|]. split.
  - intros E. pose proof (in_frame _ _ _ _ _ Hin) as Hn. by rewrite <- E, (tb_K _ _ _ _ T) in Hn.
  - apply PADDR_VADDR; [done|]. cbn [ptr_bits kernel64]. lia.
Qed.

(** The array, the first slot and the page with the configuration are apart. *)
Lemma array_apart k m x :
  handed k → (∀ x, x / 4096 ≠ c → m x = phys (mm k) x) → P ≤ x < P + 24 * cnt →
  wr64 m (K * 4096) 0 x = phys (mm k) x.
Proof.
  intros H Hm Hx. destruct (hd_array_free _ H x Hx) as [Hxc Hl]. rewrite wr64_out; [by apply Hm|].
  pose proof (tb_K _ _ _ _ (in_tables _ _ _ _ _ (hd_info _ H))) as HK.
  assert (x / 4096 ≠ K) by congruence. dlia.
Qed.

Lemma taken_over k m m' q r :
  handed k → (∀ x, x / 4096 ≠ c → m x = phys (mm k) x) →
  keeps P cnt 0 (wr64 m (K * 4096) 0) m' → Lst.lrep q (free32 P (phys (mm k)) (Z.to_nat cnt)) →
  (∀ i, 0 ≤ i < cnt → r i = ref32 P (phys (mm k)) i) → took_over k m' q r.
Proof.
  intros H Hm Hk Hq Hr. pose proof (hd_info _ H) as Hin. pose proof (tb_K _ _ _ _ (in_tables _ _ _ _ _ Hin)) as HK.
  assert (∀ x, lab (x / 4096) ≠ None → m' x = wr64 m (K * 4096) 0 x) as Ht.
  { intros x Hx. apply Hk. destruct (decide (P ≤ x < P + 24 * cnt)) as [Hi|]; [|lia]. by destruct (hd_array_free _ H x Hi). }
  constructor; [| | |done|done].
  - apply (same_tables_trans _ _ _ m); [|apply (same_tables_trans _ _ _ (wr64 m (K * 4096) 0))].
    + apply same_tables_bytes. intros x Hx. apply Hm. intros E. by rewrite E, (in_frame _ _ _ _ _ Hin) in Hx.
    + apply same_tables_slot.
    + by apply same_tables_bytes.
  - transitivity (entry_at (wr64 m (K * 4096 + 8 * 0) 0) K 0); [|apply entry_wr_eq].
    apply rd64_ext. intros x Hx. rewrite Ht, Z.add_0_r; [done|].
    replace (x / 4096) with K by (apply Z.div_unique with (x - K * 4096); lia). congruence.
  - intros x Hl Hxc Hx. rewrite Hk, wr64_out by (lia || (assert (x / 4096 ≠ K) by congruence; dlia)). by apply Hm.
Qed.

Lemma init_mmap_ok free_head k :
  handed k → con_ok (con (mm k)) →
  ∃ m q r con', kernel_init_mmap free_head k =
      Ok (VADDR kernel64 (rd64 (phys (mm k)) (c * 4096 + 24)), set_mm (set_con con' (mm (taken m q r k))) (taken m q r k)) ∧
    con_ok con' ∧ took_over k m q r.
Proof.
  intros H Hco. destruct (config_taken k H) as (m & Hrun & Hm & H16 & Hin). destruct (K_page k H) as (HK & HKc & HKp).
  pose proof (hd_cnt _ H) as Hc. pose proof (hd_bld _ H) as Hb. set (m0 := wr64 m (K * 4096) 0).
  pose proof (λ x, array_apart k m x H Hm) as Hap. fold m0 in Hap.
  set (s := MState kernel64 m0 (VADDR kernel64 P) cnt (refs (mm k)) (Lst.LIST_INIT (free (mm k))) (shot (mm k)) (con (mm k))).
  destruct (convert_pages_ok free_head P cnt (Z.to_nat cnt) s [] 0) as (q & m' & r & Hconv & Hq & Hk & Hr);
    [constructor; try done; apply H|lia|apply Lst.lrep_init|by intros x Hx%elem_of_nil| |lia|].
  { intros i Hi. destruct (loader_array_same (phys (mm k)) m0 i Hap) as [E1 E2]; [lia|]. unfold loader_page. cbn [phys s].
    rewrite E1, E2. apply (hd_page _ H). lia. }
  rewrite app_nil_r in Hq. cbn [phys s] in Hconv, Hq, Hk, Hr. rewrite (free32_same _ _ Hap) in Hq.
  assert (took_over k m' q r) as Hto.
  { apply (taken_over k m); try done. intros i Hi. rewrite Hr. replace (_ && _) with true by lia.
    by destruct (loader_array_same (phys (mm k)) m0 i Hap Hi). }
  destruct (kprintf_ok ("Pages stat: used: `%u', free: `%u'" ++ nl)
    [AInt (0 + Z.of_nat (length (used32 P m0 (Z.to_nat cnt)))); AInt (cnt - (0 + Z.of_nat (length (used32 P m0 (Z.to_nat cnt)))))]
    (taken m' q r k) eq_refl Hco) as (con' & Hpr & Hcon).
  exists m', q, r, con'. split; [|done].
  revert Hrun. unfold kernel_init_mmap, mbind, M_bind.
  destruct (config_vaddr 24 k) as [[v1 k1]|]; [|done]. destruct (config_vaddr 0 k1) as [[v2 k2]|]; [|done].
  destruct (config_vaddr 8 k2) as [[v3 k3]|]; [|done]. unfold mret, M_ret. intros [= -> -> -> ->].
  unfold modify, get. rewrite (config_get_ok K cnt c lab) by (lia || (destruct Hin; by constructor)).
  change (phys (mm (set_cpu_pml4 _ _))) with m. rewrite H16. unfold liftm at 1 2 3, zoom.
  unfold mmap_init, kwrite, modify.
  cbn [mm set_mm set_phys bld phys set_cpu_pml4 set_config_pml4 with_phys pages pages_cnt refs free shot con].
  rewrite Hb, HKp. fold m0.
  match goal with |- context [convert_pages _ _ _ _ ?x] => change x with s end. rewrite Hconv.
  match goal with |- context [kprintf _ _ ?x] => change x with (taken m' q r k) end. by rewrite Hpr.
Qed.

(** The entries of the tables do not depend on other bytes. *)
Lemma described_tables m m' : (∀ x, described x → m' x = m x) → same_tables K lab m m'.
Proof. intros H. apply same_tables_bytes. intros x Hx. apply H. by left. Qed.

Lemma kernel_walk_lab m va x :
  tables K cnt lab m → PML4_IDX va ≠ 0 → walk (entry_at m) K (table_path va) = Some x → lab x = Some (Lab K (table_path va)).
Proof.
  intros T Hva Hw. exact (tables_label K cnt lab m K (Lab K []) (table_path va) x T (tb_K _ _ _ _ T) ltac:(cbn; lia)
    (table_path_ok _) (off_slot_va K va Hva) Hw).
Qed.

Lemma handed_same k k' :
  handed k → bld (mm k') = bld (mm k) → cr3 k' = cr3 k → (∀ x, described x → phys (mm k') x = phys (mm k) x) → handed k'.
Proof.
  intros H Hb Hcr Hd. pose proof (hd_info _ H) as Hin. pose proof (in_tables _ _ _ _ _ Hin) as T.
  pose proof (described_tables _ _ Hd) as S1. pose proof (tb_K _ _ _ _ T) as HK. pose proof (hd_cnt _ H) as Hc.
  assert (∀ va, PML4_IDX va ≠ 0 →
    walk (entry_at (phys (mm k'))) K (table_path va) = walk (entry_at (phys (mm k))) K (table_path va)) as Hw.
  { intros va Hva. apply (tables_walk K cnt lab _ _ K (Lab K [])); [done|done|done|cbn; lia|apply table_path_ok|by apply off_slot_va]. }
  assert (∀ va x, PML4_IDX va ≠ 0 → walk (entry_at (phys (mm k))) K (table_path va) = Some x →
    entry_at (phys (mm k')) x (PT_IDX va) = entry_at (phys (mm k)) x (PT_IDX va)) as Hleaf.
  { intros va x Hva Hx. pose proof (kernel_walk_lab _ va x T Hva Hx) as Hl. apply (S1 x _ _ Hl (PT_IDX_range va)).
    intros [= -> _]. rewrite HK in Hl. discriminate Hl. }
  assert (∀ off, 0 ≤ off → off + 8 ≤ 4096 → rd64 (phys (mm k')) (c * 4096 + off) = rd64 (phys (mm k)) (c * 4096 + off)) as Hcf.
  { intros off H0 H1. apply rd64_ext. intros x Hx. apply Hd. right. left. dlia. }
  assert (∀ x, P ≤ x < P + 24 * cnt → phys (mm k') x = phys (mm k) x) as Har by (intros x Hx; apply Hd; by right; right).
  assert (∀ i, 0 ≤ i < cnt → links32 P (phys (mm k')) i = links32 P (phys (mm k)) i) as Hlk.
  { intros i Hi. by destruct (loader_array_same (phys (mm k)) (phys (mm k')) i Har Hi). }
  assert (∀ va, table_path va = temp_path →
    entry_at (phys (mm k')) f (PT_IDX va) = entry_at (phys (mm k)) f (PT_IDX va)) as Hf.
  { intros va Hva. apply Hleaf; [|rewrite Hva; apply H]. unfold temp_path, table_path in Hva. by injection Hva as -> _. }
  constructor; try (apply H).
  - constructor; [by apply (tables_same K cnt lab (phys (mm k)))|by rewrite Hcr; apply Hin| |apply Hin].
    destruct (in_map _ _ _ _ _ Hin) as (e & He & Hce). exists e.
    by rewrite (tables_translate K cnt lab (phys (mm k)) (phys (mm k'))).
  - rewrite Hb. apply H.
  - rewrite <- (Z.add_0_r (c * 4096)), Hcf, Z.add_0_r by lia. apply H.
  - rewrite Hcf by lia. apply H.
  - rewrite Hcf by lia. apply H.
  - intros i Hi. unfold loader_page. destruct (loader_array_same (phys (mm k)) (phys (mm k')) i Har Hi) as [-> ->]. by apply H.
  - intros i Hi. rewrite Hlk by done. by apply H.
  - rewrite Hlk by lia. apply H.
  - rewrite (S1 K _ KIDX HK); [apply H|rewrite KIDX_val; lia|by intros [= ?]].
  - unfold temp_path. rewrite Hw by done. apply H.
  - unfold temp_idx. rewrite Hf by done. apply H.
  - intros va Hva. destruct stack_pages_table as [Htab _]. rewrite Forall_forall in Htab. destruct (Htab va Hva) as [Hp _].
    rewrite Hf by done. by apply H.
  - intros va x Hva. assert (PML4_IDX va ≠ 0) as Hva0 by (rewrite KIDX_val in Hva; lia). rewrite (Hw va Hva0). intros Hx.
    rewrite (Hleaf va x Hva0 Hx). by apply H.
Qed.
End handed.
