(* ===== verification/QueueTheorems.v ===== *)
(** The correctness theorems of the list families of stdlib/queue.h. *)

From S2P Require Import Prelude Queue QueueFamilies QueueProofs.
From S2P Require Import QueueInstances.

Inductive family_name := SList | STailq | Simpleq | Tailq | Circleq.

Definition family (f : family_name) : Family :=
  match f with
  | SList => slist | STailq => stailq | Simpleq => simpleq | Tailq => tailq | Circleq => circleq
  end.

(** C38: every family of stdlib/queue.h implements lists.  For any memory and
    any number of heads, a sequence of initialisations, insertions (at the
    head, at the tail, after or before an element), removals and
    concatenations that the family has and that is meaningful for disjoint
    lists without repetition runs to the end without a bad dereference, and
    then for every head [FOREACH] visits exactly its list in order and stops,
    [EMPTY] and [FIRST] answer for that list, and [NEXT] of an element is the
    element after it. *)
Theorem queue_families_refine f k os s L :
  let F := family f in
  Forall (λ o, supports o = true) os → (length os < k)%nat → run_qops abs_qop os ∅ = Some L →
  ∃ s', run_qops (exec k) os s = Some s' ∧
    ∀ h l, L !! h = Some l →
      each k h s' = Some l ∧ empty h s' = bool_decide (l = []) ∧ first h s' = firstp l (stop h) ∧
      ∀ l1 x l2, l = l1 ++ x :: l2 → next x s' = firstp l2 (stop h).
Proof.
  intros F Hs Hk Hr. destruct (run_qops_empty k os s L Hs Hk Hr) as (s' & E & [Hrep _] & Hlen).
  exists s'. split; [done|]. intros h l Hl. destruct (Hrep h l Hl) as [_ H].
  split_and!; [by apply each_rep; [|by eapply Hlen]|by apply empty_rep|by apply first_rep|].
  intros l1 x l2 ->. by eapply next_rep.
Qed.

(** Two queues that are filled, edited and joined. *)
Definition demo_ops : list qop :=
  [OInit 1; OInit 2; OLoc 1 (InsHead 10); OLoc 1 (InsTail 11); OLoc 2 (InsTail 20); OLoc 2 (InsTail 21);
   OLoc 1 (InsAfter 10 12); OLoc 1 (Rem 10); OConcat 1 2; OLoc 2 (InsHead 10)].

Definition junk : store := λ _, Cell (Some (El 77)) None.

Lemma queue_families_refine_witness :
  ∃ s', run_qops (exec (Family := family Tailq) 11) demo_ops junk = Some s' ∧
    TAILQ_FOREACH 11 1 s' = Some [12; 11; 20; 21] ∧ TAILQ_NEXT 11 s' = Some (El 20).
Proof.
  destruct (queue_families_refine Tailq 11 demo_ops junk (<[1 := [12; 11; 20; 21]]> (<[2 := [10]]> ∅)))
    as (s' & H1 & H2).
  - repeat constructor.
  - cbn. lia.
  - vm_compute. reflexivity.
  - exists s'. split; [exact H1|]. destruct (H2 1 [12; 11; 20; 21]) as (H3 & _ & _ & H4); [reflexivity|].
    split; [exact H3|]. apply (H4 [12] 11 [20; 21]). reflexivity.
Defined.

(** The doubly linked families can be walked backwards.  After any such
    program the reverse traversals of [TAILQ] (which reads entries through
    pointers to heads) and of [CIRCLEQ] visit the reversed list and stop,
    [LAST] and [PREV] are the last element and the one before, and the [LOOP]
    macros of [CIRCLEQ] go round the list. *)
Theorem queue_backward k os s L :
  (length os < k)%nat → run_qops abs_qop os ∅ = Some L →
  (Forall (λ o, tailq_supports o = true) os →
   ∃ s', run_qops (tailq_exec k) os s = Some s' ∧ ∀ h l, L !! h = Some l →
     TAILQ_FOREACH_REVERSE k h s' = Some (rev l) ∧ TAILQ_LAST h s' = Some (firstp (rev l) None) ∧
     ∀ l1 x l2, l = l1 ++ x :: l2 → TAILQ_PREV x s' = Some (firstp (rev l1) None)) ∧
  (Forall (λ o, circleq_supports o = true) os →
   ∃ s', run_qops (circleq_exec k) os s = Some s' ∧ ∀ h l, L !! h = Some l →
     CIRCLEQ_FOREACH_REVERSE k h s' = Some (rev l) ∧ CIRCLEQ_LAST h s' = firstp (rev l) (Some (Hd h)) ∧
     ∀ l1 x l2, l = l1 ++ x :: l2 →
       CIRCLEQ_PREV x s' = firstp (rev l1) (Some (Hd h)) ∧
       CIRCLEQ_LOOP_NEXT h x s' = firstp (l2 ++ l1 ++ [x]) None ∧
       CIRCLEQ_LOOP_PREV h x s' = firstp (rev (x :: l2 ++ l1)) None).
Proof.
  intros Hk Hr. split; intros Hs.
  - destruct (run_qops_empty (F := tailq) k os s L Hs Hk Hr) as (s' & E & [Hrep _] & Hlen).
    exists s'. split; [done|]. intros h l Hl. destruct (Hrep h l Hl) as [_ H].
    split_and!; [by apply tailq_reverse_ok; [|by eapply Hlen]|by apply tailq_last_ok|].
    intros l1 x l2 ->. by eapply tailq_prev_ok.
  - destruct (run_qops_empty (F := circleq) k os s L Hs Hk Hr) as (s' & E & [Hrep _] & Hlen).
    exists s'. split; [done|]. intros h l Hl. destruct (Hrep h l Hl) as [_ H].
    split_and!; [by apply circleq_reverse_ok; [|by eapply Hlen]|by apply (seg_first _ _ _ _ (proj2 H))|].
    intros l1 x l2 ->. by apply circleq_neighbours in H as (_ & ? & ? & ?).
Qed.

Lemma queue_backward_witness :
  ∃ s', run_qops (circleq_exec 5) [OInit 1; OLoc 1 (InsTail 7); OLoc 1 (InsBefore 7 6); OLoc 1 (InsTail 8)] junk = Some s' ∧
    CIRCLEQ_FOREACH_REVERSE 5 1 s' = Some [8; 7; 6] ∧ CIRCLEQ_LOOP_NEXT 1 8 s' = Some (El 6).
Proof.
  destruct (queue_backward 5 [OInit 1; OLoc 1 (InsTail 7); OLoc 1 (InsBefore 7 6); OLoc 1 (InsTail 8)] junk
    (<[1 := [6; 7; 8]]> ∅)) as [_ H].
  - cbn. lia.
  - vm_compute. reflexivity.
  - destruct H as (s' & H1 & H2); [repeat constructor|]. exists s'. split; [exact H1|].
    destruct (H2 1 [6; 7; 8]) as (H3 & _ & H4); [reflexivity|]. split; [exact H3|].
    apply (H4 [6; 7] 8 []). reflexivity.
Defined.
