(* ===== verification/LibTheorems.v ===== *)
(** The correctness theorems of the support code: the list macros
    (stdlib/queue.h), the string functions (stdlib/string.c, stdlib/stdlib.c),
    the terminal (kernel/lib/console/terminal.c) and the address arithmetic
    (kernel/lib/memory/mmu.h, layout.h). *)

From Stdlib Require Import String Ascii.
From S2P Require Import Prelude Memory Queue Mmu Cstring Console Terminal.

(** ** Lists *)

(** The abstract operations on a list of elements without repetition; [None]
    when the operation is not allowed there. *)
Inductive list_op := OHead (x : Z) | OAfter (y x : Z) | OBefore (y x : Z) | ORemove (x : Z).

Definition abs_op (o : list_op) (l : list Z) : option (list Z) :=
  match o with
  | OHead x => if decide (x ∈ l) then None else Some (x :: l)
  | OAfter y x => if decide (x ∈ l) then None else ins (λ y, [y; x]) y l
  | OBefore y x => if decide (x ∈ l) then None else ins (λ y, [x; y]) y l
  | ORemove x => ins (λ _, []) x l
  end.

(** The same operations by the macros; [None] is a NULL dereference. *)
Definition conc_op (o : list_op) (q : Lst.queue) : option Lst.queue :=
  match o with
  | OHead x => Some (Lst.LIST_INSERT_HEAD x q)
  | OAfter y x => Some (Lst.LIST_INSERT_AFTER y x q)
  | OBefore y x => Lst.LIST_INSERT_BEFORE y x q
  | ORemove x => Lst.LIST_REMOVE x q
  end.

Fixpoint run_ops {A} (f : list_op → A → option A) (os : list list_op) (a : A) : option A :=
  match os with
  | [] => Some a
  | o :: os' => f o a ≫= run_ops f os'
  end.

Lemma op_refines o q l l' :
  Lst.lrep q l → abs_op o l = Some l' → ∃ q', conc_op o q = Some q' ∧ Lst.lrep q' l'.
Proof.
  intros Hq. destruct o as [x|y x|y x|x]; cbn [abs_op conc_op].
  - destruct (decide _); [done|]. intros [= <-]. eexists. split; [done|]. by apply Lst.insert_head_rep.
  - destruct (decide _); [done|]. intros (l1 & l2 & -> & ->)%ins_split.
    eexists. split; [done|]. by apply Lst.insert_after_rep.
  - destruct (decide _); [done|]. intros (l1 & l2 & -> & ->)%ins_split. by apply Lst.insert_before_rep.
  - intros (l1 & l2 & -> & ->)%ins_split. by apply Lst.remove_rep.
Qed.

(** C37: the list macros implement lists.  Starting from [LIST_INIT], any
    sequence of insertions and removals that is meaningful for a list without
    repetition runs without a NULL dereference, and [LIST_FOREACH] then visits
    exactly the resulting list, in order, and stops. *)
Theorem list_macros_refine q os l :
  run_ops abs_op os [] = Some l →
  ∃ q', run_ops conc_op os (Lst.LIST_INIT q) = Some q' ∧
    ∀ n, (length l < n)%nat → Lst.LIST_FOREACH n q' = l.
Proof.
  assert (∀ l0 q0, Lst.lrep q0 l0 → run_ops abs_op os l0 = Some l →
    ∃ q', run_ops conc_op os q0 = Some q' ∧ Lst.lrep q' l) as Hsim.
  { induction os as [|o os IH]; intros l0 q0 H0; cbn [run_ops].
    - intros [= <-]. by exists q0.
    - destruct (abs_op o l0) as [l1|] eqn:E; [|done]. cbn. intros Hr.
      destruct (op_refines o q0 l0 l1 H0 E) as (q1 & -> & H1). cbn. by apply (IH l1). }
  intros Hr. destruct (Hsim [] (Lst.LIST_INIT q) (Lst.lrep_init q) Hr) as (q' & Hq & Hl).
  exists q'. split; [done|]. intros n Hn. by apply Lst.foreach_rep.
Qed.

Lemma list_macros_refine_witness :
  ∃ q', run_ops conc_op [OHead 3; OAfter 3 5; OBefore 3 4; OHead 1; ORemove 3]
    (Lst.LIST_INIT (Lst.Queue (Some 9) (λ _, Lst.null_entry))) = Some q' ∧ Lst.LIST_FOREACH 10 q' = [1; 4; 5].
Proof.
  destruct (list_macros_refine (Lst.Queue (Some 9) (λ _, Lst.null_entry))
    [OHead 3; OAfter 3 5; OBefore 3 4; OHead 1; ORemove 3] [1; 4; 5]) as (q' & H1 & H2).
  - vm_compute. reflexivity.
  - exists q'. split; [exact H1|]. apply H2. cbn. lia.
Defined.

(** ** Strings *)

Import Cstring.

(** [memset] fills exactly the [n] bytes, and [memcpy] moves the [n] source
    bytes to the destination and changes nothing else whenever the destination
    does not start inside the source (its loop copies upwards). *)
Theorem block_operations m d s c n :
  d ≤ s ∨ s + Z.of_nat n ≤ d →
  ∀ x, memset m d c n x = mem_fill m d (z2b c) (Z.of_nat n) x ∧
       memcpy m d s n x = mem_move m d s (Z.of_nat n) x.
Proof. intros Hov x. split; [apply memset_spec|by apply memcpy_spec]. Qed.

Lemma block_operations_witness :
  memcpy (λ x, z2b x) 10 12 5 14 = z2b 16 ∧ memset (λ x, z2b x) 10 0 5 15 = z2b 15.
Proof.
  destruct (block_operations (λ x, z2b x) 10 12 0 5 ltac:(lia) 14) as [_ ->].
  destruct (block_operations (λ x, z2b x) 10 12 0 5 ltac:(lia) 15) as [-> _].
  split; reflexivity.
Defined.

(** [strcmp] terminates on C strings and is zero exactly on equal ones;
    [strncmp] is zero exactly when the prefixes of length [n] are equal. *)
Theorem string_compare m s1 s2 l1 l2 n fuel :
  cstr m s1 l1 → cstr m s2 l2 → (length l1 < fuel)%nat →
  (∃ r, strcmp fuel m s1 s2 = Some r ∧ (r = 0 ↔ l1 = l2)) ∧
  (strncmp m s1 s2 n = 0 ↔ take n l1 = take n l2).
Proof. intros H1 H2 Hf. split; [by eapply strcmp_spec|by apply strncmp_spec]. Qed.

(** Two strings in one memory. *)
Definition demo_strings : mem := λ x,
  z2b (default 0 (codes ("kill" ++ String "000" ("kilt" ++ String "000" EmptyString)) !! Z.to_nat x)).

Definition zbytes (l : list Z) : list byte := z2b <$> l.

Lemma demo_cstr1 : cstr demo_strings 0 (zbytes (codes "kill")).
Proof. repeat (split; [reflexivity|]; split; [discriminate|]). reflexivity. Qed.

Lemma demo_cstr2 : cstr demo_strings 5 (zbytes (codes "kilt")).
Proof. repeat (split; [reflexivity|]; split; [discriminate|]). reflexivity. Qed.

Lemma string_compare_witness :
  (∃ r, strcmp 5 demo_strings 0 5 = Some r ∧ r ≠ 0) ∧ strncmp demo_strings 0 5 3 = 0.
Proof.
  destruct (string_compare demo_strings 0 5 _ _ 3 5 demo_cstr1 demo_cstr2 ltac:(cbn; lia))
    as [(r & Hr & H1) H2].
  split; [|apply H2; reflexivity]. exists r. split; [exact Hr|]. intros E. apply H1 in E. discriminate.
Defined.

(** [strncpy] with a non-zero size leaves a terminated copy of at most
    [n - 1] characters in the destination and writes nothing outside its [n]
    bytes. *)
Theorem strncpy_correct m d s l n :
  cstr m s l → (0 < n)%nat → 0 ≤ d → d + Z.of_nat n ≤ 2 ^ 64 →
  d + Z.of_nat n ≤ s ∨ s + Z.of_nat (length l) < d →
  cstr (strncpy m d s n) d (take (n - 1) l) ∧
  (∀ x, x < d ∨ d + Z.of_nat n ≤ x → strncpy m d s n x = m x).
Proof. apply strncpy_spec. Qed.

Lemma strncpy_correct_witness :
  cstr (strncpy demo_strings 20 0 3) 20 (zbytes (codes "ki")) ∧ strncpy demo_strings 20 0 3 23 = demo_strings 23.
Proof.
  destruct (strncpy_correct demo_strings 20 0 _ 3 demo_cstr1 ltac:(lia) ltac:(lia) ltac:(lia) ltac:(cbn; lia))
    as [H1 H2].
  split; [exact H1|]. apply H2. right. lia.
Defined.

(** *** Numbers printed and read back *)

Lemma digits_decimal fuel n :
  0 ≤ n → Forall (λ c, 48 ≤ c ≤ 57) (digits fuel 10 n).
Proof.
  revert n. induction fuel as [|fuel IH]; intros n Hn; cbn [digits]; [constructor|].
  assert (∀ d, 0 ≤ d < 10 → 48 ≤ digit_char d ≤ 57) as Hd.
  { intros d Hd. unfold digit_char. destruct (Z.ltb_spec d 10); lia. }
  repeat case_match; repeat first [apply Forall_app; split | apply Forall_cons; split];
    try apply Forall_nil; try apply IH; try done; bools; try apply Hd; try dlia.
Qed.

Lemma show_u_dval n :
  0 ≤ n < 2 ^ 64 →
  dval (zbytes (show_u 10 n)) = n ∧ Forall (λ b, is_digit b = true) (zbytes (show_u 10 n)).
Proof.
  intros Hn. pose proof (digits_decimal 64 n ltac:(lia)) as Hd. change (digits 64 10 n) with (show_u 10 n) in Hd.
  split.
  - rewrite <- (show_u_value 10 n) at 2 by lia. unfold dval, num_of, zbytes.
    generalize (show_u 10 n), Hd, 0. clear. intros l. induction l as [|c l IH]; intros Hd a; [done|].
    apply Forall_cons in Hd as [Hc Hd]. cbn. rewrite IH by done. f_equal.
    rewrite b2z_z2b, Z.mod_small by lia. unfold char_digit. destruct (Z.ltb_spec c 65); lia.
  - apply Forall_forall. intros b (c & -> & Hc)%list_elem_of_fmap. rewrite Forall_forall in Hd.
    specialize (Hd c Hc). unfold is_digit. rewrite b2z_z2b, Z.mod_small by lia.
    apply andb_true_intro. split; apply Z.leb_le; lia.
Qed.

(** [atoi] reads back what the terminal prints for a number ([ps] shows a
    task id, [kill] parses it): for every non-negative [int] the digits printed
    for it are converted to that number; a string with any other character
    gives 0. *)
Theorem atoi_print_roundtrip m s l fuel :
  cstr m s l → (length l < fuel)%nat → Z.of_nat (length l) < 2 ^ 31 →
  (∀ n, 0 ≤ n < 2 ^ 31 → l = zbytes (show_u 10 n) → atoi fuel m s = Some n) ∧
  (Exists (λ b, is_digit b = false) l → atoi fuel m s = Some 0).
Proof.
  intros Hs Hf Hl. split.
  - intros n Hn ->. destruct (show_u_dval n ltac:(lia)) as [Hv Hd].
    rewrite (atoi_digits m s _ fuel Hs Hd Hf Hl), Hv. unfold i32. by rewrite sext_small by lia.
  - intros Hd. by apply (atoi_nondigit m s l).
Qed.

Definition demo_number : mem := λ x, z2b (default 0 (codes ("1024" ++ String "000" EmptyString) !! Z.to_nat x)).

Lemma atoi_print_roundtrip_witness :
  atoi 5 demo_number 0 = Some 1024 ∧ atoi 5 demo_strings 0 = Some 0.
Proof.
  split.
  - apply (proj1 (atoi_print_roundtrip demo_number 0 (zbytes (show_u 10 1024)) 5
      ltac:(repeat (split; [reflexivity|]; split; [discriminate|]); reflexivity)
      ltac:(vm_compute; lia) ltac:(vm_compute; reflexivity)) 1024);
      [lia|reflexivity].
  - apply (proj2 (atoi_print_roundtrip demo_strings 0 (zbytes (codes "kill")) 5 demo_cstr1
      ltac:(cbn; lia) ltac:(cbn; lia))). constructor. reflexivity.
Defined.

(** ** Addresses *)

Import Mmu.

(** The four table indexes and the page offset identify a virtual address:
    [PAGE_ADDR] builds the address with the given indexes, and decomposing a
    canonical address and rebuilding it gives the address (syscall.c and
    task.c walk the tables by index and rebuild the addresses). *)
Theorem virtual_address_roundtrip i j k l off va :
  0 ≤ i < 512 → 0 ≤ j < 512 → 0 ≤ k < 512 → 0 ≤ l < 512 → 0 ≤ off < 4096 → canonical va = true →
  (PML4_IDX (PAGE_ADDR i j k l off) = i ∧ PDP_IDX (PAGE_ADDR i j k l off) = j ∧
   PD_IDX (PAGE_ADDR i j k l off) = k ∧ PT_IDX (PAGE_ADDR i j k l off) = l ∧
   PAGE_ADDR i j k l off mod 4096 = off) ∧
  PAGE_ADDR (PML4_IDX va) (PDP_IDX va) (PD_IDX va) (PT_IDX va) (va mod 4096) = va.
Proof. intros. split; [by apply PAGE_ADDR_indexes|by apply canonical_PAGE_ADDR]. Qed.

Lemma virtual_address_roundtrip_witness :
  PDP_IDX (PAGE_ADDR 511 480 1 2 3) = 480 ∧
  PAGE_ADDR (PML4_IDX KERNEL_BASE) (PDP_IDX KERNEL_BASE) (PD_IDX KERNEL_BASE) (PT_IDX KERNEL_BASE)
    (KERNEL_BASE mod 4096) = KERNEL_BASE.
Proof.
  destruct (virtual_address_roundtrip 511 480 1 2 3 KERNEL_BASE ltac:(lia) ltac:(lia) ltac:(lia) ltac:(lia)
    ltac:(lia) ltac:(vm_compute; reflexivity)) as [(_ & H1 & _) H2].
  split; [exact H1|exact H2].
Defined.

(** The fixed regions of the kernel's address space (temporary page, the
    exception, interrupt and kernel stacks, the device pages and the boot
    information) are page aligned, canonical, pairwise disjoint, below
    [KERNEL_BASE] and in the part of the address space every task shares with
    the kernel; and kernel virtual addresses convert to physical ones and back
    without loss for all memory below the top of the address space. *)
Theorem kernel_layout_ok :
  regions_ok kernel_regions KERNEL_BASE = true ∧
  ∀ pa, 0 ≤ pa < 2 ^ 35 → VADDR kernel64 pa = KERNEL_BASE + pa ∧ PADDR kernel64 (VADDR kernel64 pa) = pa.
Proof.
  split; [vm_compute; reflexivity|]. intros pa Hpa. split; [|apply PADDR_VADDR; cbn; lia].
  unfold VADDR. cbn [vaddr_base ptr_bits kernel64]. unfold KERNEL_BASE. rewrite Z.mod_small; lia.
Qed.
