(* ===== verification/ScreenTheorems.v ===== *)
(** What the terminal shows: the abstract specification of its output as an
    endless sheet of 80-column paper of which the screen shows the last rows,
    and the theorems on [terminal_printf]. *)

From Stdlib Require Import String Ascii.
From S2P Require Import Prelude Console Terminal.
Import Term.

(** The paper: cells in reading order, and the position of the print head. *)
Record paper := Paper { ink : Z → Z; pos : Z }.

(** One character other than a tab in the colour [col]. *)
Definition paper_char (col c : Z) (p : paper) : paper :=
  if c =? 13 then Paper (ink p) (pos p / 80 * 80)
  else if c =? 10 then Paper (ink p) ((pos p / 80 + 1) * 80)
  else Paper (<[pos p := terminal_make_char c col]> (ink p)) (pos p + 1).

Definition paper_put (col c : Z) (p : paper) : paper :=
  if u8 c =? 9 then Nat.iter 8 (paper_char col (chr " ")) p else paper_char col (u8 c) p.

Definition paper_puts (col : Z) (l : list Z) (p : paper) : paper := foldl (λ q c, paper_put col c q) p l.

(** The screen shows the 23 rows of the paper from row [k] on; the paper below
    them is blank. *)
Record shows (k : Z) (t : terminal) (p : paper) : Prop := {
  sh_ok : term_ok t;
  sh_pos : pos p = (terminal_row t + k) * 80 + terminal_column t;
  sh_ink x : 0 ≤ x < 23 * 80 → terminal_buffer t x = ink p (x + k * 80);
  sh_blank y : (23 + k) * 80 ≤ y → ink p y = 0;
}.

Section show.
Context (k col : Z) (t : terminal) (p : paper) (Hs : shows k t p).

Lemma shows_cr : shows k (set_column 0 t) (Paper (ink p) (pos p / 80 * 80)).
Proof.
  destruct Hs as [[Hr Hc] Hp Hi Hb]. constructor; cbn; [split; cbn; lia| |done|done].
  rewrite Hp. dlia.
Qed.

(** Moving to the start of the next row, scrolling when it is row 23. *)
Lemma shows_next b p' :
  (∀ x, 0 ≤ x < 23 * 80 → b x = ink p' (x + k * 80)) → (∀ y, (23 + k) * 80 ≤ y → ink p' y = 0) →
  pos p' = (terminal_row t + k + 1) * 80 →
  wp scroll (λ _ t', ∃ k', k ≤ k' ∧ shows k' t' p' ∧ terminal_color t' = terminal_color t)
    (Terminal b (terminal_color t) 0 (terminal_row t + 1)).
Proof.
  intros Hb Hz Hp. destruct Hs as [[Hr Hc] _ _ _]. unfold scroll, TERMINAL_ROW_COUNT. wp_step. wp_step.
  wp_step. wp_step; [apply Z.leb_le; cbn; lia|]. cbn [terminal_row terminal_column terminal_buffer].
  destruct (Z.eqb_spec (terminal_row t + 1) (24 - 1)) as [E|E].
  - wp_step. eapply wp_eq; [done|]. wp_step; [done|]. exists (k + 1). split; [lia|]. split; [|done].
    constructor; cbn; [split; cbn; lia|rewrite Hp; lia| |].
    + intros x Hx. rewrite zero_row_cell, scroll_rows_cell by lia.
      repeat destruct (decide _); try lia.
      * rewrite Hz; [done|lia].
      * rewrite Hb by lia. f_equal. lia.
    + intros y Hy. apply Hz. lia.
  - wp_step. exists k. split; [lia|]. split; [|done].
    constructor; cbn; [split; cbn; lia|rewrite Hp; lia|done|done].
Qed.

Lemma put_char_shows c :
  wp (put_char c col) (λ _ t', ∃ k', k ≤ k' ∧ shows k' t' (paper_char col c p) ∧ terminal_color t' = terminal_color t) t.
Proof.
  pose proof Hs as [[Hr Hc] Hp Hi Hb]. unfold put_char, paper_char. wp_step. wp_step.
  destruct (c =? 13).
  { eapply wp_eq; [done|]. exists k. split; [lia|]. split; [apply shows_cr|done]. }
  wp_step. destruct (c =? 10).
  - wp_step. wp_step; [apply Z.ltb_lt; unfold TERMINAL_ROW_COUNT; lia|].
    eapply wp_eq; [done|]. wp_step. unfold wrap_column. wp_step. wp_step. wp_step.
    wp_step; [done|]. cbn [terminal_column set_column set_row]. change (0 =? TERMINAL_COL_COUNT) with false. cbv iota.
    wp_step. apply shows_next; [done..|]. cbn. rewrite Hp. dlia.
  - eapply wp_eq; [done|]. wp_step. unfold wrap_column, TERMINAL_COL_COUNT. wp_step. wp_step. wp_step.
    wp_step; [apply Z.leb_le; cbn; lia|]. cbn [terminal_column terminal_row set_column set_buffer].
    set (b := <[_ := _]> (terminal_buffer t)).
    assert (∀ x, 0 ≤ x < 23 * 80 → b x = <[pos p := terminal_make_char c col]> (ink p) (x + k * 80)) as Hb1.
    { intros x Hx. unfold b. rewrite !fn_insert_dec, Hp.
      repeat destruct (decide _); try lia. by apply Hi. }
    assert (∀ y, (23 + k) * 80 ≤ y → <[pos p := terminal_make_char c col]> (ink p) y = 0) as Hb2.
    { intros y Hy. rewrite fn_insert_dec, Hp. destruct (decide _); [lia|]. by apply Hb. }
    destruct (Z.eqb_spec (terminal_column t + 1) 80) as [E|E].
    + eapply wp_eq; [done|]. apply shows_next; [done..|]. cbn. rewrite Hp. lia.
    + wp_step. unfold scroll, TERMINAL_ROW_COUNT. wp_step. wp_step. wp_step.
      wp_step; [apply Z.leb_le; cbn; lia|]. cbn [terminal_row set_column set_buffer].
      destruct (Z.eqb_spec (terminal_row t) (24 - 1)); [lia|]. wp_step.
      exists k. split; [lia|]. split; [|done]. constructor; cbn; [split; cbn; lia|rewrite Hp; lia|done|done].
Qed.
End show.

Lemma put_shows k t p c :
  shows k t p →
  wp (terminal_put c) (λ _ t', ∃ k', k ≤ k' ∧ shows k' t' (paper_put (terminal_color t) c p) ∧
    terminal_color t' = terminal_color t) t.
Proof.
  intros Hs. unfold terminal_put, terminal_put_color, paper_put. wp_step. wp_step.
  destruct (u8 c =? 9); [|by apply put_char_shows].
  apply (wp_mfor _ _ (λ done t', ∃ k', k ≤ k' ∧
    shows k' t' (Nat.iter (length done) (paper_char (terminal_color t) (chr " ")) p) ∧
    terminal_color t' = terminal_color t)).
  - by exists k.
  - intros dn a rest t' _ (k' & Hk & Hs' & Hc). eapply wp_mono; [apply (put_char_shows k' _ t' _ Hs')|].
    intros [] t'' (k'' & Hk' & Hs'' & Hc'). exists k''. split; [lia|].
    rewrite length_app. cbn [length]. rewrite Nat.add_comm. split; [exact Hs''|congruence].
  - done.
Qed.

Lemma puts_shows l k t p :
  shows k t p →
  wp (puts l) (λ _ t', ∃ k', k ≤ k' ∧ shows k' t' (paper_puts (terminal_color t) l p) ∧
    terminal_color t' = terminal_color t) t.
Proof.
  intros Hs. unfold puts, paper_puts.
  apply (wp_mfor _ _ (λ done t', ∃ k', k ≤ k' ∧
    shows k' t' (foldl (λ q c, paper_put (terminal_color t) c q) p done) ∧ terminal_color t' = terminal_color t)).
  - by exists k.
  - intros dn a rest t' _ (k' & Hk & Hs' & Hc). eapply wp_mono; [apply (put_shows k' t' _ a Hs')|].
    intros [] t'' (k'' & Hk' & Hs'' & Hc'). exists k''. split; [lia|].
    rewrite foldl_app. cbn [foldl]. rewrite Hc in Hs''. split; [exact Hs''|congruence].
  - done.
Qed.

(** C33: [terminal_printf] prints the formatted text.  When the format is
    supported and the arguments match it, printing returns without an assertion
    failure, and the screen, which showed rows of a sheet of paper, afterwards
    shows rows (the same or later ones) of the sheet with the formatted text
    printed at the cursor: line wrap, tabs, newlines and scrolling lose nothing
    but the rows that left at the top. *)
Theorem printf_shows fmt ap l k t p :
  format (codes fmt) ap = Some l → shows k t p →
  ∃ k' t', terminal_printf fmt ap t = Ok ((), t') ∧ k ≤ k' ∧
    shows k' t' (paper_puts (terminal_color t) l p).
Proof.
  intros Hf Hs. unfold terminal_printf. rewrite (vprintf_puts _ _ l) by done.
  destruct (proj1 (wp_ok _ _ _) (puts_shows l k t p Hs)) as ([] & t' & Hrun & k' & Hk & Hs' & _).
  by exists k', t'.
Qed.

(** Output never reaches the command line: whatever is printed, the cells of
    row 23 keep their contents, the cursor stays in rows 0 to 22 and the colour
    is kept. *)
Theorem printf_keeps_command_line fmt ap t :
  fmt_ok fmt ap = true → term_ok t →
  ∃ t', terminal_printf fmt ap t = Ok ((), t') ∧ term_ok t' ∧ terminal_color t' = terminal_color t ∧
    ∀ x, 23 * 80 ≤ x → terminal_buffer t' x = terminal_buffer t x.
Proof.
  intros Hf Ht. apply bool_decide_eq_true in Hf as [l Hl]. unfold terminal_printf.
  rewrite (vprintf_puts _ _ l) by done.
  destruct (proj1 (wp_ok _ _ _) (puts_ok l t Ht)) as ([] & t' & Hrun & Ho & Hc & Hb). by exists t'.
Qed.

(** [show_u], the text of [%u], [%x] and their 64-bit forms, determines the
    number: reading the digits back in the same base gives the argument. *)
Theorem print_number_roundtrip base n :
  base = 10 ∨ base = 16 → 0 ≤ n < 2 ^ 64 →
  num_of base (show_u base n) = n ∧
  ∀ t, terminal_print_digit 64 n base t = puts (show_u base n) t.
Proof.
  intros Hb Hn. split; [apply show_u_value; lia|]. intros t. apply print_u_puts; lia.
Qed.

(** ** Instances *)

Definition demo_screen : terminal := Terminal (λ _, 0) 15 76 22.

Lemma demo_shows : shows 0 demo_screen (Paper (λ _, 0) (22 * 80 + 76)).
Proof. constructor; done. Qed.

Lemma printf_shows_witness :
  ∃ k' t', terminal_printf "pid %u: %s" [AInt 42; AStr (codes "idle")] demo_screen = Ok ((), t') ∧ 0 ≤ k' ∧
    shows k' t' (paper_puts 15 (codes "pid 42: idle") (Paper (λ _, 0) (22 * 80 + 76))).
Proof.
  apply (printf_shows "pid %u: %s" [AInt 42; AStr (codes "idle")] (codes "pid 42: idle") 0 demo_screen).
  - vm_compute. reflexivity.
  - exact demo_shows.
Defined.

Lemma printf_keeps_command_line_witness :
  ∃ t', terminal_printf "%d" [AInt (-7)] demo_screen = Ok ((), t') ∧ term_ok t' ∧ terminal_color t' = 15.
Proof.
  destruct (printf_keeps_command_line "%d" [AInt (-7)] demo_screen) as (t' & H1 & H2 & H3 & _).
  - vm_compute. reflexivity.
  - split; cbn; lia.
  - exists t'. split; [exact H1|]. split; [exact H2|exact H3].
Defined.

Lemma print_number_roundtrip_witness : num_of 16 (show_u 16 0xFEE00000) = 0xFEE00000.
Proof. apply (print_number_roundtrip 16 0xFEE00000); lia. Defined.
