(* ===== verification/TermTypes.v ===== *)
(** The types and bounds of the terminal's state: [typed] says that every cell
    is a 16-bit value, the colour a byte and the cursor inside the 25 rows of 80
    columns of the text buffer.  Every operation of terminal.h keeps it, and
    stores nowhere but in these rows. *)

From Stdlib Require Import String Ascii.
From S2P Require Import Prelude Console Terminal.
Import Term.

Definition TEXT_CELLS : Z := 25 * 80.

Record typed (t : terminal) : Prop := {
  ty_cell x : 0 ≤ terminal_buffer t x < 2 ^ 16;
  ty_color : 0 ≤ terminal_color t < 2 ^ 8;
  ty_column : 0 ≤ terminal_column t < TERMINAL_COL_COUNT;
  ty_row : 0 ≤ terminal_row t ≤ TERMINAL_ROW_COUNT;
}.

(** Typed, and only the text buffer has been stored to since [t]. *)
Definition stored (t t' : terminal) : Prop :=
  typed t' ∧ ∀ x, x < 0 ∨ TEXT_CELLS ≤ x → terminal_buffer t' x = terminal_buffer t x.

Lemma stored_trans t1 t2 t3 : stored t1 t2 → stored t2 t3 → stored t1 t3.
Proof. intros [_ H1] [T H2]. split; [done|]. intros x Hx. by rewrite H2, H1. Qed.

Abbreviation panics := (λ e : err, e = EPanic).

(** The operations of terminal.h that change the state, with their arguments. *)
Inductive op :=
  | OPutColor (ch color : Z)
  | OPut (ch : Z)
  | OPrintf (fmt : string) (ap : list arg)
  | OSetPosition (p : position)
  | OClearLine
  | OClear
  | OInit.

Definition run (o : op) : M terminal () :=
  match o with
  | OPutColor ch color => terminal_put_color ch color
  | OPut ch => terminal_put ch
  | OPrintf fmt ap => terminal_printf fmt ap
  | OSetPosition p => terminal_set_position p
  | OClearLine => terminal_clear_line
  | OClear => terminal_clear
  | OInit => terminal_init
  end.

(** Arguments of the declared types, and a format that fits its arguments. *)
Definition args_typed (o : op) : Prop :=
  match o with
  | OPutColor ch color => 0 ≤ ch < 2 ^ 8 ∧ 0 ≤ color < 2 ^ 8
  | OPrintf fmt ap => fmt_ok fmt ap = true
  | OSetPosition p => 0 ≤ p_row p < 2 ^ 8 ∧ 0 ≤ p_column p < 2 ^ 8
  | _ => True
  end.

Lemma make_char_range ch color : 0 ≤ terminal_make_char ch color < 2 ^ 16.
Proof. apply Z.mod_pos_bound. lia. Qed.

Lemma scroll_typed t t1 :
  (∀ x, 0 ≤ terminal_buffer t1 x < 2 ^ 16) → 0 ≤ terminal_color t1 < 2 ^ 8 → 0 ≤ terminal_column t1 < 80 → 0 ≤ terminal_row t1 →
  (∀ x, x < 0 ∨ TEXT_CELLS ≤ x → terminal_buffer t1 x = terminal_buffer t x) →
  wpe scroll (λ _, stored t) panics t1.
Proof.
  intros H1 H2 H3 H4 H5. unfold scroll, wpe, mbind, M_bind, get, massert, TERMINAL_ROW_COUNT, put.
  destruct (Z.leb_spec (terminal_row t1) 24); [|done]. cbn [mret M_ret].
  destruct (Z.eqb_spec (terminal_row t1) (24 - 1)) as [E|E]; [|by split; [constructor|]].
  destruct (terminal_column t1 =? 0); [|done]. split.
  - constructor; cbn; [|done|done|unfold TERMINAL_ROW_COUNT; lia]. intros x. rewrite zero_row_cell, scroll_rows_cell by lia.
    repeat destruct (decide _); done.
  - intros x Hx. cbn. rewrite zero_row_cell, scroll_rows_cell by lia. unfold TEXT_CELLS in *.
    repeat destruct (decide _); try lia. by apply H5.
Qed.

Lemma put_char_typed ch color t : typed t → wpe (put_char ch color) (λ _, stored t) panics t.
Proof.
  intros [T1 T2 T3 T4]. unfold TERMINAL_COL_COUNT, TERMINAL_ROW_COUNT in *. unfold put_char.
  apply wpe_bind. cbn [wpe get]. destruct (ch =? 13).
  { cbn. split; [constructor; cbn; done|done]. }
  assert (∀ t1, (∀ x, 0 ≤ terminal_buffer t1 x < 2 ^ 16) → 0 ≤ terminal_color t1 < 2 ^ 8 → 0 ≤ terminal_column t1 ≤ 80 →
    0 ≤ terminal_row t1 → (∀ x, x < 0 ∨ TEXT_CELLS ≤ x → terminal_buffer t1 x = terminal_buffer t x) →
    wpe (wrap_column ;; scroll) (λ _, stored t) panics t1) as Hend.
  { intros t1 H1 H2 H3 H4 H5. apply wpe_bind. unfold wpe at 1, wrap_column, mbind, M_bind, get, massert, TERMINAL_COL_COUNT.
    rewrite (proj2 (Z.leb_le _ 80)) by lia. cbn [mret M_ret]. destruct (Z.eqb_spec (terminal_column t1) 80).
    - apply scroll_typed; cbn; lia || done.
    - apply scroll_typed; lia || done. }
  apply wpe_bind. destruct (ch =? 10).
  - unfold wpe at 1, mbind, M_bind, massert, TERMINAL_ROW_COUNT. destruct (Z.ltb_spec (terminal_row t) 24); [|done].
    cbn [mret M_ret put]. apply Hend; cbn; lia || done.
  - cbn [wpe put]. apply Hend; cbn; try (lia || done).
    + intros x. rewrite fn_insert_dec. case_decide; [apply make_char_range|done].
    + intros x Hx. rewrite fn_lookup_insert_ne; [done|]. unfold TEXT_CELLS, TERMINAL_COL_COUNT in *. lia.
Qed.

Lemma typed_for {A} (l : list A) (body : A → M terminal ()) t :
  (∀ a t', typed t' → wpe (body a) (λ _, stored t') panics t') → typed t → wpe (mfor l body) (λ _, stored t) panics t.
Proof.
  intros Hb. revert t. induction l as [|a l IH]; intros t Ht; [by split|]. cbn [mfor]. apply wpe_bind.
  eapply wpe_mono; [by apply Hb| |done]. intros [] t1 H1. eapply wpe_mono; [apply IH, H1| |done].
  intros [] t2 H2. by eapply stored_trans.
Qed.

Lemma put_color_typed ch color t : typed t → wpe (terminal_put_color ch color) (λ _, stored t) panics t.
Proof.
  intros Ht. unfold terminal_put_color. destruct (ch =? 9); [|by apply put_char_typed].
  apply typed_for; [|done]. intros _ t' Ht'. by apply put_char_typed.
Qed.

Lemma put_typed ch t : typed t → wpe (terminal_put ch) (λ _, stored t) panics t.
Proof. intros Ht. unfold terminal_put. apply wpe_bind. cbn [wpe get]. by apply put_color_typed. Qed.

Lemma clear_typed t : typed t → wpe terminal_clear (λ _, stored t) panics t.
Proof.
  intros [T1 T2 T3 T4]. cbn [wpe terminal_clear modify]. split.
  - constructor; cbn; [|done..]. intros x. destruct (_ && _); done.
  - intros x Hx. cbn. unfold TEXT_CELLS, TERMINAL_ROW_COUNT, TERMINAL_COL_COUNT in *.
    replace ((0 <=? x) && (x <? 24 * 80)) with false by lia. done.
Qed.

(** C34: the types of the terminal.  From a state in which the cells are 16-bit
    values, the colour is a byte and the cursor is in the 25 rows of 80 columns
    of the text buffer, each operation of terminal.h, called with arguments of
    its declared types, either returns with such a state, having stored to no
    cell outside the 25 rows, or fails one of its assertions. *)
Theorem terminal_types o t :
  typed t → args_typed o →
  match run o t with
  | Ok (_, t') => typed t' ∧ ∀ x, x < 0 ∨ TEXT_CELLS ≤ x → terminal_buffer t' x = terminal_buffer t x
  | Err e => e = EPanic
  end.
Proof.
  intros Ht Ha. apply (wpe_elim (run o) (λ _, stored t) panics t). destruct o as [ch color|ch|fmt ap|p| | |]; cbn [run].
  - by apply put_color_typed.
  - by apply put_typed.
  - apply bool_decide_eq_true in Ha as [l Hl]. unfold wpe, terminal_printf. rewrite (vprintf_puts _ _ l) by done.
    apply wpe_elim, typed_for; [|done]. intros ch t'. by apply put_typed.
  - destruct Ht, Ha. unfold terminal_set_position, wpe, mbind, M_bind, modify, massert.
    destruct (Z.leb_spec (p_row p) TERMINAL_ROW_COUNT); [|done]. cbn [mret M_ret].
    destruct (Z.ltb_spec (p_column p) TERMINAL_COL_COUNT); [|done]. split; [constructor; cbn; done || lia|done].
  - destruct Ht as [T1 T2 T3 T4]. cbn [wpe terminal_clear_line mbind M_bind modify]. split.
    + constructor; cbn; [|done..]. intros x. rewrite zero_row_cell. by destruct (decide _).
    + intros x Hx. cbn. rewrite zero_row_cell. unfold TEXT_CELLS, TERMINAL_ROW_COUNT in *. destruct (decide _); [lia|done].
  - by apply clear_typed.
  - by apply clear_typed.
Qed.

(** The last cell of the last row that scrolls. *)
Lemma terminal_types_witness :
  ∃ t', run (OPrintf "%c" [AInt 65]) (Terminal (λ _, 0) 15 79 22) = Ok ((), t') ∧ typed t'.
Proof.
  pose proof (terminal_types (OPrintf "%c" [AInt 65]) (Terminal (λ _, 0) 15 79 22)) as H.
  assert (typed (Terminal (λ _, 0) 15 79 22)) as Ht by (constructor; cbn; done).
  specialize (H Ht eq_refl). eexists. split; [reflexivity|]. exact (proj1 H).
Defined.
