(* ===== verification/MemTheorems.v ===== *)
(** The correctness theorems of the memory manager (kernel/lib/memory/map.c),
    stated for the processor's own translation [translate]. *)

From Stdlib Require Import String.
From S2P Require Import Prelude Memory Queue Mmu Console Terminal Map AllocProofs Walk MapWf.
From S2P Require Import LookupProofs InsertProofs Gdt Context Task SchedProofs DestroyProofs.
From S2P Require Import TaskProofs Demo.
Import Mmu Map.

Section theorems.
Context {T : Type} `{!Console T, !ConsoleLaws T}.
Implicit Types (s : mstate T) (g : ghost).

(** C12: [page_insert] of a page that is neither free nor a page table, at a
    user address of any task, returns.  Either memory for page tables ran out:
    it returns -1 and every address of every task translates as before; or it
    returns 0, the address now translates to exactly that page with the given
    permissions, the translation of every other page of every address space is
    unchanged, the page's reference counter went up by one and that of the page
    mapped there before went down by one, and a stale translation was
    invalidated.  In both cases the invariant of tables and counters holds. *)
Theorem page_insert_correct (K : Z) s g root va p perm :
  wf K s g → lab g root = Some (Lab root []) → root ≠ K → PML4_IDX va < KIDX →
  in_range s p → 0 < p → p ∉ fl g → lab g p = None → refs s p + 1 < 2 ^ 32 → 0 ≤ perm < 4096 →
  ∃ r s' g', page_insert (VADDR (bld s) (root * 4096)) p va perm s = Ok (r, s') ∧ wf K s' g' ∧
    ((r = -1 ∧ fl g' = [] ∧
      ∀ r' o' va', lab g r' = Some (Lab o' []) → translate (phys s') r' va' = translate (phys s) r' va') ∨
     (r = 0 ∧ translate (phys s') root va = Some (p * 4096 + Z.lor perm PTE_P) ∧
      (∀ r' o' va', lab g r' = Some (Lab o' []) → r' ≠ root ∨ full_path va' ≠ full_path va →
         translate (phys s') r' va' = translate (phys s) r' va') ∧
      (∀ d, d ∉ fl g → refs s' d = refs s d
         - match translate (phys s) root va with Some e => if frame e =? d then 1 else 0 | None => 0 end
         + (if p =? d then 1 else 0)) ∧
      (∀ e, translate (phys s) root va = Some e → va ∈ shot s'))).
Proof.
  intros W Hr HK Hva Hp Hp0 Hpn Hpl Hpb Hperm.
  destruct (page_insert_spec K s g root root va p perm) as (r & s' & g' & Hrun & [(-> & E & _ & Hfl)|(-> & I)]); try done.
  - exists (-1), s', g'. split; [done|]. split; [apply E|]. left. split_and!; [done..|]. apply E.
  - exists 0, s', g'. split; [done|]. split; [apply I|]. right. split; [done|]. split; [apply I|].
    split_and!; [|apply I|apply I]. intros r' o' va' Hr' Hne. apply (in_other _ _ _ _ _ _ _ _ _ I r' o'); [done|].
    intros [<- E]. destruct Hne; congruence.
Qed.

(** C17: [page_remove] at a user address returns, the address is no longer
    mapped, every other page of every address space is mapped as before, the
    removed page lost one reference and is in the free list if that was its
    last one, the stale translation was invalidated, and the invariant holds. *)
Theorem page_remove_correct (K : Z) s g root va :
  wf K s g → lab g root = Some (Lab root []) → root ≠ K → PML4_IDX va < KIDX →
  ∃ s' g', page_remove (VADDR (bld s) (root * 4096)) va s = Ok ((), s') ∧ wf K s' g' ∧
    translate (phys s') root va = None ∧
    (∀ r' o' va', lab g r' = Some (Lab o' []) → r' ≠ root ∨ full_path va' ≠ full_path va →
       translate (phys s') r' va' = translate (phys s) r' va') ∧
    match translate (phys s) root va with
    | Some e => shot s' = va :: shot s ∧ (∀ d, refs s' d = refs s d - if frame e =? d then 1 else 0) ∧
        fl g' = if refs s (frame e) =? 1 then frame e :: fl g else fl g
    | None => shot s' = shot s ∧ (∀ d, refs s' d = refs s d) ∧ fl g' = fl g
    end.
Proof.
  intros W Hr HK Hva. destruct (page_remove_spec K s g root root va W) as (s' & g' & Hrun & R); [done|].
  exists s', g'. split; [done|]. split; [apply R|]. split; [apply R|]. split.
  - intros r' o' va' Hr' Hne. apply (rm_other _ _ _ _ _ _ _ R r' o'); [done|].
    intros [<- E]. destruct Hne; congruence.
  - pose proof (rm_shot _ _ _ _ _ _ _ R) as H1. pose proof (rm_refs _ _ _ _ _ _ _ R) as H2.
    pose proof (rm_fl _ _ _ _ _ _ _ R) as H3.
    destruct (translate (phys s) root va); split_and!; try done; intros d; rewrite H2; lia.
Qed.

(** C31: [page_lookup] agrees with the processor: for any user address of any
    address space, and any kernel address whose top-level table exists, it
    returns the page the processor would access (or NULL when the access would
    fault), and it changes nothing. *)
Theorem page_lookup_correct (K : Z) s g root va :
  wf K s g → lab g root = Some (Lab root []) →
  PML4_IDX va < KIDX ∨ present (entry_at (phys s) root (PML4_IDX va)) = true →
  ∃ pte, page_lookup (VADDR (bld s) (root * 4096)) va s = Ok (frame <$> translate (phys s) root va, pte, s) ∧
    (is_Some (translate (phys s) root va) → is_Some pte).
Proof.
  intros W Hr Hva. eexists. split.
  - apply (page_lookup_ok K s g root root va W Hr). destruct Hva; [by left|by right; right].
  - intros [e He]. unfold translate, leaf in He.
    destruct (walk (entry_at (phys s)) root (table_path va)) as [f|]; [|done]. by eexists.
Qed.

(** Creating the missing tables of a user address changes no translation of
    any address space and no page that was in use, keeps the invariant, and
    fails only when the free list ran out; without [create] the state does not
    change at all. *)
Theorem mmap_lookup_transparent (K : Z) s g root va create :
  wf K s g → lab g root = Some (Lab root []) → PML4_IDX va < KIDX →
  ∃ r s' g', mmap_lookup (VADDR (bld s) (root * 4096)) va create s = Ok (r, s') ∧ wf K s' g' ∧
    (∀ r' o' va', lab g r' = Some (Lab o' []) → translate (phys s') r' va' = translate (phys s) r' va') ∧
    (∀ x, lab g (x / 4096) = None → x / 4096 ∉ fl g → phys s' x = phys s x) ∧
    (∀ d, d ∉ fl g → refs s' d = refs s d) ∧
    (create = false → s' = s) ∧ (create = true → r = None → fl g' = []).
Proof.
  intros W Hr Hva. destruct (mmap_lookup_spec K s g root root va create W Hr (or_introl Hva))
    as (r & s' & g' & Hrun & E & F & _ & H).
  exists r, s', g'. split; [done|]. split_and!; try apply E.
  - intros Hc. by apply F.
  - intros Hc ->. by destruct H as [_ H]; apply H.
Qed.

(** Isolation.  In any state that satisfies the invariant, a page mapped at
    a user address is a real page, is not in the free list, is not a page table
    of any address space (so no task can write page tables), and has a positive
    reference counter. *)
Theorem mapped_page_isolated (K : Z) s g root va e :
  wf K s g → lab g root = Some (Lab root []) → root ≠ K → PML4_IDX va < KIDX →
  translate (phys s) root va = Some e →
  0 ≤ frame e < pages_cnt s ∧ frame e ∉ fl g ∧ lab g (frame e) = None ∧ 0 < refs s (frame e).
Proof.
  intros W Hr HK Hva Ht. destruct (mapped_page K s g root root va e W) as (f & _ & _ & _ & _ & _ & ? & ? & ? & ?);
    [done|done|]. split_and!; try done; apply H || lia.
Qed.

(** [page_alloc] takes the first page of the free list and clears its
    counter, and returns NULL without changing anything exactly when the list
    is empty. *)
Theorem page_alloc_correct s fl :
  alloc_ok s fl →
  match fl with
  | [] => page_alloc s = Ok (None, s)
  | p :: fl' => ∃ s', page_alloc s = Ok (Some p, s') ∧ alloc_ok s' fl' ∧ refs s' p = 0 ∧
      (∀ d, d ≠ p → refs s' d = refs s d) ∧ phys s' = phys s ∧ con s' = con s
  end.
Proof.
  intros H. destruct fl as [|p fl']; [by apply page_alloc_none|].
  destruct (page_alloc_some s p fl' H) as (q & -> & Hq & _). eexists. split; [done|].
  split; [split; [done|]; intros x Hx; apply H; set_solver|].
  cbn [refs set_refs set_free]. rewrite fn_lookup_insert. split_and!; try done.
  intros d Hd. by rewrite fn_lookup_insert_ne.
Qed.

(** [page_decref] drops one reference and frees the page exactly when it was
    the last one; no other page is affected. *)
Theorem page_decref_correct s fl p :
  alloc_ok s fl → in_range s p → p ∉ fl → 0 < refs s p < 2 ^ 32 → con_ok (con s) →
  ∃ s', page_decref p s = Ok ((), s') ∧ alloc_ok s' (if refs s p =? 1 then p :: fl else fl) ∧
    (∀ d, refs s' d = refs s d - if p =? d then 1 else 0) ∧ phys s' = phys s.
Proof.
  intros H Hp Hn Hr Hc. destruct (page_decref_ok s p fl H Hp Hn Hr Hc) as (q & c & -> & _ & Hq).
  eexists. split; [done|]. split_and!.
  - split; [done|]. intros x Hx. destruct (_ =? _); [|by apply H].
    apply elem_of_cons in Hx as [->|Hx]; [done|by apply H].
  - intros d. cbn [refs set_con set_free set_refs]. rewrite fn_insert_dec.
    destruct (decide (p = d)) as [<-|]; [by rewrite Z.eqb_refl|]. rewrite (proj2 (Z.eqb_neq p d)) by done. lia.
  - done.
Qed.

(** Allocating a page and freeing it again leaves the free list as it was. *)
Theorem alloc_free_roundtrip s p fl' :
  alloc_ok s (p :: fl') →
  ∃ s', (page_alloc ≫= λ r, match r with Some q => page_free q | None => mret () end) s = Ok ((), s') ∧
    alloc_ok s' (p :: fl').
Proof.
  intros H. destruct (page_alloc_some s p fl' H) as (q & Hq & Hrep & _).
  assert (p ∉ fl') as Hn by (destruct H as [[Hnd _] _]; by apply NoDup_cons in Hnd as [? _]).
  set (s1 := set_refs (<[p := 0]> (refs s)) (set_free q s)) in *.
  destruct (page_free_ok s1 p fl') as (q' & Hf & Hrep'); [| |done|cbn; by rewrite fn_lookup_insert|].
  - split; [done|]. intros x Hx. apply H. set_solver.
  - apply H. set_solver.
  - exists (set_free q' s1). unfold mbind, M_bind. rewrite Hq. split; [done|]. split; [done|]. by apply H.
Qed.

(** Page numbers and physical addresses convert into each other without
    loss for every page of the array, in the 32-bit loader and the kernel. *)
Theorem page_address_roundtrip s p :
  12 < ptr_bits (bld s) ≤ 64 → pages_cnt s * 4096 ≤ 2 ^ (ptr_bits (bld s) - 1) → 0 ≤ p < pages_cnt s →
  page2pa (bld s) p = p * 4096 ∧ pa2page (page2pa (bld s) p) = p ∧
  PADDR (bld s) (page2kva (bld s) p) = p * 4096.
Proof.
  intros Hw Hc Hp. assert (build_ok s) as Hb by done.
  split; [by apply page2pa_ok|]. split; [by apply pa2page_page2pa|by apply PADDR_page].
Qed.

(** In the 32-bit loader the difference of two pointers is a signed 32-bit
    number: for a page at 2 GB or above [page2pa] gives its address with the
    upper half set, which is no physical address. *)
Theorem page2pa_sign_extends p : 2 ^ 19 ≤ p < 2 ^ 20 → page2pa loader32 p = p * 4096 + (2 ^ 64 - 2 ^ 32).
Proof.
  intros Hp. unfold page2pa, sext, u64, PAGE_SHIFT. cbn [ptr_bits loader32]. rewrite Z.shiftl_mul_pow2 by lia.
  change (2 ^ 12) with 4096. rewrite (Z.mod_small (p * 4096)) by lia.
  destruct (Z.ltb_spec (p * 4096) (2 ^ (32 - 1))); [lia|]. symmetry. apply Z.mod_unique with (-1); lia.
Qed.

End theorems.

(** ** Instances *)

(** The demo machine after mapping page 6 at 0x400000. *)
Lemma demo_mapped :
  ∃ s' g', page_insert (VADDR kernel64 (2 * 4096)) 6 0x400000 6 demo_mm = Ok (0, s') ∧ wf 1 s' g' ∧
    lab g' 2 = Some (Lab 2 []) ∧ translate (phys s') 2 0x400000 = Some 0x6007 ∧ bld s' = kernel64.
Proof.
  destruct (page_insert_spec 1 demo_mm demo_ghost 2 2 0x400000 6 6 demo_wf) as (r & s' & g' & Hrun & H).
  - split; [reflexivity|]. split; [lia|vm_compute; reflexivity].
  - unfold in_range. cbn. lia.
  - lia.
  - rewrite demo_free_elem. done.
  - reflexivity.
  - cbn. lia.
  - lia.
  - assert (match page_insert (VADDR kernel64 (2 * 4096)) 6 0x400000 6 demo_mm with Ok (r, _) => r | Err _ => 1 end = 0)
      as E by (vm_compute; reflexivity). change (bld demo_mm) with kernel64 in Hrun. rewrite Hrun in E. subst r.
    destruct H as [[? _]|[_ I]]; [lia|]. exists s', g'. split; [done|]. split; [apply I|].
    split; [by apply (in_lab _ _ _ _ _ _ _ _ _ I)|]. split; [apply I|apply I].
Qed.

Lemma page_insert_correct_witness :
  ∃ r s' g', page_insert (VADDR (bld demo_mm) (2 * 4096)) 6 0x400000 6 demo_mm = Ok (r, s') ∧ wf 1 s' g' ∧
    (r = -1 ∨ translate (phys s') 2 0x400000 = Some (6 * 4096 + Z.lor 6 PTE_P)).
Proof.
  destruct (page_insert_correct 1 demo_mm demo_ghost 2 0x400000 6 6 demo_wf) as (r & s' & g' & Hrun & W & H).
  - reflexivity.
  - discriminate.
  - vm_compute. reflexivity.
  - unfold in_range. cbn. lia.
  - lia.
  - rewrite demo_free_elem. discriminate.
  - reflexivity.
  - cbn. lia.
  - lia.
  - exists r, s', g'. split; [exact Hrun|]. split; [exact W|].
    destruct H as [[-> _]|(_ & Ht & _)]; [left; reflexivity|right; exact Ht].
Defined.

Lemma page_remove_correct_witness :
  ∃ s s', page_insert (VADDR kernel64 (2 * 4096)) 6 0x400000 6 demo_mm = Ok (0, s) ∧
    page_remove (VADDR (bld s) (2 * 4096)) 0x400000 s = Ok ((), s') ∧
    translate (phys s) 2 0x400000 = Some 0x6007 ∧ translate (phys s') 2 0x400000 = None.
Proof.
  destruct demo_mapped as (s & g & Hrun & W & Hl & Ht & _).
  destruct (page_remove_correct 1 s g 2 0x400000 W Hl) as (s' & g' & Hrun' & _ & Ht' & _);
    [discriminate|vm_compute; reflexivity|].
  exists s, s'. split; [exact Hrun|]. split; [exact Hrun'|]. split; [exact Ht|exact Ht'].
Defined.

Lemma page_lookup_correct_witness :
  ∃ s pte, page_insert (VADDR kernel64 (2 * 4096)) 6 0x400000 6 demo_mm = Ok (0, s) ∧
    page_lookup (VADDR (bld s) (2 * 4096)) 0x400000 s = Ok (Some 6, pte, s).
Proof.
  destruct demo_mapped as (s & g & Hrun & W & Hl & Ht & _).
  destruct (page_lookup_correct 1 s g 2 0x400000 W Hl) as (pte & H & _); [left; vm_compute; reflexivity|].
  rewrite Ht in H. exists s, pte. split; [exact Hrun|exact H].
Defined.

Lemma mmap_lookup_transparent_witness :
  ∃ r s' g', mmap_lookup (VADDR (bld demo_mm) (2 * 4096)) 0x400000 true demo_mm = Ok (r, s') ∧ wf 1 s' g' ∧
    translate (phys s') 2 0x400000 = None.
Proof.
  destruct (mmap_lookup_transparent 1 demo_mm demo_ghost 2 0x400000 true demo_wf eq_refl)
    as (r & s' & g' & Hrun & W & Ht & _); [vm_compute; reflexivity|].
  exists r, s', g'. split; [exact Hrun|]. split; [exact W|]. rewrite (Ht 2 2 0x400000 eq_refl). vm_compute. reflexivity.
Defined.

Lemma mapped_page_isolated_witness :
  ∃ s g, page_insert (VADDR kernel64 (2 * 4096)) 6 0x400000 6 demo_mm = Ok (0, s) ∧
    6 ∉ fl g ∧ lab g 6 = None ∧ 0 < refs s 6.
Proof.
  destruct demo_mapped as (s & g & Hrun & W & Hl & Ht & _).
  destruct (mapped_page_isolated 1 s g 2 0x400000 0x6007 W Hl) as (_ & H1 & H2 & H3);
    [discriminate|vm_compute; reflexivity|exact Ht|].
  exists s, g. split; [exact Hrun|]. split; [exact H1|]. split; [exact H2|exact H3].
Defined.

Lemma demo_alloc_ok : alloc_ok demo_mm (8 :: zseq 9 23).
Proof. apply (wf_alloc _ _ _ demo_wf). Qed.

Lemma page_alloc_correct_witness :
  ∃ s', page_alloc demo_mm = Ok (Some 8, s') ∧ refs s' 8 = 0.
Proof.
  destruct (page_alloc_correct demo_mm (8 :: zseq 9 23) demo_alloc_ok) as (s' & Hrun & _ & H0 & _).
  exists s'. split; [exact Hrun|exact H0].
Defined.

Lemma page_decref_correct_witness :
  ∃ s', page_decref 6 demo_mm = Ok ((), s') ∧ alloc_ok s' (6 :: 8 :: zseq 9 23).
Proof.
  destruct (page_decref_correct demo_mm (8 :: zseq 9 23) 6 demo_alloc_ok) as (s' & Hrun & H & _).
  - unfold in_range. cbn. lia.
  - change (8 :: zseq 9 23) with (fl demo_ghost). rewrite demo_free_elem. discriminate.
  - cbn. lia.
  - exact (wf_con _ _ _ demo_wf).
  - exists s'. split; [exact Hrun|exact H].
Defined.

Lemma alloc_free_roundtrip_witness :
  ∃ s', (page_alloc ≫= λ r, match r with Some q => page_free q | None => mret () end) demo_mm = Ok ((), s') ∧
    alloc_ok s' (8 :: zseq 9 23).
Proof. apply (alloc_free_roundtrip demo_mm 8 (zseq 9 23) demo_alloc_ok). Defined.

Lemma page_address_roundtrip_witness :
  page2pa (bld demo_mm) 5 = 5 * 4096 ∧ pa2page (page2pa (bld demo_mm) 5) = 5 ∧
  PADDR (bld demo_mm) (page2kva (bld demo_mm) 5) = 5 * 4096.
Proof.
  apply (page_address_roundtrip demo_mm 5).
  - cbn. lia.
  - cbn. lia.
  - cbn. lia.
Defined.
