(* ===== verification/TaskTheorems.v ===== *)
(** The correctness theorems of the task manager (kernel/task.c). *)

From Stdlib Require Import String.
From S2P Require Import Prelude Memory Queue Mmu Console Terminal Map AllocProofs Walk MapWf.
From S2P Require Import LookupProofs InsertProofs Gdt Context Task SchedProofs DestroyProofs.
From S2P Require Import TaskProofs Demo.
Import Mmu Map Task.

Section theorems.
Context {T : Type} `{!Console T, !ConsoleLaws T}.
Implicit Types (k : kstate T) (g : ghost) (tl : list Z).

(** C14: [task_destroy] returns, and afterwards: the invariant of the task table
    and of the memory manager holds with the slot back in the free list; every
    page table of the task is in the free list; every page nobody else uses is
    in the free list; the address spaces of the other tasks and of the kernel
    translate exactly as before and no data page was modified; the processor
    does not run on the freed address space; the other slots are unchanged. *)
Theorem task_destroy_correct (K : Z) k g tl i :
  kwf K k g tl → 0 ≤ i < TASK_MAX_CNT → pml4 (tasks k i) ≠ NULL →
  ∃ k' g' r, task_destroy (TSlot i) k = Ok ((), k') ∧ kwf K k' g' (i :: tl) ∧
    pml4 (tasks k i) = VADDR (bld (mm k)) (r * 4096) ∧
    (∀ f l, lab g f = Some l → l_owner l = r → f ∈ fl g') ∧
    (tight (mm k) g → tight (mm k') g') ∧
    (∀ r' o' va, lab g r' = Some (Lab o' []) → o' ≠ r →
       translate (phys (mm k')) r' va = translate (phys (mm k)) r' va) ∧
    (∀ x, lab g (x / 4096) = None → phys (mm k') x = phys (mm k) x) ∧
    cr3 k' ≠ r * 4096 ∧ state (tasks k' i) = TASK_STATE_FREE ∧
    cpu_task k' ≠ Some (TSlot i) ∧ (∀ j, j ≠ i → tasks k' j = tasks k j).
Proof.
  intros Hk Hi Hp. destruct (task_destroy_ok K k g tl i Hk Hi Hp) as (k' & g' & r & Hrun & TD).
  pose proof (td_mm _ _ _ _ _ _ _ _ TD) as D. exists k', g', r.
  split; [done|]. split; [by eapply task_destroyed_kwf|]. split; [apply TD|]. split; [apply D|].
  split; [apply D|]. split; [apply D|]. split; [apply D|]. split; [|split; [|split; [|apply TD]]].
  - rewrite (td_cr3 _ _ _ _ _ _ _ _ TD). exact (cr3_after_ne K k g tl i r Hk (td_pml4 _ _ _ _ _ _ _ _ TD) (td_root _ _ _ _ _ _ _ _ TD) (td_kernel _ _ _ _ _ _ _ _ TD)).
  - by rewrite (td_task _ _ _ _ _ _ _ _ TD).
  - rewrite (td_cpu _ _ _ _ _ _ _ _ TD). by destruct (decide _).
Qed.

(** C30: when a slot and a page are available [task_new] returns the first free
    slot; the new task is not runnable yet, has the next identifier and the
    truncated name; its address space has no user mapping and shares the
    kernel's mappings, all other address spaces are unchanged, and the
    invariant holds with the slot taken. *)
Theorem task_new_correct (K : Z) k g t tl' p fl' nm :
  kwf K k g (t :: tl') → fl g = p :: fl' →
  ∃ k' g', task_new nm k = Ok (Some t, k') ∧ kwf K k' g' tl' ∧
    tasks k' t = MkTask Context.zero_context TASK_STATE_DONT_RUN (u32 (last_task_id k + 1)) (take 63 nm)
                   (VADDR (bld (mm k)) (p * 4096)) ∧
    lab g' p = Some (Lab p []) ∧ fl g' = fl' ∧
    (∀ va, PML4_IDX va < KIDX → translate (phys (mm k')) p va = None) ∧
    (∀ va, KIDX ≤ PML4_IDX va → translate (phys (mm k')) p va = translate (phys (mm k)) K va) ∧
    (∀ r o va, lab g r = Some (Lab o []) → translate (phys (mm k')) r va = translate (phys (mm k)) r va) ∧
    (∀ j, j ≠ t → tasks k' j = tasks k j).
Proof.
  intros Hk Hfl. destruct (task_new_ok K k g t tl' p fl' nm Hk Hfl) as (k' & Hrun & TC).
  pose proof (tc_slot _ _ _ _ _ _ _ _ _ TC) as S. pose proof (tc_tr _ _ _ _ _ _ _ _ _ TC) as Ht.
  exists k', (root_ghost g p fl'). split; [done|]. split; [apply TC|].
  split; [rewrite (sl_task _ _ _ _ _ S); done|]. split; [cbn; by rewrite fn_lookup_insert|]. split; [done|].
  split; [|split; [|split; [apply TC|apply S]]]; intros va Hva; rewrite Ht.
  - by rewrite (proj2 (Z.ltb_lt _ _)).
  - by rewrite (proj2 (Z.ltb_ge _ _)).
Qed.

(** C36: when no page is left, [task_new] fails after it has taken the slot out
    of the free list: the slot is in no list, and [task_destroy] on it does
    nothing, so it is never used again (task.c:87-90). *)
Theorem task_new_loses_slot (K : Z) k g t tl' nm :
  kwf K k g (t :: tl') → fl g = [] →
  ∃ k', task_new nm k = Ok (None, k') ∧ Lst.lrep (free_tasks k') tl' ∧ t ∉ tl' ∧
    state (tasks k' t) = TASK_STATE_DONT_RUN ∧ task_destroy (TSlot t) k' = Ok ((), k').
Proof.
  intros Hk Hfl. destruct (task_new_nomem K k g t tl' nm Hk Hfl) as (k' & Hrun & S & _).
  destruct (kw_slots _ _ _ _ Hk t) as [Ht _]; [by left|].
  pose proof (sl_task _ _ _ _ _ S) as Htk.
  exists k'. split; [done|]. split; [apply S|]. split.
  { pose proof (Lst.lrep_nodup _ _ (kw_free _ _ _ _ Hk)) as Hnd. by apply NoDup_cons in Hnd as [? _]. }
  split; [by rewrite Htk|]. unfold task_destroy, mbind, M_bind. rewrite get_slot_ok by done. by rewrite Htk.
Qed.

(** C15: [schedule] resumes the first READY task in cyclic order from the slot
    after the last scheduled one: that task becomes RUN with interrupts
    enabled, [cr3] selects its address space, it becomes the current task, the
    search restarts behind it next time, and nothing else changes.  It panics
    exactly when no task is READY. *)
Theorem schedule_correct k :
  sched_ok k →
  match next_ready (tasks k) (next_task_idx k) with
  | Some idx => ready (tasks k idx) ∧ ∃ k', schedule k = Ok (TSlot idx, k') ∧
      tasks k' idx = run_task (tasks k idx) ∧ (∀ j, j ≠ idx → tasks k' j = tasks k j) ∧
      cr3 k' = PADDR (bld (mm k)) (pml4 (tasks k idx)) ∧ cpu_task k' = Some (TSlot idx) ∧
      cpu_pml4 k' = pml4 (tasks k idx) ∧ next_task_idx k' = idx + 1 ∧ mm k' = mm k
  | None => schedule k = Err EPanic ∧ ∀ i, 0 ≤ i < TASK_MAX_CNT → ¬ ready (tasks k i)
  end.
Proof.
  intros Hk. pose proof (schedule_ok k Hk) as Hs. destruct Hk as [Hn _].
  destruct (next_ready (tasks k) (next_task_idx k)) as [idx|] eqn:E.
  - destruct (next_ready_first _ _ _ Hn E) as (_ & Hr & _). split; [done|].
    destruct Hs as (k' & Hrun & S). exists k'. split; [done|]. split_and!; apply S.
  - split; [done|]. intros i Hi Hr. destruct (next_ready_some (tasks k) (next_task_idx k) i Hn Hi Hr). congruence.
Qed.


(** [task_init] puts all 1024 slots into the free list in index order, marks
    them free, and makes the processor's own task the current one. *)
Theorem task_init_correct k :
  Lst.lrep (free_tasks k) [] →
  ∃ k', task_init k = Ok ((), k') ∧ Lst.lrep (free_tasks k') slots ∧
    (∀ i, 0 ≤ i < TASK_MAX_CNT → tasks k' i = set_state TASK_STATE_FREE (tasks k i)) ∧
    cpu_task k' = Some TSelf ∧ self_task k' = zero_task ∧ mm k' = mm k.
Proof. apply task_init_ok. Qed.

End theorems.

(** ** Instances *)

Lemma task_destroy_correct_witness :
  ∃ k' g', task_destroy (TSlot 0) demo_kernel = Ok ((), k') ∧ kwf 1 k' g' (0 :: zseq 1 4) ∧
    tight (mm k') g' ∧ state (tasks k' 0) = TASK_STATE_FREE.
Proof.
  destruct (task_destroy_correct 1 demo_kernel demo_ghost (zseq 1 4) 0 demo_kwf)
    as (k' & g' & r & Hrun & Hk & _ & _ & Ht & _ & _ & _ & Hs & _).
  - split; [lia|reflexivity].
  - discriminate.
  - exists k', g'. split; [exact Hrun|]. split; [exact Hk|]. split; [apply Ht, demo_tight|exact Hs].
Defined.

Lemma task_new_correct_witness :
  ∃ k' g', task_new (codes "init") demo_kernel = Ok (Some 1, k') ∧ kwf 1 k' g' (zseq 2 3) ∧
    id (tasks k' 1) = 2 ∧ translate (phys (mm k')) 8 0x400000 = None.
Proof.
  destruct (task_new_correct 1 demo_kernel demo_ghost 1 (zseq 2 3) 8 (zseq 9 23) (codes "init"))
    as (k' & g' & Hrun & Hk & Ht & _ & _ & Hu & _).
  - exact demo_kwf.
  - reflexivity.
  - exists k', g'. split; [exact Hrun|]. split; [exact Hk|]. split; [rewrite Ht; reflexivity|].
    apply Hu. vm_compute. reflexivity.
Defined.

Lemma task_new_loses_slot_witness :
  ∃ k', task_new (codes "init") demo_full = Ok (None, k') ∧ Lst.lrep (free_tasks k') (zseq 2 3) ∧
    1 ∉ zseq 2 3 ∧ task_destroy (TSlot 1) k' = Ok ((), k').
Proof.
  destruct (task_new_loses_slot 1 demo_full demo_full_ghost 1 (zseq 2 3) (codes "init") demo_full_kwf eq_refl)
    as (k' & H1 & H2 & H3 & _ & H4).
  exists k'. split; [exact H1|]. split; [exact H2|]. split; [exact H3|exact H4].
Defined.

Lemma schedule_correct_witness :
  ∃ k', schedule demo_kernel = Ok (TSlot 0, k') ∧ cr3 k' = 2 * 4096 ∧ next_task_idx k' = 1.
Proof.
  pose proof (schedule_correct demo_kernel demo_sched_ok) as H.
  assert (next_ready (tasks demo_kernel) (next_task_idx demo_kernel) = Some 0) as E by (vm_compute; reflexivity).
  rewrite E in H. destruct H as (_ & k' & Hrun & _ & _ & Hc & _ & _ & Hn & _).
  exists k'. split; [exact Hrun|]. split; [rewrite Hc; vm_compute; reflexivity|exact Hn].
Defined.


Lemma task_init_correct_witness :
  ∃ k', task_init (set_free_tasks (Lst.Queue None (λ _, Lst.null_entry)) demo_kernel) = Ok ((), k') ∧
    Lst.lrep (free_tasks k') slots.
Proof.
  destruct (task_init_correct (set_free_tasks (Lst.Queue None (λ _, Lst.null_entry)) demo_kernel))
    as (k' & Hrun & Hrep & _).
  - apply (demo_list_rep []). constructor.
  - exists k'. split; [exact Hrun|exact Hrep].
Defined.
