(* ===== verification/ProcTheorems.v ===== *)
(** The correctness theorems of process creation: [sys_fork]
    (kernel/syscall.c) and the copy-on-write page fault
    (kernel/interrupt/interrupt.c). *)

From Stdlib Require Import String.
From S2P Require Import Prelude Memory Queue Mmu Console Terminal Map AllocProofs Walk MapWf.
From S2P Require Import LookupProofs InsertProofs Gdt Context Task SchedProofs DestroyProofs.
From S2P Require Import TaskProofs Syscall ForkProofs Interrupt FaultProofs Demo.
Import Mmu Map Task Syscall.

Section theorems.
Context {T : Type} `{!Console T, !ConsoleLaws T}.
Implicit Types (k : kstate T) (g : ghost) (tl : list Z).

(** The entry [sys_fork] leaves for a shared page maps the same frame, is
    present, is never writable, is accessible from user mode exactly when the
    page was, and is marked copy-on-write exactly when the page was writable or
    copy-on-write before.  Sharing a page again does not change the entry. *)
Theorem cow_entry_correct e :
  0 ≤ e < 2 ^ 63 →
  frame (cow e) = frame e ∧ present (cow e) = true ∧ has_flag (cow e) PTE_W = false ∧
  has_flag (cow e) PTE_U = has_flag e PTE_U ∧
  has_flag (cow e) PTE_COW = has_flag e PTE_W || has_flag e PTE_COW ∧
  cow (cow e) = cow e.
Proof. apply cow_flags. Qed.


(** When the task table is full [sys_fork] returns -1 and changes nothing but
    the console. *)
Theorem sys_fork_no_slot (K : Z) k g pi :
  kwf K k g [] → ∃ c, sys_fork (TSlot pi) k = Ok (-1, set_mm (set_con c (mm k)) k) ∧ con_ok c.
Proof.
  intros Hk. destruct (task_new_full K k g (codes "child") Hk) as (c & Hrun & Hc). exists c. split; [|done].
  unfold sys_fork, mbind, M_bind. by rewrite Hrun.
Qed.

(** C11: a write fault on a copy-on-write page resumes the task with a private,
    writable copy: the faulting page now maps a fresh page with the contents of
    the old one and the old permissions plus write access; the fresh page is
    referenced once and the old one has lost one reference; no other page of any
    address space is remapped, no page in use is modified, the kernel's
    temporary mapping is gone again, the other tasks are unchanged and the
    invariant holds. *)
Theorem cow_fault_correct (K : Z) k g tl i r va e p fl' f :
  kwf K k g tl → 0 ≤ i < TASK_MAX_CNT → pml4 (tasks k i) = VADDR (bld (mm k)) (r * 4096) →
  lab g r = Some (Lab r []) → r ≠ K → cr3 k = r * 4096 → temp_at K (mm k) g f 0 →
  fl g = p :: fl' → 0 < p → 0 ≤ va < 2 ^ 64 → PML4_IDX va < KIDX →
  translate (phys (mm k)) r va = Some e → has_flag e PTE_COW = true →
  has_flag (Context.error_code (context (tasks k i))) Interrupt.PAGE_FAULT_ERROR_CODE_R_W = true →
  ∃ k' g', Interrupt.page_fault_handler (TSlot i) va k = Ok (TSlot i, k') ∧ kwf K k' g' tl ∧
    translate (phys (mm k')) r va =
      Some (p * 4096 + Z.lor (Z.lor (Z.land e PTE_FLAGS_MASK) PTE_W) PTE_P) ∧
    (∀ j, 0 ≤ j < 4096 → phys (mm k') (p * 4096 + j) = phys (mm k) (frame e * 4096 + j)) ∧
    refs (mm k') p = 1 ∧ refs (mm k') (frame e) = refs (mm k) (frame e) - 1 ∧
    (∀ x o va', lab g x = Some (Lab o []) → x ≠ r ∨ full_path va' ≠ full_path va →
       translate (phys (mm k')) x va' = translate (phys (mm k)) x va') ∧
    (∀ y, lab g (y / 4096) = None → y / 4096 ∉ fl g → phys (mm k') y = phys (mm k) y) ∧
    temp_at K (mm k') g' f 0 ∧
    tasks k' i = run_task (tasks k i) ∧ (∀ j, j ≠ i → tasks k' j = tasks k j).
Proof.
  intros Hk Hi Hpr Hr HrK Hcr Hta Hfl Hp0 Hva Hu Ht Hcow Hcode.
  pose proof (cow_fault_ok K k g tl i r va e p fl' f Hk Hi Hpr Hr HrK Hcr Hta Hfl Hp0 Hva Hu Ht Hcow Hcode) as H.
  apply wp_ok in H as (ret & k' & Hrun & -> & g' & D). exists k', g'.
  destruct D as [D1 D2 D3 D4 D5 D6 D7 D8 D9 D10 _ _ _ _ _ _ _].
  split; [done|]. split; [done|]. split; [done|]. split; [done|]. split; [done|]. split; [done|].
  split; [|done]. intros x o va' Hx Hne. apply (D5 x o); [done|]. intros [<- E]. destruct Hne; congruence.
Qed.

End theorems.

(** ** Instances *)

Definition demo_insert (perm : Z) : res (Z * mstate Term.terminal) :=
  page_insert (VADDR kernel64 (2 * 4096)) 6 0x400000 perm demo_mm.

(** Did it succeed, and which page is allocated next? *)
Definition demo_insert_next (perm : Z) : option Z :=
  match demo_insert perm with Ok (0, s) => Lst.lh_first (free s) | _ => None end.

Lemma demo_temp : temp_at 1 demo_mm demo_ghost 5 0.
Proof.
  constructor; [reflexivity| |vm_compute; reflexivity].
  intros x o Hx. apply demo_lab_cases in Hx as [[-> _]|[[-> _]|[[-> E]|[[-> E]|[-> E]]]]]; [| |done..]; vm_compute; reflexivity.
Qed.

Lemma demo_inserted perm :
  0 ≤ perm < 4096 → demo_insert_next perm = Some 11 →
  ∃ s' g' fl', demo_insert perm = Ok (0, s') ∧ kwf 1 (set_mm s' demo_kernel) g' (zseq 1 4) ∧
    lab g' 2 = Some (Lab 2 []) ∧ fl g' = 11 :: fl' ∧ refs_fit s' g' ∧ temp_at 1 s' g' 5 0 ∧ bld s' = kernel64 ∧
    translate (phys s') 2 0x400000 = Some (6 * 4096 + Z.lor perm 1) ∧
    (∀ va e, PML4_IDX va < KIDX → translate (phys s') 2 va = Some e → e = 6 * 4096 + Z.lor perm 1) ∧
    inserted 1 demo_mm demo_ghost s' g' 2 0x400000 6 (6 * 4096 + Z.lor perm 1).
Proof.
  intros Hperm Hnext. unfold demo_insert_next in Hnext.
  assert (user_va 1 demo_ghost 2 2 0x400000) as U by (split; [reflexivity|]; split; [lia|vm_compute; reflexivity]).
  destruct (page_insert_spec 1 demo_mm demo_ghost 2 2 0x400000 6 perm demo_wf U) as (r & s' & g' & Hrun & H);
    [unfold in_range; cbn; lia|lia|rewrite demo_free_elem; done|reflexivity|cbn; lia|done|].
  change (bld demo_mm) with kernel64 in Hrun. unfold demo_insert in *. rewrite Hrun in Hnext.
  destruct H as [[-> _]|[-> I]]; [discriminate Hnext|]. pose proof (in_wf _ _ _ _ _ _ _ _ _ I) as W'.
  pose proof (Lst.lrep_first _ _ (proj1 (wf_alloc _ _ _ W'))) as Hf. unfold Lst.LIST_FIRST in Hf. rewrite Hnext in Hf.
  destruct (fl g') as [|x fl'] eqn:F; [discriminate Hf|]. injection Hf as <-.
  exists s', g', fl'. split; [exact Hrun|]. clear Hrun Hnext.
  split; [|split; [|split; [exact F|split; [|split; [|split; [|split; [|split]]]]]]].
  - apply (kwf_mm 1 demo_kernel demo_ghost (zseq 1 4) s' g' demo_kwf W' (in_bld _ _ _ _ _ _ _ _ _ I)
      (in_cnt _ _ _ _ _ _ _ _ _ I) (in_lab _ _ _ _ _ _ _ _ _ I)); [|exact (in_top _ _ _ _ _ _ _ _ _ I)].
    intros x o Hx. destruct (in_new _ _ _ _ _ _ _ _ _ I x _ Hx) as [E|[E _]]; [exact E|by destruct (E eq_refl)].
  - by apply (in_lab _ _ _ _ _ _ _ _ _ I).
  - intros d. rewrite (in_cnt _ _ _ _ _ _ _ _ _ I), (in_pins _ _ _ _ _ _ _ _ _ I). cbn [pages_cnt demo_mm pins demo_ghost].
    destruct (_ || _); lia.
  - apply (temp_at_inserted 1 demo_mm demo_ghost s' g' 2 0x400000 6 _ 5 0 demo_wf I); [vm_compute; reflexivity|exact demo_temp|reflexivity].
  - exact (in_bld _ _ _ _ _ _ _ _ _ I).
  - exact (in_tr _ _ _ _ _ _ _ _ _ I).
  - intros va e Hva He. destruct (decide (full_path va = full_path 0x400000)) as [E|Hne].
    + rewrite (translate_full _ _ _ _ E), (in_tr _ _ _ _ _ _ _ _ _ I) in He. congruence.
    + rewrite (in_other _ _ _ _ _ _ _ _ _ I 2 2) in He; [|reflexivity|by intros [_ ?]]. exfalso.
      destruct (mapped_page 1 demo_mm demo_ghost 2 2 va e demo_wf) as (f & _ & _ & _ & Hu & _); [|done|].
      { split; [reflexivity|]. split; [lia|done]. }
      by rewrite demo_uleaf in Hu.
  - exact I.
Qed.

Lemma cow_entry_correct_witness : 0 ≤ 0x6007 < 2 ^ 63 ∧ cow 0x6007 = 0x6805 ∧ frame (cow 0x6007) = 6.
Proof.
  split; [lia|]. split; [reflexivity|]. apply (cow_entry_correct 0x6007). lia.
Defined.


Definition demo_no_slot : kstate Term.terminal := set_free_tasks (demo_list []) demo_kernel.

Lemma demo_no_slot_kwf : kwf 1 demo_no_slot demo_ghost [].
Proof.
  destruct demo_kwf as [H1 H2 H3 H4 H5 H6 _ H8 H9 H10]. constructor; try assumption.
  - apply demo_list_rep. constructor.
  - intros i Hi. by apply elem_of_nil in Hi.
Qed.

Lemma sys_fork_no_slot_witness :
  ∃ c, sys_fork (TSlot 0) demo_no_slot = Ok (-1, set_mm (set_con c (mm demo_no_slot)) demo_no_slot).
Proof.
  destruct (sys_fork_no_slot 1 demo_no_slot demo_ghost 0 demo_no_slot_kwf) as (c & H & _). exists c. exact H.
Defined.

(** The demo task writes to page 6, mapped copy-on-write at 0x400000. *)
Definition demo_fault_context : Context.task_context :=
  Context.TaskContext Context.zero_gprs 0 0 0 0 14 7 0 0 0 0 0 0 0 0.

Definition demo_fault (s : mstate Term.terminal) : kstate Term.terminal :=
  set_cr3 (2 * 4096) (set_tasks (<[0 := set_context demo_fault_context demo_task]> (tasks demo_kernel)) (set_mm s demo_kernel)).

Lemma cow_fault_correct_witness :
  ∃ s k', demo_insert 0x804 = Ok (0, s) ∧
    Interrupt.page_fault_handler (TSlot 0) 0x400123 (demo_fault s) = Ok (TSlot 0, k') ∧
    translate (phys s) 2 0x400123 = Some 0x6805 ∧ translate (phys (mm k')) 2 0x400123 = Some 0xb807 ∧
    phys (mm k') 0xb010 = phys s 0x6010.
Proof.
  destruct (demo_inserted 0x804) as (s & g & fl' & Hrun & Hk & Hl & F & _ & Hta & Hb & Ht & _ & _);
    [lia|vm_compute; reflexivity|].
  assert (translate (phys s) 2 0x400123 = Some 0x6805) as Ht'.
  { rewrite (translate_full _ _ 0x400123 0x400000 eq_refl). exact Ht. }
  destruct (cow_fault_correct 1 (demo_fault s) g (zseq 1 4) 0 2 0x400123 0x6805 11 fl' 5)
    as (k' & g' & Hf & _ & Hn & Hc & _).
  - pose proof (kwf_upd 1 _ g (zseq 1 4) 0 (set_context demo_fault_context) Hk (λ t, eq_refl)) as Hk'.
    destruct Hk'. constructor; assumption.
  - split; [lia|reflexivity].
  - cbn [mm set_mm demo_fault set_cr3 set_tasks]. rewrite Hb. reflexivity.
  - exact Hl.
  - discriminate.
  - reflexivity.
  - exact Hta.
  - exact F.
  - lia.
  - lia.
  - vm_compute. reflexivity.
  - exact Ht'.
  - reflexivity.
  - reflexivity.
  - exists s, k'. split; [exact Hrun|]. split; [exact Hf|]. split; [exact Ht'|].
    split; [rewrite Hn; reflexivity|]. specialize (Hc 0x10). apply Hc. lia.
Defined.
