(* ===== verification/SystemTheorems.v ===== *)
(** The theorems about the running system: its invariant, the isolation of the
    tasks and the outcome of interrupts, with their instances on the machine of
    Demo. *)

From Stdlib Require Import String.
From S2P Require Import Prelude Memory Queue Mmu Console Terminal Map AllocProofs Walk MapWf.
From S2P Require Import LookupProofs InsertProofs KmapProofs Gdt Context Task SchedProofs.
From S2P Require Import DestroyProofs TaskProofs Syscall ForkProofs Monitor Interrupt.
From S2P Require Import FaultProofs IsolationProofs.
From S2P Require Import TrapProofs LoadProofs MonitorProofs SystemProofs Demo ProcTheorems.
Import Mmu Map Task Interrupt.

(** ** The theorems *)

Section theorems.
Implicit Types (m : machine) (ctx : Context.task_context).

(** C2: the invariant of the running system.  Start from a state in which one
    task runs and the kernel's data is consistent: the page tables of all tasks
    are disjoint trees that share the kernel's part, counters equal the number
    of mappings, no mapped page is free, a page some user entry maps writable
    is mapped by no other user entry, kernel entries are not accessible from
    user mode, free slots have no address space.  Then the same holds after any
    sequence of interrupts (page faults, system calls, timer, keyboard with all
    commands of the monitor, breakpoints, exceptions) and stores by user
    programs, whatever the tasks do. *)
Theorem system_invariant (K f : Z) m0 m :
  system_ok K f m0 → rtc step m0 m → system_ok K f m.
Proof. apply reachable_ok. Qed.

(** C3: memory isolation.  In every reachable state, a store of the running task
    through any address its page tables let it write changes no byte any other
    task can read, at any user address; no address of any task, nor of the
    kernel, translates differently afterwards; and the page written is neither
    free nor page 0. *)
Theorem user_isolation (K f : Z) m0 m va e v :
  system_ok K f m0 → rtc step m0 m → user_writable m va e →
  let m' := user_store (frame e * PAGE_SIZE + va mod PAGE_SIZE) v m in
  ∃ i, cpu_task (Monitor.kern (mon m)) = Some (TSlot i) ∧
    (∀ j va', 0 ≤ j < TASK_MAX_CNT → j ≠ i → pml4 (tasks (Monitor.kern (mon m)) j) ≠ NULL → PML4_IDX va' < KIDX →
       user_byte m' j va' = user_byte m j va') ∧
    (∀ j va', 0 ≤ j < TASK_MAX_CNT → pml4 (tasks (Monitor.kern (mon m)) j) ≠ NULL →
       let root := PADDR (bld (mm (Monitor.kern (mon m)))) (pml4 (tasks (Monitor.kern (mon m)) j)) / PAGE_SIZE in
       translate (phys (mm (Monitor.kern (mon m')))) root va' = translate (phys (mm (Monitor.kern (mon m)))) root va') ∧
    0 < frame e ∧ ∃ l, Lst.lrep (free (mm (Monitor.kern (mon m)))) l ∧ frame e ∉ l.
Proof.
  intros H0 Hr U. destruct (reachable_ok K f m0 m H0 Hr) as (i & g & tl & R).
  pose proof (ru_inv _ _ _ _ _ _ R) as I. pose proof (ki_kwf _ _ _ _ _ I) as Hk.
  destruct (writable_page K f m i g tl va e R U) as (r & _ & _ & Hv & _ & Hfl & Hl).
  exists i. split; [exact (ru_cpu _ _ _ _ _ _ R)|]. split; [|split; [|split]].
  - intros j va' Hj Hji Hn Hva'. by apply (store_unseen K f m i g tl).
  - intros j va' Hj Hn. destruct (task_root K m j g tl Hk Hj Hn) as (rj & _ & [Hlj _] & ->).
    apply (store_tables K (Monitor.kern (mon m)) g tl rj rj va' _ v Hk); [|done].
    change PAGE_SIZE with 4096. by replace ((frame e * 4096 + va mod 4096) / 4096) with (frame e) by dlia.
  - by apply (vo_pos _ _ _ (ki_views _ _ _ _ _ I) r va).
  - exists (fl g). split; [|done]. apply (wf_alloc _ _ _ (kw_wf _ _ _ _ Hk)).
Qed.



End theorems.

(** ** Instances *)

(** The demo machine runs task 0, whose only page is page 6 at 0x400000. *)
Definition demo_running (s : mstate Term.terminal) : kstate Term.terminal :=
  set_cr3 (2 * 4096) (set_cpu_task (Some (TSlot 0))
    (set_tasks (<[0 := set_state TASK_STATE_RUN demo_task]> (tasks demo_kernel)) (set_mm s demo_kernel))).

Definition demo_machine (s : mstate Term.terminal) : machine :=
  Machine (Monitor.Monitor (demo_running s) (Term.Position 24 3) (λ _, 0)) [] (λ _, 0) [] 0 0
    (λ _, None) (λ _, None) 0 0 0 0.

Lemma demo_no_user va e : PML4_IDX va < KIDX → translate (phys demo_mm) 2 va = Some e → False.
Proof.
  intros Hva He. destruct (mapped_page 1 demo_mm demo_ghost 2 2 va e demo_wf) as (x & _ & _ & _ & Hu & _); [|done|].
  { split; [reflexivity|]. split; [lia|done]. }
  by rewrite demo_uleaf in Hu.
Qed.

Lemma demo_roots x : lab demo_ghost x = Some (Lab x []) → x ≠ 1 → x = 2.
Proof. intros H%demo_lab_cases Hx. naive_solver. Qed.

Lemma demo_pml4 s j : pml4 (tasks (demo_running s) j) = pml4 (tasks demo_kernel j).
Proof. cbn. rewrite fn_insert_dec. by destruct (decide (0 = j)) as [<-|]. Qed.

Lemma demo_kinv : kinv 1 (demo_running demo_mm) demo_ghost (zseq 1 4) 5.
Proof.
  assert (∀ i, tasks (demo_running demo_mm) i = if i =? 0 then set_state TASK_STATE_RUN demo_task else zero_task) as Ht.
  { intros i. cbn. rewrite fn_insert_dec. destruct (decide (0 = i)) as [<-|]; [done|]. by rewrite (proj2 (Z.eqb_neq i 0)) by lia. }
  constructor.
  - exact (kwf_tasks 1 demo_kernel demo_ghost (zseq 1 4) (demo_running demo_mm) demo_kwf eq_refl (demo_pml4 demo_mm) eq_refl eq_refl).
  - exact demo_temp.
  - intros d. cbn. destruct (_ || _); lia.
  - reflexivity.
  - assert (∀ r va e, ¬ uview 1 (phys demo_mm) demo_ghost r va e) as Hno.
    { intros r va e ([Hr Hr1] & Hva & He). rewrite (demo_roots r Hr Hr1) in He. exact (demo_no_user va e Hva He). }
    constructor; [intros r va e H|intros r va e r' va' e' H]; destruct (Hno _ _ _ H).
  - intros va x Hva Hw. pose proof (kernel_walk 1 demo_mm demo_ghost va x demo_wf eq_refl Hw) as Hx.
    cbn [phys mm demo_running set_cr3 set_cpu_task set_tasks set_mm]. rewrite demo_entry by apply PT_IDX_range.
    apply demo_lab_cases in Hx as [[-> E]|[[-> E]|[[-> E]|[[-> E]|[-> E]]]]]; done.
  - split; [discriminate|unfold TASK_MAX_CNT; cbn; lia].
  - intros i Hi. rewrite Ht. destruct (i =? 0); [discriminate|]. by intros [?|?].
Qed.

Lemma demo_system s g :
  inserted 1 demo_mm demo_ghost s g 2 0x400000 6 0x6007 → kwf 1 (set_mm s demo_kernel) g (zseq 1 4) →
  system_ok 1 5 (demo_machine s).
Proof.
  intros I Hk. exists 0, g, (zseq 1 4). pose proof demo_kinv as D.
  constructor; try reflexivity.
  - apply (kinv_step 1 (demo_running demo_mm) demo_ghost (zseq 1 4)); [exact D| | | | | | | |exact (ki_alive _ _ _ _ _ D)].
    + exact (kwf_tasks 1 (set_mm s demo_kernel) g (zseq 1 4) (demo_running s) Hk eq_refl (demo_pml4 s) eq_refl eq_refl).
    + exact (in_cnt _ _ _ _ _ _ _ _ _ I).
    + intros d. by rewrite (in_pins _ _ _ _ _ _ _ _ _ I).
    + intros x l Hx _. by apply (in_lab _ _ _ _ _ _ _ _ _ I).
    + exact (in_kern _ _ _ _ _ _ _ _ _ I).
    + assert (∀ r va e, uview 1 (phys s) g r va e → r = 2 ∧ full_path va = full_path 0x400000 ∧ e = 0x6007) as H.
      { intros r va e ([Hr Hr1] & Hva & He).
        destruct (in_new _ _ _ _ _ _ _ _ _ I r _ Hr) as [Hr0|[Hbad _]]; [|by destruct Hbad].
        pose proof (demo_roots r Hr0 Hr1) as ->. split; [reflexivity|].
        destruct (decide (full_path va = full_path 0x400000)) as [E|Hne].
        - split; [exact E|]. rewrite (translate_full _ _ _ _ E), (in_tr _ _ _ _ _ _ _ _ _ I) in He. congruence.
        - exfalso. rewrite (in_other _ _ _ _ _ _ _ _ _ I 2 2) in He; [|reflexivity|by intros [_ ?]]. by eapply demo_no_user. }
      constructor.
      * intros r va e (_ & _ & ->)%H. reflexivity.
      * intros r va e r' va' e' (-> & E1 & _)%H (-> & E2 & _)%H _ _. split; [reflexivity|congruence].
    + exact (ki_next _ _ _ _ _ D).
  - split; [lia|reflexivity].
  - intros j Hj Hne. cbn. rewrite fn_lookup_insert_ne by lia. cbn. by rewrite (proj2 (Z.eqb_neq j 0)) by lia.
  - cbn [cr3 demo_machine mon Monitor.kern demo_running set_cr3 mm set_cpu_task set_tasks set_mm bld].
    rewrite (demo_pml4 s), (in_bld _ _ _ _ _ _ _ _ _ I). reflexivity.
Qed.

Lemma demo_writable s g :
  inserted 1 demo_mm demo_ghost s g 2 0x400000 6 0x6007 → user_writable (demo_machine s) 0x400000 0x6007.
Proof. intros I. split; [exact (in_tr _ _ _ _ _ _ _ _ _ I)|split; reflexivity]. Qed.

(** One store of the demo task, to the first byte of its page. *)
Definition demo_store (s : mstate Term.terminal) : machine :=
  user_store (frame 0x6007 * PAGE_SIZE + 0x400000 mod PAGE_SIZE) Byte.x2a (demo_machine s).

Lemma demo_step s g : inserted 1 demo_mm demo_ghost s g 2 0x400000 6 0x6007 → rtc step (demo_machine s) (demo_store s).
Proof. intros I. apply rtc_once, step_store, (demo_writable s g I). Qed.

Lemma system_invariant_witness :
  ∃ s, demo_insert 6 = Ok (0, s) ∧ system_ok 1 5 (demo_machine s) ∧ system_ok 1 5 (demo_store s).
Proof.
  destruct (demo_inserted 6) as (s & g & fl' & Hrun & Hk & _ & _ & _ & _ & _ & _ & _ & I); [lia|vm_compute; reflexivity|].
  exists s. split; [exact Hrun|]. pose proof (demo_system s g I Hk) as H0. split; [exact H0|].
  exact (system_invariant 1 5 (demo_machine s) (demo_store s) H0 (demo_step s g I)).
Defined.

Lemma user_isolation_witness :
  ∃ s, demo_insert 6 = Ok (0, s) ∧ user_writable (demo_machine s) 0x400000 0x6007 ∧
    ∀ va', translate (phys (mm (Monitor.kern (mon (demo_store s))))) 2 va' = translate (phys s) 2 va'.
Proof.
  destruct (demo_inserted 6) as (s & g & fl' & Hrun & Hk & _ & _ & _ & _ & Hb & _ & _ & I); [lia|vm_compute; reflexivity|].
  exists s. split; [exact Hrun|]. pose proof (demo_writable s g I) as U. split; [exact U|].
  destruct (user_isolation 1 5 (demo_machine s) (demo_machine s) 0x400000 0x6007 Byte.x2a (demo_system s g I Hk)
    (rtc_refl _ _) U) as (i & _ & _ & H & _).
  intros va'. specialize (H 0 va' ltac:(split; [lia|reflexivity])). cbn [mon demo_machine Monitor.kern] in H.
  rewrite (demo_pml4 s) in H. cbn [mm demo_running set_cr3 set_cpu_task set_tasks set_mm] in H. rewrite Hb in H.
  apply H. discriminate.
Defined.

(** A timer interrupt. *)
Definition demo_timer : Context.task_context :=
  Context.TaskContext Context.zero_gprs 0 0 0 0 32 0 0 0 0 0 0 0 0 0.

Lemma demo_timer_mild : ¬ fatal demo_timer.
Proof.
  intros [H|[[H _]|H]]; try discriminate H. apply H. unfold handled. rewrite !elem_of_cons. cbn. tauto.
Qed.

Lemma demo_timer_harmless m i j : ¬ victim demo_timer m i j.
Proof. intros [[_ H]|[H _]]; [by apply demo_timer_mild in H|discriminate H]. Qed.

Lemma demo_timer_runs s g :
  inserted 1 demo_mm demo_ghost s g 2 0x400000 6 0x6007 → kwf 1 (set_mm s demo_kernel) g (zseq 1 4) →
  ∃ t m', interrupt_handler demo_timer (demo_machine s) = Ok (t, m').
Proof.
  intros I Hk. destruct (demo_system s g I Hk) as (i & g' & tl & R).
  pose proof (handler_out 1 5 demo_timer (demo_machine s) i g' tl R ltac:(cbn; lia)) as H. unfold wpe in H.
  destruct (interrupt_handler demo_timer (demo_machine s)) as [[t m']|e]; [by exists t, m'|].
  exfalso. destruct H as [[(_ & _ & H)|[(_ & H & _)|[(_ & H & _)|[_ H]]]]|[H _]]; try discriminate H.
  by apply demo_timer_mild in H.
Qed.

(** The system call [yield]. *)
Definition demo_yield : Context.task_context :=
  Context.TaskContext (Context.set_rax 3 Context.zero_gprs) 0 0 0 0 34 0 0 0 0 0 0 0 0 0.

Lemma demo_yield_runs s g :
  inserted 1 demo_mm demo_ghost s g 2 0x400000 6 0x6007 → kwf 1 (set_mm s demo_kernel) g (zseq 1 4) →
  ∃ t m', interrupt_handler demo_yield (demo_machine s) = Ok (t, m').
Proof.
  intros I Hk. destruct (demo_system s g I Hk) as (i & g' & tl & R).
  pose proof (handler_out 1 5 demo_yield (demo_machine s) i g' tl R ltac:(cbn; lia)) as H. unfold wpe in H.
  destruct (interrupt_handler demo_yield (demo_machine s)) as [[t m']|e]; [by exists t, m'|].
  exfalso. destruct H as [[(_ & _ & H)|[(_ & _ & H)|[(_ & _ & H)|[_ H]]]]|[H _]]; try discriminate H.
  destruct H as [H|[[_ H]|H]]; try discriminate H. apply H. unfold handled. rewrite !elem_of_cons. cbn. tauto.
Qed.



