(* ===== verification/LoadDemo.v ===== *)
(** A program image in the memory of the machine of Demo: the instance on
    which the theorems about the creation of tasks are applied.

    The image is a 124-byte ELF file with one LOAD segment of four bytes of
    code and two bytes of zeros at 0x400000.  It lies in page 7, which the
    kernel holds and maps in its half of the address space. *)

From Stdlib Require Import String.
From S2P Require Import Prelude Memory Queue Mmu Console Terminal Map AllocProofs Walk MapWf.
From S2P Require Import LookupProofs InsertProofs KmapProofs Gdt Context Task SchedProofs.
From S2P Require Import DestroyProofs TaskProofs Syscall ForkProofs Monitor Interrupt.
From S2P Require Import FaultProofs.
From S2P Require Import TrapProofs LoadProofs CreateProofs Demo ProcTheorems SystemProofs.
From S2P Require Import SystemTheorems.
Import Mmu Map Task Interrupt.

(** Where the fields of the two headers start, and their lowest bytes. *)
Definition demo_image (j : Z) : byte :=
  match j with
  | 0 => Byte.x7f | 1 => Byte.x45 | 2 => Byte.x4c | 3 => Byte.x46
  | 26 => Byte.x40 | 32 => Byte.x40 | 56 => Byte.x01
  | 64 => Byte.x01 | 72 => Byte.x78 | 82 => Byte.x40 | 96 => Byte.x04 | 104 => Byte.x06
  | 120 => Byte.x90 | 121 => Byte.x90 | 122 => Byte.xeb | 123 => Byte.xfc
  | _ => Byte.x00
  end.

Definition demo_image_size : Z := 124.
Definition demo_image_va : Z := PAGE_ADDR 511 479 511 1 0.

Definition demo_map_phys : mem := wr64 (phys demo_mm) (5 * 4096 + 8 * 1) 0x7003.

Definition demo_load_phys : mem := λ a,
  if (7 * 4096 <=? a) && (a <? 8 * 4096) then demo_image (a - 7 * 4096) else demo_map_phys a.

Definition demo_load_mm : mstate Term.terminal := set_phys demo_load_phys demo_mm.
Definition demo_load : kstate Term.terminal := set_mm demo_load_mm demo_kernel.

Lemma demo_load_entry x l i :
  demo_lab x = Some l → 0 ≤ i < 512 → entry_at demo_load_phys x i = entry_at demo_map_phys x i.
Proof.
  intros Hx Hi. apply rd64_ext. intros b Hb. unfold demo_load_phys.
  assert (x ≠ 7) as Hne by (intros ->; discriminate Hx).
  destruct (Z.leb_spec (7 * 4096) b), (Z.ltb_spec b (8 * 4096)); try done. exfalso. dlia.
Qed.

Lemma demo_map_entry x i :
  0 ≤ i < 512 → entry_at demo_map_phys x i = if (x =? 5) && (i =? 1) then 0x7003 else demo_entry_val x i.
Proof.
  intros Hi. unfold demo_map_phys. destruct (Z.eqb_spec x 5) as [->|Hx]; cbn [andb].
  - destruct (Z.eqb_spec i 1) as [->|Hne]; [by rewrite entry_wr_eq|].
    rewrite entry_wr_ne by (done || congruence). by apply demo_entry.
  - rewrite entry_wr_ne by (done || congruence). by apply demo_entry.
Qed.

Lemma demo_load_wf : wf 1 demo_load_mm demo_ghost.
Proof.
  apply (wf_phys 1 (set_phys demo_map_phys demo_mm) demo_ghost demo_load_phys).
  - apply (kleaf_wf 1 demo_mm demo_ghost 5 1 0x7003 [511; 479; 511] demo_wf eq_refl eq_refl). lia.
  - intros x l i Hx Hi. by apply (demo_load_entry x l i).
Qed.

Lemma demo_load_kwf : kwf 1 demo_load demo_ghost (zseq 1 4).
Proof.
  apply (kwf_mm 1 demo_kernel demo_ghost (zseq 1 4) demo_load_mm demo_ghost demo_kwf demo_load_wf); try done.
  intros r o i Hr Hi. rewrite KIDX_val in Hi. cbn [mm demo_kernel phys demo_load_mm set_phys].
  rewrite (demo_load_entry r (Lab o []) i Hr), demo_map_entry by lia. change (phys demo_mm) with demo_phys. rewrite demo_entry by lia.
  apply demo_lab_cases in Hr as [[-> _]|[[-> _]|[[-> E]|[[-> E]|[-> E]]]]]; done.
Qed.

Lemma demo_load_tr va e : PML4_IDX va < KIDX → translate demo_load_phys 2 va = Some e → False.
Proof.
  intros Hva He. destruct (mapped_page 1 demo_load_mm demo_ghost 2 2 va e demo_load_wf) as (x & _ & _ & _ & Hu & _); [|done|].
  { split; [reflexivity|]. split; [lia|done]. }
  by rewrite demo_uleaf in Hu.
Qed.

Lemma demo_load_kinv : kinv 1 demo_load demo_ghost (zseq 1 4) 5.
Proof.
  constructor.
  - exact demo_load_kwf.
  - constructor; [reflexivity| |vm_compute; reflexivity].
    intros x o Hx. apply demo_lab_cases in Hx as [[-> _]|[[-> _]|[[-> E]|[[-> E]|[-> E]]]]]; [| |done..]; vm_compute; reflexivity.
  - intros d. cbn. destruct (_ || _); lia.
  - reflexivity.
  - assert (∀ r va e, ¬ uview 1 demo_load_phys demo_ghost r va e) as Hno.
    { intros r va e ([Hr Hr1] & Hva & He). rewrite (demo_roots r Hr Hr1) in He. exact (demo_load_tr va e Hva He). }
    constructor; [intros r va e H|intros r va e r' va' e' H]; destruct (Hno _ _ _ H).
  - intros va x Hva Hw. pose proof (kernel_walk 1 demo_load_mm demo_ghost va x demo_load_wf eq_refl Hw) as Hx.
    cbn [phys mm demo_load demo_load_mm set_phys set_mm].
    rewrite (demo_load_entry x _ _ Hx), demo_map_entry by apply PT_IDX_range.
    apply demo_lab_cases in Hx as [[-> E]|[[-> E]|[[-> E]|[[-> E]|[-> E]]]]]; try done.
    cbn [Z.eqb Pos.eqb andb]. by destruct (PT_IDX va =? 1).
  - split; [discriminate|unfold TASK_MAX_CNT; cbn; lia].
  - intros i Hi. cbn. destruct (i =? 0); [discriminate|]. by intros [?|?].
Qed.

(** The kernel between two tasks, with the image in its memory. *)
Lemma demo_load_idle : idle 1 demo_load demo_ghost (zseq 1 4) 5.
Proof.
  constructor; [exact demo_load_kinv| |].
  - intros j Hj. cbn. by destruct (j =? 0).
  - by exists 1.
Qed.

Lemma demo_binary : binary_at 1 demo_load demo_ghost demo_image_va demo_image_size demo_image.
Proof.
  intros j Hj. unfold demo_image_size in Hj.
  assert (full_path (demo_image_va + j) = full_path demo_image_va) as E.
  { unfold full_path, table_path. change demo_image_va with 18446744039347720192.
    rewrite !PML4_IDX_alt, !PDP_IDX_alt, !PD_IDX_alt, !PT_IDX_alt, !u64_small by lia. cbn [app].
    f_equal; [|f_equal; [|f_equal; [|f_equal]]]; dlia. }
  change demo_image_va with 18446744039347720192 in *.
  split; [lia|]. split; [rewrite KIDX_val, PML4_IDX_alt, u64_small by lia; dlia|].
  exists 0x7003. split; [rewrite (translate_full _ _ _ _ E); vm_compute; reflexivity|].
  split; [reflexivity|]. split; [by rewrite demo_free_elem|].
  change (frame 0x7003) with 7. cbn [phys mm demo_load demo_load_mm set_phys set_mm]. unfold demo_load_phys.
  replace ((18446744039347720192 + j) mod 4096) with j by dlia.
  rewrite (proj2 (Z.leb_le _ _)), (proj2 (Z.ltb_lt _ _)) by lia. cbn [andb]. f_equal. lia.
Qed.

Lemma demo_elf : elf_ok demo_image demo_image_size.
Proof.
  assert (eh_phnum demo_image = 1) as Hn by reflexivity.
  constructor; [done|done| |].
  - intros i [Hi _] _. rewrite Hn in Hi. assert (i = 0) as -> by lia. constructor; vm_compute; congruence.
  - intros i j va [Hi _] [Hj _] _ _. rewrite Hn in *. lia.
Qed.
