(* ===== verification/HandedDemo.v ===== *)
(** A memory as the loader leaves it: the instance on which the theorems about
    the start of the kernel are applied.

    Thirty-two pages.  The PML4 is page 1, its map of low memory goes through
    page 2, the tables of the kernel's high pages are pages 3 to 5; page 6 is
    the configuration page, page 7 holds the built-in program, the array of page
    structures is at 0x400 and the pages 8 to 31 are free. *)

From Stdlib Require Import String.
From S2P Require Import Prelude Memory Queue Mmu Console Terminal Map AllocProofs Walk MapWf.
From S2P Require Import LookupProofs InsertProofs KmapProofs Gdt Context Task SchedProofs.
From S2P Require Import DestroyProofs TaskProofs Syscall ForkProofs Monitor Interrupt.
From S2P Require Import FaultProofs TrapProofs LoadProofs CreateProofs Kernel Demo SystemProofs.
From S2P Require Import InitProofs LoadDemo KernelTheorems TakeoverProofs.
Import Mmu Map Task Interrupt Kernel.

(** Page tables given by their entries. *)
Definition entries_mem (l : list (Z * Z * Z)) : mem :=
  foldr (λ '(f, i, v) m, wr64 m (f * 4096 + 8 * i) v) (λ _, Byte.x00) l.

Lemma entries_at l f i :
  Forall (λ '(_, i', v), 0 ≤ i' < 512 ∧ 0 ≤ v < 2 ^ 64) l → 0 ≤ i < 512 →
  entry_at (entries_mem l) f i = 0 ∨ (f, i, entry_at (entries_mem l) f i) ∈ l.
Proof.
  intros Hl Hi. induction Hl as [|[[f' i'] v] l [Hi' Hv] _ IH]; [by left|]. cbn [entries_mem foldr].
  destruct (decide ((f, i) = (f', i'))) as [[= -> ->]|Hne].
  - rewrite entry_wr_eq, u64_small by done. right. left.
  - rewrite entry_wr_ne by done. destruct IH as [IH|IH]; [by left|]. right. by right.
Qed.

Definition handed_entries : list (Z * Z * Z) :=
  [ (1, 0, 0x2003); (1, 511, 0x3003); (3, 479, 0x4003); (4, 511, 0x5003); (5, 1, 0x7003); (5, 503, 0x6003) ].

Definition handed_lab (f : Z) : option label :=
  match f with
  | 1 => Some (Lab 1 [])
  | 3 => Some (Lab 1 [511])
  | 4 => Some (Lab 1 [511; 479])
  | 5 => Some (Lab 1 [511; 479; 511])
  | _ => None
  end.

(** The bytes of [struct kernel_config]: pml4 0x1000, pages 0x400, 32 pages, gdt 0x7e00. *)
Definition handed_config (j : Z) : byte :=
  match j with 1 => Byte.x10 | 9 => Byte.x04 | 16 => Byte.x20 | 25 => Byte.x7e | _ => Byte.x00 end.

(** The bytes of the array: one reference, or a link. *)
Definition handed_array (j : Z) : byte :=
  if (0 <=? j) && (j <? 12 * 32) then
    if j / 12 <? 8 then if j mod 12 =? 0 then Byte.x01 else Byte.x00
    else if j mod 12 =? 5 then Byte.x10 else Byte.x00
  else Byte.x00.

Definition handed_phys : mem := λ a,
  let p := a / 4096 in
  if p =? 7 then demo_image (a - 7 * 4096)
  else if p =? 6 then handed_config (a - 6 * 4096)
  else if p =? 0 then handed_array (a - 0x400)
  else entries_mem handed_entries a.

Definition handed_mm : mstate Term.terminal :=
  MState kernel64 handed_phys 0 0 (λ _, 0) (Lst.Queue None (λ _, Lst.null_entry)) [] (Term.Terminal (λ _, 0) 0 0 0).

(** Before the zero-initialised section is cleared, its variables are arbitrary. *)
Definition handed_kernel : kstate Term.terminal :=
  KState handed_mm (tasks demo_kernel) (free_tasks demo_kernel) 7 3 4096 5 (Some (TSlot 2)) (tasks demo_kernel 0) 9.

Lemma handed_lab_cases f l :
  handed_lab f = Some l →
  f = 1 ∧ l = Lab 1 [] ∨ f = 3 ∧ l = Lab 1 [511] ∨ f = 4 ∧ l = Lab 1 [511; 479] ∨ f = 5 ∧ l = Lab 1 [511; 479; 511].
Proof.
  intros H. destruct (decide (f = 1)) as [->|?]; [injection H as <-; tauto|].
  destruct (decide (f = 3)) as [->|?]; [injection H as <-; tauto|].
  destruct (decide (f = 4)) as [->|?]; [injection H as <-; tauto|].
  destruct (decide (f = 5)) as [->|?]; [injection H as <-; tauto|].
  exfalso. revert H. unfold handed_lab. repeat case_match; congruence.
Qed.

Lemma handed_entry f l i :
  handed_lab f = Some l → 0 ≤ i < 512 → entry_at handed_phys f i = 0 ∨ (f, i, entry_at handed_phys f i) ∈ handed_entries.
Proof.
  intros Hf Hi. replace (entry_at handed_phys f i) with (entry_at (entries_mem handed_entries) f i).
  - apply entries_at; [|done]. repeat constructor; done.
  - apply rd64_ext. intros x Hx. unfold handed_phys. cbv zeta.
    replace (x / 4096) with f by (apply Z.div_unique with (x - f * 4096); lia).
    by apply handed_lab_cases in Hf as [[-> _]|[[-> _]|[[-> _]|[-> _]]]].
Qed.

Lemma handed_present f l i :
  handed_lab f = Some l → 0 ≤ i < 512 → present (entry_at handed_phys f i) = true →
  (f, i, entry_at handed_phys f i) ∈ handed_entries.
Proof. intros Hf Hi. destruct (handed_entry f l i Hf Hi) as [->|H]; [discriminate|done]. Qed.

Lemma handed_tables : tables 1 32 handed_lab handed_phys.
Proof.
  constructor.
  - intros f l Hf. apply handed_lab_cases in Hf as [[-> ->]|[[-> ->]|[[-> ->]|[-> ->]]]]; cbn; lia.
  - done.
  - intros f1 f2 l H1 H2.
    apply handed_lab_cases in H1 as [[-> ->]|[[-> ->]|[[-> ->]|[-> ->]]]];
      apply handed_lab_cases in H2 as [[-> ?]|[[-> ?]|[[-> ?]|[-> ?]]]]; done.
  - intros f l i Hf Hlen Hi Hn Hp. pose proof (handed_present f l i Hf Hi Hp) as H. unfold handed_entries in H.
    rewrite !elem_of_cons, elem_of_nil in H.
    destruct H as [E|[E|[E|[E|[E|[E|[]]]]]]]; injection E as -> -> E; rewrite E; try done;
      cbn in Hf; injection Hf as <-; cbn in Hlen; reflexivity || lia.
  - intros f q i Hf. apply handed_lab_cases in Hf as [[-> E]|[[-> E]|[[-> E]|[-> E]]]]; injection E as E.
    + by destruct q.
    + apply (app_inj_tail q []) in E as [-> ->]. split; [lia|]. exists 1. by repeat split; [..|vm_compute].
    + apply (app_inj_tail q [511]) in E as [-> ->]. split; [lia|]. exists 3. by repeat split; [..|vm_compute].
    + apply (app_inj_tail q [511; 479]) in E as [-> ->]. split; [lia|]. exists 4. by repeat split; [..|vm_compute].
Qed.

Lemma handed_info : info_at 1 32 6 handed_lab handed_kernel.
Proof. constructor; [exact handed_tables|done| |done]. exists 0x6003. by vm_compute. Qed.

(** The array, element by element. *)
Lemma handed_elements : Forall (λ i, links32 0x400 handed_phys i = (if i <? 8 then 0 else 0x1000) ∧
  ref32 0x400 handed_phys i = if i <? 8 then 1 else 0) (zseq 0 32).
Proof. repeat constructor; vm_compute; reflexivity. Qed.

Lemma handed_element i : 0 ≤ i < 32 →
  links32 0x400 handed_phys i = (if i <? 8 then 0 else 0x1000) ∧ ref32 0x400 handed_phys i = if i <? 8 then 1 else 0.
Proof. intros Hi. pose proof handed_elements as H. rewrite Forall_forall in H. apply H, zseq_elem. lia. Qed.

Lemma handed_stacks va : va ∈ stack_pages → entry_at handed_phys 5 (PT_IDX va) = 0.
Proof.
  intros H. assert (Forall (λ va, entry_at handed_phys 5 (PT_IDX va) = 0) stack_pages) as Hf
    by (repeat constructor; vm_compute; reflexivity).
  rewrite Forall_forall in Hf. by apply Hf.
Qed.

Lemma handed_kleaf : kleaf_ok 1 handed_phys.
Proof.
  intros va x Hva Hw. assert (PML4_IDX va ≠ 0) as Hva0 by (rewrite KIDX_val in Hva; lia).
  pose proof (kernel_walk_lab 1 32 handed_lab handed_phys va x handed_tables Hva0 Hw) as Hl.
  destruct (handed_entry x _ (PT_IDX va) Hl (PT_IDX_range va)) as [->|H]; [done|].
  unfold handed_entries in H. rewrite !elem_of_cons, elem_of_nil in H.
  destruct H as [E|[E|[E|[E|[E|[E|[]]]]]]]; injection E as _ _ E; rewrite E; done.
Qed.

Lemma handed_demo : handed 1 5 32 0x400 6 handed_lab handed_kernel.
Proof.
  constructor; try (exact eq_refl).
  - exact handed_info.
  - lia.
  - lia.
  - intros x Hx. replace (x / 4096) with 0 by (apply Z.div_unique with x; lia). done.
  - intros i Hi. destruct (handed_element i Hi) as [E1 E2]. unfold loader_page. cbn [phys mm handed_kernel handed_mm].
    rewrite E1, E2. destruct (Z.ltb_spec i 8); split; done.
  - intros i Hi. destruct (handed_element i Hi) as [E1 _]. cbn [phys mm handed_kernel handed_mm]. rewrite E1.
    destruct (Z.ltb_spec i 8); [done|]. intros _. destruct (handed_lab i) eqn:E; [|done].
    apply handed_lab_cases in E as [[-> _]|[[-> _]|[[-> _]|[-> _]]]]; lia.
  - by vm_compute.
  - exact handed_stacks.
  - exact handed_kleaf.
Qed.
