(* ===== verification/StartTheorems.v ===== *)
(** The theorems about the creation of tasks and the start of the system:
    [task_create] builds the program's memory, [thread_create] a kernel
    thread's stack, and the end of [kernel_main] leads into the states of
    SystemTheorems. *)

From Stdlib Require Import String.
From S2P Require Import Prelude Memory Queue Mmu Console Terminal Map AllocProofs Walk MapWf.
From S2P Require Import LookupProofs InsertProofs KmapProofs Gdt Context Task SchedProofs.
From S2P Require Import DestroyProofs TaskProofs Syscall ForkProofs Thread Monitor Interrupt.
From S2P Require Import FaultProofs TrapProofs LoadProofs CreateProofs ThreadProofs.
From S2P Require Import Kernel Demo ProcTheorems SystemProofs InitProofs SystemTheorems.
From S2P Require Import LoadDemo.
Import Mmu Map Task Interrupt Kernel.

Section start.
Context (K f : Z).
Implicit Types (k : kstate Term.terminal) (m : machine).

Abbreviation kern m := (Monitor.kern (mon m)).



(** ** The end of [kernel_main] *)

Lemma reach_ok m m' : rtc step m m' → system_ok K f m → system_ok K f m'.
Proof. induction 1 as [|m1 m2 m3 H _ IH]; [done|]. intros Hm. apply IH. by eapply step_ok. Qed.

(** A new thread can be made runnable. *)
Lemma thread_run_idle k g tl t :
  idle K k g tl f → 0 ≤ t < TASK_MAX_CNT → state (tasks k t) = TASK_STATE_DONT_RUN → pml4 (tasks k t) ≠ NULL →
  ∃ k', Thread.thread_run (TSlot t) k = Ok ((), k') ∧ idle K k' g tl f ∧ ready (tasks k' t).
Proof.
  intros [I Hn Hc] Ht Hs Hp. unfold Thread.thread_run, mbind, M_bind. rewrite get_slot_ok by done.
  rewrite Hs, bool_decide_true by done. cbn [massert mret M_ret]. rewrite upd_slot_ok by done. eexists. split; [done|].
  split; [|unfold ready; cbn; by rewrite fn_lookup_insert]. constructor; [by apply kinv_upd| |done].
  intros j Hj. cbn [tasks set_tasks]. rewrite fn_insert_dec. case_decide; [done|by apply Hn].
Qed.

Lemma start_out spin_start spin_end kernel_thread thread_foo task_addr m g tl image :
  idle K (kern m) g tl f → binary_at K (kern m) g spin_start (spin_end - spin_start) image →
  elf_ok image (spin_end - spin_start) →
  wpe (kernel_start spin_start spin_end kernel_thread thread_foo task_addr) (lives K f) (λ e, e = EPanic) m.
Proof.
  intros Hid Hb He. unfold kernel_start. apply wpe_bind, liftk_wpe, wpe_wp.
  eapply wp_mono; [exact (task_create_ok K (kern m) g tl f _ _ _ image Hid Hb He)|].
  intros ret k1 (_ & _ & Hres).
  assert (∃ g1 tl1, idle K k1 g1 tl1 f) as (g1 & tl1 & Hid1) by (destruct Hres as [(_ & g' & t & tl' & x & _ & ? & _)|(_ & ?)]; eauto).
  apply wpe_bind, liftk_wpe, wpe_wp.
  eapply wp_mono; [apply (thread_create_ok K thread_foo task_addr k1 g1 tl1 f _ _ NULL 0 image Hid1); done|].
  intros res k2 (_ & _ & [(g2 & t & tl2 & x & -> & -> & Hid2 & Hx & Htk & _)|(-> & _)]); [|done].
  pose proof (ki_kwf _ _ _ _ _ (id_inv _ _ _ _ _ Hid1)) as Hk1.
  assert (pml4 (tasks k2 t) ≠ NULL) as Hp.
  { rewrite Htk. cbn. destruct (proj2 (wf_alloc _ _ _ (kw_wf _ _ _ _ Hk1)) x Hx) as [? ?].
    rewrite (VADDR_kernel (mm k1) x (kw_build _ _ _ _ Hk1)) by done. unfold NULL, KERNEL_BASE. lia. }
  destruct (kw_slots _ _ _ _ Hk1 t) as [Ht _]; [by left|].
  destruct (thread_run_idle k2 g2 tl2 t Hid2 Ht) as (k3 & Hrun & [I3 Hn3 _] & Hrd); [by rewrite Htk|done|].
  apply wpe_bind, liftk_wpe, wpe_wp. eapply wp_eq; [exact Hrun|].
  apply wpe_bind. cbn [wpe interrupt_enable timer_init APIC_WRITE mbind M_bind modify mret M_ret massert Z.eqb].
  apply liftk_wpe. eapply wpe_mono; [apply (schedule_out K k3 g2 tl2 f I3 Hn3)|intros t' k' [H _]; exact H|].
  by intros e [-> _].
Qed.

(** C16: [interrupt_init] switches interrupts on.  If no task runs, the kernel's
    page tables are the current ones and the entries of the stack pages are
    empty, then with four free pages and a processor that has [cpuid] it
    returns with: the gate of each of the 22 vectors read by the processor as
    an interrupt gate of the right entry stub, stack and privilege level, and
    no other gate changed; every TSS descriptor readable and the task register
    and the two stack pointers set; the four stack pages mapped to the first
    free pages, writable and closed to user mode, in every address space, with
    all other translations and all data as before; the PIC masked, the local
    APIC enabled, timer and keyboard routed to their vectors.  Otherwise it
    panics, for one of these two reasons. *)
Theorem interrupt_init_correct stub tss_addr cpuid_ebx m g tl :
  linked stub tss_addr cpuid_ebx → idle K (kern m) g tl f →
  (∀ va, va ∈ stack_pages → entry_at (phys (mm (kern m))) f (PT_IDX va) = 0) →
  cpu_pml4 (kern m) = VADDR (bld (mm (kern m))) (K * 4096) →
  match interrupt_init stub tss_addr cpuid_ebx m with
  | Ok (_, m') => ∃ apic_id g' ps, cpuid_ebx = Some apic_id ∧
      stacks K f (kern m) g tl stack_pages (kern m') g' ps ∧ interrupts_on stub tss_addr apic_id m m'
  | Err e => e = EPanic ∧ ((length (fl g) < length stack_pages)%nat ∨ cpuid_ebx = None)
  end.
Proof.
  intros L Hid H0 Hcpu. pose proof (interrupt_init_out K f stub tss_addr cpuid_ebx m g tl L Hid H0 Hcpu) as H.
  apply wpe_elim in H. destruct (interrupt_init stub tss_addr cpuid_ebx m) as [[[] m']|e]; exact H.
Qed.

(** The rest of [kernel_main] once memory is set up. *)
Lemma run_out stub tss_addr cpuid_ebx spin_start spin_end kernel_thread thread_foo task_addr m g image :
  linked stub tss_addr cpuid_ebx → booted K f (kern m) g →
  binary_at K (kern m) g spin_start (spin_end - spin_start) image → elf_ok image (spin_end - spin_start) →
  wpe (kernel_run spin_start spin_end kernel_thread thread_foo task_addr stub tss_addr cpuid_ebx)
    (lives K f) (λ e, e = EPanic) m.
Proof.
  intros L B Hb He. destruct (task_init_idle K f (kern m) g B) as (k1 & Hrun & Hid & Hmm & Hcpu).
  unfold kernel_run. apply wpe_bind, liftk_wpe, wpe_wp. eapply wp_eq; [exact Hrun|].
  assert (∀ va, va ∈ stack_pages → entry_at (phys (mm k1)) f (PT_IDX va) = 0) as H0 by (rewrite Hmm; exact (bo_stacks _ _ _ _ B)).
  apply wpe_bind. eapply wpe_mono.
  { apply (interrupt_init_out K f stub tss_addr cpuid_ebx (with_kern k1 m) g slots L Hid H0).
    cbn. rewrite Hcpu, Hmm, (bo_cpu _ _ _ _ B). exact (bo_config _ _ _ _ B). }
  - intros [] m2 (apic_id & g2 & ps & _ & S & _).
    apply (start_out spin_start spin_end kernel_thread thread_foo task_addr m2 g2 slots image); [apply S| |done].
    pose proof (id_inv _ _ _ _ _ Hid) as I.
    apply (stacks_binary K f k1 g slots _ g2 ps); [apply I|apply I|done|exact S|].
    intros j Hj. rewrite Hmm. by apply Hb.
  - by intros e [-> _].
Qed.

(** The kernel starts.  If memory is set up and no task exists yet
    ([booted]) and the built-in program is sound, then the rest of
    [kernel_main] (the task table, interrupts, the first tasks, the scheduler)
    either resumes a task, and from then on, through all interrupts and all
    stores of user programs, the invariant of the system holds; or the kernel
    panics (out of memory, or no [cpuid]). *)
Theorem kernel_run_correct stub tss_addr cpuid_ebx spin_start spin_end kernel_thread thread_foo task_addr m g image :
  linked stub tss_addr cpuid_ebx → booted K f (kern m) g →
  binary_at K (kern m) g spin_start (spin_end - spin_start) image → elf_ok image (spin_end - spin_start) →
  match kernel_run spin_start spin_end kernel_thread thread_foo task_addr stub tss_addr cpuid_ebx m with
  | Ok (t, m') => (∃ i g' tl', t = TSlot i ∧ running K (kern m') g' tl' f i) ∧
      ∀ m'', rtc step m' m'' → system_ok K f m''
  | Err e => e = EPanic
  end.
Proof.
  intros L B Hb He. pose proof (run_out stub tss_addr cpuid_ebx spin_start spin_end kernel_thread thread_foo task_addr m g image L B Hb He) as H.
  apply wpe_elim in H. destruct (kernel_run _ _ _ _ _ _ _ _ m) as [[t m']|e]; [|done]. split; [exact H|].
  intros m'' Hst. apply (reach_ok m' m'' Hst). destruct H as (i & g' & tl' & _ & R). by exists i, g', tl'.
Qed.

(** C23: a kernel thread cannot end.  When the function of a thread returns,
    [thread_foo] destroys the current task, which clears the pointer to it, and
    then raises [int3], whose handler saves the registers through that pointer:
    the machine stops with an access through NULL, whatever the other tasks are.
    (The stack of the thread, whose page [task_destroy] has freed by then, is not
    followed: with it the failure can only come earlier.)
    As long as the function only yields (like [kernel_thread]), every turn
    resumes some task and keeps the invariant. *)
Theorem thread_foo_ends m g tl t foo ctx :
  running K (kern m) g tl f t →
  (∀ m' g' tl', foo m = Ok ((), m') → running K (kern m') g' tl' f t →
     Kernel.thread_foo (Some (TSlot t)) (Some foo) ctx m = Err EUndef) ∧
  ∃ t' m', Kernel.kernel_thread ctx m = Ok (t', m') ∧ system_ok K f m'.
Proof.
  intros R. split.
  - intros m1 g1 tl1 Hfoo R1. unfold thread_foo. cbn [bool_decide decide_rel is_Some_dec andb massert deref].
    unfold mbind at 1 2 3, M_bind at 1 2 3. cbn [mret M_ret]. rewrite Hfoo.
    unfold mbind, M_bind. cbn [mret M_ret]. destruct (running_root K _ g1 tl1 f t R1) as (Hn & _).
    destruct (destroy_kinv K (kern m1) g1 tl1 f t (ru_inv _ _ _ _ _ _ R1) (ru_slot _ _ _ _ _ _ R1) Hn) as (k' & g' & r & Hrun & TD & _).
    unfold liftk, liftmon, Monitor.liftk, zoom. rewrite Hrun. unfold int3, interrupt_handler, mbind, M_bind, liftk, liftmon, Monitor.liftk, zoom, get.
    cbn. rewrite (td_cpu _ _ _ _ _ _ _ _ TD), decide_True by exact (ru_cpu _ _ _ _ _ _ R1). done.
  - unfold kernel_thread. destruct (breakpoint_out K f m t g tl (Context.TaskContext (Context.c_gprs ctx) (Context.ds ctx)
      (Context.es ctx) (Context.fs ctx) (Context.gs ctx) INTERRUPT_VECTOR_BREAKPOINT (Context.error_code ctx) (Context.padding2 ctx)
      (Context.rip ctx) (Context.cs ctx) (Context.padding1 ctx) (Context.rflags ctx) (Context.rsp ctx) (Context.ss ctx)
      (Context.padding0 ctx)) R eq_refl) as (t' & m' & Hrun & Hok). by exists t', m'.
Qed.
End start.

(** ** Instances *)

Abbreviation demo_task_create := (task_create (codes "demo") demo_image_va demo_image_size demo_load).

(** The call returned 0, and the memory has the file's bytes, then zeros. *)
Definition created (x : res (Z * kstate Term.terminal)) : bool :=
  match x with
  | Ok (ret, k') => bool_decide (ret = 0 ∧
      map (λ j, ubyte (phys (mm k')) 8 (0x400000 + j)) [2; 3; 4; 5] =
        [Some Byte.xeb; Some Byte.xfc; Some Byte.x00; Some Byte.x00])
  | Err _ => false
  end.

Lemma demo_created : created demo_task_create = true.
Proof. vm_compute. reflexivity. Qed.


Definition demo_task_addr (i : Z) : Z := 0x2000 + 256 * i.

Abbreviation demo_thread_create :=
  (Thread.thread_create 0x1000 demo_task_addr (codes "demo") 0x3000 demo_image_va demo_image_size demo_load).

Definition made (x : res (option Z * kstate Term.terminal)) : bool :=
  match x with Ok (r, _) => bool_decide (r = Some 1) | Err _ => false end.

Lemma demo_made : made demo_thread_create = true.
Proof. vm_compute. reflexivity. Qed.


(** The machine when [kernel_init_mmap] has returned. *)
Definition demo_fresh : kstate Term.terminal :=
  KState demo_load_mm (λ _, zero_task) (Lst.Queue None (λ _, Lst.null_entry)) 0 0
    4096 (VADDR kernel64 4096) None zero_task (VADDR kernel64 (1 * 4096)).

Definition demo_boot : machine :=
  Machine (Monitor.Monitor demo_fresh (Term.Position 24 3) (λ _, 0)) [] (λ _, 0) [] 0 0
    (λ _, None) (λ _, None) 0 0 0 0xfee00000.

Lemma demo_stack_entries va : va ∈ stack_pages → entry_at demo_load_phys 5 (PT_IDX va) = 0.
Proof.
  intros H. assert (Forall (λ va, entry_at demo_load_phys 5 (PT_IDX va) = 0) stack_pages) as Hf
    by (repeat constructor; vm_compute; reflexivity).
  rewrite Forall_forall in Hf. by apply Hf.
Qed.

Lemma demo_booted : booted 1 5 demo_fresh demo_ghost.
Proof.
  pose proof demo_load_kinv as I. pose proof demo_load_kwf as Hk.
  destruct I as [_ I1 I2 I3 I4 I5 _ _], Hk as [H1 H2 H3 H4 H5 H6 _ _ _ _].
  constructor; try assumption; try (exact eq_refl); try (intros; exact eq_refl).
  - exact demo_stack_entries.
  - split; [constructor|]. by exists Lst.Head.
Qed.

Definition demo_stub (v : Z) : Z := 0xfffffff800200000 + 16 * (v mod 256).
Definition demo_tss (j : Z) : Z := 0xfffffff800300000 + 4096 * (j mod 32).

Lemma demo_linked : linked demo_stub demo_tss (Some 0).
Proof.
  constructor; [| |by intros id [= <-]].
  - intros v. unfold demo_stub. dlia.
  - intros j. unfold demo_tss. dlia.
Qed.

Abbreviation demo_init := (interrupt_init demo_stub demo_tss (Some 0) (with_kern demo_load demo_boot)).

Definition inited (x : res (() * machine)) : bool := match x with Ok _ => true | Err _ => false end.

Lemma demo_inited : inited demo_init = true.
Proof. vm_compute. reflexivity. Qed.

Lemma interrupt_init_correct_witness : ∃ m' g' ps,
  demo_init = Ok ((), m') ∧ stacks 1 5 demo_load demo_ghost (zseq 1 4) stack_pages (Monitor.kern (mon m')) g' ps ∧
  gate_of m' INTERRUPT_VECTOR_SYSCALL = Some (Gdt.GateView (demo_stub 34) Gdt.GD_KT 0 14 3 1).
Proof.
  pose proof demo_inited as Hc.
  pose proof (interrupt_init_correct 1 5 demo_stub demo_tss (Some 0) (with_kern demo_load demo_boot) demo_ghost (zseq 1 4)
    demo_linked demo_load_idle demo_stack_entries eq_refl) as H.
  destruct demo_init as [[[] m']|e]; [|discriminate Hc]. destruct H as (id & g' & ps & _ & S & O).
  exists m', g', ps. split; [reflexivity|]. split; [exact S|].
  apply (io_gate _ _ _ _ _ O INTERRUPT_VECTOR_SYSCALL 0 Gdt.IDT_DPL_U). do 21 right. left.
Defined.

Abbreviation demo_run :=
  (kernel_run demo_image_va (demo_image_va + demo_image_size) 0x3000 0x1000 demo_task_addr demo_stub demo_tss (Some 0) demo_boot).

Definition started (x : res (tptr * machine)) : bool := match x with Ok _ => true | Err _ => false end.

Lemma demo_started : started demo_run = true.
Proof. vm_compute. reflexivity. Qed.

Lemma kernel_run_correct_witness : ∃ t m', demo_run = Ok (t, m') ∧ system_ok 1 5 m'.
Proof.
  pose proof demo_started as Hc.
  pose proof (kernel_run_correct 1 5 demo_stub demo_tss (Some 0) demo_image_va (demo_image_va + demo_image_size) 0x3000 0x1000
    demo_task_addr demo_boot demo_ghost demo_image demo_linked demo_booted demo_binary demo_elf) as H.
  destruct demo_run as [[t m']|e]; [|discriminate Hc].
  exists t, m'. split; [reflexivity|]. destruct H as [_ H]. apply H, rtc_refl.
Defined.

Lemma thread_foo_ends_witness :
  ∃ s, demo_insert 6 = Ok (0, s) ∧
    Kernel.thread_foo (Some (TSlot 0)) (Some (λ m, Ok ((), m))) demo_timer (demo_machine s) = Err EUndef.
Proof.
  destruct (demo_inserted 6) as (s & g & fl' & Hrun & Hk & _ & _ & _ & _ & _ & _ & _ & I); [lia|vm_compute; reflexivity|].
  destruct (demo_system s g I Hk) as (i & g' & tl & R). exists s. split; [exact Hrun|].
  assert (i = 0) as ->.
  { pose proof (ru_cpu _ _ _ _ _ _ R) as E. change (Some (TSlot 0) = Some (TSlot i)) in E. congruence. }
  exact (proj1 (thread_foo_ends 1 5 (demo_machine s) g' tl 0 (λ m, Ok ((), m)) demo_timer R) (demo_machine s) g' tl eq_refl R).
Defined.
