(* ===== verification/MainTheorems.v ===== *)
(** The theorems about the whole of [kernel_main]: [kernel_init_mmap] turns the
    memory the loader hands over into the state [booted], and the kernel, from
    its first instruction, leads into the states of SystemTheorems. *)

From Stdlib Require Import String.
From S2P Require Import Prelude Memory Queue Mmu Console Terminal Map AllocProofs Walk MapWf.
From S2P Require Import LookupProofs InsertProofs KmapProofs Gdt Context Task SchedProofs.
From S2P Require Import DestroyProofs TaskProofs Syscall ForkProofs Thread Monitor Interrupt.
From S2P Require Import FaultProofs TrapProofs LoadProofs CreateProofs ThreadProofs.
From S2P Require Import Kernel Demo ProcTheorems SystemProofs InitProofs SystemTheorems.
From S2P Require Import LoadDemo KernelTheorems TakeoverProofs StartTheorems HandedDemo.
Import Mmu Map Task Interrupt Kernel.

(** ** The terminal and the command line at the start *)

Lemma liftmon_seq (a b : M Monitor.monitor ()) (m : machine) mo :
  (a ;; b) (mon m) = Ok ((), mo) → (liftmon a ;; liftmon b) m = Ok ((), set_mon mo m).
Proof.
  unfold liftmon, zoom, mbind, M_bind. destruct (a (mon m)) as [[[] m1]|]; [|done].
  cbn [mon set_mon]. by destruct (b m1) as [[[] m2]|]; [|done]; intros [= ->].
Qed.

(** The command line is below the rows that scroll. *)
Lemma stay_line t : Term.terminal_row t = 24 → Term.terminal_column t < 80 → (Term.wrap_column ;; Term.scroll) t = Ok ((), t).
Proof.
  intros Hr Hc. unfold Term.wrap_column, Term.scroll, mbind, M_bind, get, massert, Term.TERMINAL_COL_COUNT.
  rewrite (proj2 (Z.leb_le (Term.terminal_column t) 80)), (proj2 (Z.eqb_neq (Term.terminal_column t) 80)) by lia.
  cbn [mret M_ret]. rewrite Hr. done.
Qed.

Lemma put_line b col color ch :
  ch ≠ 9 → ch ≠ 10 → ch ≠ 13 → 0 ≤ ch < 256 → 0 ≤ col < 79 →
  Term.terminal_put ch (Term.Terminal b color col 24) =
    Ok ((), Term.Terminal (<[24 * 80 + col := Term.terminal_make_char ch color]> b) color (col + 1) 24).
Proof.
  intros H9 H10 H13 Hch Hcol. unfold Term.terminal_put, Term.terminal_put_color, mbind, M_bind, get. rewrite u8_small by done.
  rewrite (proj2 (Z.eqb_neq _ _) H9). unfold Term.put_char, mbind, M_bind, get.
  rewrite (proj2 (Z.eqb_neq _ _) H10), (proj2 (Z.eqb_neq _ _) H13). unfold put.
  etransitivity; [apply stay_line; cbn; lia|]. done.
Qed.

Lemma prompt_line b color : ∃ b',
  Term.terminal_printf "%s" [AStr (codes Monitor.COMMAND_LINE_PROMPT)] (Term.Terminal b color 0 24) =
    Ok ((), Term.Terminal b' color 3 24).
Proof.
  eexists. unfold Term.terminal_printf.
  rewrite (Term.vprintf_puts _ _ (codes Monitor.COMMAND_LINE_PROMPT)) by reflexivity.
  unfold Term.puts. change (codes Monitor.COMMAND_LINE_PROMPT) with [45; 62; 32]. cbn [mfor]. unfold mbind, M_bind.
  rewrite put_line by lia. rewrite put_line by lia. rewrite put_line by lia. reflexivity.
Qed.

(** After [terminal_init] the prompt of [monitor_init] cannot fail: it is
    written in row 24, and the cursor returns to the first cell. *)
Lemma monitor_start (mo : Monitor.monitor) :
  ∃ t, (Monitor.liftt Term.terminal_init ;; Monitor.monitor_init) mo =
    Ok ((), Monitor.Monitor (set_mm (set_con t (mm (Monitor.kern mo))) (Monitor.kern mo)) (Term.Position 24 3)
      (Monitor.command_buffer mo)) ∧ con_ok t.
Proof.
  unfold Monitor.monitor_init, Term.terminal_init, Term.terminal_clear.
  unfold Monitor.mprintf, Monitor.liftt, Monitor.liftk, liftm, zoom, mbind, M_bind, modify, gets, Term.terminal_position, gets,
    Term.terminal_set_position, mbind, M_bind, massert, modify.
  cbn [Monitor.kern Monitor.set_kern Monitor.set_clp Monitor.command_line_position mm set_mm con set_con Term.set_row
    Term.set_column Term.p_row Term.p_column Term.terminal_row Term.terminal_column Term.terminal_buffer Term.terminal_color
    Z.leb Z.ltb Z.compare Pos.compare Pos.compare_cont mret M_ret Term.TERMINAL_ROW_COUNT Term.TERMINAL_COL_COUNT].
  match goal with |- context [Term.terminal_printf _ _ ?t] =>
    destruct (prompt_line (Term.terminal_buffer t) (Term.terminal_color t)) as (b' & E);
    change t with (Term.Terminal (Term.terminal_buffer t) (Term.terminal_color t) 0 24) end. rewrite E.
  eexists (Term.Terminal b' _ 0 0). split; [reflexivity|]. split; cbn; lia.
Qed.

Section main.
Context (K f cnt P c : Z) (lab : Z → option label).
Implicit Types (k : kstate Term.terminal) (m : machine).

Abbreviation kern m := (Monitor.kern (mon m)).
Abbreviation handed := (handed K f cnt P c lab).
Abbreviation handed_ghost := (handed_ghost cnt P lab).

Lemma booted_con k g t : con_ok t → booted K f k g → booted K f (set_mm (set_con t (mm k)) k) g.
Proof.
  intros Ht [B1 B2 B3 B4 B5 B6 B7 B8 [] B10 B11 B12 B13 B14 B15 B16 B17].
  constructor; try done. by apply wf_con_any.
Qed.

(** What [kernel_init_mmap] leaves, for any handed-over memory. *)
Definition adopted k k' : Prop :=
  booted K f k' (handed_ghost (phys (mm k))) ∧
  (∀ va, translate (phys (mm k')) K va = if PML4_IDX va =? 0 then None else translate (phys (mm k)) K va) ∧
  (∀ x, ¬ described cnt P c lab x → phys (mm k') x = phys (mm k) x) ∧
  (∀ i, 0 ≤ i < cnt → refs (mm k') i = ref32 P (phys (mm k)) i).

Lemma init_mmap_adopted free_head k :
  handed k → fresh k →
  wp (kernel_init_mmap free_head) (λ gdt k', gdt = VADDR kernel64 (rd64 (phys (mm k)) (c * 4096 + 24)) ∧ adopted k k') k.
Proof.
  intros H F. destruct (init_mmap_ok K f cnt P c lab free_head k H (fr_con _ F)) as (m & q & r & t & Hrun & Ht & O).
  eapply wp_eq; [exact Hrun|]. split; [done|]. split; [|split; [|split]].
  - apply booted_con; [done|]. by apply (took_booted K f cnt P c lab k m q r).
  - intros va. cbn [mm set_mm set_con phys taken set_config_pml4 set_cpu_pml4]. destruct (Z.eqb_spec (PML4_IDX va) 0) as [E|E].
    + unfold translate, leaf, table_path. cbn [walk]. rewrite E, (to_slot _ _ _ _ _ _ _ _ _ O). done.
    + apply (tables_translate K cnt lab); [apply H|apply O|done].
  - intros x Hx. apply (to_mem _ _ _ _ _ _ _ _ _ O).
    + destruct (lab (x / 4096)) eqn:E; [|done]. destruct Hx. left. congruence.
    + intros E. apply Hx. by right; left.
    + destruct (decide (P ≤ x < P + 24 * cnt)); [|lia]. destruct Hx. by right; right.
  - exact (to_refs _ _ _ _ _ _ _ _ _ O).
Qed.

(** C8: [kernel_init_mmap] takes the machine over from the loader.  On the
    memory the loader hands over ([handed]: page tables, the configuration page
    with physical pointers, the array of 12-byte page structures) and with
    fresh kernel variables, it returns; the GDT base it loads is the virtual
    address of the loader's table; the low map is gone and every other address
    translates as before; each page keeps its reference count; no byte outside
    page tables, configuration page and page array changes; and the result is a
    state in which the kernel can start ([booted]): the invariant of the page
    tables holds with the loader's free pages as free list and exactly the
    loader's tables as the kernel's. *)
Theorem kernel_init_mmap_correct free_head k :
  handed k → fresh k →
  ∃ k', kernel_init_mmap free_head k = Ok (VADDR kernel64 (rd64 (phys (mm k)) (c * 4096 + 24)), k') ∧
    booted K f k' (handed_ghost (phys (mm k))) ∧
    (∀ va, translate (phys (mm k')) K va = if PML4_IDX va =? 0 then None else translate (phys (mm k)) K va) ∧
    (∀ x, ¬ described cnt P c lab x → phys (mm k') x = phys (mm k) x) ∧
    (∀ i, 0 ≤ i < cnt → refs (mm k') i = ref32 P (phys (mm k)) i).
Proof.
  intros H F. pose proof (init_mmap_adopted free_head k H F) as (gdt & k' & Hrun & -> & A)%wp_ok. by exists k'.
Qed.

(** ** [kernel_main] from its first instruction *)

Context (edata end_ : Z).

Definition in_bss (x : Z) : Prop := PADDR kernel64 edata ≤ x < PADDR kernel64 edata + (end_ - edata).

(** The built-in program is outside everything the start of the kernel writes. *)
Definition program_apart k (b size : Z) : Prop := ∀ j e, 0 ≤ j < size →
  translate (phys (mm k)) K (b + j) = Some e →
  ¬ described cnt P c lab (frame e * 4096 + (b + j) mod 4096) ∧ ¬ in_bss (frame e * 4096 + (b + j) mod 4096).

(** Clearing the section and resetting the terminal. *)
Lemma cleared k t :
  handed k → (∀ x, in_bss x → ¬ described cnt P c lab x) → con_ok t →
  let k' := set_mm (set_con t (mm (clear_bss edata end_ k))) (clear_bss edata end_ k) in
  handed k' ∧ fresh k' ∧ (∀ x, ¬ in_bss x → phys (mm k') x = phys (mm k) x).
Proof.
  intros H Hbss Ht k'. pose proof (hd_bld _ _ _ _ _ _ _ H) as Hb.
  assert (∀ x, ¬ in_bss x → phys (mm k') x = phys (mm k) x) as Hmem.
  { intros x Hx. cbn [k' clear_bss mm set_mm set_con set_phys phys]. rewrite Hb. apply mem_fill_out. unfold in_bss in Hx. lia. }
  split; [|split; [|done]].
  - apply (handed_same K f cnt P c lab k); try done. intros x Hx. apply Hmem. intros Hi. by apply (Hbss x Hi).
  - constructor; try done. split; [constructor|]. by exists Lst.Head.
Qed.

(** The image of the program survives. *)
Lemma adopted_binary k k1 k2 b size image :
  handed k → handed k1 → (∀ x, ¬ in_bss x → phys (mm k1) x = phys (mm k) x) → (∀ x, in_bss x → ¬ described cnt P c lab x) →
  adopted k1 k2 → program_apart k b size → binary_at K k (handed_ghost (phys (mm k))) b size image →
  binary_at K k2 (handed_ghost (phys (mm k1))) b size image.
Proof.
  intros H H1 Hmem Hbss (_ & Htr & Hkeep & _) Hap Hb j Hj. destruct (Hb j Hj) as (Hr & Hva & e & He & Hl & Hfr & Him).
  destruct (Hap j e Hj He) as [Hd Hnb]. split; [done|]. split; [done|]. exists e.
  assert (∀ x, described cnt P c lab x → phys (mm k1) x = phys (mm k) x) as Hdm
    by (intros x Hx; apply Hmem; intros Hi; by apply (Hbss x Hi)).
  assert (PML4_IDX (b + j) ≠ 0) as Hva0 by (rewrite KIDX_val in Hva; lia). split_and!; [|done| |].
  - rewrite Htr, (proj2 (Z.eqb_neq _ 0) Hva0), <- He.
    apply (tables_translate K cnt lab); [apply H|by apply (described_tables K cnt P c)|done].
  - cbn. rewrite (free32_same cnt P (phys (mm k))); [exact Hfr|]. intros x Hx. apply Hdm. by right; right.
  - rewrite Hkeep, Hmem by done. exact Him.
Qed.

Lemma main_out free_head stub tss_addr cpuid_ebx spin_start spin_end kernel_thread thread_foo task_addr m image :
  linked stub tss_addr cpuid_ebx → handed (kern m) → (∀ x, in_bss x → ¬ described cnt P c lab x) →
  binary_at K (kern m) (handed_ghost (phys (mm (kern m)))) spin_start (spin_end - spin_start) image →
  program_apart (kern m) spin_start (spin_end - spin_start) → elf_ok image (spin_end - spin_start) →
  wpe (kernel_main free_head edata end_ spin_start spin_end kernel_thread thread_foo task_addr stub tss_addr cpuid_ebx)
    (lives K f) (λ e, e = EPanic) m.
Proof.
  intros L H Hbss Hb Hap He. unfold kernel_main. apply wpe_bind, liftk_wpe. cbn [wpe modify].
  match goal with |- wpe _ _ _ ?x => set (m1 := x) end.
  destruct (monitor_start (mon m1)) as (t & Hrun%liftmon_seq & Ht).
  destruct (cleared (kern m) t H Hbss Ht) as (H1 & F1 & Hmem).
  apply (wpe_seq _ _ _ (λ _ m2, kern m2 = set_mm (set_con t (mm (clear_bss edata end_ (kern m)))) (clear_bss edata end_ (kern m)))).
  { apply wpe_wp. eapply wp_eq; [exact Hrun|]. done. }
  intros m2 E2. apply wpe_bind, liftk_wpe, wpe_wp. rewrite E2.
  eapply wp_mono; [exact (init_mmap_adopted free_head _ H1 F1)|]. intros gdt k3 [_ A].
  eapply (run_out K f stub tss_addr cpuid_ebx spin_start spin_end kernel_thread thread_foo task_addr (with_kern k3 m2));
    [done|exact (proj1 A)| |done].
  by apply (adopted_binary (kern m) _ k3 _ _ image H H1 Hmem Hbss A).
Qed.

(** C7: the kernel starts.  On the memory the loader hands over, with the
    zero-initialised section and the built-in program apart from the page
    tables, the configuration page and the page array, [kernel_main], from its
    first instruction (clearing the section, the terminal, the command line,
    the take-over of memory, the task table, interrupts, the first tasks, the
    scheduler), either resumes a task, and from then on, through all interrupts
    and all stores of user programs, the invariant of the system holds; or the
    kernel panics (out of memory, or no [cpuid]). *)
Theorem kernel_main_correct free_head stub tss_addr cpuid_ebx spin_start spin_end kernel_thread thread_foo task_addr m image :
  linked stub tss_addr cpuid_ebx → handed (kern m) → (∀ x, in_bss x → ¬ described cnt P c lab x) →
  binary_at K (kern m) (handed_ghost (phys (mm (kern m)))) spin_start (spin_end - spin_start) image →
  program_apart (kern m) spin_start (spin_end - spin_start) → elf_ok image (spin_end - spin_start) →
  match kernel_main free_head edata end_ spin_start spin_end kernel_thread thread_foo task_addr stub tss_addr cpuid_ebx m with
  | Ok (t, m') => (∃ i g' tl', t = TSlot i ∧ running K (kern m') g' tl' f i) ∧
      ∀ m'', rtc step m' m'' → system_ok K f m''
  | Err e => e = EPanic
  end.
Proof.
  intros L H Hbss Hb Hap He.
  pose proof (main_out free_head stub tss_addr cpuid_ebx spin_start spin_end kernel_thread thread_foo task_addr m image L H Hbss Hb Hap He) as Ho.
  apply wpe_elim in Ho. destruct (kernel_main _ _ _ _ _ _ _ _ _ _ _ m) as [[t m']|e]; [|done]. split; [exact Ho|].
  intros m'' Hst. apply (reach_ok K f m' m'' Hst). destruct Ho as (i & g' & tl' & _ & R). by exists i, g', tl'.
Qed.
End main.

(** ** Instances *)

(** The section to clear: 256 bytes of page 0. *)
Definition demo_edata : Z := KERNEL_BASE + 0x100.
Definition demo_end : Z := KERNEL_BASE + 0x200.

(** The kernel's variables as they are after the section is cleared. *)
Definition handed_fresh : kstate Term.terminal := clear_bss demo_edata demo_edata handed_kernel.

Lemma handed_fresh_ok : TakeoverProofs.handed 1 5 32 0x400 6 handed_lab handed_fresh ∧ fresh handed_fresh.
Proof.
  split.
  - apply (handed_same 1 5 32 0x400 6 handed_lab handed_kernel); [exact handed_demo|done|done|].
    intros x _. apply mem_fill_out. lia.
  - constructor; [split; cbn; lia|done| |done]. split; [constructor|]. by exists Lst.Head.
Qed.

Abbreviation demo_init_mmap := (kernel_init_mmap 0x7000 handed_fresh).

Lemma kernel_init_mmap_correct_witness : ∃ gdt k',
  demo_init_mmap = Ok (gdt, k') ∧ booted 1 5 k' (handed_ghost 32 0x400 handed_lab (phys (mm handed_fresh))).
Proof.
  destruct (kernel_init_mmap_correct 1 5 32 0x400 6 handed_lab 0x7000 handed_fresh (proj1 handed_fresh_ok) (proj2 handed_fresh_ok))
    as (k' & Hrun & B & _). eexists _, k'. split; [exact Hrun|exact B].
Defined.

Definition handed_machine : machine :=
  Machine (Monitor.Monitor handed_kernel (Term.Position 0 0) (λ _, 0)) [] (λ _, 0) [] 0 0
    (λ _, None) (λ _, None) 0 0 0 0xfee00000.

Lemma image_path j : 0 ≤ j < demo_image_size → full_path (demo_image_va + j) = full_path demo_image_va.
Proof.
  unfold demo_image_size. intros Hj. unfold full_path, table_path. change demo_image_va with 18446744039347720192.
  rewrite !PML4_IDX_alt, !PDP_IDX_alt, !PD_IDX_alt, !PT_IDX_alt, !u64_small by lia. cbn [app].
  f_equal; [|f_equal; [|f_equal; [|f_equal]]]; dlia.
Qed.

Lemma handed_image_entry j : 0 ≤ j < demo_image_size →
  translate handed_phys 1 (demo_image_va + j) = Some 0x7003 ∧ (demo_image_va + j) mod 4096 = j.
Proof.
  intros Hj. split; [rewrite (translate_full _ _ _ _ (image_path j Hj)); vm_compute; reflexivity|].
  unfold demo_image_size in Hj. change demo_image_va with 18446744039347720192. dlia.
Qed.

Lemma handed_binary :
  binary_at 1 handed_kernel (handed_ghost 32 0x400 handed_lab handed_phys) demo_image_va demo_image_size demo_image.
Proof.
  intros j Hj. destruct (handed_image_entry j Hj) as [Ht Hm]. unfold demo_image_size in Hj.
  assert (PML4_IDX (demo_image_va + j) = 511) as E.
  { change demo_image_va with 18446744039347720192. rewrite PML4_IDX_alt, u64_small by lia. dlia. }
  split; [change demo_image_va with 18446744039347720192; lia|]. split; [rewrite E, KIDX_val; lia|].
  exists 0x7003. split; [exact Ht|]. split; [reflexivity|]. rewrite Hm. change (frame 0x7003) with 7. split.
  - cbn [fl handed_ghost]. rewrite (free32_elem 32) by done. intros [_ H]. by destruct (handed_element 7) as [H' _].
  - cbn [phys mm handed_kernel handed_mm]. unfold handed_phys. replace ((7 * 4096 + j) / 4096) with 7 by dlia.
    cbn [Z.eqb Pos.eqb]. f_equal. lia.
Qed.

Lemma handed_apart : program_apart 1 32 0x400 6 handed_lab demo_edata demo_end handed_kernel demo_image_va demo_image_size.
Proof.
  intros j e Hj He. destruct (handed_image_entry j Hj) as [Ht Hm]. cbn [phys mm handed_kernel handed_mm] in He.
  rewrite Ht in He. injection He as <-. rewrite Hm. change (frame 0x7003) with 7. unfold demo_image_size in Hj.
  unfold described, in_bss. replace ((7 * 4096 + j) / 4096) with 7 by dlia.
  change (PADDR kernel64 demo_edata) with 0x100. change (demo_end - demo_edata) with 0x100. split; [|lia].
  intros [H|[H|H]]; [by apply H|lia|lia].
Qed.

Lemma handed_bss x : in_bss demo_edata demo_end x → ¬ described 32 0x400 6 handed_lab x.
Proof.
  unfold in_bss, described. change (PADDR kernel64 demo_edata) with 0x100. change (demo_end - demo_edata) with 0x100. intros Hx.
  replace (x / 4096) with 0 by (apply Z.div_unique with x; lia). intros [H|[H|H]]; [by apply H|lia|lia].
Qed.

Abbreviation demo_main :=
  (kernel_main 0x7000 demo_edata demo_end demo_image_va (demo_image_va + demo_image_size) 0x3000 0x1000 demo_task_addr
     demo_stub demo_tss (Some 0) handed_machine).

Lemma demo_main_started : started demo_main = true.
Proof. vm_compute. reflexivity. Qed.

Lemma kernel_main_correct_witness : ∃ t m', demo_main = Ok (t, m') ∧ system_ok 1 5 m'.
Proof.
  pose proof demo_main_started as Hc.
  pose proof (kernel_main_correct 1 5 32 0x400 6 handed_lab demo_edata demo_end 0x7000 demo_stub demo_tss (Some 0) demo_image_va
    (demo_image_va + demo_image_size) 0x3000 0x1000 demo_task_addr handed_machine demo_image demo_linked handed_demo handed_bss
    handed_binary handed_apart demo_elf) as H.
  destruct demo_main as [[t m']|e]; [|discriminate Hc].
  exists t, m'. split; [reflexivity|]. destruct H as [_ H]. apply H, rtc_refl.
Defined.
