(* ===== verification/User.v ===== *)
(** The user programs: user/syscall.c, user/entry.c and the test programs of
    user/.

    A program is an interaction tree: its events are what the processor shows
    of it to the kernel and to memory, the instruction [int] with the registers
    that carry a system call and its arguments, and loads and stores of bytes.
    Where the linker puts the string literals of a program ([lit]) and the
    compiler its local arrays are parameters.  A C loop is [ITree.iter]; the
    delay loops of spin.c and yield.c are silent. *)

From Stdlib Require Import String Ascii.
From ITree Require Import ITree ITreeFacts.
From S2P Require Import Prelude Memory Mmu Console Syscall.
Import Syscall.

Module User.

Inductive userE : Type → Type :=
| Int (rax rbx rcx rdx rdi rsi : Z) : userE Z
| Load (va : Z) : userE byte
| Store (va : Z) (b : byte) : userE ().

#[global] Instance prog_ret : MRet (itree userE) := λ A a, Ret a.
#[global] Instance prog_bind : MBind (itree userE) := λ A B k t, ITree.bind t k.

Abbreviation prog := (itree userE).

(** ** user/syscall.c *)

Definition syscall (nr arg1 arg2 arg3 arg4 arg5 : Z) : prog Z :=
  ret ← ITree.trigger (Int nr (u64 arg1) (u64 arg2) (u64 arg3) (u64 arg4) (u64 arg5));
  mret (i64 ret).

Definition sys_puts (string : Z) : prog () := _ ← syscall SYSCALL_PUTS string 0 0 0 0; mret ().

Definition sys_exit (ret : Z) : prog () := _ ← syscall SYSCALL_EXIT ret 0 0 0 0; mret ().

Definition sys_fork : prog Z := r ← syscall SYSCALL_FORK 0 0 0 0 0; mret (i32 r).

Definition sys_yield : prog () := _ ← syscall SYSCALL_YIELD 0 0 0 0 0; mret ().

(** ** user/entry.c *)

Definition user_entry (main : prog Z) : prog () := ret ← main; sys_exit ret.

(** ** C loops *)

(** [for (i = 0; i < n; i++) body], whose body may end with [break] or return
    from the function. *)
Inductive leave (R : Type) := Next | Break | Return (r : R).
Arguments Next {R}.
Arguments Break {R}.
Arguments Return {R} r.

Definition for_loop {R} (n : Z) (body : Z → prog (leave R)) : prog (option R) :=
  ITree.iter (λ i,
    if i <? n then
      l ← body i;
      mret (match l with Next => inl (i + 1) | Break => inr None | Return r => inr (Some r) end)
    else mret (inr None)) 0.

(** What follows the loop, unless the function was left. *)
Definition after {R} (loop : prog (option R)) (rest : prog R) : prog R :=
  r ← loop; match r with Some v => mret v | None => rest end.

(** An array initialised by a string literal, with its final zero. *)
Fixpoint init_array (va : Z) (s : string) : prog () :=
  match s with
  | EmptyString => ITree.trigger (Store va Byte.x00)
  | String c s' => ITree.trigger (Store va (byte_of_ascii c)) ;; init_array (va + 1) s'
  end.

(** stdlib/string.c, linked into the programs. *)
Definition memcpy (dest src n : Z) : prog () :=
  _ ← for_loop (R := ()) n (λ i,
    b ← ITree.trigger (Load (src + i));
    ITree.trigger (Store (dest + i) b) ;;
    mret Next);
  mret ().

Definition KERNEL_BASE : Z := 0xFFFFFFF800000000.

Section programs.
Context (lit : string → Z).

(** ** user/hello.c *)
Definition hello_main : prog Z := sys_puts (lit ("Hello world" ++ nl)) ;; mret 0.

(** ** user/exit.c *)
Definition exit_main : prog Z :=
  sys_puts (lit ("before exit" ++ nl)) ;;
  sys_exit 7 ;;
  sys_puts (lit ("after exit" ++ nl)) ;;
  mret 33.

(** ** user/read_kernel.c, user/read_unmap.c *)
Definition read_kernel_main (buffer : Z) : prog Z :=
  sys_puts (lit ("before read" ++ nl)) ;;
  memcpy buffer KERNEL_BASE 10 ;;
  sys_puts (lit "after read") ;;
  mret 0.

Definition read_unmap_main (buffer : Z) : prog Z :=
  sys_puts (lit ("before read" ++ nl)) ;;
  memcpy buffer 0 10 ;;
  sys_puts (lit "after read") ;;
  mret 0.

(** ** user/write_kernel.c, user/write_unmap.c *)
Definition write_kernel_main : prog Z :=
  sys_puts (lit ("before write" ++ nl)) ;;
  ITree.trigger (Store KERNEL_BASE (byte_of_ascii "x")) ;;
  sys_puts (lit "after write") ;;
  mret 0.

Definition write_unmap_main : prog Z :=
  sys_puts (lit ("before write" ++ nl)) ;;
  ITree.trigger (Store 0 (byte_of_ascii "x")) ;;
  sys_puts (lit "after write") ;;
  mret 0.

(** ** user/fork.c *)

(** The body of the loop. *)
Definition fork_turn (child_buffer child_ptr parent_buffer parent_ptr i : Z) : prog (leave Z) :=
  r ← sys_fork;
  if r =? 0 then
    ITree.trigger (Store child_ptr (z2b (48 + i))) ;;
    sys_puts child_buffer ;;
    mret (Return 1)
  else if r =? -1 then
    sys_puts (lit ("can't fork" ++ nl)) ;;
    mret (Return (-1))
  else
    ITree.trigger (Store parent_ptr (z2b (97 + i))) ;;
    sys_puts parent_buffer ;;
    sys_yield ;;
    sys_puts parent_buffer ;;
    mret Next.

Definition fork_main (child_buffer parent_buffer : Z) : prog Z :=
  init_array child_buffer ("child: 0" ++ nl) ;;
  let child_ptr := child_buffer + 7 in
  init_array parent_buffer ("parent: 0" ++ nl) ;;
  let parent_ptr := parent_buffer + 8 in
  after (for_loop 3 (fork_turn child_buffer child_ptr parent_buffer parent_ptr)) (mret 0).

(** ** user/spin.c *)
Definition MIDDLE : Z := 50000000.
Definition LONG : Z := 100000000.

Definition pause (period : Z) : prog () := _ ← for_loop (R := ()) period (λ _, mret Next); mret ().

(** The body of the loop. *)
Definition spin_turn (pid _i : Z) : prog (leave Z) :=
  (if pid =? 0 then sys_puts (lit ("I'am still alive (child)" ++ nl))
   else sys_puts (lit ("I'am still alive (parent)" ++ nl))) ;;
  pause LONG ;;
  mret Next.

Definition spin_main : prog Z :=
  pid ← sys_fork;
  if pid <? 0 then sys_puts (lit "can't fork") ;; mret (-1)
  else
    (if pid =? 0 then pause MIDDLE else mret ()) ;;
    after (for_loop 10 (spin_turn pid)) (mret 0).

(** ** user/yield.c *)
Definition yield_pause : prog () := _ ← for_loop (R := ()) 100000000 (λ _, mret Next); mret ().

(** The bodies of the two loops. *)
Definition yield_fork (_i : Z) : prog (leave Z) :=
  pid ← sys_fork;
  if pid <? 0 then sys_puts (lit ("can't fork" ++ nl)) ;; mret (Return (-1))
  else if pid =? 0 then mret Break
  else mret Next.

Definition yield_turn (_i : Z) : prog (leave Z) :=
  sys_puts (lit ("before yield" ++ nl)) ;;
  sys_yield ;;
  sys_puts (lit ("after yield" ++ nl)) ;;
  yield_pause ;;
  mret Next.

Definition yield_main : prog Z :=
  after (for_loop 2 yield_fork) (after (for_loop 10 yield_turn) (mret 0)).
End programs.
End User.
