(* ===== verification/Process.v ===== *)
(** Processes: the machine as the user programs see it.

    A process is a program and a private memory; an address holds a byte and
    two rights.  [act] is what a process does by itself: memory accesses,
    system calls, and its end by [exit] or by a fault.  [move] is a step of the
    whole world: one process acts, or the operator presses a key, which may kill
    processes.  There is
    no kernel in these definitions; Session relates them to the kernel's. *)

From Stdlib Require Import String.
From ITree Require Import ITree ITreeFacts.
From S2P Require Import Prelude Memory Mmu Console Map Task Syscall IsolationProofs LoadProofs.
From S2P Require Import User.
Import Mmu Task Syscall User.

(** What a process prints and the value it exits with. *)
Inductive out := Puts (s : list Z) | Exit (code : Z).

(** What can be observed: the output of the process in slot [i], a key press. *)
Inductive event := Says (i : Z) (o : out) | Key.

Record process := Process { p_code : prog (); p_mem : Z → option cell }.

(** The characters from [va] up to the next zero byte. *)
Fixpoint user_string (mem : Z → option cell) (va : Z) (s : list Z) : Prop :=
  in_user va ∧
  match s with
  | [] => ∃ u w, mem va = Some (Byte.x00, u, w)
  | c :: s' => (∃ b u w, mem va = Some (b, u, w) ∧ b2z b = c ∧ c ≠ 0) ∧ user_string mem (va + 1) s'
  end.

(** An access to memory, and whether it is a store. *)
Inductive access : ∀ A, userE A → Z → bool → Prop :=
| load_access va : access byte (Load va) va false
| store_access va b : access () (Store va b) va true.

(** [act p o p' c]: process [p] becomes [p'], or is gone, printing [o]; [c] is
    the new process, if there is one. *)
Inductive act (p : process) : list out → option process → option process → Prop :=
| act_load va k b w :
    p_code p ≈ Vis (Load va) k → in_user va → p_mem p va = Some (b, true, w) →
    act p [] (Some (Process (k b) (p_mem p))) None
| act_store va v k b :
    p_code p ≈ Vis (Store va v) k → in_user va → p_mem p va = Some (b, true, true) →
    act p [] (Some (Process (k ()) (<[va := Some (v, true, true)]> (p_mem p)))) None
| act_fault A (e : userE A) k va store :
    p_code p ≈ Vis e k → access A e va store →
    store = true ∨ ¬ (in_user va ∧ ∃ b w, p_mem p va = Some (b, true, w)) →
    act p [] None None
| act_puts nr a1 a2 a3 a4 a5 k s :
    p_code p ≈ Vis (Int nr a1 a2 a3 a4 a5) k → u32 nr = SYSCALL_PUTS →
    (∀ s', user_string (p_mem p) a1 s' → s = s') →
    act p [Puts s] (Some (Process (k 0) (p_mem p))) None
| act_exit nr a1 a2 a3 a4 a5 k :
    p_code p ≈ Vis (Int nr a1 a2 a3 a4 a5) k → u32 nr = SYSCALL_EXIT →
    act p [Exit a1] None None
| act_fork nr a1 a2 a3 a4 a5 k pid :
    p_code p ≈ Vis (Int nr a1 a2 a3 a4 a5) k → u32 nr = SYSCALL_FORK →
    act p [] (Some (Process (k (u64 (i32 pid))) (p_mem p))) (Some (Process (k 0) (p_mem p)))
| act_fork_fail nr a1 a2 a3 a4 a5 k :
    p_code p ≈ Vis (Int nr a1 a2 a3 a4 a5) k → u32 nr = SYSCALL_FORK →
    act p [] (Some (Process (k (u64 (-1))) (p_mem p))) None
| act_yield nr a1 a2 a3 a4 a5 k :
    p_code p ≈ Vis (Int nr a1 a2 a3 a4 a5) k → u32 nr = SYSCALL_YIELD →
    act p [] (Some (Process (k nr) (p_mem p))) None.

(** The processes by their slot in the task table. *)
Abbreviation world := (Z → option process).

Definition add_child (w : world) (c : Z) (ch : option process) : world :=
  match ch with None => w | Some q => <[c := Some q]> w end.

Inductive move (w : world) : list event → world → Prop :=
| move_act i p o p' ch c :
    0 ≤ i < TASK_MAX_CNT → w i = Some p → act p o p' ch →
    (∀ q, ch = Some q → 0 ≤ c < TASK_MAX_CNT ∧ w c = None) →
    move w (Says i <$> o) (add_child (<[i := p']> w) c ch)
| move_kill w' : (∀ j, w' j = w j ∨ w' j = None) → move w [Key] w'.

(** Runs of the world and all that was printed. *)
Inductive moves : world → list event → world → Prop :=
| moves_refl w : moves w [] w
| moves_step w1 o1 w2 o2 w3 : move w1 o1 w2 → moves w2 o2 w3 → moves w1 (o1 ++ o2) w3.
