(* ===== verification/ProgramProofs.v ===== *)
(** Reasoning about the programs of User as processes.

    [life] follows a process, and at a fork either of the two, through its
    steps; [allowed] says that whatever such a life prints is a prefix of one
    of a set of texts.  One rule per event of a program proves it. *)

From Stdlib Require Import String Ascii.
From ITree Require Import ITree ITreeFacts.
From S2P Require Import Prelude Memory Mmu Console Map Task Syscall IsolationProofs LoadProofs.
From S2P Require Import User.
From S2P Require Import Process.
Import Mmu Task Syscall User.

(** ** The head of a program *)

(** Signed numbers of 32 bits. *)
Lemma i32_idem z : i32 (i32 z) = i32 z.
Proof. unfold i32, sext. cbn zeta. repeat case_match; dlia. Qed.

Lemma i32_i64_u64 z : i32 (i64 (u64 z)) = i32 z.
Proof. unfold i32, i64, u64, sext. cbn zeta. repeat case_match; dlia. Qed.

(** A memory holds one string at an address. *)
Lemma user_string_inj mem va s s' : user_string mem va s → user_string mem va s' → s = s'.
Proof.
  revert va s'. induction s as [|c s IH]; intros va [|c' s'] [_ H] [_ H']; [done|..].
  - destruct H as (u & w & H), H' as [(b & u' & w' & H' & Hb & Hc) _]. rewrite H in H'. injection H' as <- _ _. by subst c'.
  - destruct H as [(b & u & w & H & Hb & Hc) _], H' as (u' & w' & H'). rewrite H in H'. injection H' as -> _ _. by subst c.
  - destruct H as [(b & u & w & H & Hb & Hc) Hr], H' as [(b' & u' & w' & H' & Hb' & Hc') Hr']. rewrite H in H'.
    injection H' as -> _ _. f_equal; [congruence|by eapply IH].
Qed.

(** An event without its type. *)
Definition shape {A} (e : userE A) : Z * list Z :=
  match e with
  | Int a b c d e f => (0, [a; b; c; d; e; f])
  | Load va => (1, [va])
  | Store va b => (2, [va; b2z b])
  end.

Lemma vis_shape {A B} (e : userE A) (e' : userE B) (k : A → prog ()) (k' : B → prog ()) :
  Vis e k ≈ Vis e' k' → shape e = shape e'.
Proof. intros (Ep & He & _)%eqit_inv_Vis_weak. destruct Ep. cbn in He. by subst e'. Qed.

Lemma vis_int nr a1 a2 a3 a4 a5 nr' b1 b2 b3 b4 b5 k k' (t : prog ()) :
  t ≈ Vis (Int nr a1 a2 a3 a4 a5) k → t ≈ Vis (Int nr' b1 b2 b3 b4 b5) k' →
  nr' = nr ∧ b1 = a1 ∧ ∀ x, k' x ≈ k x.
Proof.
  intros H H'. rewrite H in H'. pose proof (vis_shape _ _ _ _ H') as E. injection E as <- <- <- <- <- <-.
  split; [done|]. split; [done|]. intros x. symmetry. exact (eqit_inv_Vis _ _ _ _ _ _ _ H' x).
Qed.

Lemma vis_load va va' k k' (t : prog ()) :
  t ≈ Vis (Load va) k → t ≈ Vis (Load va') k' → va' = va ∧ ∀ x, k' x ≈ k x.
Proof.
  intros H H'. rewrite H in H'. pose proof (vis_shape _ _ _ _ H') as E. injection E as <-.
  split; [done|]. intros x. symmetry. exact (eqit_inv_Vis _ _ _ _ _ _ _ H' x).
Qed.

Lemma vis_store va b va' b' k k' (t : prog ()) :
  t ≈ Vis (Store va b) k → t ≈ Vis (Store va' b') k' → va' = va ∧ b' = b ∧ k' () ≈ k ().
Proof.
  intros H H'. rewrite H in H'. pose proof (vis_shape _ _ _ _ H') as E. injection E as <- <-%b2z_inj.
  split; [done|]. split; [done|]. symmetry. exact (eqit_inv_Vis _ _ _ _ _ _ _ H' ()).
Qed.

(** Two heads of one program with different events. *)
Ltac clash :=
  match goal with
  | H : ?t ≈ Vis ?e _, H' : ?t ≈ Vis ?e' _ |- _ =>
      exfalso; rewrite H in H'; apply vis_shape in H'; discriminate H'
  end.

(** ** The steps of a process whose head is known *)

Lemma act_call p nr a1 a2 a3 a4 a5 k o p' ch :
  p_code p ≈ Vis (Int nr a1 a2 a3 a4 a5) k → act p o p' ch →
  u32 nr = SYSCALL_PUTS ∧ ch = None ∧ (∃ s c, o = [Puts s] ∧ (∀ s', user_string (p_mem p) a1 s' → s = s') ∧
    p' = Some (Process c (p_mem p)) ∧ c ≈ k 0) ∨
  u32 nr = SYSCALL_EXIT ∧ o = [Exit a1] ∧ p' = None ∧ ch = None ∨
  u32 nr = SYSCALL_FORK ∧ o = [] ∧ (∃ v c, p' = Some (Process c (p_mem p)) ∧ c ≈ k v) ∧
    (∀ q, ch = Some q → p_mem q = p_mem p ∧ p_code q ≈ k 0) ∨
  u32 nr = SYSCALL_YIELD ∧ o = [] ∧ ch = None ∧ ∃ c, p' = Some (Process c (p_mem p)) ∧ c ≈ k nr.
Proof.
  intros H A. destruct A as [? ? ? ? H'|? ? ? ? H'|? ? ? ? ? H' Ha|? ? ? ? ? ? k' s H' Hn Hs|? ? ? ? ? ? k' H' Hn|? ? ? ? ? ? k' pid H' Hn|? ? ? ? ? ? k' H' Hn|? ? ? ? ? ? k' H' Hn].
  - clash.
  - clash.
  - destruct Ha; clash.
  - destruct (vis_int _ _ _ _ _ _ _ _ _ _ _ _ _ _ _ H H') as (-> & -> & Hk). left. split; [done|]. split; [done|]. eauto 10.
  - destruct (vis_int _ _ _ _ _ _ _ _ _ _ _ _ _ _ _ H H') as (-> & -> & Hk). right; left. done.
  - destruct (vis_int _ _ _ _ _ _ _ _ _ _ _ _ _ _ _ H H') as (-> & -> & Hk). right; right; left.
    split; [done|]. split; [done|]. split; [eauto 10|]. intros q [= <-]. split; [done|apply Hk].
  - destruct (vis_int _ _ _ _ _ _ _ _ _ _ _ _ _ _ _ H H') as (-> & -> & Hk). right; right; left.
    split; [done|]. split; [done|]. split; [eauto 10|done].
  - destruct (vis_int _ _ _ _ _ _ _ _ _ _ _ _ _ _ _ H H') as (-> & -> & Hk). right; right; right. eauto 10.
Qed.

Lemma act_loading p va k o p' ch :
  p_code p ≈ Vis (Load va) k → act p o p' ch →
  o = [] ∧ ch = None ∧ (p' = None ∨ ∃ b w c, in_user va ∧ p_mem p va = Some (b, true, w) ∧
    p' = Some (Process c (p_mem p)) ∧ c ≈ k b).
Proof.
  intros H A. destruct A as [va' k' b w H' Hu Hm|? ? ? ? H'|? ? ? ? ? H' Ha|? ? ? ? ? ? k' s H' Hn Hs|? ? ? ? ? ? k' H' Hn|? ? ? ? ? ? k' pid H' Hn|? ? ? ? ? ? k' H' Hn|? ? ? ? ? ? k' H' Hn]; try clash.
  - destruct (vis_load _ _ _ _ _ H H') as (-> & Hk). split; [done|]. split; [done|]. right. eauto 10.
  - eauto.
Qed.

Lemma act_storing p va v k o p' ch :
  p_code p ≈ Vis (Store va v) k → act p o p' ch →
  o = [] ∧ ch = None ∧ (p' = None ∨ ∃ b c, in_user va ∧ p_mem p va = Some (b, true, true) ∧
    p' = Some (Process c (<[va := Some (v, true, true)]> (p_mem p))) ∧ c ≈ k ()).
Proof.
  intros H A. destruct A as [va' k' b w H' Hu Hm|va' v' k' b H' Hu Hm|? ? ? ? ? H' Ha|? ? ? ? ? ? k' s H' Hn Hs|? ? ? ? ? ? k' H' Hn|? ? ? ? ? ? k' pid H' Hn|? ? ? ? ? ? k' H' Hn|? ? ? ? ? ? k' H' Hn]; try clash.
  - destruct (vis_store _ _ _ _ _ _ _ H H') as (-> & -> & Hk). split; [done|]. split; [done|]. right. eauto 10.
  - eauto.
Qed.

(** ** Lives *)

(** One line of descent: the process itself, or from a fork on its child. *)
Inductive life (p : process) : list out → option process → Prop :=
| life_refl : life p [] (Some p)
| life_kill : life p [] None
| life_end o ch : act p o None ch → life p o None
| life_step o p' ch os q : act p o (Some p') ch → life p' os q → life p (o ++ os) q
| life_child o p' c os q : act p o p' (Some c) → life c os q → life p (o ++ os) q.

(** All that is printed is the beginning of a text in [L]. *)
Definition allowed (L : list out → Prop) (p : process) : Prop :=
  ∀ os q, life p os q → ∃ l, L l ∧ os `prefix_of` l.

Lemma allowed_step (L : list out → Prop) p :
  (∃ l, L l) →
  (∀ o p' ch, act p o p' ch → (∃ l, L (o ++ l)) ∧ ∀ q, p' = Some q ∨ ch = Some q → allowed (λ l, L (o ++ l)) q) →
  allowed L p.
Proof.
  intros [l0 H0] Hs os q Hl. destruct Hl as [| |o ch A|o p' ch os q A Hl|o p' c os q A Hl].
  - exists l0. split; [done|apply prefix_nil].
  - exists l0. split; [done|apply prefix_nil].
  - destruct (Hs _ _ _ A) as [(l & Hl) _]. exists (o ++ l). split; [done|by apply prefix_app_r].
  - destruct (proj2 (Hs _ _ _ A) p' (or_introl eq_refl) os q Hl) as (l & HL & Hp). exists (o ++ l).
    split; [done|by apply prefix_app].
  - destruct (proj2 (Hs _ _ _ A) c (or_intror eq_refl) os q Hl) as (l & HL & Hp). exists (o ++ l).
    split; [done|by apply prefix_app].
Qed.

Lemma allowed_mono (L L' : list out → Prop) p : (∀ l, L l → L' l) → allowed L p → allowed L' p.
Proof. intros H Ha os q Hl. destruct (Ha os q Hl) as (l & ? & ?). eauto. Qed.

Lemma allowed_some L p : allowed L p → ∃ l, L l.
Proof. intros H. destruct (H [] (Some p) (life_refl p)) as (l & Hl & _). by exists l. Qed.

(** ** Programs up to silent steps *)

#[global] Instance prog_bind_proper {A B} :
  Proper (pointwise_relation A (eutt eq) ==> eutt eq ==> eutt eq) (mbind (M := prog) (A := A) (B := B)).
Proof.
  intros k k' Hk t t' Ht. unfold mbind, prog_bind. apply eutt_clo_bind with (UU := eq); [exact Ht|].
  intros x ? <-. apply Hk.
Qed.

#[global] Instance user_entry_proper : Proper (eutt eq ==> eutt eq) user_entry.
Proof. intros t t' Ht. unfold user_entry. by rewrite Ht. Qed.

Lemma prog_assoc {A B C} (t : prog A) (k : A → prog B) (h : B → prog C) : (t ≫= k) ≫= h ≈ t ≫= (λ x, k x ≫= h).
Proof. unfold mbind, prog_bind. by rewrite bind_bind. Qed.

Lemma prog_ret_l {A B} (a : A) (k : A → prog B) : mret a ≫= k ≈ k a.
Proof. unfold mbind, prog_bind, mret, prog_ret. by rewrite bind_ret_l. Qed.

Lemma prog_trigger {A B} (e : userE A) (k : A → prog B) : ITree.trigger e ≫= k ≈ Vis e k.
Proof. unfold mbind, prog_bind. by rewrite bind_trigger. Qed.

(** A system call in front of the rest of a program. *)
Lemma call_vis {A B} nr a1 a2 a3 a4 a5 (g : Z → A) (rest : A → prog B) :
  (r ← syscall nr a1 a2 a3 a4 a5; mret (g r)) ≫= rest ≈
  Vis (Int nr (u64 a1) (u64 a2) (u64 a3) (u64 a4) (u64 a5)) (λ x, rest (g (i64 x))).
Proof.
  unfold syscall. rewrite !prog_assoc. etransitivity; [apply prog_trigger|]. apply eqit_Vis. intros x.
  rewrite !prog_ret_l. reflexivity.
Qed.

Section rules.
Context (L : list out → Prop) (p : process).

Lemma run_puts a s (rest : prog Z) :
  p_code p ≈ user_entry (sys_puts a ;; rest) → 0 ≤ a < 2 ^ 64 → user_string (p_mem p) a s →
  (∀ p', p_code p' ≈ user_entry rest → p_mem p' = p_mem p → allowed (λ l, L (Puts s :: l)) p') → allowed L p.
Proof.
  intros H Ha Hs Hr. unfold user_entry in H. rewrite prog_assoc in H. unfold sys_puts in H.
  rewrite (call_vis SYSCALL_PUTS a 0 0 0 0 (λ _, ()) (λ _, rest ≫= sys_exit)) in H. rewrite (u64_small a) in H by done.
  assert (allowed (λ l, L (Puts s :: l)) (Process (rest ≫= sys_exit) (p_mem p))) as Hr0 by (apply Hr; [reflexivity|done]).
  destruct (allowed_some _ _ Hr0) as (l0 & Hl0). apply allowed_step; [by eexists|]. intros o p' ch A.
  destruct (act_call _ _ _ _ _ _ _ _ _ _ _ H A) as [(_ & -> & s' & c & -> & Hs' & -> & Hc)|[[E _]|[[E _]|[E _]]]]; try discriminate E.
  rewrite (Hs' s Hs). split; [by exists l0|]. intros q [[= <-]|[=]]. by apply Hr.
Qed.

Lemma exit_vis_allowed nr r k :
  p_code p ≈ Vis (Int nr r 0 0 0 0) k → u32 nr = SYSCALL_EXIT → L [Exit r] → allowed L p.
Proof.
  intros H Hn HL. apply allowed_step; [by eexists|]. intros o p' ch A.
  destruct (act_call _ _ _ _ _ _ _ _ _ _ _ H A) as [[E _]|[(_ & -> & -> & ->)|[[E _]|[E _]]]]; try (rewrite Hn in E; discriminate E).
  split; [by exists []|]. by intros q [[=]|[=]].
Qed.

Lemma run_exit r (rest : prog Z) : p_code p ≈ user_entry (sys_exit r ;; rest) → L [Exit (u64 r)] → allowed L p.
Proof.
  intros H. unfold user_entry in H. rewrite prog_assoc in H. unfold sys_exit in H at 1.
  rewrite (call_vis SYSCALL_EXIT r 0 0 0 0 (λ _, ()) (λ _, rest ≫= sys_exit)) in H. by eapply exit_vis_allowed.
Qed.

Lemma run_ret r : p_code p ≈ user_entry (mret r) → L [Exit (u64 r)] → allowed L p.
Proof.
  intros H. unfold user_entry in H. rewrite prog_ret_l in H. unfold sys_exit, syscall in H. rewrite prog_assoc in H.
  rewrite prog_trigger in H. by eapply exit_vis_allowed.
Qed.

Lemma run_fork_in (rest : Z → prog Z) :
  p_code p ≈ user_entry (r ← sys_fork; rest r) →
  (∀ v p', i32 v = v → p_code p' ≈ user_entry (rest v) → p_mem p' = p_mem p → allowed L p') → allowed L p.
Proof.
  intros H Hr. unfold user_entry in H. rewrite prog_assoc in H. unfold sys_fork in H.
  rewrite (call_vis SYSCALL_FORK 0 0 0 0 0 i32 (λ v, rest v ≫= sys_exit)) in H.
  assert (allowed L (Process (rest 0 ≫= sys_exit) (p_mem p))) as Hr0 by (apply (Hr 0); [done|reflexivity|done]).
  destruct (allowed_some _ _ Hr0) as (l0 & Hl0). apply allowed_step; [by eexists|]. intros o p' ch A.
  destruct (act_call _ _ _ _ _ _ _ _ _ _ _ H A) as [[E _]|[[E _]|[(_ & -> & (v & c & -> & Hc) & Hch)|[E _]]]]; try discriminate E.
  split; [by exists l0|]. intros q [[= <-]|Hq].
  - eapply Hr; [|exact Hc|done]. apply i32_idem.
  - destruct (Hch q Hq) as [Hm Hq']. eapply Hr; [|exact Hq'|done]. apply i32_idem.
Qed.

Lemma run_yield (rest : prog Z) :
  p_code p ≈ user_entry (sys_yield ;; rest) →
  (∀ p', p_code p' ≈ user_entry rest → p_mem p' = p_mem p → allowed L p') → allowed L p.
Proof.
  intros H Hr. unfold user_entry in H. rewrite prog_assoc in H. unfold sys_yield in H.
  rewrite (call_vis SYSCALL_YIELD 0 0 0 0 0 (λ _, ()) (λ _, rest ≫= sys_exit)) in H.
  assert (allowed L (Process (rest ≫= sys_exit) (p_mem p))) as Hr0 by (apply Hr; [reflexivity|done]).
  destruct (allowed_some _ _ Hr0) as (l0 & Hl0). apply allowed_step; [by eexists|]. intros o p' ch A.
  destruct (act_call _ _ _ _ _ _ _ _ _ _ _ H A) as [[E _]|[[E _]|[[E _]|(_ & -> & -> & c & -> & Hc)]]]; try discriminate E.
  split; [by exists l0|]. intros q [[= <-]|[=]]. by apply Hr.
Qed.

Lemma run_load va (rest : byte → prog Z) :
  p_code p ≈ user_entry (b ← ITree.trigger (Load va); rest b) → (∃ l, L l) →
  (∀ b w p', in_user va → p_mem p va = Some (b, true, w) →
     p_code p' ≈ user_entry (rest b) → p_mem p' = p_mem p → allowed L p') → allowed L p.
Proof.
  intros H HL Hr. unfold user_entry in H. rewrite prog_assoc, prog_trigger in H. apply allowed_step; [done|]. intros o p' ch A.
  destruct (act_loading _ _ _ _ _ _ H A) as (-> & -> & Hp). split; [done|]. intros q [->|[=]].
  destruct Hp as [?|(b & w & c & Hu & Hb & [= ->] & Hc)]; [done|]. by eapply Hr.
Qed.

Lemma run_store va v (rest : prog Z) :
  p_code p ≈ user_entry (ITree.trigger (Store va v) ;; rest) → (∃ l, L l) →
  (∀ p', in_user va → p_code p' ≈ user_entry rest → p_mem p' = <[va := Some (v, true, true)]> (p_mem p) → allowed L p') →
  allowed L p.
Proof.
  intros H HL Hr. unfold user_entry in H. rewrite prog_assoc, prog_trigger in H. apply allowed_step; [done|]. intros o p' ch A.
  destruct (act_storing _ _ _ _ _ _ _ H A) as (-> & -> & Hp). split; [done|]. intros q [->|[=]].
  destruct Hp as [?|(b & c & Hu & Hb & [= ->] & Hc)]; [done|]. by eapply Hr.
Qed.

(** A store that is not permitted ends the program. *)
Lemma run_store_denied va v (rest : prog Z) :
  p_code p ≈ user_entry (ITree.trigger (Store va v) ;; rest) → (∃ l, L l) →
  (in_user va → ∀ b, p_mem p va ≠ Some (b, true, true)) → allowed L p.
Proof.
  intros H HL Hno. unfold user_entry in H. rewrite prog_assoc, prog_trigger in H. apply allowed_step; [done|]. intros o p' ch A.
  destruct (act_storing _ _ _ _ _ _ _ H A) as (-> & -> & Hp). split; [done|]. intros q [->|[=]].
  destruct Hp as [?|(b & c & Hu & Hb & _)]; [done|]. by destruct (Hno Hu b).
Qed.
End rules.

(** ** Exactly these texts *)

(** Every life prints the beginning of a text of [L], and every text of [L] is
    what some life prints from its start to its end. *)
Record prints (L : list out → Prop) (p : process) : Prop := {
  pt_allowed : allowed L p;
  pt_life l : L l → life p l None;
}.

Lemma prints_ext (L L' : list out → Prop) p : (∀ l, L l ↔ L' l) → prints L p → prints L' p.
Proof. intros H [A B]. constructor; [eapply allowed_mono; [|exact A]|]; naive_solver. Qed.

Lemma prints_some L p : prints L p → ∃ l, L l.
Proof. intros [A _]. by eapply allowed_some. Qed.

(** The texts that begin with [o]. *)
Definition then_ (o : out) (L : list out → Prop) : list out → Prop := λ l, ∃ l', l = o :: l' ∧ L l'.

Lemma prints_then o l p : prints (then_ o (eq l)) p → prints (eq (o :: l)) p.
Proof. apply prints_ext. intros l'. unfold then_. naive_solver. Qed.

Section texts.
Context (p : process).

Lemma prints_puts L a s (rest : prog Z) :
  p_code p ≈ user_entry (sys_puts a ;; rest) → 0 ≤ a < 2 ^ 64 → user_string (p_mem p) a s →
  (∀ p', p_code p' ≈ user_entry rest → p_mem p' = p_mem p → prints L p') → prints (then_ (Puts s) L) p.
Proof.
  intros H Ha Hs Hr. constructor.
  - eapply run_puts; [exact H|done|exact Hs|]. intros p' Hc Hm. eapply allowed_mono; [|exact (pt_allowed _ _ (Hr p' Hc Hm))].
    intros l Hl. by exists l.
  - intros l (l' & -> & Hl). unfold user_entry in H. rewrite prog_assoc in H. unfold sys_puts in H.
    rewrite (call_vis SYSCALL_PUTS a 0 0 0 0 (λ _, ()) (λ _, rest ≫= sys_exit)) in H. rewrite (u64_small a) in H by done.
    eapply (life_step p [Puts s]); [eapply act_puts; [exact H|done|]|].
    + intros s' Hs'. by eapply user_string_inj.
    + apply Hr; [reflexivity|done|done].
Qed.

Lemma life_exit nr r k : p_code p ≈ Vis (Int nr r 0 0 0 0) k → u32 nr = SYSCALL_EXIT → life p [Exit r] None.
Proof. intros H Hn. eapply life_end, act_exit; [exact H|done]. Qed.

Lemma prints_exit r (rest : prog Z) : p_code p ≈ user_entry (sys_exit r ;; rest) → prints (eq [Exit (u64 r)]) p.
Proof.
  intros H. constructor; [by eapply run_exit|]. intros l <-. unfold user_entry in H. rewrite prog_assoc in H. unfold sys_exit in H at 1.
  rewrite (call_vis SYSCALL_EXIT r 0 0 0 0 (λ _, ()) (λ _, rest ≫= sys_exit)) in H. by eapply life_exit.
Qed.

Lemma prints_ret r : p_code p ≈ user_entry (mret r) → prints (eq [Exit (u64 r)]) p.
Proof.
  intros H. constructor; [by eapply run_ret|]. intros l <-. unfold user_entry in H. rewrite prog_ret_l in H.
  unfold sys_exit, syscall in H. rewrite prog_assoc, prog_trigger in H. by eapply life_exit.
Qed.

(** The result of a fork is any number of 32 bits. *)
Lemma prints_fork (L : Z → list out → Prop) (rest : Z → prog Z) :
  p_code p ≈ user_entry (r ← sys_fork; rest r) →
  (∀ v p', p_code p' ≈ user_entry (rest v) → p_mem p' = p_mem p → prints (L v) p') →
  prints (λ l, ∃ v, i32 v = v ∧ L v l) p.
Proof.
  intros H Hr. constructor.
  - eapply run_fork_in; [exact H|]. intros v p' Hv Hc Hm. eapply allowed_mono; [|exact (pt_allowed _ _ (Hr v p' Hc Hm))]. eauto.
  - intros l (v & Hv & Hl). unfold user_entry in H. rewrite prog_assoc in H. unfold sys_fork in H.
    rewrite (call_vis SYSCALL_FORK 0 0 0 0 0 i32 (λ v, rest v ≫= sys_exit)) in H.
    eapply (life_step p []); [by apply (act_fork p _ _ _ _ _ _ _ v H)|]. cbn beta.
    rewrite Hv, i32_i64_u64, Hv. apply (Hr v); [reflexivity|done|done].
Qed.

Lemma prints_yield L (rest : prog Z) :
  p_code p ≈ user_entry (sys_yield ;; rest) →
  (∀ p', p_code p' ≈ user_entry rest → p_mem p' = p_mem p → prints L p') → prints L p.
Proof.
  intros H Hr. constructor.
  - eapply run_yield; [exact H|]. intros p' Hc Hm. apply Hr; done.
  - intros l Hl. unfold user_entry in H. rewrite prog_assoc in H. unfold sys_yield in H.
    rewrite (call_vis SYSCALL_YIELD 0 0 0 0 0 (λ _, ()) (λ _, rest ≫= sys_exit)) in H.
    eapply (life_step p []); [by apply (act_yield p _ _ _ _ _ _ _ H)|]. apply Hr; [reflexivity|done|done].
Qed.

Lemma prints_store L va v b (rest : prog Z) :
  p_code p ≈ user_entry (ITree.trigger (Store va v) ;; rest) → in_user va → p_mem p va = Some (b, true, true) →
  (∀ p', p_code p' ≈ user_entry rest → p_mem p' = <[va := Some (v, true, true)]> (p_mem p) → prints L p') → prints L p.
Proof.
  intros H Hu Hb Hr. assert (prints L (Process (user_entry rest) (<[va := Some (v, true, true)]> (p_mem p)))) as Hr0
    by (apply Hr; [reflexivity|done]). constructor.
  - eapply run_store; [exact H|by eapply prints_some|]. intros p' _ Hc Hm. by apply Hr.
  - intros l Hl. unfold user_entry in H. rewrite prog_assoc, prog_trigger in H.
    eapply (life_step p []); [by eapply (act_store p va v); [exact H|..]|]. by apply Hr0.
Qed.

(** An access that is not permitted. *)
Lemma prints_bad_load va (rest : byte → prog Z) :
  p_code p ≈ user_entry (b ← ITree.trigger (Load va); rest b) →
  ¬ (in_user va ∧ ∃ b w, p_mem p va = Some (b, true, w)) → prints (eq []) p.
Proof.
  intros H Hno. constructor.
  - eapply run_load; [exact H|by eexists|]. intros b w p' Hu Hb. destruct Hno. eauto.
  - intros l <-. unfold user_entry in H. rewrite prog_assoc, prog_trigger in H.
    eapply life_end, act_fault; [exact H|constructor|by right].
Qed.

Lemma prints_bad_store va v (rest : prog Z) :
  p_code p ≈ user_entry (ITree.trigger (Store va v) ;; rest) →
  (in_user va → ∀ b, p_mem p va ≠ Some (b, true, true)) → prints (eq []) p.
Proof.
  intros H Hno. constructor.
  - eapply run_store_denied; [exact H|by eexists|done].
  - intros l <-. unfold user_entry in H. rewrite prog_assoc, prog_trigger in H.
    eapply life_end, act_fault; [exact H|constructor|by left].
Qed.
End texts.

(** ** Loops *)

(** The loop from its [i]-th turn on. *)
Definition loop_from {R} (n : Z) (body : Z → prog (leave R)) (i : Z) : prog (option R) :=
  ITree.iter (λ i,
    if i <? n then
      l ← body i;
      mret (match l with Next => inl (i + 1) | Break => inr None | Return r => inr (Some r) end)
    else mret (inr None)) i.

Lemma for_loop_from {R} n (body : Z → prog (leave R)) : for_loop n body = loop_from n body 0.
Proof. done. Qed.

Lemma loop_turn {R} n (body : Z → prog (leave R)) i :
  i < n → loop_from n body i ≈
    l ← body i; match l with Next => loop_from n body (i + 1) | Break => mret None | Return r => mret (Some r) end.
Proof.
  intros Hi. unfold loop_from at 1. rewrite unfold_iter, (proj2 (Z.ltb_lt i n) Hi).
  change (ITree.bind ?t ?k) with (t ≫= k) at 1. rewrite prog_assoc.
  apply prog_bind_proper; [|reflexivity]. intros l. rewrite prog_ret_l. destruct l; cbn; [by rewrite tau_eutt|reflexivity..].
Qed.

Lemma loop_over {R} n (body : Z → prog (leave R)) i : n ≤ i → loop_from n body i ≈ mret None.
Proof.
  intros Hi. unfold loop_from. rewrite unfold_iter, (proj2 (Z.ltb_ge i n) Hi).
  change (ITree.bind ?t ?k) with (t ≫= k) at 1. by rewrite prog_ret_l.
Qed.

#[global] Instance after_proper {R} : Proper (eutt eq ==> eutt eq ==> eutt eq) (User.after (R := R)).
Proof. intros t t' Ht r r' Hr. unfold User.after. rewrite Ht. apply prog_bind_proper; [|reflexivity]. by intros [|]. Qed.

Lemma after_turn {R} n (body : Z → prog (leave R)) i rest :
  i < n → User.after (loop_from n body i) rest ≈
    l ← body i; match l with Next => User.after (loop_from n body (i + 1)) rest | Break => rest | Return r => mret r end.
Proof.
  intros Hi. rewrite (loop_turn n body i Hi). unfold User.after. rewrite prog_assoc. apply prog_bind_proper; [|reflexivity].
  intros [| |r]; [reflexivity|by rewrite prog_ret_l..].
Qed.

Lemma after_over {R} n (body : Z → prog (leave R)) i rest : n ≤ i → User.after (loop_from n body i) rest ≈ rest.
Proof. intros Hi. rewrite (loop_over n body i Hi). unfold User.after. by rewrite prog_ret_l. Qed.

(** A loop without effects ends. *)
Lemma idle_loop {R} n i : loop_from (R := R) n (λ _, mret Next) i ≈ mret None.
Proof.
  remember (Z.to_nat (n - i)) as d eqn:Hd. revert i Hd. induction d as [|d IH]; intros i Hd.
  - apply loop_over. lia.
  - rewrite loop_turn by lia. rewrite prog_ret_l. apply IH. lia.
Qed.

Lemma pause_silent n : pause n ≈ mret ().
Proof. unfold pause. by rewrite for_loop_from, idle_loop, prog_ret_l. Qed.

Lemma yield_pause_silent : yield_pause ≈ mret ().
Proof. apply (pause_silent 100000000). Qed.

(** ** Arrays *)

(** Writable bytes from [va] on. *)
Definition array (mem : Z → option cell) (va : Z) (l : list byte) : Prop :=
  ∀ n b, l !! n = Some b → in_user (va + Z.of_nat n) ∧ mem (va + Z.of_nat n) = Some (b, true, true).

Lemma array_string mem va l :
  array mem va (l ++ [Byte.x00]) → Forall (λ b, b2z b ≠ 0) l → user_string mem va (b2z <$> l).
Proof.
  intros Ha Hl. revert va Ha. induction Hl as [|b l Hb _ IH]; intros va Ha.
  - destruct (Ha 0%nat Byte.x00 eq_refl) as [H1 H2]. rewrite Z.add_0_r in *. split; [done|]. by do 2 eexists.
  - destruct (Ha 0%nat b eq_refl) as [H1 H2]. rewrite Z.add_0_r in *. split; [done|]. split; [by exists b, true, true|].
    apply IH. intros n c Hn. destruct (Ha (S n) c Hn) as [H3 H4]. by replace (va + 1 + Z.of_nat n) with (va + Z.of_nat (S n)) by lia.
Qed.

Lemma array_in mem va l n v :
  (n < length l)%nat → array mem va l → array (<[va + Z.of_nat n := Some (v, true, true)]> mem) va (<[n := v]> l).
Proof.
  intros Hn Ha n' b Hb. rewrite fn_insert_dec. destruct (decide (n' = n)) as [->|Hne].
  - rewrite list_lookup_insert_eq in Hb by done. injection Hb as <-. rewrite decide_True by done.
    destruct (lookup_lt_is_Some_2 l n Hn) as [c Hc]. by destruct (Ha n c Hc).
  - rewrite list_lookup_insert_ne in Hb by done. rewrite decide_False by lia. by apply Ha.
Qed.

(** The same for an array with a final zero, one byte of which was [x]. *)
Lemma array_set mem va l n x v :
  bool_decide (n < length l)%nat = true → array mem va (<[n := x]> l ++ [Byte.x00]) →
  array (<[va + Z.of_nat n := Some (v, true, true)]> mem) va (<[n := v]> l ++ [Byte.x00]).
Proof.
  intros Hn%bool_decide_eq_true Ha. apply (array_in _ _ _ n v) in Ha; [|rewrite length_app, length_insert; lia].
  by rewrite insert_app_l, list_insert_insert_eq in Ha by (rewrite length_insert; lia).
Qed.

(** The bytes of a literal. *)
Definition text (s : string) : list byte := byte_of_ascii <$> list_ascii_of_string s.

(** Writable memory. *)
Definition room (mem : Z → option cell) (va n : Z) : Prop :=
  ∀ x, va ≤ x < va + n → in_user x ∧ ∃ b, mem x = Some (b, true, true).

Lemma room_out mem va n mem' : (∀ x, va ≤ x < va + n → mem' x = mem x) → room mem va n → room mem' va n.
Proof. intros H Hr x Hx. rewrite H by done. by apply Hr. Qed.

Lemma string_same mem mem' va s :
  (∀ x, va ≤ x ≤ va + Z.of_nat (length s) → mem' x = mem x) → user_string mem va s → user_string mem' va s.
Proof.
  revert va. induction s as [|c s IH]; intros va Hx [Hu Hs]; (split; [done|]).
  - rewrite Hx by (cbn; lia). done.
  - destruct Hs as [Hc Hr]. rewrite Hx by (cbn; lia). split; [done|]. apply IH; [|done]. intros x H. apply Hx. cbn. lia.
Qed.

Lemma array_same mem mem' va l :
  (∀ x, va ≤ x < va + Z.of_nat (length l) → mem' x = mem x) → array mem va l → array mem' va l.
Proof. intros Hx Ha n b Hb. pose proof (lookup_lt_Some _ _ _ Hb). rewrite Hx by lia. by apply Ha. Qed.

(** The initialisation of an array. *)
Lemma prints_init L p va s (rest : prog Z) :
  p_code p ≈ user_entry (init_array va s ;; rest) → room (p_mem p) va (Z.of_nat (length (text s)) + 1) →
  (∀ p', p_code p' ≈ user_entry rest → array (p_mem p') va (text s ++ [Byte.x00]) →
     (∀ x, x < va ∨ va + Z.of_nat (length (text s)) < x → p_mem p' x = p_mem p x) → prints L p') →
  prints L p.
Proof.
  revert p va. induction s as [|a s IH]; intros p va H HR Hr; cbn [init_array] in H.
  - destruct (HR va) as [Hu [b Hb]]; [cbn; lia|].
    eapply prints_store; [exact H|done|exact Hb|]. intros p' Hc Hm. apply Hr; [done| |].
    + intros [|n] c Hc'; [|done]. injection Hc' as <-. rewrite Z.add_0_r, Hm, fn_lookup_insert. done.
    + intros x Hx. cbn in Hx. rewrite Hm, fn_lookup_insert_ne by lia. done.
  - rewrite prog_assoc in H. destruct (HR va) as [Hu [b Hb]]; [cbn; lia|].
    assert (length (text (String a s)) = S (length (text s))) as Hlen by done. rewrite Hlen in *.
    eapply prints_store; [exact H|done|exact Hb|]. intros p' Hc Hm. eapply (IH p' (va + 1) Hc).
    { rewrite Hm. intros x Hx. destruct (HR x) as [? ?]; [lia|]. rewrite fn_lookup_insert_ne by lia. done. }
    intros p2 Hc2 Ha2 Hm2. apply Hr; [done| |].
    + intros [|n] c Hc'; cbn in Hc'.
      * injection Hc' as <-. rewrite Z.add_0_r, Hm2 by lia. by rewrite Hm, fn_lookup_insert.
      * destruct (Ha2 n c Hc') as [H1 H2]. by replace (va + Z.of_nat (S n)) with (va + 1 + Z.of_nat n) by lia.
    + intros x Hx. rewrite Hm2, Hm, fn_lookup_insert_ne by lia. done.
Qed.

(** ** Lives in the world *)

(** What slot [i] has printed. *)
Definition outputs (i : Z) (o : list event) : list out :=
  omap (λ e, match e with Says j x => if decide (j = i) then Some x else None | Key => None end) o.

Lemma outputs_app i o1 o2 : outputs i (o1 ++ o2) = outputs i o1 ++ outputs i o2.
Proof. apply omap_app. Qed.

Lemma outputs_own i (o : list out) : outputs i (Says i <$> o) = o.
Proof. unfold outputs. induction o as [|x o IH]; [done|]. cbn. rewrite decide_True by done. f_equal. exact IH. Qed.

Lemma outputs_other i j (o : list out) : j ≠ i → outputs i (Says j <$> o) = [].
Proof. intros H. unfold outputs. induction o as [|x o IH]; [done|]. cbn. rewrite decide_False by done. exact IH. Qed.

(** One step of the world, seen from slot [i]. *)
Lemma move_slot w o w' i p :
  move w o w' → w i = Some p →
  w' i = Some p ∧ outputs i o = [] ∨ w' i = None ∧ outputs i o = [] ∨
  ∃ p' ch, act p (outputs i o) p' ch ∧ w' i = p'.
Proof.
  intros Hm Hp. destruct Hm as [j q o p' ch c Hj Hq A Hc|w' Hk].
  - destruct (decide (j = i)) as [->|Hne].
    + right; right. exists p', ch. rewrite outputs_own. assert (q = p) as -> by congruence. split; [done|].
      destruct ch as [ch|]; cbn; [|by rewrite fn_lookup_insert]. destruct (Hc ch eq_refl) as [_ Hn].
      rewrite fn_lookup_insert_ne by congruence. by rewrite fn_lookup_insert.
    + left. rewrite outputs_other by done. split; [|done].
      destruct ch as [ch|]; cbn; [|by rewrite fn_lookup_insert_ne]. destruct (Hc ch eq_refl) as [_ Hn].
      by rewrite !fn_lookup_insert_ne by congruence.
  - destruct (Hk i) as [->| ->]; auto.
Qed.
