(* ===== verification/Session.v ===== *)
(** The kernel implements processes.

    A session is the machine with the user program each task is executing.
    [tick] runs it: the program of the running task accesses memory through
    the processor's page tables, and whatever the processor does not let it do
    itself (system calls, faults) and whatever happens from outside (timer,
    keyboard, breakpoints) goes through the kernel's [interrupt_handler].
    [sim] relates a session to a world of Process, where every process has a
    memory of its own; [tick_sim] shows that every step of the session is a step
    of that world. *)

From Stdlib Require Import String.
From ITree Require Import ITree ITreeFacts.
From S2P Require Import Prelude Memory Queue Mmu Console Terminal Map AllocProofs Walk MapWf.
From S2P Require Import LookupProofs InsertProofs KmapProofs Gdt Context Task SchedProofs.
From S2P Require Import DestroyProofs TaskProofs Syscall ForkProofs Monitor Interrupt.
From S2P Require Import FaultProofs.
From S2P Require Import IsolationProofs TrapProofs LoadProofs MonitorProofs SystemProofs User.
From S2P Require Import Process.
From S2P Require Import ProgramProofs.
Import Mmu Map Task Interrupt Syscall User.

(** A task executes its program, or waits for the result of a system call. *)
Inductive ucode := Runs (t : prog ()) | Waits (k : Z → prog ()).

Record session := Session { mach : machine; code : Z → ucode }.

Abbreviation kern m := (Monitor.kern (mon m)).

(** The rest of the program of task [j]. *)
Definition now (s : session) (j : Z) : prog () :=
  match code s j with Runs t => t | Waits k => k (rax_of (kern (mach s)) j) end.

(** The program after a system call; a new task continues there as well. *)
Definition after_call (s : session) (i : Z) (k : Z → prog ()) (j : Z) : ucode :=
  if decide (j = i ∨ pml4 (tasks (kern (mach s)) j) = NULL) then Waits k else code s j.

(** The processor lets user mode read at [va]. *)
Definition user_readable (m : machine) (va e : Z) : Prop :=
  translate (phys (mm (kern m))) (cr3 (kern m) / PAGE_SIZE) va = Some e ∧ has_flag e PTE_U = true.

Definition carries (ctx : Context.task_context) (nr a1 a2 a3 a4 a5 : Z) : Prop :=
  let g := Context.c_gprs ctx in
  Context.rax g = nr ∧ Context.rbx g = a1 ∧ Context.rcx g = a2 ∧ Context.rdx g = a3 ∧
  Context.rdi g = a4 ∧ Context.rsi g = a5.

(** What the kernel prints for a system call of task [i]. *)
Definition printed (m : machine) (nr a1 : Z) : list out :=
  if decide (u32 nr = SYSCALL_PUTS) then
    match vstring user_string_max a1 (kern m) with Ok (str, _) => [Puts str] | Err _ => [] end
  else if decide (u32 nr = SYSCALL_EXIT) then [Exit a1] else [].

(** The interrupt comes from the keyboard and [sc] is the code of a pressed key. *)
Definition pressed (ctx : Context.task_context) (sc : Z) : list event :=
  if decide (Context.interrupt_number ctx = INTERRUPT_VECTOR_KEYBOARD ∧ has_flag (u8 sc) KEYBOARD_KEY_RELEASED = false)
  then [Key] else [].

Inductive tick (s : session) : list event → session → Prop :=
| tick_load i va k e :
    cpu_task (kern (mach s)) = Some (TSlot i) → now s i ≈ Vis (Load va) k →
    in_user va → user_readable (mach s) va e →
    let b := phys (mm (kern (mach s))) (frame e * PAGE_SIZE + va mod PAGE_SIZE) in
    tick s [] (Session (mach s) (<[i := Runs (k b)]> (code s)))
| tick_store i va v k e :
    cpu_task (kern (mach s)) = Some (TSlot i) → now s i ≈ Vis (Store va v) k →
    in_user va → user_writable (mach s) va e →
    tick s [] (Session (user_store (frame e * PAGE_SIZE + va mod PAGE_SIZE) v (mach s)) (<[i := Runs (k ())]> (code s)))
| tick_fault i A (e : userE A) k va store ctx sc t m' :
    cpu_task (kern (mach s)) = Some (TSlot i) → now s i ≈ Vis e k → access A e va store → 0 ≤ va < 2 ^ 64 →
    ¬ (in_user va ∧ ∃ pte, if store then user_writable (mach s) va pte else user_readable (mach s) va pte) →
    Context.interrupt_number ctx = INTERRUPT_VECTOR_PAGE_FAULT →
    has_flag (Context.error_code ctx) PAGE_FAULT_ERROR_CODE_R_W = store →
    interrupt_handler ctx (set_inputs va sc (mach s)) = Ok (t, m') →
    tick s [] (Session m' (<[i := Runs (now s i)]> (code s)))
| tick_call i nr a1 a2 a3 a4 a5 k ctx va sc t m' :
    cpu_task (kern (mach s)) = Some (TSlot i) → now s i ≈ Vis (Int nr a1 a2 a3 a4 a5) k →
    Context.interrupt_number ctx = INTERRUPT_VECTOR_SYSCALL → carries ctx nr a1 a2 a3 a4 a5 →
    0 ≤ va < 2 ^ 64 → interrupt_handler ctx (set_inputs va sc (mach s)) = Ok (t, m') →
    tick s (Says i <$> printed (mach s) nr a1) (Session m' (after_call s i k))
| tick_other i ctx va sc t m' :
    cpu_task (kern (mach s)) = Some (TSlot i) →
    Context.interrupt_number ctx ∈ [INTERRUPT_VECTOR_BREAKPOINT; INTERRUPT_VECTOR_TIMER; INTERRUPT_VECTOR_KEYBOARD] →
    0 ≤ va < 2 ^ 64 → interrupt_handler ctx (set_inputs va sc (mach s)) = Ok (t, m') →
    tick s (pressed ctx sc) (Session m' (<[i := Runs (now s i)]> (code s))).

Inductive ticks : session → list event → session → Prop :=
| ticks_refl s : ticks s [] s
| ticks_step s1 o1 s2 o2 s3 : tick s1 o1 s2 → ticks s2 o2 s3 → ticks s1 (o1 ++ o2) s3.

(** ** The relation *)

Definition abstracts (w : world) (s : session) (j : Z) : Prop :=
  match w j with
  | None => pml4 (tasks (kern (mach s)) j) = NULL
  | Some p => pml4 (tasks (kern (mach s)) j) ≠ NULL ∧ p_code p ≈ now s j ∧
      ∀ va, in_user va → p_mem p va = task_cell (kern (mach s)) j va
  end.

Definition sim (w : world) (s : session) : Prop := ∀ j, 0 ≤ j < TASK_MAX_CNT → abstracts w s j.

Section session.
Context (K f : Z).

Abbreviation nobody := (λ _ : Z, False).

Implicit Types (w : world) (s : session) (i j : Z).

(** The running task has a process. *)
Lemma running_process w s i g tl :
  sim w s → running K (kern (mach s)) g tl f i →
  0 ≤ i < TASK_MAX_CNT ∧ ∃ p, w i = Some p ∧ p_code p ≈ now s i ∧
    ∀ va, in_user va → p_mem p va = cell_of (phys (mm (kern (mach s)))) va <$>
      translate (phys (mm (kern (mach s)))) (cr3 (kern (mach s)) / PAGE_SIZE) va.
Proof.
  intros Hs R. pose proof (ru_slot _ _ _ _ _ _ R) as Hi. split; [done|].
  pose proof (Hs i Hi) as A. unfold abstracts in A. destruct (running_root K _ g tl f i R) as (Hn & _).
  destruct (w i) as [p|]; [|done]. exists p. destruct A as (_ & A2 & A3). split; [done|]. split; [done|].
  intros va Hva. rewrite A3 by done. unfold task_cell. by rewrite (ru_cr3 _ _ _ _ _ _ R).
Qed.

(** A task other than the current one after an interrupt. *)
Lemma abstracts_other w s ctx i k' N D V m' c' j :
  isolated N D V i (saved ctx (kern (mach s)) i) k' → kern m' = k' → 0 ≤ j < TASK_MAX_CNT → j ≠ i →
  abstracts w s j → ¬ N j → (pml4 (tasks (kern (mach s)) j) ≠ NULL → c' j = code s j) →
  (∀ w', w' j = w j → ¬ D j → abstracts w' (Session m' c') j) ∧
  (∀ w', w' j = (if decide (pml4 (tasks k' j) = NULL) then None else w j) → abstracts w' (Session m' c') j).
Proof.
  intros [H1 H2] Ek Hj Hji A HN Hc. destruct (saved_view ctx (kern (mach s)) i j) as (S1 & S2 & S3 & S4).
  unfold abstracts in *. unfold now. cbn [mach code]. rewrite Ek.
  destruct (w j) as [p|] eqn:Hw.
  - destruct A as (A1 & A2 & A3). rewrite <- S1 in A1. rewrite Hc by (by rewrite <- S1).
    assert (preserved V i (saved ctx (kern (mach s)) i) k' j →
      pml4 (tasks k' j) ≠ NULL ∧
      p_code p ≈ (match code s j with Runs t => t | Waits k => k (rax_of k' j) end) ∧
      ∀ va, in_user va → p_mem p va = task_cell k' j va) as Hp.
    { intros [P1 P2 P3 P4 _ P5]. split; [by rewrite P1|]. split.
      - unfold now in A2. destruct (code s j); [done|]. rewrite P4 by done. unfold rax_of in *. by rewrite saved_other.
      - intros va Hva. rewrite A3, P5, S4 by (done || by apply in_user_idx). done. }
    destruct (H1 j Hj A1) as [P|[HD Hnil]].
    + destruct (Hp P) as (Q1 & Q2 & Q3). split; intros w' ->; [done|]. by rewrite decide_False.
    + split; intros w' ->; [done|]. by rewrite decide_True.
  - rewrite <- S1 in A. destruct (H2 j Hj A) as [Hnil|[? _]]; [|done].
    split; intros w' ->; [done|]. by rewrite decide_True.
Qed.
(** The current task after an interrupt. *)
Lemma current_after ctx i k k' N D V :
  isolated N D V i (saved ctx k i) k' → 0 ≤ i < TASK_MAX_CNT → pml4 (tasks k i) ≠ NULL →
  pml4 (tasks k' i) = NULL ∧ D i ∨
  pml4 (tasks k' i) ≠ NULL ∧ V (rax_of k' i) ∧ ∀ va, in_user va → task_cell k' i va = task_cell k i va.
Proof.
  intros [H1 _] Hi Hn. destruct (saved_view ctx k i i) as (S1 & _ & _ & S4). rewrite <- S1 in Hn.
  destruct (H1 i Hi Hn) as [[P1 _ _ _ P4 P5]|[? ?]]; [right|by left].
  split; [by rewrite P1|]. split; [by apply P4|]. intros va Hva. rewrite <- S4. by apply P5, in_user_idx.
Qed.

(** The handler, seen from a session. *)
Lemma handler_effect s ctx va sc t m' i :
  system_ok K f (mach s) → cpu_task (kern (mach s)) = Some (TSlot i) → 0 ≤ va < 2 ^ 64 →
  interrupt_handler ctx (set_inputs va sc (mach s)) = Ok (t, m') →
  system_ok K f m' ∧ trap_result ctx (set_inputs va sc (mach s)) i (saved ctx (kern (mach s)) i) (kern m').
Proof.
  intros (i' & g & tl & R) Hcpu Hva Hrun. assert (i' = i) as -> by (rewrite (ru_cpu _ _ _ _ _ _ R) in Hcpu; congruence).
  pose proof (handler_out K f ctx (set_inputs va sc (mach s)) i g tl R Hva) as H. unfold wpe in H. rewrite Hrun in H.
  destruct H as [(j & g' & tl' & _ & R') H]. split; [by exists j, g', tl'|exact H].
Qed.

Lemma current_process w s i :
  system_ok K f (mach s) → sim w s → cpu_task (kern (mach s)) = Some (TSlot i) →
  0 ≤ i < TASK_MAX_CNT ∧ pml4 (tasks (kern (mach s)) i) ≠ NULL ∧ ∃ p, w i = Some p ∧ p_code p ≈ now s i ∧
    (∀ va, in_user va → p_mem p va = task_cell (kern (mach s)) i va) ∧
    ∀ va, in_user va → p_mem p va = cell_of (phys (mm (kern (mach s)))) va <$>
      translate (phys (mm (kern (mach s)))) (cr3 (kern (mach s)) / PAGE_SIZE) va.
Proof.
  intros (i' & g & tl & R) Hs Hcpu. assert (i' = i) as -> by (rewrite (ru_cpu _ _ _ _ _ _ R) in Hcpu; congruence).
  destruct (running_process w s i g tl Hs R) as (Hi & p & Hw & Hc & Hm). split; [done|].
  split; [by apply (running_root K _ g tl f i)|]. exists p. split; [done|]. split; [done|]. split; [|done].
  pose proof (Hs i Hi) as A. unfold abstracts in A. rewrite Hw in A. apply A.
Qed.

(** *** Nothing visible happened *)

Lemma sim_stutter w s ctx i m' :
  system_ok K f (mach s) → sim w s → cpu_task (kern (mach s)) = Some (TSlot i) →
  isolated nobody nobody (eq (rax_of (saved ctx (kern (mach s)) i) i)) i (saved ctx (kern (mach s)) i) (kern m') →
  sim w (Session m' (<[i := Runs (now s i)]> (code s))).
Proof.
  intros Hok Hs Hcpu HI j Hj. destruct (current_process w s i Hok Hs Hcpu) as (Hi & Hn & p & Hw & Hc & Hm & _).
  destruct (decide (j = i)) as [->|Hne].
  - destruct (current_after ctx i _ _ _ _ _ HI Hi Hn) as [[_ []]|(Q1 & _ & Q3)].
    unfold abstracts, now. rewrite Hw. cbn [mach code]. rewrite fn_lookup_insert. split; [done|]. split; [done|].
    intros va Hva. by rewrite Q3, Hm.
  - assert (pml4 (tasks (kern (mach s)) j) ≠ NULL → (<[i := Runs (now s i)]> (code s)) j = code s j) as Hcj
      by (intros _; by rewrite fn_lookup_insert_ne).
    apply (proj1 (abstracts_other w s ctx i _ _ _ _ m' _ j HI eq_refl Hj Hne (Hs j Hj) (λ x, x) Hcj)); [done|exact (λ x, x)].
Qed.

(** *** The current task is gone *)

Lemma sim_gone w s ctx i m' c' :
  system_ok K f (mach s) → sim w s → cpu_task (kern (mach s)) = Some (TSlot i) →
  isolated nobody (λ j, j = i) nobody i (saved ctx (kern (mach s)) i) (kern m') →
  (∀ j, j ≠ i → pml4 (tasks (kern (mach s)) j) ≠ NULL → c' j = code s j) →
  sim (<[i := None]> w) (Session m' c').
Proof.
  intros Hok Hs Hcpu HI Hc' j Hj. destruct (current_process w s i Hok Hs Hcpu) as (Hi & Hn & _).
  destruct (decide (j = i)) as [->|Hne].
  - destruct (current_after ctx i _ _ _ _ _ HI Hi Hn) as [[Q _]|(_ & [] & _)].
    unfold abstracts. by rewrite fn_lookup_insert.
  - apply (proj1 (abstracts_other w s ctx i _ _ _ _ m' c' j HI eq_refl Hj Hne (Hs j Hj) (λ x, x) (Hc' j Hne))); [|done].
    by rewrite fn_lookup_insert_ne.
Qed.

(** *** The operator killed tasks *)

Lemma sim_killed w s ctx i m' :
  system_ok K f (mach s) → sim w s → cpu_task (kern (mach s)) = Some (TSlot i) →
  isolated nobody (λ _, True) (eq (rax_of (saved ctx (kern (mach s)) i) i)) i (saved ctx (kern (mach s)) i) (kern m') →
  sim (λ j, if decide (pml4 (tasks (kern m') j) = NULL) then None else w j)
    (Session m' (<[i := Runs (now s i)]> (code s))).
Proof.
  intros Hok Hs Hcpu HI j Hj. destruct (current_process w s i Hok Hs Hcpu) as (Hi & Hn & p & Hw & Hc & Hm & _).
  destruct (decide (j = i)) as [->|Hne].
  - unfold abstracts, now. cbn [mach code]. rewrite fn_lookup_insert.
    destruct (current_after ctx i _ _ _ _ _ HI Hi Hn) as [[Q _]|(Q1 & _ & Q3)]; [by rewrite decide_True|].
    rewrite decide_False, Hw by done. split; [done|]. split; [done|]. intros va Hva. by rewrite Q3, Hm.
  - assert (pml4 (tasks (kern (mach s)) j) ≠ NULL → (<[i := Runs (now s i)]> (code s)) j = code s j) as Hcj
      by (intros _; by rewrite fn_lookup_insert_ne).
    by apply (proj2 (abstracts_other w s ctx i _ _ _ _ m' _ j HI eq_refl Hj Hne (Hs j Hj) (λ x, x) Hcj)).
Qed.

(** *** A system call returned to the current task *)

Lemma sim_return w s ctx i m' k v p N `{!∀ j, Decision (N j)} :
  system_ok K f (mach s) → sim w s → cpu_task (kern (mach s)) = Some (TSlot i) → w i = Some p →
  isolated N nobody (eq v) i (saved ctx (kern (mach s)) i) (kern m') →
  ∀ w', w' i = Some (Process (k v) (p_mem p)) →
  (∀ j, 0 ≤ j < TASK_MAX_CNT → j ≠ i → ¬ N j → w' j = w j) →
  (∀ j, 0 ≤ j < TASK_MAX_CNT → N j → abstracts w' (Session m' (after_call s i k)) j) →
  sim w' (Session m' (after_call s i k)).
Proof.
  intros Hok Hs Hcpu Hwi HI w' Hw' Ho HN j Hj.
  destruct (current_process w s i Hok Hs Hcpu) as (Hi & Hn & p' & Hw & Hc & Hm & _).
  assert (p' = p) as -> by congruence.
  destruct (decide (j = i)) as [->|Hne].
  - destruct (current_after ctx i _ _ _ _ _ HI Hi Hn) as [[_ []]|(Q1 & Q2 & Q3)].
    unfold abstracts, now, after_call. rewrite Hw'. cbn [mach code p_code p_mem]. rewrite decide_True by (by left).
    split; [done|]. split; [by rewrite Q2|]. intros va Hva. by rewrite Q3, Hm.
  - destruct (decide (N j)) as [Hnj|Hnj]; [by apply HN|].
    assert (pml4 (tasks (kern (mach s)) j) ≠ NULL → after_call s i k j = code s j) as Hcj.
    { intros Hp. unfold after_call. rewrite decide_False; [done|]. by intros [?|?]. }
    apply (proj1 (abstracts_other w s ctx i _ _ _ _ m' _ j HI eq_refl Hj Hne (Hs j Hj) Hnj Hcj)); [by apply Ho|exact (λ x, x)].
Qed.
(** *** Strings *)

(** Reading a string depends on memory and page tables only. *)
Lemma vstring_same n va str (k k' : kstate Term.terminal) :
  vstring n va k = Ok (str, k) → cr3 k' = cr3 k → phys (mm k') = phys (mm k) → vstring n va k' = Ok (str, k').
Proof.
  intros H Hc Hp. revert va str H. induction n as [|n IH]; intros va str H; [done|]. cbn [vstring] in *.
  unfold vload8, vtranslate, mbind, M_bind, get in *. rewrite Hc, Hp. destruct (translate _ _ _) as [e|]; [|done]. cbn in *.
  destruct (_ =? 0); [by injection H as <-|].
  destruct (vstring n (va + 1) k) as [[l k1]|] eqn:E; [|done]. injection H as <- ->. by rewrite (IH (va + 1) l).
Qed.

(** The kernel reads the string the process has in its memory. *)
Lemma vstring_user n va (k k' : kstate Term.terminal) str (mem : Z → option cell) (s' : list Z) :
  (∀ va, in_user va → mem va = cell_of (phys (mm k)) va <$> translate (phys (mm k)) (cr3 k / PAGE_SIZE) va) →
  user_string mem va s' → vstring n va k = Ok (str, k') → str = s'.
Proof.
  intros Hm. revert n va str k'. induction s' as [|c s' IH]; intros n va str k' [Hva Hs] H; (destruct n as [|n]; [done|]); cbn [vstring] in H.
  - destruct Hs as (u & wr & Hs). rewrite Hm in Hs by done. unfold vload8, vtranslate, mbind, M_bind, get in H.
    rewrite u64_small in H by (unfold in_user, USER_TOP in Hva; lia). destruct (translate _ _ _) as [e|]; [|done].
    injection Hs as Hb _ _. cbn in H. rewrite Hb in H. cbn in H. by injection H as <-.
  - destruct Hs as [(b & u & wr & Hs & Hbc & Hc0) Hrest]. rewrite Hm in Hs by done.
    unfold vload8, vtranslate, mbind, M_bind, get in H.
    rewrite u64_small in H by (unfold in_user, USER_TOP in Hva; lia). destruct (translate _ _ _) as [e|]; [|done].
    injection Hs as Hb _ _. cbn in H. rewrite Hb, Hbc, (proj2 (Z.eqb_neq c 0) Hc0) in H.
    destruct (vstring n (va + 1) k) as [[l k1]|] eqn:E; [|done]. injection H as <- _. f_equal. by eapply IH.
Qed.
(** ** Every step is a step of the processes *)

Definition mimics w s' (o : list event) : Prop := ∃ w', sim w' s' ∧ (o = [] ∧ w' = w ∨ move w o w').

Lemma no_child (ch : option process) c w : ch = None → ∀ q, ch = Some q → 0 ≤ c < TASK_MAX_CNT ∧ w c = None.
Proof. by intros ->. Qed.

Lemma load_sim w s i va k e :
  system_ok K f (mach s) → sim w s → cpu_task (kern (mach s)) = Some (TSlot i) → now s i ≈ Vis (Load va) k →
  in_user va → user_readable (mach s) va e →
  mimics w (Session (mach s) (<[i := Runs (k (phys (mm (kern (mach s))) (frame e * PAGE_SIZE + va mod PAGE_SIZE)))]> (code s))) [].
Proof.
  intros Hok Hs Hcpu Hk Hva [Ht HU]. destruct (current_process w s i Hok Hs Hcpu) as (Hi & Hn & p & Hw & Hc & Hm & Hm').
  set (b := phys _ _). exists (<[i := Some (Process (k b) (p_mem p))]> w). split; cycle 1.
  - right. refine (move_act w i p [] _ None i Hi Hw _ (no_child None i w eq_refl)).
    eapply (act_load p va k b); [by rewrite Hc|done|]. rewrite Hm', Ht by done. cbn. unfold cell_of. by rewrite HU.
  - intros j Hj. unfold abstracts, now. cbn [mach code]. destruct (decide (j = i)) as [->|Hne].
    + rewrite !fn_lookup_insert. done.
    + rewrite !fn_lookup_insert_ne by done. exact (Hs j Hj).
Qed.

Lemma store_sim w s i va v k e :
  system_ok K f (mach s) → sim w s → cpu_task (kern (mach s)) = Some (TSlot i) → now s i ≈ Vis (Store va v) k →
  in_user va → user_writable (mach s) va e →
  mimics w (Session (user_store (frame e * PAGE_SIZE + va mod PAGE_SIZE) v (mach s)) (<[i := Runs (k ())]> (code s))) [].
Proof.
  intros Hok Hs Hcpu Hk Hva U. destruct (current_process w s i Hok Hs Hcpu) as (Hi & Hn & p & Hw & Hc & Hm & Hm').
  destruct Hok as (i' & g & tl & R). assert (i' = i) as -> by (rewrite (ru_cpu _ _ _ _ _ _ R) in Hcpu; congruence).
  pose proof U as (Ht & HU & HW).
  exists (<[i := Some (Process (k ()) (<[va := Some (v, true, true)]> (p_mem p)))]> w). split; cycle 1.
  - right. refine (move_act w i p [] _ None i Hi Hw _ (no_child None i w eq_refl)).
    eapply (act_store p va v k (phys (mm (kern (mach s))) (frame e * PAGE_SIZE + va mod PAGE_SIZE))); [by rewrite Hc|done|].
    rewrite Hm', Ht by done. cbn. unfold cell_of. by rewrite HU, HW.
  - intros j Hj. unfold abstracts, now. cbn [mach code]. destruct (decide (j = i)) as [->|Hne].
    + rewrite !fn_lookup_insert. split; [done|]. split; [done|]. intros va' Hva'. cbn [p_mem].
      rewrite (store_own K f (mach s) i g tl va e v va' R U Hva Hva'), fn_insert_dec.
      destruct (decide (va = va')); [done|by apply Hm].
    + rewrite !fn_lookup_insert_ne by done. pose proof (Hs j Hj) as A. unfold abstracts, now in A.
      destruct (w j) as [q|]; [|exact A]. destruct A as (A1 & A2 & A3). split; [done|]. split; [done|].
      intros va' Hva'. rewrite A3 by done. symmetry. apply (store_other K f (mach s) i g tl); [done|done|done|done|done|].
      by apply in_user_idx.
Qed.

Lemma fault_sim w s i A (e : userE A) k va store ctx sc t m' :
  system_ok K f (mach s) → sim w s → cpu_task (kern (mach s)) = Some (TSlot i) → now s i ≈ Vis e k →
  access A e va store → 0 ≤ va < 2 ^ 64 →
  ¬ (in_user va ∧ ∃ pte, if store then user_writable (mach s) va pte else user_readable (mach s) va pte) →
  Context.interrupt_number ctx = INTERRUPT_VECTOR_PAGE_FAULT →
  has_flag (Context.error_code ctx) PAGE_FAULT_ERROR_CODE_R_W = store →
  interrupt_handler ctx (set_inputs va sc (mach s)) = Ok (t, m') →
  mimics w (Session m' (<[i := Runs (now s i)]> (code s))) [].
Proof.
  intros Hok Hs Hcpu Hk Ha Hva Hno Hnum Herr Hrun.
  destruct (current_process w s i Hok Hs Hcpu) as (Hi & Hn & p & Hw & Hc & Hm & Hm').
  destruct (handler_effect s ctx va sc t m' i Hok Hcpu Hva Hrun) as [_ H].
  destruct (trap_fault _ _ _ _ _ Hnum H) as [(HI & _)|HI].
  - exists w. split; [by apply (sim_stutter w s ctx i m')|by left].
  - exists (<[i := None]> w). split.
    + apply (sim_gone w s ctx i m'); try done. intros j Hne _. by rewrite fn_lookup_insert_ne.
    + right. refine (move_act w i p [] None None i Hi Hw _ (no_child None i w eq_refl)).
      eapply (act_fault p A e k va store); [by rewrite Hc|done|]. destruct store; [by left|right].
      intros [Hu (b & wr & Hcell)]. apply Hno. split; [done|]. rewrite Hm' in Hcell by done.
      destruct (translate _ _ _) as [pte|] eqn:Ht; [|done]. exists pte. split; [exact Ht|]. by injection Hcell as _ ? _.
Qed.

Lemma other_sim w s i ctx va sc t m' :
  system_ok K f (mach s) → sim w s → cpu_task (kern (mach s)) = Some (TSlot i) →
  Context.interrupt_number ctx ∈ [INTERRUPT_VECTOR_BREAKPOINT; INTERRUPT_VECTOR_TIMER; INTERRUPT_VECTOR_KEYBOARD] →
  0 ≤ va < 2 ^ 64 → interrupt_handler ctx (set_inputs va sc (mach s)) = Ok (t, m') →
  mimics w (Session m' (<[i := Runs (now s i)]> (code s))) (pressed ctx sc).
Proof.
  intros Hok Hs Hcpu Hnum Hva Hrun. destruct (handler_effect s ctx va sc t m' i Hok Hcpu Hva Hrun) as [_ H].
  rewrite !elem_of_cons, elem_of_nil in Hnum. destruct H as [[E _]|[[E _]|[[E HI]|[[_ HI]|[E _]]]]].
  - rewrite E in Hnum. exfalso. unfold INTERRUPT_VECTOR_PAGE_FAULT in Hnum. naive_solver.
  - rewrite E in Hnum. exfalso. naive_solver.
  - eexists. split; [exact (sim_killed w s ctx i m' Hok Hs Hcpu HI)|]. right. unfold pressed.
    rewrite decide_True by exact E. apply move_kill. intros j. destruct (decide _); auto.
  - exists w. split; [by apply (sim_stutter w s ctx i m')|]. unfold pressed. destruct (decide _); [right|by left].
    apply move_kill. by left.
  - destruct E. unfold handled. rewrite !elem_of_cons. tauto.
Qed.
(** A child starts with the memory of its parent and the result 0. *)
Lemma child_abstracts w s ctx i m' k p c w' :
  sim w s → w i = Some p → (∀ va, in_user va → p_mem p va = task_cell (kern (mach s)) i va) →
  pml4 (tasks (kern (mach s)) c) = NULL → forked i (saved ctx (kern (mach s)) i) (kern m') c →
  w' c = Some (Process (k 0) (p_mem p)) → abstracts w' (Session m' (after_call s i k)) c.
Proof.
  intros Hs Hw Hm Hc [F1 F2 F3] Hw'. unfold abstracts, now, after_call. rewrite Hw'. cbn [mach code p_code p_mem].
  rewrite decide_True by (by right). split; [done|]. destruct (resumable_rax _ _ F2) as [_ E].
  split; [unfold rax_of; by rewrite E|]. destruct (saved_view ctx (kern (mach s)) i i) as (_ & _ & _ & S4).
  intros va Hva. rewrite F3, S4 by (by apply in_user_idx). by apply Hm.
Qed.

Lemma call_sim w s i nr a1 a2 a3 a4 a5 k ctx va sc t m' :
  system_ok K f (mach s) → sim w s → cpu_task (kern (mach s)) = Some (TSlot i) →
  now s i ≈ Vis (Int nr a1 a2 a3 a4 a5) k →
  Context.interrupt_number ctx = INTERRUPT_VECTOR_SYSCALL → carries ctx nr a1 a2 a3 a4 a5 →
  0 ≤ va < 2 ^ 64 → interrupt_handler ctx (set_inputs va sc (mach s)) = Ok (t, m') →
  mimics w (Session m' (after_call s i k)) (Says i <$> printed (mach s) nr a1).
Proof.
  intros Hok Hs Hcpu Hk Hnum (Ra & Rb & _) Hva Hrun.
  destruct (current_process w s i Hok Hs Hcpu) as (Hi & Hn & p & Hw & Hc & Hm & Hm').
  destruct (handler_effect s ctx va sc t m' i Hok Hcpu Hva Hrun) as [_ H].
  pose proof (trap_call _ _ _ _ _ Hnum H) as Hcall.
  clear H Hrun. assert (p_code p ≈ Vis (Int nr a1 a2 a3 a4 a5) k) as Hpk by (by rewrite Hc).
  assert (rax_of (saved ctx (kern (mach s)) i) i = nr) as Er by (unfold rax_of; by rewrite saved_task).
  assert (∀ j, 0 ≤ j < TASK_MAX_CNT → pml4 (tasks (kern (mach s)) j) = NULL → w j = None) as Hfree.
  { intros j Hj Hnj. pose proof (Hs j Hj) as A. unfold abstracts in A. destruct (w j); [by destruct A|done]. }
  unfold call_result in Hcall. rewrite Er in Hcall. unfold printed.
  destruct Hcall as [(E & (str & k1 & Hstr & _) & HI)|[[E HI]|[(E & ret & [[-> HI]|(c & Hc1 & Hc2 & Hc3 & Hc4 & HI)])|[E HI]]]].
  - rewrite decide_True by done. rewrite saved_task in Hstr. cbn [context set_state set_context] in Hstr. rewrite Rb in Hstr.
    rewrite (vstring_same _ _ str _ (kern (mach s)) Hstr) by done.
    exists (<[i := Some (Process (k 0) (p_mem p))]> w). split.
    + apply (sim_return w s ctx i m' k (u64 0) p nobody Hok Hs Hcpu Hw HI); [by rewrite fn_lookup_insert| |by intros j _ []].
      intros j Hj Hne _. by rewrite fn_lookup_insert_ne.
    + right. refine (move_act w i p [Puts str] _ None i Hi Hw _ (no_child None i w eq_refl)).
      eapply (act_puts p nr a1 a2 a3 a4 a5 k str); [done|done|]. intros s' Hs'.
      apply (vstring_user _ a1 (saved ctx (kern (mach s)) i) (saved ctx (kern (mach s)) i) str (p_mem p) s' Hm' Hs' Hstr).
  - rewrite decide_False, decide_True by (rewrite ?E; done).
    exists (<[i := None]> w). split.
    + apply (sim_gone w s ctx i m'); try done. intros j Hne Hp. unfold after_call. rewrite decide_False; [done|]. by intros [?|?].
    + right. refine (move_act w i p [Exit a1] None None i Hi Hw _ (no_child None i w eq_refl)). by eapply act_exit.
  - rewrite !decide_False by (rewrite ?E; done).
    exists (<[i := Some (Process (k (u64 (-1))) (p_mem p))]> w). split.
    + apply (sim_return w s ctx i m' k (u64 (-1)) p nobody Hok Hs Hcpu Hw HI); [by rewrite fn_lookup_insert| |by intros j _ []].
      intros j Hj Hne _. by rewrite fn_lookup_insert_ne.
    + right. refine (move_act w i p [] _ None i Hi Hw _ (no_child None i w eq_refl)). by eapply act_fork_fail.
  - rewrite !decide_False by (rewrite ?E; done).
    destruct (saved_view ctx (kern (mach s)) i c) as (S1 & _). pose proof Hc2 as Hc2'. rewrite S1 in Hc2'.
    assert (c ≠ i) as Hci by congruence.
    destruct (is_new _ _ _ _ _ _ HI c Hc1 Hc2) as [?|[_ Fo]]; [done|].
    exists (<[c := Some (Process (k 0) (p_mem p))]> (<[i := Some (Process (k (u64 ret)) (p_mem p))]> w)). split.
    + apply (sim_return w s ctx i m' k (u64 ret) p (λ j, j = c) Hok Hs Hcpu Hw HI).
      * by rewrite fn_lookup_insert_ne, fn_lookup_insert.
      * intros j Hj Hne Hjc. by rewrite !fn_lookup_insert_ne by done.
      * intros j Hj ->. apply (child_abstracts w s ctx i m' k p c); try done. by rewrite fn_lookup_insert.
    + right. rewrite Hc4. refine (move_act w i p [] _ (Some _) c Hi Hw _ _); [by eapply act_fork|].
      intros q _. split; [done|by apply Hfree].
  - rewrite !decide_False by (rewrite ?E; done).
    exists (<[i := Some (Process (k nr) (p_mem p))]> w). split.
    + apply (sim_return w s ctx i m' k nr p nobody Hok Hs Hcpu Hw HI); [by rewrite fn_lookup_insert| |by intros j _ []].
      intros j Hj Hne _. by rewrite fn_lookup_insert_ne.
    + right. refine (move_act w i p [] _ None i Hi Hw _ (no_child None i w eq_refl)). by eapply act_yield.
Qed.

Lemma tick_sim w s o s' :
  tick s o s' → system_ok K f (mach s) → sim w s → system_ok K f (mach s') ∧ mimics w s' o.
Proof.
  intros Ht Hok Hs. destruct Ht; (split; [|eauto using load_sim, store_sim, fault_sim, call_sim, other_sim]).
  - done.
  - eapply step_ok; [by apply (step_store va e v)|done].
  - by eapply handler_effect.
  - by eapply handler_effect.
  - by eapply handler_effect.
Qed.

Lemma ticks_sim w s o s' :
  ticks s o s' → system_ok K f (mach s) → sim w s → system_ok K f (mach s') ∧ ∃ w', moves w o w' ∧ sim w' s'.
Proof.
  intros Ht. revert w. induction Ht as [s|s1 o1 s2 o2 s3 H1 _ IH]; intros w Hok Hs.
  - split; [done|]. exists w. split; [constructor|done].
  - destruct (tick_sim w s1 o1 s2 H1 Hok Hs) as [Hok2 (w2 & Hs2 & [[-> ->]|Hmv])].
    + by apply IH.
    + destruct (IH w2 Hok2 Hs2) as [Hok3 (w3 & Hm3 & Hs3)]. split; [done|]. exists w3. split; [|done]. by econstructor.
Qed.
(** ** Lives on the kernel *)

(** Until it is gone, the task in slot [i] prints what a life of its process prints. *)
Lemma ticks_life s o s' w i p :
  ticks s o s' → system_ok K f (mach s) → sim w s → 0 ≤ i < TASK_MAX_CNT → w i = Some p →
  (∃ q, life p (outputs i o) q) ∨
  ∃ o1 o2 s1, o = o1 ++ o2 ∧ ticks s o1 s1 ∧ ticks s1 o2 s' ∧ pml4 (tasks (kern (mach s1)) i) = NULL ∧
    ∃ q, life p (outputs i o1) q.
Proof.
  intros Ht Hok Hs Hi. revert w p Hok Hs. induction Ht as [s|s1 o1 s2 o2 s3 H1 H2 IH]; intros w p Hok Hs Hp.
  { left. exists (Some p). constructor. }
  destruct (tick_sim w s1 o1 s2 H1 Hok Hs) as [Hok2 (w2 & Hs2 & Hw2)].
  assert (w2 i = None → (∃ q, life p (outputs i o1) q) → ∃ o1' o2' s1', o1 ++ o2 = o1' ++ o2' ∧ ticks s1 o1' s1' ∧ ticks s1' o2' s3 ∧
    pml4 (tasks (kern (mach s1')) i) = NULL ∧ ∃ q, life p (outputs i o1') q) as Hgone.
  { intros Hn Hl. exists o1, o2, s2. split; [done|].
    split; [rewrite <- (app_nil_r o1); by eapply ticks_step; [|constructor]|]. split; [done|]. split; [|done].
    pose proof (Hs2 i Hi) as A. unfold abstracts in A. by rewrite Hn in A. }
  assert (w2 i = Some p ∧ outputs i o1 = [] ∨ w2 i = None ∧ outputs i o1 = [] ∨
    ∃ p' ch, act p (outputs i o1) p' ch ∧ w2 i = p') as [[Hp2 Ho]|[[Hp2 Ho]|(p' & ch & A & Hp2)]].
  { destruct Hw2 as [[-> ->]|Hm]; [by left|by eapply move_slot]. }
  - rewrite outputs_app, Ho. destruct (IH w2 p Hok2 Hs2 Hp2) as [?|(oa & ob & sa & -> & Ha & Hb & Hn & q & Hl)]; [by left|right].
    exists (o1 ++ oa), ob, sa. rewrite app_assoc, outputs_app, Ho. split; [done|]. split; [by eapply ticks_step|]. eauto.
  - right. apply Hgone; [done|]. rewrite Ho. exists (Some p). constructor.
  - destruct p' as [p'|].
    + rewrite outputs_app. destruct (IH w2 p' Hok2 Hs2 Hp2) as [[q Hl]|(oa & ob & sa & -> & Ha & Hb & Hn & q & Hl)].
      * left. exists q. by eapply life_step.
      * right. exists (o1 ++ oa), ob, sa. rewrite app_assoc, outputs_app. split; [done|]. split; [by eapply ticks_step|].
        split; [done|]. split; [done|]. exists q. by eapply life_step.
    + right. apply Hgone; [done|]. exists None. by eapply life_end.
Qed.

(** The processes of a session. *)
Definition process_of s j : process := Process (now s j) (task_cell (kern (mach s)) j).

Definition world_of s : world := λ j, if decide (pml4 (tasks (kern (mach s)) j) = NULL) then None else Some (process_of s j).

Lemma sim_world_of s : sim (world_of s) s.
Proof. intros j Hj. unfold abstracts, world_of. destruct (decide _); done. Qed.
End session.
