(* ===== verification/UserTheorems.v ===== *)
(** The theorems about user programs: the kernel implements processes, and what
    the programs of user/ print and how they end. *)

From Stdlib Require Import String Ascii.
From ITree Require Import ITree ITreeFacts.
From S2P Require Import Prelude Memory Queue Mmu Console Terminal Map AllocProofs Walk MapWf.
From S2P Require Import LookupProofs InsertProofs KmapProofs Gdt Context Task SchedProofs.
From S2P Require Import DestroyProofs TaskProofs Syscall ForkProofs Monitor Interrupt.
From S2P Require Import FaultProofs.
From S2P Require Import IsolationProofs TrapProofs LoadProofs MonitorProofs SystemProofs User.
From S2P Require Import Process.
From S2P Require Import ProgramProofs Session Demo ProcTheorems SystemTheorems.
Import Mmu Map Task Interrupt Syscall User.



(** ** The programs *)

Section programs.
Context (lit : string → Z) (p : process).

(** The literal is where the linker has put it. *)
Definition has (s : string) : Prop := user_string (p_mem p) (lit s) (codes s).

Lemma user_addr mem va s : user_string mem va s → 0 ≤ va < 2 ^ 64.
Proof. destruct s; intros [H _]; unfold in_user, USER_TOP in H; lia. Qed.

(** Exit.c and hello.c.  The first prints its first line, exits with 7 and
    never prints the second; the second prints its line and exits with 0. *)
Theorem exit_hello_programs :
  (p_code p ≈ user_entry (exit_main lit) → has ("before exit" ++ nl) →
     prints (eq [Puts (codes ("before exit" ++ nl)); Exit 7]) p) ∧
  (p_code p ≈ user_entry (hello_main lit) → has ("Hello world" ++ nl) →
     prints (eq [Puts (codes ("Hello world" ++ nl)); Exit 0]) p).
Proof.
  split; intros H Hs; (eapply prints_then; [eapply prints_puts; [exact H|by eapply user_addr|exact Hs|]]); intros p' H' _.
  - exact (prints_exit p' 7 _ H').
  - exact (prints_ret p' 0 H').
Qed.


(** *** fork.c *)

Definition child_text (i : Z) : list Z := b2z <$> <[7%nat := z2b (48 + i)]> (text ("child: 0" ++ nl)).
Definition parent_text (i : Z) : list Z := b2z <$> <[8%nat := z2b (97 + i)]> (text ("parent: 0" ++ nl)).

(** The texts of the lines of descent, from turn [i] of [n] on: a child's, that
    of a failed fork, or the parent's two lines and the following turns. *)
Fixpoint fork_texts (n : nat) (i : Z) : list (list out) :=
  match n with
  | O => [[Exit 0]]
  | S n' => [Puts (child_text i); Exit 1] :: [Puts (codes ("can't fork" ++ nl)); Exit (u64 (-1))] ::
      ((λ l, Puts (parent_text i) :: Puts (parent_text i) :: l) <$> fork_texts n' (i + 1))
  end.

(** The memory of fork.c during its loop: the two arrays and the literal. *)
Record fork_mem (cb pb : Z) (mem : Z → option cell) : Prop := {
  fm_child : array mem cb (text ("child: 0" ++ nl) ++ [Byte.x00]);
  fm_parent : ∃ x, array mem pb (<[8%nat := x]> (text ("parent: 0" ++ nl)) ++ [Byte.x00]);
  fm_lit : user_string mem (lit ("can't fork" ++ nl)) (codes ("can't fork" ++ nl));
}.

(** Where the arrays and the literal are. *)
Definition fork_layout (cb pb : Z) : Prop :=
  let l := lit ("can't fork" ++ nl) in
  (cb + 10 ≤ pb ∨ pb + 11 ≤ cb) ∧ (cb + 10 ≤ l ∨ l + 12 ≤ cb) ∧ (pb + 11 ≤ l ∨ l + 12 ≤ pb).

Lemma digit_nonzero a i : 0 < a → 0 ≤ i → a + i < 256 → b2z (z2b (a + i)) ≠ 0.
Proof. intros. rewrite b2z_z2b, Z.mod_small; lia. Qed.

Lemma text_nonzero s : forallb (λ b, negb (b2z b =? 0)) (text s) = true → Forall (λ b, b2z b ≠ 0) (text s).
Proof.
  intros H. apply Forall_forall. intros b Hb. rewrite forallb_forall in H. specialize (H b (proj1 (list_elem_of_In _ _) Hb)).
  apply negb_true_iff, Z.eqb_neq in H. done.
Qed.

Lemma fork_turns cb pb n i q :
  fork_layout cb pb → 0 ≤ i → i + Z.of_nat n = 3 → fork_mem cb pb (p_mem q) →
  p_code q ≈ user_entry (User.after (loop_from 3 (fork_turn lit cb (cb + 7) pb (pb + 8)) i) (mret 0)) →
  prints (λ l, l ∈ fork_texts n i) q.
Proof.
  intros HL. revert i q. induction n as [|n IH]; intros i q Hi0 Hi [Hch (x & Hpa) Hlit] H.
  { rewrite after_over in H by lia. eapply prints_ext; [|exact (prints_ret q 0 H)].
    intros l. change (u64 0) with 0. cbn [fork_texts]. rewrite list_elem_of_singleton. naive_solver. }
  rewrite after_turn in H by lia. unfold fork_turn in H at 2. rewrite prog_assoc in H.
  set (round := λ L : list out → Prop, then_ (Puts (parent_text i)) (then_ (Puts (parent_text i)) L)).
  eapply prints_ext; [|eapply (prints_fork q (λ v, if v =? 0 then then_ (Puts (child_text i)) (eq [Exit 1]) else
    if v =? -1 then then_ (Puts (codes ("can't fork" ++ nl))) (eq [Exit (u64 (-1))]) else
    round (λ l, l ∈ fork_texts n (i + 1)))); [exact H|]].
  { intros l. cbn [fork_texts]. rewrite !elem_of_cons, list_elem_of_fmap. unfold round, then_. split.
    - intros (v & _ & Hl). destruct (v =? 0); [naive_solver|]. destruct (v =? -1); naive_solver.
    - intros [->|[->|(l' & -> & Hl')]]; [exists 0|exists (-1)|exists 1]; (split; [done|]); cbn; eauto. }
  intros v q' H' Hm. revert H'. cbn beta. destruct (v =? 0); [|destruct (v =? -1)]; intros H'.
  - rewrite prog_assoc in H'. destruct (Hch 7%nat _ eq_refl) as [Hu Hb]. rewrite <- Hm in Hb.
    eapply prints_store; [exact H'|exact Hu|exact Hb|]. intros q2 H2 Hm2. rewrite prog_assoc in H2.
    assert (user_string (p_mem q2) cb (child_text i)) as Hs.
    { apply array_string.
      - rewrite Hm2, Hm. rewrite <- insert_app_l by (vm_compute; lia). apply (array_in _ _ _ 7); [vm_compute; lia|exact Hch].
      - apply Forall_insert; [apply text_nonzero; reflexivity|]. apply digit_nonzero; lia. }
    eapply prints_puts; [exact H2|by eapply user_addr|exact Hs|]. intros q3 H3 _. rewrite prog_ret_l in H3.
    exact (prints_ret q3 1 H3).
  - rewrite prog_assoc in H'. eapply prints_puts; [exact H'|by eapply user_addr|by rewrite Hm|]. intros q2 H2 _.
    rewrite prog_ret_l in H2. exact (prints_ret q2 (-1) H2).
  - rewrite prog_assoc in H'. destruct HL as (HL1 & HL2 & HL3).
    destruct (lookup_lt_is_Some_2 (<[8%nat := x]> (text ("parent: 0" ++ nl)) ++ [Byte.x00]) 8) as [c Hc]; [vm_compute; lia|].
    destruct (Hpa 8%nat c Hc) as [Hu Hb]. rewrite <- Hm in Hb.
    eapply prints_store; [exact H'|exact Hu|exact Hb|]. intros q2 H2 Hm2. rewrite prog_assoc in H2.
    assert (fork_mem cb pb (p_mem q2)) as [Hch2 (y & Hpa2) Hlit2].
    { rewrite Hm2, Hm. constructor.
      - eapply array_same; [|exact Hch]. intros z Hz. change (length _) with 10%nat in Hz. rewrite fn_lookup_insert_ne; [done|lia].
      - exists (z2b (97 + i)). by apply (array_set _ pb _ 8 x).
      - eapply string_same; [|exact Hlit]. intros z Hz. change (length _) with 11%nat in Hz. rewrite fn_lookup_insert_ne; [done|lia]. }
    assert (user_string (p_mem q2) pb (parent_text i)) as Hs.
    { apply array_string.
      - rewrite Hm2, Hm. by apply (array_set _ pb _ 8 x).
      - apply Forall_insert; [apply text_nonzero; reflexivity|]. apply digit_nonzero; lia. }
    eapply prints_puts; [exact H2|by eapply user_addr|exact Hs|]. intros q3 H3 Hm3. rewrite prog_assoc in H3.
    eapply prints_yield; [exact H3|]. intros q4 H4 Hm4. rewrite prog_assoc in H4.
    assert (p_mem q4 = p_mem q2) as E4 by congruence.
    eapply prints_puts; [exact H4|by eapply user_addr|by rewrite E4|]. intros q5 H5 Hm5. rewrite prog_ret_l in H5.
    apply (IH (i + 1)); [lia|lia| |exact H5]. rewrite Hm5, E4. constructor; eauto.
Qed.

(** C20: fork.c.  Every line of descent of the process prints one of seven
    texts: the child of turn [i] the two equal lines the parent has printed in
    each earlier turn, then its own line, and exits with 1; a process whose
    fork fails likewise, with the message and -1; the parent, after three
    turns, exits with 0.  In particular a child never shows the letter its
    parent wrote after the fork, nor the parent the digit of a child. *)
Theorem fork_program cb pb :
  p_code p ≈ user_entry (fork_main lit cb pb) → has ("can't fork" ++ nl) →
  room (p_mem p) cb 10 → room (p_mem p) pb 11 → fork_layout cb pb →
  prints (λ l, l ∈ fork_texts 3 0) p.
Proof.
  intros H Hs Hcb Hpb HL. pose proof HL as (HL1 & HL2 & HL3). unfold fork_main in H.
  eapply prints_init; [exact H|exact Hcb|]. intros p1 H1 Ha1 Hm1. change (length _) with 9%nat in Hm1.
  eapply prints_init; [exact H1| |].
  { eapply room_out; [|exact Hpb]. intros x Hx. change (length _) with 10%nat in Hx. apply Hm1. lia. }
  intros p2 H2 Ha2 Hm2. change (length _) with 10%nat in Hm2. eapply (fork_turns cb pb 3 0); [done|lia|done| |exact H2]. constructor.
  - eapply array_same; [|exact Ha1]. intros x Hx. change (length _) with 10%nat in Hx. apply Hm2. lia.
  - exists (byte_of_ascii "0"). exact Ha2.
  - eapply string_same; [|exact Hs]. intros x Hx. change (length _) with 11%nat in Hx. rewrite Hm2, Hm1 by lia. done.
Qed.

(** *** spin.c and yield.c *)

Definition spin_line (pid : Z) : string :=
  if pid =? 0 then "I'am still alive (child)" ++ nl else "I'am still alive (parent)" ++ nl.

Definition spin_text (pid : Z) : list out := replicate 10 (Puts (codes (spin_line pid))) ++ [Exit 0].

Lemma spin_turns pid n i q :
  i + Z.of_nat n = 10 → user_string (p_mem q) (lit (spin_line pid)) (codes (spin_line pid)) →
  p_code q ≈ user_entry (User.after (loop_from 10 (spin_turn lit pid) i) (mret 0)) →
  prints (eq (replicate n (Puts (codes (spin_line pid))) ++ [Exit 0])) q.
Proof.
  revert i q. induction n as [|n IH]; intros i q Hi Hs H.
  { rewrite after_over in H by lia. exact (prints_ret q 0 H). }
  rewrite after_turn in H by lia.
  assert (p_code q ≈ user_entry (sys_puts (lit (spin_line pid)) ;; User.after (loop_from 10 (spin_turn lit pid) (i + 1)) (mret 0))) as H'.
  { rewrite H. apply user_entry_proper. unfold spin_turn at 2. unfold spin_line.
    destruct (pid =? 0); rewrite !prog_assoc; (apply prog_bind_proper; [|reflexivity]); intros _;
      by rewrite prog_assoc, pause_silent, !prog_ret_l. }
  apply prints_then. eapply prints_puts; [exact H'|by eapply user_addr|exact Hs|]. intros q' Hq Hm.
  apply (IH (i + 1)); [lia|by rewrite Hm|exact Hq].
Qed.

Definition yield_text : list out :=
  concat (replicate 10 [Puts (codes ("before yield" ++ nl)); Puts (codes ("after yield" ++ nl))]) ++ [Exit 0].

Definition yield_cant : list out := [Puts (codes ("can't fork" ++ nl)); Exit (u64 (-1))].

Lemma yield_turns n i q :
  i + Z.of_nat n = 10 → user_string (p_mem q) (lit ("before yield" ++ nl)) (codes ("before yield" ++ nl)) →
  user_string (p_mem q) (lit ("after yield" ++ nl)) (codes ("after yield" ++ nl)) →
  p_code q ≈ user_entry (User.after (loop_from 10 (yield_turn lit) i) (mret 0)) →
  prints (eq (concat (replicate n [Puts (codes ("before yield" ++ nl)); Puts (codes ("after yield" ++ nl))]) ++ [Exit 0])) q.
Proof.
  revert i q. induction n as [|n IH]; intros i q Hi Hs1 Hs2 H.
  { rewrite after_over in H by lia. exact (prints_ret q 0 H). }
  rewrite after_turn in H by lia. unfold yield_turn in H at 2. rewrite prog_assoc in H.
  apply prints_then. eapply prints_puts; [exact H|by eapply user_addr|exact Hs1|]. intros q1 H1 Hm1. rewrite prog_assoc in H1.
  eapply prints_yield; [exact H1|]. intros q2 H2 Hm2. rewrite prog_assoc in H2.
  apply prints_then. assert (p_mem q2 = p_mem q) as E by congruence.
  eapply prints_puts; [exact H2|by eapply user_addr|by rewrite E|]. intros q3 H3 Hm3.
  rewrite prog_assoc, yield_pause_silent, !prog_ret_l in H3.
  apply (IH (i + 1)); [lia|by rewrite Hm3, E|by rewrite Hm3, E|exact H3].
Qed.

Lemma yield_forks n i q :
  i + Z.of_nat n = 2 → user_string (p_mem q) (lit ("before yield" ++ nl)) (codes ("before yield" ++ nl)) →
  user_string (p_mem q) (lit ("after yield" ++ nl)) (codes ("after yield" ++ nl)) →
  user_string (p_mem q) (lit ("can't fork" ++ nl)) (codes ("can't fork" ++ nl)) →
  p_code q ≈ user_entry (User.after (loop_from 2 (yield_fork lit) i) (User.after (for_loop 10 (yield_turn lit)) (mret 0))) →
  prints (λ l, l = yield_text ∨ (0 < n)%nat ∧ l = yield_cant) q.
Proof.
  revert i q. induction n as [|n IH]; intros i q Hi Hs1 Hs2 Hs3 H.
  { rewrite after_over in H by lia. rewrite for_loop_from in H.
    eapply prints_ext; [|exact (yield_turns 10 0 q ltac:(done) Hs1 Hs2 H)]. intros l. unfold yield_text. split; [by left|].
    intros [->|[? _]]; [done|lia]. }
  rewrite after_turn in H by lia. unfold yield_fork in H at 2. rewrite prog_assoc in H.
  eapply prints_ext; [|eapply (prints_fork q (λ v, if v <? 0 then eq yield_cant else if v =? 0 then eq yield_text else
    λ l, l = yield_text ∨ (0 < n)%nat ∧ l = yield_cant)); [exact H|]].
  { intros l. split.
    - intros (v & _ & Hl). destruct (v <? 0); [subst l; right; split; [lia|done]|].
      destruct (v =? 0); [by left|]. destruct Hl as [->|[_ ->]]; [by left|right; split; [lia|done]].
    - intros [->|[_ ->]]; [exists 0|exists (-1)]; by split. }
  intros v q' H' Hm. revert H'. cbn beta. destruct (v <? 0); [|destruct (v =? 0)]; intros H'.
  - rewrite prog_assoc in H'. apply prints_then. eapply prints_puts; [exact H'|by eapply user_addr|by rewrite Hm|].
    intros q2 H2 _. rewrite prog_ret_l in H2. exact (prints_ret q2 (-1) H2).
  - rewrite prog_ret_l, for_loop_from in H'. by apply (yield_turns 10 0); [done|rewrite Hm..|].
  - rewrite prog_ret_l in H'. by apply (IH (i + 1)); [lia|rewrite Hm..|].
Qed.

End programs.

(** ** Instances *)

(** The demo machine with a program for its task 0. *)
Definition demo_session (s : mstate Term.terminal) : session :=
  Session (demo_machine s) (λ _, Runs (user_entry (mret 5))).

Lemma demo_tick s g :
  inserted 1 demo_mm demo_ghost s g 2 0x400000 6 0x6007 → kwf 1 (set_mm s demo_kernel) g (zseq 1 4) →
  ∃ s', ticks (demo_session s) [] s'.
Proof.
  intros I Hk. destruct (demo_timer_runs s g I Hk) as (t & m' & Ht).
  eexists. eapply (ticks_step (demo_session s) [] _ []); [|constructor].
  eapply (tick_other (demo_session s) 0 demo_timer 0 0 t m'); [reflexivity| |lia|exact Ht].
  rewrite !elem_of_cons. by right; left.
Qed.



(** A memory with the text at 0x1020, after the arrays of fork.c. *)
Definition demo_lit (_ : string) : Z := 0x1020.

Definition demo_umem (s : string) (va : Z) : option cell :=
  if (0x1000 <=? va) && (va <? 0x1100) then
    Some (default Byte.x00 (text s !! Z.to_nat (va - 0x1020)), true, true)
  else None.

(** A check of an array by evaluation. *)
Lemma array_check mem va l :
  forallb (λ n, (0 <=? va + Z.of_nat n) && (va + Z.of_nat n <? USER_TOP) &&
    bool_decide (mem (va + Z.of_nat n) = (λ b, (b, true, true)) <$> l !! n)) (seq 0 (length l)) = true → array mem va l.
Proof.
  intros H n b Hb. rewrite forallb_forall in H. pose proof (lookup_lt_Some _ _ _ Hb) as Hn.
  assert (In n (seq 0 (length l))) as Hin by (apply in_seq; lia). specialize (H n Hin). apply andb_prop in H as [H H2%bool_decide_eq_true].
  apply andb_prop in H as [H0%Z.leb_le H1%Z.ltb_lt]. rewrite Hb in H2. by split; [split|].
Qed.

Lemma demo_room s va n : 0x1000 ≤ va → 0 ≤ n → va + n ≤ 0x1100 → room (demo_umem s) va n.
Proof.
  intros H1 H2 H3 x Hx. split; [unfold in_user, USER_TOP; lia|]. unfold demo_umem.
  rewrite (proj2 (Z.leb_le _ _)), (proj2 (Z.ltb_lt _ _)) by lia. cbn [andb]. by eexists.
Qed.

Lemma demo_has s code :
  forallb (λ n, (0 <=? 0x1020 + Z.of_nat n) && (0x1020 + Z.of_nat n <? USER_TOP) &&
    bool_decide (demo_umem s (0x1020 + Z.of_nat n) = (λ b, (b, true, true)) <$> (text s ++ [Byte.x00]) !! n))
    (seq 0 (length (text s ++ [Byte.x00]))) = true →
  forallb (λ b, negb (b2z b =? 0)) (text s) = true → codes s = b2z <$> text s →
  has demo_lit (Process code (demo_umem s)) s.
Proof. intros H1 H2 H3. unfold has. rewrite H3. apply array_string; [by apply array_check|by apply text_nonzero]. Qed.

Lemma exit_hello_programs_witness :
  prints (eq [Puts (codes ("before exit" ++ nl)); Exit 7])
    (Process (user_entry (exit_main demo_lit)) (demo_umem ("before exit" ++ nl))).
Proof.
  apply (proj1 (exit_hello_programs demo_lit (Process (user_entry (exit_main demo_lit)) (demo_umem ("before exit" ++ nl))))).
  - reflexivity.
  - apply demo_has; vm_compute; reflexivity.
Defined.


Lemma fork_program_witness :
  prints (λ l, l ∈ fork_texts 3 0)
    (Process (user_entry (fork_main demo_lit 0x1000 0x1010)) (demo_umem ("can't fork" ++ nl))).
Proof.
  apply (fork_program demo_lit (Process (user_entry (fork_main demo_lit 0x1000 0x1010)) (demo_umem ("can't fork" ++ nl))) 0x1000 0x1010).
  - reflexivity.
  - apply demo_has; vm_compute; reflexivity.
  - apply demo_room; lia.
  - apply demo_room; lia.
  - unfold fork_layout, demo_lit. lia.
Defined.
